(* ===== verification/_CoqProject ===== *)
-Q . S2P
Prelude.v
DList.v
ListSim.v
Kernel.v
KInv.v
Sched.v
WaitQueue.v
Footprint.v
Thread.v
LifeMachine.v
Life.v
LifeSafe.v
Mutex.v
Semaphore.v
Event.v
Interleave.v
Machine.v
SemMachine.v
EventMachine.v
Compose.v
System.v
Efi.v
Host.v
Timer.v
Context.v
Switch.v
Time.v
Errors.v
Lkl.v
Path.v
DemoFs.v
FsId.v
File.v
FileIO.v
FileInfo.v
Session.v
Dm.v
Volume.v
KeyPath.v
Driver.v
DriverLife.v
Controllers.v
Loading.v
Debug.v
