(* ===== verification/Prelude.v ===== *)
(** * Verification of the EFIDroid LKL file-system driver

The program ([src/]) is a UEFI driver that runs the Linux kernel library (LKL)
    as a file-system back end for 32-bit ARM firmware.  It consists of a small
    thread kernel, the host operations that LKL needs, built on it, and the
    EFI file protocol on top of LKL's system calls.

** Parts of the program and of the development

    The thread kernel: a port of the Little Kernel scheduler to coroutines on
    one CPU ([src/lk/], [src/Include/lk/], [src/Arm/]).
    - [DList]: the circular lists of [list.h], pointer by pointer.  [ListSim]:
      any number of lists over one heap of nodes refine a family of sequences;
      the other files use sequences.
    - [Kernel]: threads, wait queues, mutexes, semaphores, events, the state of
      the kernel as one record ([kstate]) and the monad [M] of its functions:
      a call ends, fails, or switches to another thread and goes on when it is
      switched back to.  [KInv]: the invariant [kinv] of the scheduler's state
      and the moves of a thread between queues that keep it.
    - [Sched], [WaitQueue], [Thread]: the functions of [thread.c] (dispatching,
      yielding, preemption, priorities; blocking and waking; creation, exit,
      join, detach, boot).  [reschedules] says what a call that gives up the
      CPU does, and what it does when it gets it back.
    - [Mutex], [Semaphore], [Event]: [mutex.c], [semaphore.c], [event.c].
      [Footprint]: what one call changes for the objects it is not made on.
    - [Interleave]: all threads together.  A step relation whose steps are the
      kernel calls of any number of threads, under any interleaving of yields,
      clock interrupts, changes of priority and the calls of a [Protocol].
      [Machine], [SemMachine] and [EventMachine] are the protocols of a mutex,
      a semaphore and an event; [Compose] puts protocols side by side, and
      [System] is the kernel with any number of all three.
    - [LifeMachine]: a machine of its own for the life of threads, in which
      threads come and go: creation, resumption, detachment, join and exit
      under any interleaving of their critical sections.  Its invariant, and the
      steps that leave it alone.
      [Life]: how the end, the reaping, the blocking and the creation of a
      thread keep it.  [LifeSafe]: every step keeps it, and what follows.
    - [Context]: [makecontext], the registers and stack of a new thread.
      [Switch]: the assembly of [src/Arm/] on a machine with the instructions
      it uses: saving, restoring and swapping contexts.
    - [Debug]: the memory dumps of [lk/debug.c], as the characters they print.

    The host operations ([src/UefiHost.c]).
    - [Host]: LKL's semaphores, mutexes and threads, the clock interrupt, the
      start of the scheduler, the block device over Disk I/O.
    - [Timer]: LKL's timers, each a firmware event, a kernel event and a thread.

    The file-system driver.
    - [Efi], [Time], [Errors]: status codes; conversion of times and of error
      numbers ([Misc.c]).
    - [Lkl]: the system calls of LKL as a type class, and the monad [FM] of the
      driver's functions over the world behind them and the pool allocator.
    - [Path]: strings and [RealPath] ([Misc.c]).
    - [File], [FileIO], [FileInfo]: the file protocol ([Open.c],
      [OpenVolume.c], [Flush.c]; [ReadWrite.c]; [Info.c]).  [Session]: the table
      of operations ([Data.c]), and a client with any number of open files.
    - [FsId]: recognising file systems ([filesystems/]).
    - [Dm]: the control buffers of the device mapper, byte by byte
      ([dmcrypt.c], [dm-ioctl.h]).
    - [Volume], [KeyPath]: setting up and abandoning a volume ([Init.c]), with
      the search of the key file and the lock of [Misc.c].
    - [Driver]: entry point, unloading and driver binding ([LKL.c]), the
      collation protocol ([UnicodeCollation.c]).  [DriverLife]: the names of
      the driver and its controllers ([ComponentName.c]), and how starting,
      stopping and unloading compose.  [Controllers]: the firmware starting and
      stopping any number of controllers.  [Loading]: the entry point and the
      unloading together.
    - [DemoFs]: an in-memory Linux, at which the classes are instantiated.

** Interfaces

    What is not in [src/] is a parameter: a type class with the operations, and
    as laws the documented behaviour the code relies on.
    - [LklSys] (system calls on files), [LklBlk] (disks, mounts, device nodes,
      [ioctl]), [LklMounts] (which calls change the mounts and the disks).
    - [EdkStrings], [EdkLock] (libraries of EDK2), [Firmware] (partition names,
      device paths, file protocols of other drivers), [BootServices] with
      [DriverLaws], [ManagedLaws], [UnloadLaws], [LoadLaws]; [NameServices]; [EventServices]
      (what the firmware's event services answer; that they are called, and
      with what, is recorded in [fw_log] of the state);
      [FdLaws] (which system calls make and end descriptors and streams).
    - [Protocol] with [ProtocolLaws]: what the calls of a component promise, so
      that they keep its invariant under every interleaving; [sum_laws] and
      [family_laws] compose them.
    - [Config] and [EdkConfig]: the debug level and the assertion switches;
      theorems hold for all of them.
    Every class has an instance ([DemoFs], [Dm], [Volume], [Driver], [Timer],
    [Session], [DriverLife], [Loading]), and every
    theorem with hypotheses is applied to a concrete input in a [_witness].

** What the theorems show

    - Scheduling: the scheduler's invariant is kept by every operation, at
      every switch ([kinv]); the thread chosen is the head of the highest queue
      that is not empty; yielding is round robin; the kernel's boot makes a
      state with the invariant ([lkl_thread_init_boots]).
    - Synchronisation: hand-over of mutexes to the longest waiter, counting of
      semaphores, latching of events, no lost signal of timers.  Under every
      interleaving: mutual exclusion ([mutex_mutual_exclusion]), conservation of
      a semaphore's units ([sem_units_conserved]), refinement of a latch by an
      event ([event_signals_kept]), and all of it for any number of objects
      used together ([system_safe]).
    - Contexts: a context that was switched away from is resumed as it was
      ([swapcontext_comes_back]); a prepared context starts its function
      ([context_starts]).
    - Lists: programs over the pointer lists get the answers of sequences
      ([lists_refine]).
    - Threads: creation with its allocation failures, exit, join.  Under every
      interleaving ([life_safe]): a join returns the code its thread exited
      with, once; a dead thread never runs; a joiner is woken when its thread
      exits or is detached; no block is used after it was freed, and the blocks
      allocated are those of the threads created and not joined.  This needs a
      rule of use, which the code does not enforce: without it the detachment
      of a dead thread can meet a freed one ([detach_race]).
    - Paths: [RealPath] follows the components and symbolic links of a path as
      POSIX does, but for not looking whether they are directories
      ([RealPath_spec], [RealPath_through_file]); opened files lie below the mount point
      ([LKLOpen_contained]).
    - Files: opening, creating, reading, writing, listing directories without
      loss ([list_dir_complete]), times and attributes.  Over any sequence of
      calls on any number of handles no descriptor and no block is leaked, and
      how many directory streams are ([session_accounts]).
    - Calendar: the conversion gives the Gregorian date, and is inverted by the
      conversion back, in 32-bit arithmetic.
    - Volumes: what a failed set-up leaves behind, on every error path, a failing
      unmount among them ([LKLAllocateVolume_spec]); what the driver opens it closes
      ([start_name_stop_spec]); over any history of any number of controllers,
      which protocols are open and what stays mounted ([controllers_accounted]);
      what loading and unloading leave behind ([load_unload_spec]).
    - Encryption: the buffers parse back to the table that was meant
      ([dm_table_roundtrip]); the sequence of calls refines its specification;
      where the key overflows its buffer.
    - Memory dumps: what is printed can be read back ([hexdump8_roundtrip]).
    - Several theorems state how the code departs from its comments or from
      what it means to do; they say so.

** Bounds and fuel

    The machine has 32-bit [int], [long] and pointers; values of C types are
    [Z] with the wrap-around of the type written out.  Loops that are not
    structural take fuel: [wake_all_loop] and the lists the length of the queue
    plus one; [get_top_thread] one round per priority; [realpath_loop] the
    length of the path and of 41 links, which [RealPath_spec] shows to be
    enough; [do_rw_loop] the number of elements plus one.  [sem_down], which may
    loop as long as the other threads make it fail, is described for any number
    of rounds ([sem_down_spec]);
    the loop of a timer's thread, which is meant to run for ever, is described
    round by round and shown to end in the round after [timer_free].

** Not modelled, and why

    - The link between the machine code of [Switch] and the resumption points
      of [M]: the code a compiler makes of the C functions in between.
    - [dump_thread], [dump_all_threads], the statistics of [thread.c], [print]:
      console output without effect on the state.
    - The tables of [UefiHost.c], protocol and type declarations of [LKL.h]:
      data for other code.
    - Variants the build leaves out: several CPUs, virtual memory, user threads,
      thread-local storage.
    - The addresses of file handles: operations pass a handle as a value and
      return it as they leave it, and no operation keeps a second pointer to it;
      [Session] keeps the handles of a client in a table.
*)

From stdpp Require Export base tactics numbers list option fin_maps gmap.
From Stdlib Require Export ZArith Lia.
#[global] Open Scope Z_scope.

(** ** Machine integers

    The driver is built for 32-bit ARM: [int], [UINTN], [unsigned long] and
    pointers are 32 bits wide.  A value of a w-bit C type is a [Z]; the
    conversions below are the wrap-around of that type. *)

Definition u8 (z : Z) : Z := z `mod` 2 ^ 8.
Definition u16 (z : Z) : Z := z `mod` 2 ^ 16.
Definition u32 (z : Z) : Z := z `mod` 2 ^ 32.
Definition u64 (z : Z) : Z := z `mod` 2 ^ 64.
Definition s32 (z : Z) : Z := (z + 2 ^ 31) `mod` 2 ^ 32 - 2 ^ 31.
Definition s64 (z : Z) : Z := (z + 2 ^ 63) `mod` 2 ^ 64 - 2 ^ 63.

Definition INT_MIN : Z := - 2 ^ 31.
Definition INT_MAX : Z := 2 ^ 31 - 1.
Definition UINT32_MAX : Z := 2 ^ 32 - 1.

Lemma u32_range z : 0 <= u32 z < 2 ^ 32.
Proof. unfold u32. apply Z.mod_pos_bound. lia. Qed.

Lemma u64_range z : 0 <= u64 z < 2 ^ 64.
Proof. unfold u64. apply Z.mod_pos_bound. lia. Qed.

Lemma u32_small z : 0 <= z < 2 ^ 32 -> u32 z = z.
Proof. apply Z.mod_small. Qed.

Lemma u64_small z : 0 <= z < 2 ^ 64 -> u64 z = z.
Proof. apply Z.mod_small. Qed.

Lemma s32_range z : INT_MIN <= s32 z <= INT_MAX.
Proof.
  unfold s32, INT_MIN, INT_MAX.
  pose proof (Z.mod_pos_bound (z + 2 ^ 31) (2 ^ 32) ltac:(lia)). lia.
Qed.

Lemma s32_small z : INT_MIN <= z <= INT_MAX -> s32 z = z.
Proof.
  unfold s32, INT_MIN, INT_MAX. intros H.
  rewrite Z.mod_small; lia.
Qed.

Lemma s64_small z : - 2 ^ 63 <= z < 2 ^ 63 -> s64 z = z.
Proof. intros Hz. unfold s64. rewrite Z.mod_small by lia. lia. Qed.

Lemma s64_high z : 2 ^ 63 <= z < 2 ^ 64 -> s64 z = z - 2 ^ 64.
Proof.
  intros Hz. unfold s64. replace (z + 2 ^ 63) with ((z - 2 ^ 63) + 1 * 2 ^ 64) by lia.
  rewrite Z_mod_plus_full, Z.mod_small; lia.
Qed.

(** ** Hint databases and tactics

    [machine] rewrites conversions of values that are in range; [kern] (used
    from [Kernel] on) holds the projections of updated records. *)

Create Rewrite HintDb machine.
#[export] Hint Rewrite u32_small u64_small s32_small s64_small using lia : machine.

(** Case analysis on the match or conditional at the head of the goal or of a
    hypothesis, remembering the equation, and closing absurd branches. *)
Ltac case_on x := destruct x eqn:?; simplify_eq/=; try done.

Ltac split_match :=
  match goal with
  | |- context [match ?x with _ => _ end] => case_on x
  | H : context [match ?x with _ => _ end] |- _ => case_on x
  end.

(** Decide every boolean integer comparison in sight. *)
Ltac bool_cases :=
  repeat match goal with
  | |- context [Z.eqb ?a ?b] => destruct (Z.eqb_spec a b)
  | |- context [Z.ltb ?a ?b] => destruct (Z.ltb_spec a b)
  | |- context [Z.leb ?a ?b] => destruct (Z.leb_spec a b)
  | H : context [Z.eqb ?a ?b] |- _ => destruct (Z.eqb_spec a b)
  | H : context [Z.ltb ?a ?b] |- _ => destruct (Z.ltb_spec a b)
  | H : context [Z.leb ?a ?b] |- _ => destruct (Z.leb_spec a b)
  end.

(** ** Lists *)

(** Remove the first occurrence of [x]: what unlinking a node does to the
    sequence of nodes of a circular list. *)
Fixpoint list_remove1 {A} `{EqDecision A} (x : A) (l : list A) : list A :=
  match l with
  | [] => []
  | y :: l' => if decide (x = y) then l' else y :: list_remove1 x l'
  end.

Section list_remove1.
Context {A : Type} `{EqDecision A}.
Implicit Types (x y : A) (l : list A).

Lemma list_remove1_notin x l : x ∉ l -> list_remove1 x l = l.
Proof.
  induction l as [|y l IH]; simpl; [done|].
  intros Hn. apply not_elem_of_cons in Hn as [Hne Hn].
  rewrite decide_False by done. by rewrite IH.
Qed.

Lemma list_remove1_app x l1 l2 :
  x ∉ l1 -> list_remove1 x (l1 ++ x :: l2) = l1 ++ l2.
Proof.
  induction l1 as [|y l1 IH]; simpl; intros Hn.
  - by rewrite decide_True.
  - apply not_elem_of_cons in Hn as [Hne Hn].
    rewrite decide_False by done. by rewrite IH.
Qed.

Lemma elem_of_list_remove1 x y l :
  NoDup l -> y ∈ list_remove1 x l <-> y ∈ l /\ y ≠ x.
Proof.
  induction 1 as [|z l Hz Hnd IH]; simpl; [set_solver|].
  case_decide; subst; set_solver.
Qed.

Lemma NoDup_list_remove1 x l : NoDup l -> NoDup (list_remove1 x l).
Proof.
  induction 1 as [|z l Hz Hnd IH]; simpl; [constructor|].
  case_decide; [done|]. constructor; [|done].
  rewrite elem_of_list_remove1 by done. naive_solver.
Qed.

Lemma length_list_remove1 x l :
  x ∈ l -> S (length (list_remove1 x l)) = length l.
Proof.
  induction l as [|y l IH]; simpl; [set_solver|].
  intros Hin. case_decide; [done|]. simpl. rewrite IH; [done|]. set_solver.
Qed.

Lemma list_remove1_head x l : list_remove1 x (x :: l) = l.
Proof. simpl. by rewrite decide_True. Qed.
End list_remove1.

Lemma forallb_in {A} (f : A -> bool) l x : forallb f l = true -> x ∈ l -> f x = true.
Proof. intros Hf Hx. apply forallb_forall with (x := x) in Hf; [done|]. by apply list_elem_of_In. Qed.
