(* ===== verification/DList.v ===== *)
(** * Intrusive doubly-linked lists ([Include/lk/list.h])

    The run queues, the wait queues and the thread list of the scheduler are
    circular doubly-linked lists threaded through the objects they hold.  This
    file models the pointer operations of [list.h] on an explicit heap of
    [struct list_node], and proves that each of them implements the operation
    on mathematical sequences that the scheduler model ([Kernel], [Sched])
    works with: adding at the head or the tail, unlinking a node, popping the
    head or the tail, the emptiness test, the length and the iteration order.
    A dereference of [NULL] or of an address that holds no node is a fault
    ([None]); the theorems show that no fault happens on well-formed lists. *)

From S2P Require Import Prelude.

Abbreviation ptr := positive (only parsing).

(** [struct list_node]; a C pointer is an [option ptr], [None] being NULL. *)
Record list_node := mk_list_node { prev : option ptr; next : option ptr }.

#[export] Instance list_node_eq_dec : EqDecision list_node.
Proof. solve_decision. Defined.

Abbreviation nheap := (gmap positive list_node).

(** ** The operations, as fallible state transformers *)

Definition DM (A : Type) : Type := nheap -> option (A * nheap).

#[export] Instance DM_ret : MRet DM := fun A a h => Some (a, h).
#[export] Instance DM_bind : MBind DM := fun A B f m h =>
  match m h with Some (a, h') => f a h' | None => None end.

(** A fault: the access is undefined behaviour in C. *)
Definition fault {A} : DM A := fun _ => None.

Definition store (a : ptr) (n : list_node) : DM unit :=
  fun h => Some (tt, <[a := n]> h).

Definition deref (p : option ptr) : DM (ptr * list_node) := fun h =>
  match p with
  | Some a => match h !! a with Some n => Some ((a, n), h) | None => None end
  | None => None
  end.

Definition get_next (p : option ptr) : DM (option ptr) :=
  '(_, n) ← deref p; mret (next n).
Definition get_prev (p : option ptr) : DM (option ptr) :=
  '(_, n) ← deref p; mret (prev n).
Definition set_next (p v : option ptr) : DM unit :=
  '(a, n) ← deref p; store a (mk_list_node (prev n) v).
Definition set_prev (p v : option ptr) : DM unit :=
  '(a, n) ← deref p; store a (mk_list_node v (next n)).

Definition list_initialize (list : ptr) : DM unit :=
  set_next (Some list) (Some list);; set_prev (Some list) (Some list).

Definition list_clear_node (item : ptr) : DM unit :=
  set_next (Some item) None;; set_prev (Some item) None.

Definition list_in_list (item : ptr) : DM bool :=
  p ← get_prev (Some item); n ← get_next (Some item);
  mret (match p, n with None, None => false | _, _ => true end).

Definition list_add_head (list item : ptr) : DM unit :=
  ln ← get_next (Some list);
  set_next (Some item) ln;;
  set_prev (Some item) (Some list);;
  ln' ← get_next (Some list);
  set_prev ln' (Some item);;
  set_next (Some list) (Some item).

Definition list_add_tail (list item : ptr) : DM unit :=
  lp ← get_prev (Some list);
  set_prev (Some item) lp;;
  set_next (Some item) (Some list);;
  lp' ← get_prev (Some list);
  set_next lp' (Some item);;
  set_prev (Some list) (Some item).

Definition list_delete (item : ptr) : DM unit :=
  n ← get_next (Some item); p ← get_prev (Some item);
  set_prev n p;;
  p' ← get_prev (Some item); n' ← get_next (Some item);
  set_next p' n';;
  set_next (Some item) None;;
  set_prev (Some item) None.

Definition list_remove_head (list : ptr) : DM (option ptr) :=
  n ← get_next (Some list);
  if decide (n = Some list) then mret None
  else
    match n with
    | Some item => list_delete item;; mret (Some item)
    | None => fault
    end.

Definition list_remove_tail (list : ptr) : DM (option ptr) :=
  p ← get_prev (Some list);
  if decide (p = Some list) then mret None
  else
    match p with
    | Some item => list_delete item;; mret (Some item)
    | None => fault
    end.

Definition list_peek_head (list : ptr) : DM (option ptr) :=
  n ← get_next (Some list);
  mret (if decide (n = Some list) then None else n).

Definition list_peek_tail (list : ptr) : DM (option ptr) :=
  p ← get_prev (Some list);
  mret (if decide (p = Some list) then None else p).

Definition list_prev (list item : ptr) : DM (option ptr) :=
  p ← get_prev (Some item);
  mret (if decide (p = Some list) then None else p).

Definition list_prev_wrap (list item : ptr) : DM (option ptr) :=
  p ← get_prev (Some item);
  if decide (p = Some list) then
    pp ← get_prev p; mret (if decide (pp = Some list) then None else pp)
  else mret p.

Definition list_next (list item : ptr) : DM (option ptr) :=
  n ← get_next (Some item);
  mret (if decide (n = Some list) then None else n).

Definition list_next_wrap (list item : ptr) : DM (option ptr) :=
  n ← get_next (Some item);
  if decide (n = Some list) then
    nn ← get_next n; mret (if decide (nn = Some list) then None else nn)
  else mret n.

Definition list_is_empty (list : ptr) : DM bool :=
  n ← get_next (Some list); mret (bool_decide (n = Some list)).

(** [list_for_every]: the nodes met from [node] on, until [node == list].  The
    loop is cut off after [fuel] iterations ([None]). *)
Fixpoint list_for_every (fuel : nat) (head : ptr) (node : option ptr)
    : DM (list ptr) :=
  match fuel with
  | O => fault
  | S fuel' =>
      if decide (node = Some head) then mret []
      else
        '(a, n) ← deref node;
        rest ← list_for_every fuel' head (next n);
        mret (a :: rest)
  end.

(** [cnt] is a [size_t]. *)
Definition list_length (fuel : nat) (list : ptr) : DM Z :=
  n ← get_next (Some list);
  nodes ← list_for_every fuel list n;
  mret (foldl (fun cnt _ => u32 (cnt + 1)) 0 nodes).

(** ** Well-formed circular lists *)

(** The two fields of a node, [None] also when the node is not allocated. *)
Definition fn (h : nheap) (a : ptr) : option ptr := h !! a ≫= next.
Definition fp (h : nheap) (a : ptr) : option ptr := h !! a ≫= prev.

(** [links h a xs b]: following [next] from [a] meets the nodes [xs] and then
    [b], and every [prev] field on the way points back. *)
Fixpoint links (h : nheap) (a : ptr) (xs : list ptr) (b : ptr) : Prop :=
  match xs with
  | [] => fn h a = Some b /\ fp h b = Some a
  | x :: xs' => fn h a = Some x /\ fp h x = Some a /\ links h x xs' b
  end.

(** [dl h head xs]: [head] is a well-formed list head whose members are the
    nodes [xs], in this order. *)
Definition dl (h : nheap) (head : ptr) (xs : list ptr) : Prop :=
  NoDup (head :: xs) /\ links h head xs head.

Definition seg_last (a : ptr) (l : list ptr) : ptr := foldl (fun _ x => x) a l.
Definition seg_head (l : list ptr) (b : ptr) : ptr :=
  match l with [] => b | x :: _ => x end.

(** [h'] is [h] with [item] put between the adjacent nodes [p] and [n]. *)
Definition spliced (h h' : nheap) (p item n : ptr) : Prop :=
  (forall c, fn h' c = if decide (c = p) then Some item
                  else if decide (c = item) then Some n else fn h c) /\
  (forall c, fp h' c = if decide (c = n) then Some item
                  else if decide (c = item) then Some p else fp h c) /\
  (forall c, c ≠ p -> c ≠ item -> c ≠ n -> h' !! c = h !! c).

(** [h'] is [h] with [item] taken out from between [p] and [n]. *)
Definition unlinked (h h' : nheap) (p item n : ptr) : Prop :=
  (forall c, fn h' c = if decide (c = item) then None
                  else if decide (c = p) then Some n else fn h c) /\
  (forall c, fp h' c = if decide (c = item) then None
                  else if decide (c = n) then Some p else fp h c) /\
  (forall c, c ≠ p -> c ≠ item -> c ≠ n -> h' !! c = h !! c).

(** Case analysis on the address comparisons of a [spliced]/[unlinked] heap. *)
Ltac addr_cases :=
  repeat case_decide; simplify_eq; try done;
  solve [exfalso; repeat match goal with H : links _ _ _ _ |- _ => clear H end;
         set_solver].

Section links.
Implicit Types (h : nheap) (a b item x : ptr) (l xs : list ptr).

Lemma links_app h a l1 x l2 b :
  links h a (l1 ++ x :: l2) b <-> links h a l1 x /\ links h x l2 b.
Proof. revert a; induction l1 as [|y l1 IH]; intros a; simpl; [tauto|]. rewrite IH. tauto. Qed.

Lemma links_frame h h' a xs b :
  links h a xs b ->
  (forall c, c ∈ a :: xs -> fn h' c = fn h c) ->
  (forall c, c ∈ xs ++ [b] -> fp h' c = fp h c) ->
  links h' a xs b.
Proof.
  revert a; induction xs as [|x xs IH]; simpl; intros a.
  - intros [Hn Hp] Hfn Hfp. rewrite Hfn, Hfp by set_solver. done.
  - intros (Hn & Hp & Hl) Hfn Hfp.
    rewrite Hfn, Hfp by set_solver. split_and!; [done..|].
    apply IH; set_solver.
Qed.

Lemma links_fn h a l b : links h a l b -> fn h a = Some (seg_head l b).
Proof. destruct l; simpl; naive_solver. Qed.

Lemma links_fp h a l b : links h a l b -> fp h b = Some (seg_last a l).
Proof.
  revert a; induction l as [|x l IH]; intros a; simpl; [naive_solver|].
  intros (_ & _ & Hl). by apply IH.
Qed.

Lemma seg_last_elem a l : seg_last a l ∈ a :: l.
Proof.
  revert a; induction l as [|x l IH]; intros a; simpl; [set_solver|].
  specialize (IH x). set_solver.
Qed.

Lemma seg_last_snoc a l x : seg_last a (l ++ [x]) = x.
Proof. unfold seg_last. by rewrite foldl_app. Qed.

Lemma seg_head_elem l b : seg_head l b ∈ l ++ [b].
Proof. destruct l; set_solver. Qed.

Lemma links_alloc h a l b c : links h a l b -> c ∈ a :: l -> is_Some (fn h c).
Proof.
  revert a; induction l as [|x l IH]; intros a; simpl.
  - intros [Hn _] Hc. apply list_elem_of_singleton in Hc as ->. eauto.
  - intros (Hn & _ & Hl) Hc. apply elem_of_cons in Hc as [->|Hc]; eauto.
Qed.

Lemma NoDup_seg_head a l1 l2 b :
  NoDup (a :: l1 ++ l2) -> b ∉ l1 ++ l2 -> forall x, x ∈ l1 -> x ≠ seg_head l2 b.
Proof.
  intros Hnd Hb x Hx ->. pose proof (seg_head_elem l2 b) as Hh.
  apply NoDup_cons in Hnd as [_ Hnd]. apply NoDup_app in Hnd as (_ & Hd & _).
  apply elem_of_app in Hh as [Hh|Hh]; [by apply (Hd _ Hx)|].
  apply list_elem_of_singleton in Hh. apply Hb, elem_of_app. left. congruence.
Qed.

(** Inserting [item] anywhere in a segment. *)
Lemma links_insert h h' a l1 l2 b item :
  links h a (l1 ++ l2) b ->
  NoDup (a :: l1 ++ l2) -> b ∉ l1 ++ l2 ->
  item ∉ a :: l1 ++ l2 -> item ≠ b ->
  spliced h h' (seg_last a l1) item (seg_head l2 b) ->
  links h' a (l1 ++ item :: l2) b.
Proof.
  intros Hl Hnd Hb Hi Hib Hs. revert a Hl Hnd Hb Hi Hs.
  induction l1 as [|x l1 IH]; intros a Hl Hnd Hb Hi (Hfn & Hfp & Hfr); simpl in *.
  - rewrite (Hfn a), (Hfp item).
    split_and!; [addr_cases..|destruct l2; addr_cases|].
    destruct l2 as [|y l2]; simpl in *.
    + rewrite Hfn, Hfp. split; addr_cases.
    + destruct Hl as (Hn & Hp & Hl).
      apply NoDup_cons in Hnd as [Ha [Hy Hnd]%NoDup_cons].
      rewrite Hfn, Hfp. split_and!; [addr_cases..|].
      apply (links_frame h); [done|..]; intros c Hc;
        rewrite ?Hfn, ?Hfp; addr_cases.
  - destruct Hl as (Hn & Hp & Hl).
    pose proof (NoDup_seg_head a (x :: l1) l2 b Hnd Hb x ltac:(set_solver)).
    apply NoDup_cons in Hnd as [Ha Hnd].
    pose proof (seg_last_elem x l1) as Hlast.
    rewrite (Hfn a), (Hfp x).
    split_and!; [addr_cases..|]. apply IH; try done; set_solver.
Qed.

(** Unlinking [item] from anywhere in a segment. *)
Lemma links_unlink h h' a l1 l2 b item :
  links h a (l1 ++ item :: l2) b ->
  NoDup (a :: l1 ++ item :: l2) -> b ∉ l1 ++ item :: l2 -> item ≠ a ->
  unlinked h h' (seg_last a l1) item (seg_head l2 b) ->
  links h' a (l1 ++ l2) b.
Proof.
  intros Hl Hnd Hb Hia Hs. revert a Hl Hnd Hb Hia Hs.
  induction l1 as [|x l1 IH]; intros a Hl Hnd Hb Hia (Hfn & Hfp & Hfr); simpl in *.
  - destruct Hl as (Hn & Hp & Hl).
    apply NoDup_cons in Hnd as [Ha [Hi Hnd]%NoDup_cons].
    destruct l2 as [|y l2]; simpl in *.
    + rewrite Hfn, Hfp. split; addr_cases.
    + destruct Hl as (Hn' & Hp' & Hl). apply NoDup_cons in Hnd as [Hy Hnd].
      rewrite (Hfn a), (Hfp y). split_and!; [addr_cases..|].
      apply (links_frame h); [done|..]; intros c Hc;
        rewrite ?Hfn, ?Hfp; addr_cases.
  - destruct Hl as (Hn & Hp & Hl).
    assert (x ≠ seg_head l2 b).
    { apply (NoDup_seg_head a (x :: l1 ++ [item]) l2 b);
        rewrite <- ?app_comm_cons, <- ?app_assoc; simpl; set_solver. }
    apply NoDup_cons in Hnd as [Ha Hnd].
    pose proof (seg_last_elem x l1) as Hlast.
    assert (x ≠ item) by (apply NoDup_cons in Hnd as [? _]; set_solver).
    rewrite (Hfn a), (Hfp x).
    split_and!; [addr_cases..|]. apply IH; try done; set_solver.
Qed.
End links.

(** ** The operations refine sequence operations *)

(** Running the straight-line pointer code once the nodes are known. *)
Ltac run_list_op :=
  repeat (unfold mbind, DM_bind, mret, DM_ret, get_next, get_prev, set_next,
            set_prev, deref, store; simplify_map_eq).

Section ops.
Implicit Types (h : nheap) (a b head item x : ptr) (l xs : list ptr).

Lemma fn_Some h a b : fn h a = Some b -> exists p, h !! a = Some (mk_list_node p (Some b)).
Proof. unfold fn. destruct (h !! a) as [[p n]|]; simpl; naive_solver. Qed.

Lemma fp_Some h a b : fp h a = Some b -> exists n, h !! a = Some (mk_list_node (Some b) n).
Proof. unfold fp. destruct (h !! a) as [[p n]|]; simpl; naive_solver. Qed.

Lemma fn_fp_Some h a b c :
  fn h a = Some b -> fp h a = Some c -> h !! a = Some (mk_list_node (Some c) (Some b)).
Proof. unfold fn, fp. destruct (h !! a) as [[p n]|]; simpl; naive_solver. Qed.

Lemma links_fn_alloc h a xs b : links h a xs b -> h !! a = None -> False.
Proof. intros Hl Ha. pose proof (links_fn _ _ _ _ Hl) as Hn. unfold fn in Hn. by rewrite Ha in Hn. Qed.

Lemma get_next_fn h a b : fn h a = Some b -> get_next (Some a) h = Some (Some b, h).
Proof. intros [p Hp]%fn_Some. unfold get_next, deref, mbind, DM_bind. by rewrite Hp. Qed.

Lemma get_prev_fp h a b : fp h a = Some b -> get_prev (Some a) h = Some (Some b, h).
Proof. intros [n Hn]%fp_Some. unfold get_prev, deref, mbind, DM_bind. by rewrite Hn. Qed.

Lemma list_add_head_spliced h head item n nn :
  fn h head = Some n -> fp h n = Some head -> h !! item = Some nn ->
  item ≠ head -> item ≠ n ->
  exists h', list_add_head head item h = Some (tt, h') /\ spliced h h' head item n.
Proof.
  intros Hn Hp Hi Hih Hin. destruct (decide (n = head)) as [->|Hne].
  - pose proof (fn_fp_Some _ _ _ _ Hn Hp) as Hh.
    unfold list_add_head. run_list_op. eexists; split; [done|].
    unfold spliced, fn, fp. split_and!; intros c; rewrite ?lookup_insert;
      repeat case_decide; simplify_map_eq; try done.
  - apply fn_Some in Hn as [hp Hh]. apply fp_Some in Hp as [np Hnp].
    unfold list_add_head. run_list_op. eexists; split; [done|].
    unfold spliced, fn, fp. split_and!; intros c; rewrite ?lookup_insert;
      repeat case_decide; simplify_map_eq; try done.
Qed.

Lemma list_add_tail_spliced h head item p nn :
  fn h p = Some head -> fp h head = Some p -> h !! item = Some nn ->
  item ≠ head -> item ≠ p ->
  exists h', list_add_tail head item h = Some (tt, h') /\ spliced h h' p item head.
Proof.
  intros Hn Hp Hi Hih Hin. destruct (decide (p = head)) as [->|Hne].
  - pose proof (fn_fp_Some _ _ _ _ Hn Hp) as Hh.
    unfold list_add_tail. run_list_op. eexists; split; [done|].
    unfold spliced, fn, fp. split_and!; intros c; rewrite ?lookup_insert;
      repeat case_decide; simplify_map_eq; try done.
  - apply fn_Some in Hn as [hp Hh]. apply fp_Some in Hp as [np Hnp].
    unfold list_add_tail. run_list_op. eexists; split; [done|].
    unfold spliced, fn, fp. split_and!; intros c; rewrite ?lookup_insert;
      repeat case_decide; simplify_map_eq; try done.
Qed.

Lemma list_delete_unlinked h item p n :
  fn h item = Some n -> fp h item = Some p -> fn h p = Some item -> fp h n = Some item ->
  item ≠ p -> item ≠ n ->
  exists h', list_delete item h = Some (tt, h') /\ unlinked h h' p item n.
Proof.
  intros Hin Hip Hpn Hnp Hip' Hin'. pose proof (fn_fp_Some _ _ _ _ Hin Hip) as Hi.
  destruct (decide (n = p)) as [->|Hne].
  - pose proof (fn_fp_Some _ _ _ _ Hpn Hnp) as Hh.
    unfold list_delete. run_list_op. eexists; split; [done|].
    unfold unlinked, fn, fp. split_and!; intros c; rewrite ?lookup_insert;
      repeat case_decide; simplify_map_eq; try done.
  - apply fn_Some in Hpn as [hp Hh]. apply fp_Some in Hnp as [np Hn].
    unfold list_delete. run_list_op. eexists; split; [done|].
    unfold unlinked, fn, fp. split_and!; intros c; rewrite ?lookup_insert;
      repeat case_decide; simplify_map_eq; try done.
Qed.

(** Both neighbours of a member [item] of a list. *)
Lemma dl_neighbours h head l1 item l2 :
  dl h head (l1 ++ item :: l2) ->
  let p := seg_last head l1 in let n := seg_head l2 head in
  fn h item = Some n /\ fp h item = Some p /\ fn h p = Some item /\
  fp h n = Some item /\ item ≠ p /\ item ≠ n /\ item ≠ head.
Proof.
  intros [Hnd Hl]. apply links_app in Hl as [Hl1 Hl2].
  apply NoDup_cons in Hnd as [Hh Hnd]. apply NoDup_app in Hnd as (Hnd1 & Hd & Hnd2).
  apply NoDup_cons in Hnd2 as [Hi Hnd2].
  pose proof (seg_last_elem head l1). pose proof (seg_head_elem l2 head) as Hhd.
  assert (item ≠ head) by set_solver.
  split_and!.
  - by apply links_fn in Hl2.
  - by apply links_fp in Hl1.
  - destruct l1 as [|x l1 _] using rev_ind; simpl in *; [tauto|].
    rewrite seg_last_snoc. apply links_app in Hl1 as [_ Hl1]. simpl in Hl1. tauto.
  - destruct l2 as [|x l2]; simpl in *; tauto.
  - intros E. rewrite <- E in H. apply elem_of_cons in H as [?|Hin]; [done|].
    apply (Hd _ Hin). set_solver.
  - intros E. rewrite <- E in Hhd. apply elem_of_app in Hhd as [?|?]; set_solver.
  - done.
Qed.
End ops.

(** Nothing but the nodes of the list has changed. *)
Definition same_outside (nodes : list ptr) (h h' : nheap) : Prop :=
  forall c, c ∉ nodes -> h' !! c = h !! c.

Section refinement.
Implicit Types (h : nheap) (a b head item x : ptr) (l xs : list ptr).

Lemma spliced_dl h h' head l1 l2 item :
  dl h head (l1 ++ l2) -> item ∉ head :: l1 ++ l2 ->
  spliced h h' (seg_last head l1) item (seg_head l2 head) ->
  dl h' head (l1 ++ item :: l2) /\ same_outside (head :: item :: l1 ++ l2) h h'.
Proof.
  intros [Hnd Hl] Hi Hs. split; [split|].
  - apply NoDup_cons in Hnd as [Hh Hnd]. apply NoDup_app in Hnd as (Hnd1 & Hd & Hnd2).
    apply NoDup_cons; split; [set_solver|]. apply NoDup_app; split_and!; [done| |].
    + intros x Hx. specialize (Hd x Hx). set_solver.
    + apply NoDup_cons; set_solver.
  - apply (links_insert h); try done.
    + by apply NoDup_cons in Hnd as [Hh _].
    + set_solver.
  - destruct Hs as (_ & _ & Hfr). intros c Hc.
    pose proof (seg_last_elem head l1). pose proof (seg_head_elem l2 head).
    apply Hfr; intros ->; set_solver.
Qed.

Lemma list_add_head_ok h head xs item :
  dl h head xs -> item ∉ head :: xs -> is_Some (h !! item) ->
  exists h', list_add_head head item h = Some (tt, h') /\
    dl h' head (item :: xs) /\ same_outside (head :: item :: xs) h h'.
Proof.
  intros Hdl Hi [nn Hnn]. pose proof Hdl as [Hnd Hl].
  pose proof (links_fn _ _ _ _ Hl) as Hn.
  pose proof (seg_head_elem xs head) as Hhd.
  destruct (list_add_head_spliced h head item (seg_head xs head) nn)
    as (h' & Hrun & Hs); try done; [|set_solver..|].
  { destruct xs; simpl in *; tauto. }
  exists h'. split; [done|]. by apply (spliced_dl h h' head [] xs item).
Qed.

Lemma list_add_tail_ok h head xs item :
  dl h head xs -> item ∉ head :: xs -> is_Some (h !! item) ->
  exists h', list_add_tail head item h = Some (tt, h') /\
    dl h' head (xs ++ [item]) /\ same_outside (head :: item :: xs) h h'.
Proof.
  intros Hdl Hi [nn Hnn]. pose proof Hdl as [Hnd Hl].
  pose proof (links_fp _ _ _ _ Hl) as Hp.
  pose proof (seg_last_elem head xs) as Hlast.
  destruct (list_add_tail_spliced h head item (seg_last head xs) nn)
    as (h' & Hrun & Hs); try done; [|set_solver..|].
  { destruct xs as [|x xs _] using rev_ind; simpl in *; [tauto|].
    rewrite seg_last_snoc. apply links_app in Hl as [_ Hl]. simpl in Hl; tauto. }
  exists h'. split; [done|].
  pose proof (spliced_dl h h' head xs [] item) as Hok. rewrite app_nil_r in Hok.
  by apply Hok.
Qed.

Lemma list_delete_ok h head l1 item l2 :
  dl h head (l1 ++ item :: l2) ->
  exists h', list_delete item h = Some (tt, h') /\
    dl h' head (l1 ++ l2) /\ h' !! item = Some (mk_list_node None None) /\
    same_outside (head :: l1 ++ item :: l2) h h'.
Proof.
  intros Hdl. pose proof (dl_neighbours _ _ _ _ _ Hdl) as (H1 & H2 & H3 & H4 & H5 & H6 & H7).
  destruct (list_delete_unlinked h item (seg_last head l1) (seg_head l2 head))
    as (h' & Hrun & Hu); try done.
  exists h'. pose proof Hdl as [Hnd Hl].
  pose proof (seg_last_elem head l1). pose proof (seg_head_elem l2 head).
  split_and!; [done|split|..].
  - apply NoDup_cons in Hnd as [Hh Hnd]. apply NoDup_app in Hnd as (Hnd1 & Hd & Hnd2).
    apply NoDup_cons in Hnd2 as [Hi Hnd2]. apply NoDup_cons; split; [set_solver|].
    apply NoDup_app; split_and!; [done| |done]. intros x Hx. specialize (Hd x Hx). set_solver.
  - apply (links_unlink h h' head l1 l2 head item); try done.
    by apply NoDup_cons in Hnd as [Hh _].
  - unfold list_delete in Hrun. pose proof (fn_fp_Some _ _ _ _ H1 H2) as Hi.
    destruct (decide (seg_head l2 head = seg_last head l1)) as [E|E].
    + rewrite E in *. pose proof (fn_fp_Some _ _ _ _ H3 H4) as Hn. revert Hrun.
      run_list_op. intros [= <-]. by simplify_map_eq.
    + apply fn_Some in H3 as [hp Hp]. apply fp_Some in H4 as [np Hn]. revert Hrun.
      run_list_op. intros [= <-]. by simplify_map_eq.
  - destruct Hu as (_ & _ & Hfr). intros c Hc. apply Hfr; intros ->; set_solver.
Qed.

Lemma list_is_empty_ok h head xs :
  dl h head xs -> list_is_empty head h = Some (bool_decide (xs = []), h).
Proof.
  intros [Hnd Hl]. pose proof (links_fn _ _ _ _ Hl) as Hn.
  unfold list_is_empty, mbind, DM_bind. rewrite (get_next_fn _ _ _ Hn).
  unfold mret, DM_ret. do 2 f_equal. apply bool_decide_ext.
  destruct xs as [|x xs]; simpl; [done|]. split; [|done]. intros [= ->].
  apply NoDup_cons in Hnd as [Hh _]. set_solver.
Qed.

Lemma list_for_every_ok h a xs head fuel :
  links h a xs head -> head ∉ xs -> (length xs < fuel)%nat ->
  list_for_every fuel head (fn h a) h = Some (xs, h).
Proof.
  revert a fuel; induction xs as [|x xs IH]; intros a fuel Hl Hh Hf;
    (destruct fuel as [|fuel]; simpl in Hf; [lia|]); simpl in *.
  - destruct Hl as [-> _]. by rewrite decide_True.
  - destruct Hl as (-> & _ & Hl). rewrite decide_False by set_solver.
    pose proof (links_fn _ _ _ _ Hl) as Hx. pose proof Hx as [p Hp]%fn_Some.
    unfold mbind, DM_bind, deref. rewrite Hp. simpl.
    specialize (IH x fuel Hl ltac:(set_solver) ltac:(lia)). rewrite Hx in IH.
    by rewrite IH.
Qed.

Lemma foldl_count {A} (l : list A) n :
  0 <= n -> n + Z.of_nat (length l) < 2 ^ 32 ->
  foldl (fun cnt _ => u32 (cnt + 1)) n l = n + Z.of_nat (length l).
Proof.
  revert n; induction l as [|x l IH]; intros n Hn Hb; simpl length in *; simpl; [lia|].
  rewrite u32_small by lia. rewrite IH; lia.
Qed.
End refinement.

(** ** Properties *)

Implicit Types (h : nheap) (head item : ptr) (l xs : list ptr).

(** A concrete heap: the head 1 with the members 2 and 3, and a free node 4. *)
Definition demo_heap : nheap :=
  list_to_map [(1%positive, mk_list_node (Some 3%positive) (Some 2%positive));
               (2%positive, mk_list_node (Some 1%positive) (Some 3%positive));
               (3%positive, mk_list_node (Some 2%positive) (Some 1%positive));
               (4%positive, mk_list_node None None)].

Lemma demo_heap_dl : dl demo_heap 1 [2%positive; 3%positive].
Proof.
  split; [|vm_compute; repeat split].
  repeat (apply NoDup_cons; split; [set_solver|]). apply NoDup_nil_2.
Qed.

(** Adding a node that is not in a well-formed list never faults and
    puts it in front of the members ([list_add_head]) or behind them
    ([list_add_tail]); the list stays well formed and no node outside the
    list and the new node changes. *)
Theorem list_add_refines h head xs item
    (Hl : dl h head xs) (Hfresh : item ∉ head :: xs) (Halloc : is_Some (h !! item)) :
  (exists h', list_add_head head item h = Some (tt, h') /\
     dl h' head (item :: xs) /\ same_outside (head :: item :: xs) h h') /\
  (exists h', list_add_tail head item h = Some (tt, h') /\
     dl h' head (xs ++ [item]) /\ same_outside (head :: item :: xs) h h').
Proof. split; [by apply list_add_head_ok|by apply list_add_tail_ok]. Qed.

Lemma list_add_refines_witness :
  (exists h', list_add_head 1 4 demo_heap = Some (tt, h') /\
     dl h' 1 [4%positive; 2%positive; 3%positive] /\
     same_outside [1%positive; 4%positive; 2%positive; 3%positive] demo_heap h') /\
  (exists h', list_add_tail 1 4 demo_heap = Some (tt, h') /\
     dl h' 1 [2%positive; 3%positive; 4%positive] /\
     same_outside [1%positive; 4%positive; 2%positive; 3%positive] demo_heap h').
Proof.
  apply (list_add_refines demo_heap 1 [2%positive; 3%positive] 4).
  - exact demo_heap_dl.
  - set_solver.
  - vm_compute. eauto.
Defined.

(** Unlinking a member from anywhere in a well-formed list never faults,
    keeps the other members in their order, leaves the node with cleared
    links (so that [list_in_list] is false) and changes nothing outside the
    list. *)
Theorem list_delete_refines h head l1 item l2 (Hl : dl h head (l1 ++ item :: l2)) :
  exists h', list_delete item h = Some (tt, h') /\ dl h' head (l1 ++ l2) /\
    list_in_list item h' = Some (false, h') /\
    same_outside (head :: l1 ++ item :: l2) h h'.
Proof.
  destruct (list_delete_ok _ _ _ _ _ Hl) as (h' & Hrun & Hdl & Hi & Hf).
  exists h'. split_and!; [done..| |done]. unfold list_in_list. by run_list_op.
Qed.

Lemma list_delete_refines_witness :
  exists h', list_delete 2 demo_heap = Some (tt, h') /\ dl h' 1 [3%positive] /\
    list_in_list 2 h' = Some (false, h') /\
    same_outside [1%positive; 2%positive; 3%positive] demo_heap h'.
Proof.
  apply (list_delete_refines demo_heap 1 [] 2 [3%positive]). exact demo_heap_dl.
Defined.

(** [list_remove_head] and [list_remove_tail] answer NULL on an empty
    list; otherwise they unlink and return the first, respectively the last,
    member and leave the rest. *)
Theorem list_remove_refines h head xs (Hl : dl h head xs) :
  match xs with
  | [] => list_remove_head head h = Some (None, h)
  | x :: xs' => exists h', list_remove_head head h = Some (Some x, h') /\ dl h' head xs'
  end /\
    match last xs with
  | None => list_remove_tail head h = Some (None, h)
  | Some x => exists h', list_remove_tail head h = Some (Some x, h') /\
    dl h' head (removelast xs)
  end.
Proof.
  pose proof Hl as [Hnd Hlk]. apply NoDup_cons in Hnd as [Hh _]. split.
  - pose proof (get_next_fn _ _ _ (links_fn _ _ _ _ Hlk)) as Hn.
    unfold list_remove_head, mbind, DM_bind. rewrite Hn.
    destruct xs as [|x xs]; simpl; [by rewrite decide_True|].
    rewrite decide_False by set_solver.
    destruct (list_delete_ok h head [] x xs Hl) as (h' & Hrun & Hdl & _).
    unfold mbind, DM_bind. rewrite Hrun. eauto.
  - pose proof (get_prev_fp _ _ _ (links_fp _ _ _ _ Hlk)) as Hp.
    unfold list_remove_tail, mbind, DM_bind. rewrite Hp.
    destruct xs as [|x xs _] using rev_ind; simpl; [by rewrite decide_True|].
    rewrite last_snoc, seg_last_snoc, removelast_last.
    rewrite decide_False by set_solver.
    destruct (list_delete_ok h head xs x [] Hl) as (h' & Hrun & Hdl & _).
    rewrite app_nil_r in Hdl. unfold mbind, DM_bind. rewrite Hrun. eauto.
Qed.

Lemma list_remove_refines_witness :
  (exists h', list_remove_head 1 demo_heap = Some (Some 2%positive, h') /\
     dl h' 1 [3%positive]) /\
  (exists h', list_remove_tail 1 demo_heap = Some (Some 3%positive, h') /\
     dl h' 1 [2%positive]).
Proof.
  exact (list_remove_refines demo_heap 1 [2%positive; 3%positive] demo_heap_dl).
Defined.

(** With more loop iterations allowed than the list has members, the
    iteration macro visits exactly the members, in order, [list_is_empty]
    decides emptiness and [list_length] counts the members (as long as the
    count fits a [size_t]); none of them changes the heap. *)
Theorem list_length_refines h head xs fuel
    (Hl : dl h head xs) (Hfuel : (length xs < fuel)%nat)
    (Hfits : Z.of_nat (length xs) < 2 ^ 32) :
  list_for_every fuel head (fn h head) h = Some (xs, h) /\
    list_is_empty head h = Some (bool_decide (xs = []), h) /\
    list_length fuel head h = Some (Z.of_nat (length xs), h).
Proof.
  pose proof Hl as [Hnd Hlk]. apply NoDup_cons in Hnd as [Hh _].
  pose proof (links_fn _ _ _ _ Hlk) as Hn.
  pose proof (list_for_every_ok h head xs head fuel Hlk Hh Hfuel) as Hev.
  split_and!; [done|by apply list_is_empty_ok|].
  unfold list_length, mbind, DM_bind. rewrite (get_next_fn _ _ _ Hn).
  rewrite Hn in Hev. rewrite Hev. unfold mret, DM_ret.
  rewrite foldl_count; [done|lia..].
Qed.

Lemma list_length_refines_witness :
  list_for_every 3 1 (fn demo_heap 1) demo_heap = Some ([2%positive; 3%positive], demo_heap) /\
    list_is_empty 1 demo_heap = Some (false, demo_heap) /\
    list_length 3 1 demo_heap = Some (2, demo_heap).
Proof.
  apply (list_length_refines demo_heap 1 [2%positive; 3%positive] 3);
    [exact demo_heap_dl|simpl; lia|reflexivity].
Defined.
