(* ===== verification/ListSim.v ===== *)
(** * All the lists of a program at once

    The pointer operations of [list.h] ([DList.v]) against their specification:
    a family of sequences, one for every list head, and a set of nodes in no
    list.  Whatever sequence of operations a program makes, as long as it adds
    only free nodes and removes only members, the heap of nodes answers as the
    family does, never faults, and represents it again. *)

From S2P Require Import Prelude DList.

(** ** The specification *)

Record family := mk_family { lists : gmap ptr (list ptr); free : gset ptr }.

(** The operations; the list an item is in is said where C code knows it from
    the context. *)
Inductive lop :=
| LInitialize (l : ptr) | LClear (x : ptr) | LInList (x : ptr)
| LAddHead (l x : ptr) | LAddTail (l x : ptr) | LDelete (l x : ptr)
| LRemoveHead (l : ptr) | LRemoveTail (l : ptr) | LPeekHead (l : ptr) | LPeekTail (l : ptr)
| LNext (l x : ptr) | LPrev (l x : ptr) | LNextWrap (l x : ptr) | LPrevWrap (l x : ptr)
| LIsEmpty (l : ptr) | LLength (fuel : nat) (l : ptr).

#[export] Instance lop_eq_dec : EqDecision lop.
Proof. solve_decision. Defined.

(** What an operation returns. *)
Inductive lval := VUnit | VPtr (p : option ptr) | VBool (b : bool) | VNum (n : Z).

#[export] Instance lval_eq_dec : EqDecision lval.
Proof. solve_decision. Defined.

(** The code. *)
Definition returning {A} (f : A -> lval) (m : DM A) : DM lval := r ← m; mret (f r).

Definition lop_run (o : lop) : DM lval :=
  match o with
  | LInitialize l => returning (fun _ => VUnit) (list_initialize l)
  | LClear x => returning (fun _ => VUnit) (list_clear_node x)
  | LInList x => returning VBool (list_in_list x)
  | LAddHead l x => returning (fun _ => VUnit) (list_add_head l x)
  | LAddTail l x => returning (fun _ => VUnit) (list_add_tail l x)
  | LDelete _ x => returning (fun _ => VUnit) (list_delete x)
  | LRemoveHead l => returning VPtr (list_remove_head l)
  | LRemoveTail l => returning VPtr (list_remove_tail l)
  | LPeekHead l => returning VPtr (list_peek_head l)
  | LPeekTail l => returning VPtr (list_peek_tail l)
  | LNext l x => returning VPtr (list_next l x)
  | LPrev l x => returning VPtr (list_prev l x)
  | LNextWrap l x => returning VPtr (list_next_wrap l x)
  | LPrevWrap l x => returning VPtr (list_prev_wrap l x)
  | LIsEmpty l => returning VBool (list_is_empty l)
  | LLength fuel l => returning VNum (list_length fuel l)
  end.

(** The member after [x], if any. *)
Fixpoint after (x : ptr) (xs : list ptr) : option ptr :=
  match xs with
  | [] => None
  | a :: xs => if decide (a = x) then head xs else after x xs
  end.
Definition before (x : ptr) (xs : list ptr) : option ptr := after x (reverse xs).

Definition with_list (l : ptr) (xs : list ptr) (F : family) : family := mk_family (<[l := xs]> (lists F)) (free F).
Definition take_node (x : ptr) (F : family) : family := mk_family (lists F) (free F ∖ {[x]}).
Definition give_node (x : ptr) (F : family) : family := mk_family (lists F) ({[x]} ∪ free F).

(** [x] is in a list. *)
Definition linked (x : ptr) (F : family) : bool := existsb (fun lx : ptr * list ptr => bool_decide (x ∈ snd lx)) (map_to_list (lists F)).

Definition need (b : bool) : option unit := if b then Some tt else None.

(** The specification; [None]: the operation is not allowed. *)
Definition lop_spec (o : lop) (F : family) : option (lval * family) :=
  match o with
  | LInitialize l =>
      need (bool_decide (l ∈ free F));; Some (VUnit, with_list l [] (take_node l F))
  | LClear x => need (bool_decide (x ∈ free F));; Some (VUnit, F)
  | LInList x =>
      if bool_decide (x ∈ free F) then Some (VBool false, F) else need (linked x F);; Some (VBool true, F)
  | LAddHead l x =>
      xs ← lists F !! l; need (bool_decide (x ∈ free F));; Some (VUnit, with_list l (x :: xs) (take_node x F))
  | LAddTail l x =>
      xs ← lists F !! l; need (bool_decide (x ∈ free F));; Some (VUnit, with_list l (xs ++ [x]) (take_node x F))
  | LDelete l x =>
      xs ← lists F !! l; need (bool_decide (x ∈ xs));;
      Some (VUnit, with_list l (filter (fun y => y <> x) xs) (give_node x F))
  | LRemoveHead l =>
      xs ← lists F !! l;
      match xs with [] => Some (VPtr None, F) | x :: xs => Some (VPtr (Some x), with_list l xs (give_node x F)) end
  | LRemoveTail l =>
      xs ← lists F !! l;
      match last xs with
      | None => Some (VPtr None, F)
      | Some x => Some (VPtr (Some x), with_list l (removelast xs) (give_node x F))
      end
  | LPeekHead l => xs ← lists F !! l; Some (VPtr (head xs), F)
  | LPeekTail l => xs ← lists F !! l; Some (VPtr (last xs), F)
  | LNext l x => xs ← lists F !! l; need (bool_decide (x ∈ xs));; Some (VPtr (after x xs), F)
  | LPrev l x => xs ← lists F !! l; need (bool_decide (x ∈ xs));; Some (VPtr (before x xs), F)
  | LNextWrap l x =>
      xs ← lists F !! l; need (bool_decide (x ∈ xs));;
      Some (VPtr (match after x xs with Some y => Some y | None => head xs end), F)
  | LPrevWrap l x =>
      xs ← lists F !! l; need (bool_decide (x ∈ xs));;
      Some (VPtr (match before x xs with Some y => Some y | None => last xs end), F)
  | LIsEmpty l => xs ← lists F !! l; Some (VBool (bool_decide (xs = [])), F)
  | LLength fuel l =>
      xs ← lists F !! l; need (bool_decide (length xs < fuel)%nat && (Z.of_nat (length xs) <? 2 ^ 32));;
      Some (VNum (Z.of_nat (length xs)), F)
  end.

(** Programs. *)
Fixpoint lops_run (os : list lop) : DM (list lval) :=
  match os with [] => mret [] | o :: os => v ← lop_run o; vs ← lops_run os; mret (v :: vs) end.
Fixpoint lops_spec (os : list lop) (F : family) : option (list lval * family) :=
  match os with
  | [] => Some ([], F)
  | o :: os => '(v, F) ← lop_spec o F; '(vs, F) ← lops_spec os F; Some (v :: vs, F)
  end.

(** ** The representation *)

(** The heap [h] represents [F]: each head with its members is a circular list,
    they have no node in common, and the links of the free nodes are NULL. *)
Record rep (h : nheap) (F : family) : Prop := {
  rp_dl : forall l xs, lists F !! l = Some xs -> dl h l xs;
  rp_free : forall x, x ∈ free F -> h !! x = Some (mk_list_node None None);
  rp_apart : forall l1 l2 xs1 xs2 x, lists F !! l1 = Some xs1 -> lists F !! l2 = Some xs2 ->
    x ∈ l1 :: xs1 -> x ∈ l2 :: xs2 -> l1 = l2;
  rp_used : forall l xs x, lists F !! l = Some xs -> x ∈ l :: xs -> x ∉ free F
}.

Section proofs.
Implicit Types (h : nheap) (F : family) (l x : ptr) (xs : list ptr).

Lemma dl_frame h h' l xs nodes :
  dl h l xs -> same_outside nodes h h' -> (forall x, x ∈ l :: xs -> x ∉ nodes) -> dl h' l xs.
Proof.
  intros [Hnd Hl] Hs Hd. split; [done|]. apply (links_frame h); [done|..]; intros c Hc; unfold fn, fp.
  - by rewrite Hs by by apply Hd.
  - rewrite Hs; [done|]. apply Hd. set_solver.
Qed.

(** An operation that changes the list [l] to [xs'] and the free nodes to [fr];
    the nodes it touches are those of the list and free ones. *)
Lemma rep_update h h' F l xs' fr nodes :
  rep h F -> dl h' l xs' -> same_outside nodes h h' ->
  (forall x, x ∈ nodes \/ x ∈ l :: xs' \/ x ∈ fr -> x ∈ free F \/ exists xs, lists F !! l = Some xs /\ x ∈ l :: xs) ->
  (forall x, x ∈ fr -> h' !! x = Some (mk_list_node None None) /\ x ∉ l :: xs') ->
  rep h' (mk_family (<[l := xs']> (lists F)) fr).
Proof.
  intros [Hdl Hfree Hap Hus] Hl Hs Hin Hfr.
  assert (Hother : forall k ys x, k <> l -> lists F !! k = Some ys -> x ∈ k :: ys ->
    x ∉ nodes /\ x ∉ l :: xs' /\ x ∉ fr).
  { intros k ys x Hne Hk Hx. assert (Hno : ~ (x ∈ nodes \/ x ∈ l :: xs' \/ x ∈ fr)); [|tauto].
    intros [Hf|(xs & Hlk & Hxl)]%Hin; [by eapply Hus|]. apply Hne. by eapply Hap. }
  constructor; cbn [lists free].
  - intros k ys [[<- <-]|[Hne Hk]]%lookup_insert_Some; [done|].
    eapply dl_frame; [by apply Hdl|exact Hs|]. intros x Hx. by eapply Hother.
  - intros x Hx. by apply Hfr.
  - intros k1 k2 ys1 ys2 x [[<- <-]|[Hn1 Hk1]]%lookup_insert_Some [[<- <-]|[Hn2 Hk2]]%lookup_insert_Some Hx1 Hx2;
      [done| | |by eapply Hap].
    + by destruct (Hother k2 ys2 x) as (_ & Hno & _).
    + by destruct (Hother k1 ys1 x) as (_ & Hno & _).
  - intros k ys x [[<- <-]|[Hne Hk]]%lookup_insert_Some Hx Hf; [by destruct (Hfr x Hf)|].
    by destruct (Hother k ys x) as (_ & _ & Hno).
Qed.

Lemma returning_ok {A} (f : A -> lval) (m : DM A) a h h' : m h = Some (a, h') -> returning f m h = Some (f a, h').
Proof. intros E. unfold returning, mbind, DM_bind. by rewrite E. Qed.

(** *** Neighbours *)

Lemma after_split x (l1 l2 : list ptr) : x ∉ l1 -> after x (l1 ++ x :: l2) = head l2.
Proof.
  induction l1 as [|a l1 IH]; intros Hx; cbn [after app]; [by rewrite decide_True|].
  rewrite decide_False by set_solver. apply IH. set_solver.
Qed.

Lemma before_split x (l1 l2 : list ptr) : x ∉ l2 -> before x (l1 ++ x :: l2) = last l1.
Proof.
  intros Hx. unfold before. rewrite reverse_app, reverse_cons, <- app_assoc. cbn [app].
  rewrite after_split by (by rewrite elem_of_reverse). apply head_reverse.
Qed.

Lemma seg_head_head (l2 : list ptr) l : l ∉ l2 -> (if decide (Some (seg_head l2 l) = Some l) then None else Some (seg_head l2 l)) = head l2.
Proof.
  intros Hl. destruct l2 as [|y l2]; simpl; [by rewrite decide_True|]. rewrite decide_False; [done|]. set_solver.
Qed.

Lemma seg_last_last (l1 : list ptr) l : l ∉ l1 -> (if decide (Some (seg_last l l1) = Some l) then None else Some (seg_last l l1)) = last l1.
Proof.
  intros Hl. destruct l1 as [|y l1 _] using rev_ind; simpl; [by rewrite decide_True|].
  rewrite seg_last_snoc, last_snoc, decide_False; [done|]. set_solver.
Qed.

(** The fields of the head and of a member. *)
Record neighbours (h : nheap) (l : ptr) (xs : list ptr) (x : ptr) (l1 l2 : list ptr) : Prop := {
  nb_split : xs = l1 ++ x :: l2;
  nb_after : after x xs = head l2;
  nb_before : before x xs = last l1;
  nb_next : get_next (Some x) h = Some (Some (seg_head l2 l), h);
  nb_prev : get_prev (Some x) h = Some (Some (seg_last l l1), h);
  nb_l1 : l ∉ l1;
  nb_l2 : l ∉ l2
}.

Lemma dl_heads h l xs : dl h l xs ->
  get_next (Some l) h = Some (Some (seg_head xs l), h) /\ get_prev (Some l) h = Some (Some (seg_last l xs), h) /\ l ∉ xs.
Proof.
  intros [Hnd Hl]. apply NoDup_cons in Hnd as [Hh _].
  split_and!; [by eapply get_next_fn, links_fn|by eapply get_prev_fp, links_fp|done].
Qed.

Lemma dl_member h l xs x : dl h l xs -> x ∈ xs -> exists l1 l2 : list ptr, neighbours h l xs x l1 l2.
Proof.
  intros Hdl Hx. apply list_elem_of_split in Hx as (l1 & l2 & ->). exists l1, l2.
  pose proof (dl_neighbours _ _ _ _ _ Hdl) as (Hn & Hp & _). destruct Hdl as [Hnd _].
  apply NoDup_cons in Hnd as [Hh (Hnd1 & Hd & [Hx2 Hnd2]%NoDup_cons)%NoDup_app].
  assert (x ∉ l1) by (intros Hx1; apply (Hd _ Hx1); set_solver).
  constructor; [done|by apply after_split|by apply before_split|by apply get_next_fn|by apply get_prev_fp|set_solver|set_solver].
Qed.

(** *** The operations that look *)

(** [o] answers [v] and changes nothing. *)
Definition looks (o : lop) (h : nheap) (v : lval) : Prop := lop_run o h = Some (v, h).

Lemma peek_ok h l xs : dl h l xs -> looks (LPeekHead l) h (VPtr (head xs)) /\ looks (LPeekTail l) h (VPtr (last xs)).
Proof.
  intros (Hn & Hp & Hh)%dl_heads. split; apply returning_ok.
  - unfold list_peek_head, mbind, DM_bind. rewrite Hn. by rewrite <- (seg_head_head xs l Hh).
  - unfold list_peek_tail, mbind, DM_bind. rewrite Hp. by rewrite <- (seg_last_last xs l Hh).
Qed.

Lemma next_ok h l xs x : dl h l xs -> x ∈ xs ->
  looks (LNext l x) h (VPtr (after x xs)) /\ looks (LPrev l x) h (VPtr (before x xs)).
Proof.
  intros Hdl Hx. destruct (dl_member h l xs x Hdl Hx) as (l1 & l2 & [_ -> -> Hn Hp H1 H2]). split; apply returning_ok.
  - unfold list_next, mbind, DM_bind. rewrite Hn. by rewrite <- (seg_head_head l2 l H2).
  - unfold list_prev, mbind, DM_bind. rewrite Hp. by rewrite <- (seg_last_last l1 l H1).
Qed.

Lemma wrap_ok h l xs x : dl h l xs -> x ∈ xs ->
  looks (LNextWrap l x) h (VPtr (match after x xs with Some y => Some y | None => head xs end)) /\
  looks (LPrevWrap l x) h (VPtr (match before x xs with Some y => Some y | None => last xs end)).
Proof.
  intros Hdl Hx. destruct (dl_heads _ _ _ Hdl) as (Hhn & Hhp & Hh).
  destruct (dl_member h l xs x Hdl Hx) as (l1 & l2 & [_ -> -> Hn Hp H1 H2]). split; apply returning_ok.
  - unfold list_next_wrap, mbind, DM_bind. rewrite Hn. destruct l2 as [|y l2]; simpl.
    + rewrite decide_True by done. unfold mbind, DM_bind. rewrite Hhn. by rewrite <- (seg_head_head xs l Hh).
    + rewrite decide_False by set_solver. done.
  - unfold list_prev_wrap, mbind, DM_bind. rewrite Hp. destruct l1 as [|y l1 _] using rev_ind; simpl.
    + rewrite decide_True by done. unfold mbind, DM_bind. rewrite Hhp. by rewrite <- (seg_last_last xs l Hh).
    + rewrite seg_last_snoc, last_snoc, decide_False by set_solver. done.
Qed.

Lemma length_ok h l xs fuel : dl h l xs -> (length xs < fuel)%nat -> Z.of_nat (length xs) < 2 ^ 32 ->
  looks (LLength fuel l) h (VNum (Z.of_nat (length xs))).
Proof.
  intros Hdl Hf Hz. destruct (dl_heads _ _ _ Hdl) as (Hn & _ & Hh). destruct Hdl as [_ Hl]. apply returning_ok.
  unfold list_length, mbind, DM_bind. rewrite Hn, <- (links_fn _ _ _ _ Hl), (list_for_every_ok h l xs l fuel) by done.
  unfold mret, DM_ret. by rewrite foldl_count by lia.
Qed.

Lemma in_list_free h x : h !! x = Some (mk_list_node None None) -> looks (LInList x) h (VBool false).
Proof. intros E. apply returning_ok. unfold list_in_list. by run_list_op. Qed.

Lemma in_list_linked h F x : rep h F -> linked x F = true -> looks (LInList x) h (VBool true).
Proof.
  intros Hr ([l xs] & Hin & Hx%bool_decide_eq_true)%existsb_exists. apply list_elem_of_In, elem_of_map_to_list in Hin.
  destruct (dl_member h l xs x (rp_dl _ _ Hr l xs Hin) Hx) as (l1 & l2 & [_ _ _ Hn Hp _ _]). apply returning_ok.
  unfold list_in_list, mbind, DM_bind. by rewrite Hp, Hn.
Qed.

(** *** The operations that change a list *)

(** [x] joins the list [l]. *)
Lemma rep_added h h' F l x xs xs' :
  rep h F -> lists F !! l = Some xs -> x ∈ free F -> dl h' l xs' -> same_outside (l :: x :: xs) h h' ->
  (forall y, y ∈ xs' <-> y = x \/ y ∈ xs) -> rep h' (with_list l xs' (take_node x F)).
Proof.
  intros Hr Hl Hx Hdl Hs Hxs. apply (rep_update h h' F l xs' (free F ∖ {[x]}) (l :: x :: xs)); [done..| |].
  - intros y Hy. destruct (decide (y = x)) as [->|Hne]; [by left|].
    destruct (decide (y ∈ free F)) as [|Hnf]; [by left|right]. exists xs. split; [done|].
    destruct Hy as [Hy|[Hy|Hy]]; [set_solver| |set_solver]. apply elem_of_cons in Hy as [->|Hy]; [set_solver|].
    apply Hxs in Hy. set_solver.
  - intros y [Hy Hne]%elem_of_difference. pose proof (rp_used _ _ Hr l xs y Hl) as Hu.
    assert (Hn : y ∉ l :: xs) by tauto. rewrite Hs by set_solver. split; [by apply (rp_free _ _ Hr)|].
    intros [->|Hy']%elem_of_cons; [set_solver|]. apply Hxs in Hy'. set_solver.
Qed.

(** [x] leaves the list [l]. *)
Lemma rep_removed h h' F l x (l1 l2 : list ptr) :
  rep h F -> lists F !! l = Some (l1 ++ x :: l2) -> dl h' l (l1 ++ l2) ->
  h' !! x = Some (mk_list_node None None) -> same_outside (l :: l1 ++ x :: l2) h h' ->
  rep h' (with_list l (l1 ++ l2) (give_node x F)).
Proof.
  intros Hr Hl Hdl Hx Hs. pose proof (rp_dl _ _ Hr _ _ Hl) as Hdl0.
  apply (rep_update h h' F l (l1 ++ l2) ({[x]} ∪ free F) (l :: l1 ++ x :: l2)); [done..| |].
  - intros y Hy. destruct (decide (y ∈ free F)) as [|Hnf]; [by left|right].
    exists (l1 ++ x :: l2). split; [done|]. set_solver.
  - intros y [->%elem_of_singleton|Hy]%elem_of_union.
    + split; [done|]. destruct Hdl0 as [[Hh (_ & Hd & [Hx2 _]%NoDup_cons)%NoDup_app]%NoDup_cons _].
      intros [->|[Hx1|Hx1]%elem_of_app]%elem_of_cons; [set_solver| |done]. apply (Hd _ Hx1). set_solver.
    + assert (Hn : y ∉ l :: l1 ++ x :: l2) by (intros Hin; by eapply (rp_used _ _ Hr)).
      rewrite Hs by done. split; [by apply (rp_free _ _ Hr)|]. set_solver.
Qed.

Lemma add_ok h F l x xs (tail : bool) :
  rep h F -> lists F !! l = Some xs -> x ∈ free F ->
  let xs' := if tail then xs ++ [x] else x :: xs in
  exists h', lop_run (if tail then LAddTail l x else LAddHead l x) h = Some (VUnit, h') /\
    rep h' (with_list l xs' (take_node x F)).
Proof.
  intros Hr Hl Hx xs'. pose proof (rp_dl _ _ Hr _ _ Hl) as Hdl.
  assert (Hnx : x ∉ l :: xs) by (intros Hin; by eapply (rp_used _ _ Hr)).
  assert (Hal : is_Some (h !! x)) by (eexists; by apply (rp_free _ _ Hr)).
  assert (Hrun : exists h', (if tail then list_add_tail l x else list_add_head l x) h = Some (tt, h') /\
    dl h' l xs' /\ same_outside (l :: x :: xs) h h').
  { destruct tail; [by apply list_add_tail_ok|by apply list_add_head_ok]. }
  destruct Hrun as (h' & Hrun & Hdl' & Hs). exists h'. split.
  - destruct tail; (eapply (returning_ok (fun _ => VUnit)); exact Hrun).
  - eapply rep_added; [done..|]. intros y. unfold xs'. destruct tail; set_solver.
Qed.

Lemma filter_split x (l1 l2 : list ptr) : NoDup (l1 ++ x :: l2) -> filter (fun y => y <> x) (l1 ++ x :: l2) = l1 ++ l2.
Proof.
  intros (_ & Hd & [Hx2 _]%NoDup_cons)%NoDup_app.
  assert (Hid : forall l : list ptr, x ∉ l -> filter (fun y => y <> x) l = l).
  { induction l as [|y l IH]; intros Hl; [done|]. rewrite filter_cons_True by set_solver. f_equal. apply IH. set_solver. }
  rewrite filter_app, filter_cons_False by tauto. rewrite !Hid; [done|done|].
  intros Hx1. apply (Hd _ Hx1). set_solver.
Qed.

(** Deleting a member, wherever it is. *)
Lemma delete_ok h F l x (l1 l2 : list ptr) :
  rep h F -> lists F !! l = Some (l1 ++ x :: l2) ->
  exists h', list_delete x h = Some (tt, h') /\ rep h' (with_list l (l1 ++ l2) (give_node x F)).
Proof.
  intros Hr Hl. destruct (list_delete_ok h l l1 x l2 (rp_dl _ _ Hr _ _ Hl)) as (h' & Hrun & Hdl & Hx & Hs).
  exists h'. split; [done|]. by eapply rep_removed.
Qed.

Lemma remove_ok h F l xs : rep h F -> lists F !! l = Some xs ->
  match xs with
  | [] => looks (LRemoveHead l) h (VPtr None)
  | x :: xs' => exists h', lop_run (LRemoveHead l) h = Some (VPtr (Some x), h') /\ rep h' (with_list l xs' (give_node x F))
  end /\
  match last xs with
  | None => looks (LRemoveTail l) h (VPtr None)
  | Some x => exists h', lop_run (LRemoveTail l) h = Some (VPtr (Some x), h') /\
      rep h' (with_list l (removelast xs) (give_node x F))
  end.
Proof.
  intros Hr Hl. destruct (dl_heads _ _ _ (rp_dl _ _ Hr _ _ Hl)) as (Hn & Hp & Hh). split.
  - destruct xs as [|x xs].
    + apply returning_ok. unfold list_remove_head, mbind, DM_bind. by rewrite Hn, decide_True.
    + destruct (delete_ok h F l x [] xs Hr Hl) as (h' & Hrun & Hr'). exists h'. split; [|done]. apply returning_ok.
      unfold list_remove_head, mbind, DM_bind. rewrite Hn. simpl. rewrite decide_False by set_solver.
      unfold mbind, DM_bind. by rewrite Hrun.
  - destruct xs as [|x xs _] using rev_ind.
    + apply returning_ok. unfold list_remove_tail, mbind, DM_bind. by rewrite Hp, decide_True.
    + rewrite last_snoc, removelast_last. destruct (delete_ok h F l x xs [] Hr Hl) as (h' & Hrun & Hr').
      rewrite app_nil_r in Hr'. exists h'. split; [|done]. apply returning_ok.
      unfold list_remove_tail, mbind, DM_bind. rewrite Hp, seg_last_snoc, decide_False by set_solver.
      unfold mbind, DM_bind. by rewrite Hrun.
Qed.

Lemma initialize_ok h F l : rep h F -> l ∈ free F ->
  exists h', lop_run (LInitialize l) h = Some (VUnit, h') /\ rep h' (with_list l [] (take_node l F)).
Proof.
  intros Hr Hl. pose proof (rp_free _ _ Hr _ Hl) as E.
  exists (<[l := mk_list_node (Some l) (Some l)]> h). split.
  - unfold lop_run. eapply (returning_ok (fun _ => VUnit)). unfold list_initialize. run_list_op.
    by rewrite insert_insert_eq.
  - apply (rep_update h _ F l [] (free F ∖ {[l]}) [l]); [done|..].
    + split; [apply NoDup_singleton|]. unfold links, fn, fp. by rewrite lookup_insert_eq.
    + intros x Hx. by rewrite lookup_insert_ne by set_solver.
    + intros x Hx. left. set_solver.
    + intros x [Hx Hne]%elem_of_difference. rewrite lookup_insert_ne by set_solver.
      split; [by apply (rp_free _ _ Hr)|set_solver].
Qed.

Lemma clear_ok h F x : rep h F -> x ∈ free F -> looks (LClear x) h VUnit.
Proof.
  intros Hr Hx. pose proof (rp_free _ _ Hr _ Hx) as E. unfold looks, lop_run.
  eapply (returning_ok (fun _ => VUnit)). unfold list_clear_node. run_list_op.
  rewrite insert_insert_eq. by rewrite insert_id.
Qed.

(** *** One operation, and programs *)

Lemma need_Some {A} (b : bool) (k : option A) r : (need b;; k) = Some r -> b = true /\ k = Some r.
Proof. by destruct b. Qed.

Lemma looks_ok o h F v : rep h F -> looks o h v -> exists h', lop_run o h = Some (v, h') /\ rep h' F.
Proof. intros Hr Hl. by exists h. Qed.

Lemma lop_ok o h F v F' : rep h F -> lop_spec o F = Some (v, F') ->
  exists h', lop_run o h = Some (v, h') /\ rep h' F'.
Proof.
  intros Hr Hsp. pose proof (rp_dl _ _ Hr) as Hdl.
  destruct o as [l|x|x|l x|l x|l x|l|l|l|l|l x|l x|l x|l x|l|fuel l]; cbn [lop_spec] in Hsp.
  - apply need_Some in Hsp as [Hl%bool_decide_eq_true [= <- <-]]. by apply initialize_ok.
  - apply need_Some in Hsp as [Hx%bool_decide_eq_true [= <- <-]]. by eapply looks_ok, clear_ok.
  - case_bool_decide as Hx; [|apply need_Some in Hsp as [Hx' Hsp]]; injection Hsp as <- <-; apply looks_ok; try done.
    + by apply in_list_free, (rp_free _ _ Hr).
    + by eapply in_list_linked.
  - apply bind_Some in Hsp as (xs & Hl & [Hx%bool_decide_eq_true [= <- <-]]%need_Some).
    by apply (add_ok h F l x xs false).
  - apply bind_Some in Hsp as (xs & Hl & [Hx%bool_decide_eq_true [= <- <-]]%need_Some).
    by apply (add_ok h F l x xs true).
  - apply bind_Some in Hsp as (xs & Hl & [Hx%bool_decide_eq_true [= <- <-]]%need_Some).
    apply list_elem_of_split in Hx as (l1 & l2 & ->). destruct (delete_ok h F l x l1 l2 Hr Hl) as (h' & Hrun & Hr').
    exists h'. split; [by eapply (returning_ok (fun _ => VUnit))|].
    rewrite filter_split; [done|]. by apply (Hdl l), proj1, NoDup_cons, proj2 in Hl.
  - apply bind_Some in Hsp as (xs & Hl & Hsp). destruct (remove_ok h F l xs Hr Hl) as [Hrm _].
    destruct xs; injection Hsp as <- <-; [by apply looks_ok|done].
  - apply bind_Some in Hsp as (xs & Hl & Hsp). destruct (remove_ok h F l xs Hr Hl) as [_ Hrm].
    destruct (last xs); injection Hsp as <- <-; [done|by apply looks_ok].
  - apply bind_Some in Hsp as (xs & Hl & [= <- <-]). by apply looks_ok, peek_ok, Hdl.
  - apply bind_Some in Hsp as (xs & Hl & [= <- <-]). by apply looks_ok, peek_ok, Hdl.
  - apply bind_Some in Hsp as (xs & Hl & [Hx%bool_decide_eq_true [= <- <-]]%need_Some). apply looks_ok, next_ok; auto.
  - apply bind_Some in Hsp as (xs & Hl & [Hx%bool_decide_eq_true [= <- <-]]%need_Some). apply looks_ok, next_ok; auto.
  - apply bind_Some in Hsp as (xs & Hl & [Hx%bool_decide_eq_true [= <- <-]]%need_Some). apply looks_ok, wrap_ok; auto.
  - apply bind_Some in Hsp as (xs & Hl & [Hx%bool_decide_eq_true [= <- <-]]%need_Some). apply looks_ok, wrap_ok; auto.
  - apply bind_Some in Hsp as (xs & Hl & [= <- <-]). apply looks_ok; [done|]. apply returning_ok. by apply list_is_empty_ok, Hdl.
  - apply bind_Some in Hsp as (xs & Hl & [[Hf Hz]%andb_true_iff [= <- <-]]%need_Some).
    apply bool_decide_eq_true in Hf. apply Z.ltb_lt in Hz. apply looks_ok; [done|]. by apply length_ok; auto.
Qed.

(** C40: the pointer lists are a family of sequences.  A program that adds only
    free nodes and removes only members gets from the heap of nodes the answers
    of the specification, whatever lists it has and in whatever order it works
    on them: no dereference faults, no list disturbs another, and the heap
    represents the family at the end. *)
Theorem lists_refine os h F vs F' :
  rep h F -> lops_spec os F = Some (vs, F') -> exists h', lops_run os h = Some (vs, h') /\ rep h' F'.
Proof.
  revert h F vs F'. induction os as [|o os IH]; intros h F vs F' Hr Hsp; cbn [lops_spec lops_run] in *.
  - injection Hsp as <- <-. by exists h.
  - apply bind_Some in Hsp as ([v F1] & Ho & Hsp). apply bind_Some in Hsp as ([vs1 F2] & Hos & [= <- <-]).
    destruct (lop_ok o h F v F1 Hr Ho) as (h1 & Hrun & Hr1).
    destruct (IH h1 F1 vs1 F2 Hr1 Hos) as (h2 & Hrun2 & Hr2). exists h2. split; [|done].
    unfold mbind, DM_bind. by rewrite Hrun, Hrun2.
Qed.
End proofs.

(** ** Witness *)

(** Five nodes in no list: 1 and 2 become heads. *)
Definition free_heap : nheap := list_to_map ((fun x => (x, mk_list_node None None)) <$> [1; 2; 3; 4; 5]%positive).
Definition free_family : family := mk_family ∅ (list_to_set [1; 2; 3; 4; 5]%positive).

Lemma free_rep : rep free_heap free_family.
Proof.
  constructor; cbn [lists free free_family]; [by intros *; rewrite lookup_empty| |by intros *; rewrite lookup_empty|
    by intros *; rewrite lookup_empty].
  intros x Hx%elem_of_list_to_set. repeat (apply elem_of_cons in Hx as [->|Hx]; [reflexivity|]). by apply not_elem_of_nil in Hx.
Qed.

(** Node 4 moves from the list 1 to the list 2. *)
Definition demo_ops : list lop :=
  [LInitialize 1; LInitialize 2; LAddTail 1 3; LAddTail 1 4; LAddHead 1 5; LNext 1 5; LDelete 1 4; LInList 4;
   LAddHead 2 4; LRemoveTail 1; LPeekHead 2; LLength 9 1; LNextWrap 2 4].

Definition demo_answers : list lval :=
  [VUnit; VUnit; VUnit; VUnit; VUnit; VPtr (Some 3%positive); VUnit; VBool false; VUnit;
   VPtr (Some 3%positive); VPtr (Some 4%positive); VNum 1; VPtr (Some 4%positive)].

Lemma lists_refine_witness : exists h' F', lops_run demo_ops free_heap = Some (demo_answers, h') /\ rep h' F'.
Proof.
  assert (E : fst <$> lops_spec demo_ops free_family = Some demo_answers) by by vm_compute.
  destruct (lops_spec demo_ops free_family) as [[vs F']|] eqn:Es; [|done]. injection E as ->.
  destruct (lists_refine demo_ops free_heap free_family demo_answers F' free_rep Es) as (h' & Hrun & Hr).
  exists h', F'. by split.
Defined.
