(* ===== verification/Kernel.v ===== *)
(** * Kernel data, state and effects

    The data of the scheduler and of the synchronisation objects
    ([Include/lk/kernel/thread.h], [wait.h], [mutex.h], [semaphore.h],
    [event.h]), the global state of the kernel, and the monad the kernel
    functions are written in.

    Control flow: the threads are coroutines.  The only place where a function
    itself gives the CPU to another thread is [arch_context_switch].  A function
    is therefore a resumption ([run]): it finishes ([Done]), fails ([Fail]), or
    has switched to the thread that is now [current_thread] and continues, with
    whatever state the other threads leave, when it is switched back to
    ([Switch]).

    Between [THREAD_LOCK] and [THREAD_UNLOCK] interrupts are off, and this is the
    whole story: no other code runs there.  Outside, with interrupts on, the
    timer interrupt may call [thread_preempt] at any point.  A [run] does not show
    these points: it is what a call does when no interrupt comes.  The step
    relations ([Interleave], [LifeMachine]) are those in which threads are
    preempted: their steps are critical sections, and a preemption may come
    between any two of them. *)

From S2P Require Import Prelude.

Abbreviation ptr := positive (only parsing).

(** ** Constants *)

Definition NO_ERROR : Z := 0.
Definition ERR_NOT_READY : Z := -3.
Definition ERR_INVALID_ARGS : Z := -8.
Definition ERR_NOT_SUSPENDED : Z := -10.
Definition ERR_OBJECT_DESTROYED : Z := -11.
Definition ERR_NOT_BLOCKED : Z := -12.
Definition ERR_TIMED_OUT : Z := -13.
Definition ERR_THREAD_DETACHED : Z := -34.

Definition INFINITE_TIME : Z := UINT32_MAX.

Definition NUM_PRIORITIES : Z := 32.
Definition LOWEST_PRIORITY : Z := 0.
Definition HIGHEST_PRIORITY : Z := NUM_PRIORITIES - 1.
Definition IDLE_PRIORITY : Z := LOWEST_PRIORITY.
Definition DEFAULT_PRIORITY : Z := NUM_PRIORITIES / 2.

Definition THREAD_FLAG_DETACHED : Z := Z.shiftl 1 0.
Definition THREAD_FLAG_FREE_STACK : Z := Z.shiftl 1 1.
Definition THREAD_FLAG_FREE_STRUCT : Z := Z.shiftl 1 2.
Definition THREAD_FLAG_REAL_TIME : Z := Z.shiftl 1 3.
Definition THREAD_FLAG_IDLE : Z := Z.shiftl 1 4.
Definition THREAD_FLAG_DEBUG_STACK_BOUNDS_CHECK : Z := Z.shiftl 1 5.

Definition THREAD_MAGIC : Z := 0x74687264.
Definition WAIT_QUEUE_MAGIC : Z := 0x77616974.
Definition MUTEX_MAGIC : Z := 0x6D757478.
Definition SEMAPHORE_MAGIC : Z := 0x73656D61.
Definition EVENT_MAGIC : Z := 0x65766E74.
Definition EVENT_FLAG_AUTOUNSIGNAL : Z := 1.

Definition THREAD_STACK_PADDING_SIZE : Z := 256.
Definition DEFAULT_STACK_SIZE : Z := 4096.

(** [(f & bit) != 0] *)
Definition has_flag (f bit : Z) : bool := negb (Z.land f bit =? 0).

(** ** Data *)

Inductive thread_state :=
| THREAD_SUSPENDED
| THREAD_READY
| THREAD_RUNNING
| THREAD_BLOCKED
| THREAD_SLEEPING
| THREAD_DEATH.

#[export] Instance thread_state_eq_dec : EqDecision thread_state.
Proof. solve_decision. Defined.

(** The wait queues are embedded in other objects: a wait queue's address is
    the object and the member it is. *)
Inductive wqid :=
| RetcodeWQ (t : ptr)
| MutexWQ (m : ptr)
| SemWQ (m : ptr)
| EventWQ (e : ptr).

#[export] Instance wqid_eq_dec : EqDecision wqid.
Proof. solve_decision. Defined.

Definition wqid_encode (w : wqid) : ptr + (ptr + (ptr + ptr)) :=
  match w with
  | RetcodeWQ t => inl t
  | MutexWQ m => inr (inl m)
  | SemWQ m => inr (inr (inl m))
  | EventWQ e => inr (inr (inr e))
  end.

Definition wqid_decode (x : ptr + (ptr + (ptr + ptr))) : wqid :=
  match x with
  | inl t => RetcodeWQ t
  | inr (inl m) => MutexWQ m
  | inr (inr (inl m)) => SemWQ m
  | inr (inr (inr e)) => EventWQ e
  end.

#[export] Instance wqid_countable : Countable wqid.
Proof. apply (inj_countable' wqid_encode wqid_decode). by intros []. Defined.

(** [wait_queue_t]; the circular list is the sequence of its threads. *)
Record wait_queue_t := mk_wq { wq_magic : Z; wq_list : list ptr; wq_count : Z }.

Definition WAIT_QUEUE_INITIAL_VALUE : wait_queue_t := mk_wq WAIT_QUEUE_MAGIC [] 0.

(** The embedded wait queue is [wqs !! MutexWQ m]. *)
Record mutex_t := mk_mutex { m_magic : Z; m_holder : option ptr; m_count : Z }.
Record semaphore_t := mk_sem { sem_magic : Z; sem_count : Z }.
Record event_t := mk_event { e_magic : Z; e_signaled : bool; e_flags : Z }.

(** [ltimer_t] of [UefiHost.c]: a timer of LKL.  Its condition is the event at
    the same address; [lt_event] is the firmware's event; [lt_event] and
    [lt_thread] are [None] until they are set. *)
Record ltimer_t := mk_ltimer {
  lt_event : option ptr; lt_fn : Z; lt_arg : Z; lt_thread : option ptr; request_stop : bool }.

(** The part of [ucontext_t] that [arch_thread_initialize] sets. *)
Record ucontext := mk_ucontext {
  ss_sp : option ptr; ss_size : Z; ss_flags : Z; uc_link : option ptr }.

Record thread_t := mk_thread {
  magic : Z;
  priority : Z;
  state : thread_state;
  remaining_quantum : Z;
  flags : Z;
  terrno : Z;
  blocking_wait_queue : option wqid;
  wait_queue_block_ret : Z;
  arch : option ucontext;
  stack : option ptr;
  stack_size : Z;
  entry : Z;
  arg : Z;
  retcode : Z;
  name : list Z
}.

Definition th_magic (v : Z) (x : thread_t) : thread_t :=
  mk_thread v (x.(priority)) (x.(state)) (x.(remaining_quantum)) (x.(flags))
      (x.(terrno)) (x.(blocking_wait_queue)) (x.(wait_queue_block_ret)) (x.(arch))
      (x.(stack)) (x.(stack_size)) (x.(entry)) (x.(arg)) (x.(retcode)) (x.(name)).
Definition th_priority (v : Z) (x : thread_t) : thread_t :=
  mk_thread (x.(magic)) v (x.(state)) (x.(remaining_quantum)) (x.(flags)) (x.(terrno))
      (x.(blocking_wait_queue)) (x.(wait_queue_block_ret)) (x.(arch)) (x.(stack))
      (x.(stack_size)) (x.(entry)) (x.(arg)) (x.(retcode)) (x.(name)).
Definition th_state (v : thread_state) (x : thread_t) : thread_t :=
  mk_thread (x.(magic)) (x.(priority)) v (x.(remaining_quantum)) (x.(flags))
      (x.(terrno)) (x.(blocking_wait_queue)) (x.(wait_queue_block_ret)) (x.(arch))
      (x.(stack)) (x.(stack_size)) (x.(entry)) (x.(arg)) (x.(retcode)) (x.(name)).
Definition th_remaining_quantum (v : Z) (x : thread_t) : thread_t :=
  mk_thread (x.(magic)) (x.(priority)) (x.(state)) v (x.(flags)) (x.(terrno))
      (x.(blocking_wait_queue)) (x.(wait_queue_block_ret)) (x.(arch)) (x.(stack))
      (x.(stack_size)) (x.(entry)) (x.(arg)) (x.(retcode)) (x.(name)).
Definition th_flags (v : Z) (x : thread_t) : thread_t :=
  mk_thread (x.(magic)) (x.(priority)) (x.(state)) (x.(remaining_quantum)) v
      (x.(terrno)) (x.(blocking_wait_queue)) (x.(wait_queue_block_ret)) (x.(arch))
      (x.(stack)) (x.(stack_size)) (x.(entry)) (x.(arg)) (x.(retcode)) (x.(name)).
Definition th_terrno (v : Z) (x : thread_t) : thread_t :=
  mk_thread (x.(magic)) (x.(priority)) (x.(state)) (x.(remaining_quantum)) (x.(flags))
      v (x.(blocking_wait_queue)) (x.(wait_queue_block_ret)) (x.(arch)) (x.(stack))
      (x.(stack_size)) (x.(entry)) (x.(arg)) (x.(retcode)) (x.(name)).
Definition th_blocking_wait_queue (v : option wqid) (x : thread_t) : thread_t :=
  mk_thread (x.(magic)) (x.(priority)) (x.(state)) (x.(remaining_quantum)) (x.(flags))
      (x.(terrno)) v (x.(wait_queue_block_ret)) (x.(arch)) (x.(stack)) (x.(stack_size))
      (x.(entry)) (x.(arg)) (x.(retcode)) (x.(name)).
Definition th_wait_queue_block_ret (v : Z) (x : thread_t) : thread_t :=
  mk_thread (x.(magic)) (x.(priority)) (x.(state)) (x.(remaining_quantum)) (x.(flags))
      (x.(terrno)) (x.(blocking_wait_queue)) v (x.(arch)) (x.(stack)) (x.(stack_size))
      (x.(entry)) (x.(arg)) (x.(retcode)) (x.(name)).
Definition th_arch (v : option ucontext) (x : thread_t) : thread_t :=
  mk_thread (x.(magic)) (x.(priority)) (x.(state)) (x.(remaining_quantum)) (x.(flags))
      (x.(terrno)) (x.(blocking_wait_queue)) (x.(wait_queue_block_ret)) v (x.(stack))
      (x.(stack_size)) (x.(entry)) (x.(arg)) (x.(retcode)) (x.(name)).
Definition th_stack (v : option ptr) (x : thread_t) : thread_t :=
  mk_thread (x.(magic)) (x.(priority)) (x.(state)) (x.(remaining_quantum)) (x.(flags))
      (x.(terrno)) (x.(blocking_wait_queue)) (x.(wait_queue_block_ret)) (x.(arch)) v
      (x.(stack_size)) (x.(entry)) (x.(arg)) (x.(retcode)) (x.(name)).
Definition th_stack_size (v : Z) (x : thread_t) : thread_t :=
  mk_thread (x.(magic)) (x.(priority)) (x.(state)) (x.(remaining_quantum)) (x.(flags))
      (x.(terrno)) (x.(blocking_wait_queue)) (x.(wait_queue_block_ret)) (x.(arch))
      (x.(stack)) v (x.(entry)) (x.(arg)) (x.(retcode)) (x.(name)).
Definition th_entry (v : Z) (x : thread_t) : thread_t :=
  mk_thread (x.(magic)) (x.(priority)) (x.(state)) (x.(remaining_quantum)) (x.(flags))
      (x.(terrno)) (x.(blocking_wait_queue)) (x.(wait_queue_block_ret)) (x.(arch))
      (x.(stack)) (x.(stack_size)) v (x.(arg)) (x.(retcode)) (x.(name)).
Definition th_arg (v : Z) (x : thread_t) : thread_t :=
  mk_thread (x.(magic)) (x.(priority)) (x.(state)) (x.(remaining_quantum)) (x.(flags))
      (x.(terrno)) (x.(blocking_wait_queue)) (x.(wait_queue_block_ret)) (x.(arch))
      (x.(stack)) (x.(stack_size)) (x.(entry)) v (x.(retcode)) (x.(name)).
Definition th_retcode (v : Z) (x : thread_t) : thread_t :=
  mk_thread (x.(magic)) (x.(priority)) (x.(state)) (x.(remaining_quantum)) (x.(flags))
      (x.(terrno)) (x.(blocking_wait_queue)) (x.(wait_queue_block_ret)) (x.(arch))
      (x.(stack)) (x.(stack_size)) (x.(entry)) (x.(arg)) v (x.(name)).
Definition th_name (v : list Z) (x : thread_t) : thread_t :=
  mk_thread (x.(magic)) (x.(priority)) (x.(state)) (x.(remaining_quantum)) (x.(flags))
      (x.(terrno)) (x.(blocking_wait_queue)) (x.(wait_queue_block_ret)) (x.(arch))
      (x.(stack)) (x.(stack_size)) (x.(entry)) (x.(arg)) (x.(retcode)) v.

(** ** Kernel state

    [threads] holds the allocated [thread_t] structures, [wqs] the wait queues
    embedded in allocated objects.  A run queue is the sequence of the threads
    linked in it through [queue_node] ([DList] justifies this view).
    [malloc_fails] is the sequence of the outcomes of the coming [malloc]
    calls ([true]: it returns NULL; past its end every call succeeds).
    [overrun] holds the stacks whose guard words have been overwritten.
    [ltimers] are the timers of [UefiHost.c], which live in the same heap;
    [fw_log] records the calls of the firmware's event services, in order. *)

(** The two notification functions, and the calls with their arguments in the
    order of the UEFI specification (the result parameter left out). *)
Inductive notify_function := fn_TimerCallback | fn_LTimerCallback.
Inductive fw_call :=
| FwCreateEvent (Type_ NotifyTpl : Z) (NotifyFunction : notify_function) (NotifyContext : option ptr)
| FwSetTimer (Event : option ptr) (Type_ TriggerTime : Z)
| FwCloseEvent (Event : option ptr).

Record kstate := mk_kstate {
  threads : gmap positive thread_t;
  thread_list : list ptr;
  run_queue : list (list ptr);
  run_queue_bitmap : Z;
  wqs : gmap wqid wait_queue_t;
  current_thread : option ptr;
  thread_lock : Z;
  ints_enabled : bool;
  fiqs_enabled : bool;
  errno : Z;
  mutexes : gmap positive mutex_t;
  semaphores : gmap positive semaphore_t;
  events : gmap positive event_t;
  ticks : Z;
  malloc_fails : list bool;
  next_ptr : ptr;
  allocated : gset positive;
  overrun : gset positive;
  ltimers : gmap positive ltimer_t;
  fw_log : list fw_call
}.

Definition k_threads (v : gmap positive thread_t) (x : kstate) : kstate :=
  mk_kstate v (x.(thread_list)) (x.(run_queue)) (x.(run_queue_bitmap)) (x.(wqs))
      (x.(current_thread)) (x.(thread_lock)) (x.(ints_enabled)) (x.(fiqs_enabled))
      (x.(errno)) (x.(mutexes)) (x.(semaphores)) (x.(events)) (x.(ticks))
      (x.(malloc_fails)) (x.(next_ptr)) (x.(allocated)) (x.(overrun))
      (x.(ltimers)) (x.(fw_log)).
Definition k_thread_list (v : list ptr) (x : kstate) : kstate :=
  mk_kstate (x.(threads)) v (x.(run_queue)) (x.(run_queue_bitmap)) (x.(wqs))
      (x.(current_thread)) (x.(thread_lock)) (x.(ints_enabled)) (x.(fiqs_enabled))
      (x.(errno)) (x.(mutexes)) (x.(semaphores)) (x.(events)) (x.(ticks))
      (x.(malloc_fails)) (x.(next_ptr)) (x.(allocated)) (x.(overrun))
      (x.(ltimers)) (x.(fw_log)).
Definition k_run_queue (v : list (list ptr)) (x : kstate) : kstate :=
  mk_kstate (x.(threads)) (x.(thread_list)) v (x.(run_queue_bitmap)) (x.(wqs))
      (x.(current_thread)) (x.(thread_lock)) (x.(ints_enabled)) (x.(fiqs_enabled))
      (x.(errno)) (x.(mutexes)) (x.(semaphores)) (x.(events)) (x.(ticks))
      (x.(malloc_fails)) (x.(next_ptr)) (x.(allocated)) (x.(overrun))
      (x.(ltimers)) (x.(fw_log)).
Definition k_run_queue_bitmap (v : Z) (x : kstate) : kstate :=
  mk_kstate (x.(threads)) (x.(thread_list)) (x.(run_queue)) v (x.(wqs))
      (x.(current_thread)) (x.(thread_lock)) (x.(ints_enabled)) (x.(fiqs_enabled))
      (x.(errno)) (x.(mutexes)) (x.(semaphores)) (x.(events)) (x.(ticks))
      (x.(malloc_fails)) (x.(next_ptr)) (x.(allocated)) (x.(overrun))
      (x.(ltimers)) (x.(fw_log)).
Definition k_wqs (v : gmap wqid wait_queue_t) (x : kstate) : kstate :=
  mk_kstate (x.(threads)) (x.(thread_list)) (x.(run_queue)) (x.(run_queue_bitmap)) v
      (x.(current_thread)) (x.(thread_lock)) (x.(ints_enabled)) (x.(fiqs_enabled))
      (x.(errno)) (x.(mutexes)) (x.(semaphores)) (x.(events)) (x.(ticks))
      (x.(malloc_fails)) (x.(next_ptr)) (x.(allocated)) (x.(overrun))
      (x.(ltimers)) (x.(fw_log)).
Definition k_current_thread (v : option ptr) (x : kstate) : kstate :=
  mk_kstate (x.(threads)) (x.(thread_list)) (x.(run_queue)) (x.(run_queue_bitmap))
      (x.(wqs)) v (x.(thread_lock)) (x.(ints_enabled)) (x.(fiqs_enabled)) (x.(errno))
      (x.(mutexes)) (x.(semaphores)) (x.(events)) (x.(ticks)) (x.(malloc_fails))
      (x.(next_ptr)) (x.(allocated)) (x.(overrun))
      (x.(ltimers)) (x.(fw_log)).
Definition k_thread_lock (v : Z) (x : kstate) : kstate :=
  mk_kstate (x.(threads)) (x.(thread_list)) (x.(run_queue)) (x.(run_queue_bitmap))
      (x.(wqs)) (x.(current_thread)) v (x.(ints_enabled)) (x.(fiqs_enabled)) (x.(errno))
      (x.(mutexes)) (x.(semaphores)) (x.(events)) (x.(ticks)) (x.(malloc_fails))
      (x.(next_ptr)) (x.(allocated)) (x.(overrun))
      (x.(ltimers)) (x.(fw_log)).
Definition k_ints_enabled (v : bool) (x : kstate) : kstate :=
  mk_kstate (x.(threads)) (x.(thread_list)) (x.(run_queue)) (x.(run_queue_bitmap))
      (x.(wqs)) (x.(current_thread)) (x.(thread_lock)) v (x.(fiqs_enabled)) (x.(errno))
      (x.(mutexes)) (x.(semaphores)) (x.(events)) (x.(ticks)) (x.(malloc_fails))
      (x.(next_ptr)) (x.(allocated)) (x.(overrun))
      (x.(ltimers)) (x.(fw_log)).
Definition k_fiqs_enabled (v : bool) (x : kstate) : kstate :=
  mk_kstate (x.(threads)) (x.(thread_list)) (x.(run_queue)) (x.(run_queue_bitmap))
      (x.(wqs)) (x.(current_thread)) (x.(thread_lock)) (x.(ints_enabled)) v (x.(errno))
      (x.(mutexes)) (x.(semaphores)) (x.(events)) (x.(ticks)) (x.(malloc_fails))
      (x.(next_ptr)) (x.(allocated)) (x.(overrun))
      (x.(ltimers)) (x.(fw_log)).
Definition k_errno (v : Z) (x : kstate) : kstate :=
  mk_kstate (x.(threads)) (x.(thread_list)) (x.(run_queue)) (x.(run_queue_bitmap))
      (x.(wqs)) (x.(current_thread)) (x.(thread_lock)) (x.(ints_enabled))
      (x.(fiqs_enabled)) v (x.(mutexes)) (x.(semaphores)) (x.(events)) (x.(ticks))
      (x.(malloc_fails)) (x.(next_ptr)) (x.(allocated)) (x.(overrun))
      (x.(ltimers)) (x.(fw_log)).
Definition k_mutexes (v : gmap positive mutex_t) (x : kstate) : kstate :=
  mk_kstate (x.(threads)) (x.(thread_list)) (x.(run_queue)) (x.(run_queue_bitmap))
      (x.(wqs)) (x.(current_thread)) (x.(thread_lock)) (x.(ints_enabled))
      (x.(fiqs_enabled)) (x.(errno)) v (x.(semaphores)) (x.(events)) (x.(ticks))
      (x.(malloc_fails)) (x.(next_ptr)) (x.(allocated)) (x.(overrun))
      (x.(ltimers)) (x.(fw_log)).
Definition k_semaphores (v : gmap positive semaphore_t) (x : kstate) : kstate :=
  mk_kstate (x.(threads)) (x.(thread_list)) (x.(run_queue)) (x.(run_queue_bitmap))
      (x.(wqs)) (x.(current_thread)) (x.(thread_lock)) (x.(ints_enabled))
      (x.(fiqs_enabled)) (x.(errno)) (x.(mutexes)) v (x.(events)) (x.(ticks))
      (x.(malloc_fails)) (x.(next_ptr)) (x.(allocated)) (x.(overrun))
      (x.(ltimers)) (x.(fw_log)).
Definition k_events (v : gmap positive event_t) (x : kstate) : kstate :=
  mk_kstate (x.(threads)) (x.(thread_list)) (x.(run_queue)) (x.(run_queue_bitmap))
      (x.(wqs)) (x.(current_thread)) (x.(thread_lock)) (x.(ints_enabled))
      (x.(fiqs_enabled)) (x.(errno)) (x.(mutexes)) (x.(semaphores)) v (x.(ticks))
      (x.(malloc_fails)) (x.(next_ptr)) (x.(allocated)) (x.(overrun))
      (x.(ltimers)) (x.(fw_log)).
Definition k_ticks (v : Z) (x : kstate) : kstate :=
  mk_kstate (x.(threads)) (x.(thread_list)) (x.(run_queue)) (x.(run_queue_bitmap))
      (x.(wqs)) (x.(current_thread)) (x.(thread_lock)) (x.(ints_enabled))
      (x.(fiqs_enabled)) (x.(errno)) (x.(mutexes)) (x.(semaphores)) (x.(events)) v
      (x.(malloc_fails)) (x.(next_ptr)) (x.(allocated)) (x.(overrun))
      (x.(ltimers)) (x.(fw_log)).
Definition k_malloc_fails (v : list bool) (x : kstate) : kstate :=
  mk_kstate (x.(threads)) (x.(thread_list)) (x.(run_queue)) (x.(run_queue_bitmap))
      (x.(wqs)) (x.(current_thread)) (x.(thread_lock)) (x.(ints_enabled))
      (x.(fiqs_enabled)) (x.(errno)) (x.(mutexes)) (x.(semaphores)) (x.(events))
      (x.(ticks)) v (x.(next_ptr)) (x.(allocated)) (x.(overrun))
      (x.(ltimers)) (x.(fw_log)).
Definition k_next_ptr (v : ptr) (x : kstate) : kstate :=
  mk_kstate (x.(threads)) (x.(thread_list)) (x.(run_queue)) (x.(run_queue_bitmap))
      (x.(wqs)) (x.(current_thread)) (x.(thread_lock)) (x.(ints_enabled))
      (x.(fiqs_enabled)) (x.(errno)) (x.(mutexes)) (x.(semaphores)) (x.(events))
      (x.(ticks)) (x.(malloc_fails)) v (x.(allocated)) (x.(overrun))
      (x.(ltimers)) (x.(fw_log)).
Definition k_allocated (v : gset positive) (x : kstate) : kstate :=
  mk_kstate (x.(threads)) (x.(thread_list)) (x.(run_queue)) (x.(run_queue_bitmap))
      (x.(wqs)) (x.(current_thread)) (x.(thread_lock)) (x.(ints_enabled))
      (x.(fiqs_enabled)) (x.(errno)) (x.(mutexes)) (x.(semaphores)) (x.(events))
      (x.(ticks)) (x.(malloc_fails)) (x.(next_ptr)) v (x.(overrun))
      (x.(ltimers)) (x.(fw_log)).
Definition k_overrun (v : gset positive) (x : kstate) : kstate :=
  mk_kstate (x.(threads)) (x.(thread_list)) (x.(run_queue)) (x.(run_queue_bitmap))
      (x.(wqs)) (x.(current_thread)) (x.(thread_lock)) (x.(ints_enabled))
      (x.(fiqs_enabled)) (x.(errno)) (x.(mutexes)) (x.(semaphores)) (x.(events))
      (x.(ticks)) (x.(malloc_fails)) (x.(next_ptr)) (x.(allocated)) v
      (x.(ltimers)) (x.(fw_log)).
Definition k_ltimers (v : gmap positive ltimer_t) (x : kstate) : kstate :=
  mk_kstate (x.(threads)) (x.(thread_list)) (x.(run_queue)) (x.(run_queue_bitmap))
      (x.(wqs)) (x.(current_thread)) (x.(thread_lock)) (x.(ints_enabled))
      (x.(fiqs_enabled)) (x.(errno)) (x.(mutexes)) (x.(semaphores)) (x.(events))
      (x.(ticks)) (x.(malloc_fails)) (x.(next_ptr)) (x.(allocated)) (x.(overrun)) v
      (x.(fw_log)).
Definition k_fw_log (v : list fw_call) (x : kstate) : kstate :=
  mk_kstate (x.(threads)) (x.(thread_list)) (x.(run_queue)) (x.(run_queue_bitmap))
      (x.(wqs)) (x.(current_thread)) (x.(thread_lock)) (x.(ints_enabled))
      (x.(fiqs_enabled)) (x.(errno)) (x.(mutexes)) (x.(semaphores)) (x.(events))
      (x.(ticks)) (x.(malloc_fails)) (x.(next_ptr)) (x.(allocated)) (x.(overrun))
      (x.(ltimers)) v.

Lemma kstate_ext (s s' : kstate) :
  threads s = threads s' -> thread_list s = thread_list s' -> run_queue s = run_queue s' ->
  run_queue_bitmap s = run_queue_bitmap s' -> wqs s = wqs s' ->
  current_thread s = current_thread s' -> thread_lock s = thread_lock s' ->
  ints_enabled s = ints_enabled s' -> fiqs_enabled s = fiqs_enabled s' -> errno s = errno s' ->
  mutexes s = mutexes s' -> semaphores s = semaphores s' -> events s = events s' ->
  ticks s = ticks s' -> malloc_fails s = malloc_fails s' -> next_ptr s = next_ptr s' ->
  allocated s = allocated s' -> overrun s = overrun s' -> ltimers s = ltimers s' -> fw_log s = fw_log s' -> s = s'.
Proof. destruct s, s'; simpl; intros; by subst. Qed.

(** The statically allocated idle thread. *)
Definition _idle_thread : ptr := 1%positive.

(** ** The monad *)

(** [Panic]: [panic()], a failed assertion or [abort()].  [UB]: the C code
    dereferences NULL or freed memory or indexes out of bounds.  [Fuel]: the
    loop bound of the model was too small. *)
Inductive failure := Panic | UB | Fuel.

Inductive run (A : Type) : Type :=
| Done (a : A) (s : kstate)
| Switch (s : kstate) (k : kstate -> run A)
| Fail (e : failure).
Arguments Done {A} a s.
Arguments Switch {A} s k.
Arguments Fail {A} e.

Definition M (A : Type) : Type := kstate -> run A.

Fixpoint bind_run {A B} (f : A -> M B) (r : run A) : run B :=
  match r with
  | Done a s => f a s
  | Switch s k => Switch s (fun s' => bind_run f (k s'))
  | Fail e => Fail e
  end.

#[export] Instance M_ret : MRet M := fun A a s => Done a s.
#[export] Instance M_bind : MBind M := fun A B f m s => bind_run f (m s).

Definition fail {A} (e : failure) : M A := fun _ => Fail e.
Definition get {A} (f : kstate -> A) : M A := fun s => Done (f s) s.
Definition modify (f : kstate -> kstate) : M unit := fun s => Done tt (f s).
Definition when (b : bool) (m : M unit) : M unit := if b then m else mret tt.

(** Dereferences of objects that must be allocated. *)
Definition get_thread (t : ptr) : M thread_t := fun s =>
  match threads s !! t with Some th => Done th s | None => Fail UB end.
Definition upd_thread (t : ptr) (f : thread_t -> thread_t) : M unit := fun s =>
  match threads s !! t with
  | Some th => Done tt (k_threads (<[t := f th]> (threads s)) s)
  | None => Fail UB
  end.
Definition get_wq (w : wqid) : M wait_queue_t := fun s =>
  match wqs s !! w with Some q => Done q s | None => Fail UB end.
Definition put_wq (w : wqid) (q : wait_queue_t) : M unit := fun s =>
  match wqs s !! w with
  | Some _ => Done tt (k_wqs (<[w := q]> (wqs s)) s)
  | None => Fail UB
  end.

(** [&run_queue[p]] *)
Definition get_rq (p : Z) : M (list ptr) := fun s =>
  match (if decide (0 <= p) then run_queue s !! Z.to_nat p else None) with
  | Some q => Done q s
  | None => Fail UB
  end.
Definition put_rq (p : Z) (q : list ptr) : M unit :=
  modify (fun s => k_run_queue (<[Z.to_nat p := q]> (run_queue s)) s).

Definition get_current_thread : M ptr := fun s =>
  match current_thread s with Some t => Done t s | None => Fail UB end.
Definition set_current_thread (t : ptr) : M unit :=
  modify (k_current_thread (Some t)).

(** ** Allocation ([malloc] and [free] of the C library) *)

Definition malloc : M (option ptr) := fun s =>
  match malloc_fails s with
  | true :: fs => Done None (k_malloc_fails fs s)
  | fs =>
      let p := next_ptr s in
      Done (Some p)
        (k_malloc_fails (tail fs) (k_next_ptr (Pos.succ p)
           (k_allocated ({[p]} ∪ allocated s) s)))
  end.

(** Freeing a block also takes the [thread_t] that may live in it. *)
Definition free (p : ptr) : M unit := fun s =>
  if decide (p ∈ allocated s) then
    Done tt (k_allocated (allocated s ∖ {[p]})
      (k_threads (delete p (threads s)) (k_wqs (delete (RetcodeWQ p) (wqs s)) s)))
  else Fail UB.

(** ** Compile-time configuration

    [LK_DEBUGLEVEL] is 0 unless the build defines it ([Include/lk/debug.h]);
    [NDEBUG] is what turns off [assert] of the C library's [assert.h].
    Everything below holds for every level and both values. *)
Class Config := { LK_DEBUGLEVEL : Z; NDEBUG : bool }.

(** A build with every assertion on. *)
Definition debug_config : Config := {| LK_DEBUGLEVEL := 2; NDEBUG := false |}.

Definition debug_build `{Config} : bool := 1 <? LK_DEBUGLEVEL.

(** [DEBUG_ASSERT] of [Include/lk/assert.h], the condition being a test of
    the current state. *)
Definition DEBUG_ASSERT `{Config} (c : kstate -> bool) : M unit := fun s =>
  if debug_build then (if c s then Done tt s else Fail Panic) else Done tt s.

(** ** Interrupts and the scheduler lock ([Include/lk/arch/arch_ops.h],
    [Include/lk/arch/spinlock.h], [Include/lk/kernel/spinlock.h])

    The firmware's CPU protocol is the [ints_enabled] bit. *)

Definition SPIN_LOCK_FLAG_IRQ : Z := 0x40000000.
Definition SPIN_LOCK_FLAG_FIQ : Z := 0x80000000.
Definition SPIN_LOCK_FLAG_INTERRUPTS : Z := SPIN_LOCK_FLAG_IRQ.
Definition SPIN_LOCK_STATE_RESTORE_IRQ : Z := 1.
Definition SPIN_LOCK_STATE_RESTORE_FIQ : Z := 2.

Definition arch_ints_disabled (s : kstate) : bool := negb (ints_enabled s).
Definition arch_enable_ints : M unit := modify (k_ints_enabled true).
Definition arch_disable_ints : M unit := modify (k_ints_enabled false).
Definition arch_fiqs_disabled (s : kstate) : bool := negb (fiqs_enabled s).
Definition arch_enable_fiqs : M unit := modify (k_fiqs_enabled true).
Definition arch_disable_fiqs : M unit := modify (k_fiqs_enabled false).

Definition arch_interrupt_save (fl : Z) : M Z :=
  ints ← get arch_ints_disabled;
  st ← (if has_flag fl SPIN_LOCK_FLAG_IRQ && negb ints then
          arch_disable_ints;; mret (Z.lor 0 SPIN_LOCK_STATE_RESTORE_IRQ)
        else mret 0);
  fiqs ← get arch_fiqs_disabled;
  if has_flag fl SPIN_LOCK_FLAG_FIQ && negb fiqs then
    arch_disable_fiqs;; mret (Z.lor st SPIN_LOCK_STATE_RESTORE_FIQ)
  else mret st.

Definition arch_interrupt_restore (old_state fl : Z) : M unit :=
  when (has_flag fl SPIN_LOCK_FLAG_FIQ && has_flag old_state SPIN_LOCK_STATE_RESTORE_FIQ)
    arch_enable_fiqs;;
  when (has_flag fl SPIN_LOCK_FLAG_IRQ && has_flag old_state SPIN_LOCK_STATE_RESTORE_IRQ)
    arch_enable_ints.

(** [thread_lock] is the only spin lock of the kernel. *)
Definition spin_lock : M unit := modify (k_thread_lock 1).
Definition spin_unlock : M unit := modify (k_thread_lock 0).
Definition spin_lock_held (s : kstate) : bool := negb (thread_lock s =? 0).

Definition spin_lock_save (fl : Z) : M Z :=
  st ← arch_interrupt_save fl; spin_lock;; mret st.
Definition spin_unlock_restore (old_state fl : Z) : M unit :=
  spin_unlock;; arch_interrupt_restore old_state fl.

Definition THREAD_LOCK : M Z := spin_lock_save SPIN_LOCK_FLAG_INTERRUPTS.
Definition THREAD_UNLOCK (st : Z) : M unit :=
  spin_unlock_restore st SPIN_LOCK_FLAG_INTERRUPTS.

(** ** Timers ([lk/arch_thread.c])

    The port has no kernel timers: every entry point is [assert(0)]. *)
Definition timer_assert `{Config} : M unit := if NDEBUG then mret tt else fail Panic.
Definition timer_initialize `{Config} : M unit := timer_assert.
Definition timer_set_oneshot `{Config} (delay : Z) : M unit := timer_assert.
Definition timer_set_periodic `{Config} (period : Z) : M unit := timer_assert.
Definition timer_cancel `{Config} : M unit := timer_assert.

(** [mp_reschedule] on a single-CPU build ([Include/lk/kernel/mp.h]). *)
Definition MP_CPU_ALL_BUT_LOCAL : Z := UINT32_MAX.
Definition mp_reschedule (target fl : Z) : M unit := mret tt.

(** ** Running the primitives *)

Definition locked (s : kstate) : Prop := ints_enabled s = false /\ thread_lock s = 1.

Section primitives.
Context `{Config}.
Implicit Types (s : kstate).

Lemma bind_done {A B} (m : M A) (f : A -> M B) s a s' :
  m s = Done a s' -> (m ≫= f) s = f a s'.
Proof. unfold mbind, M_bind. by intros ->. Qed.

Lemma bind_done_inv {A B} (m : M A) (f : A -> M B) s b s' :
  (m ≫= f) s = Done b s' -> exists a s0, m s = Done a s0 /\ f a s0 = Done b s'.
Proof. unfold mbind, M_bind. destruct (m s); simpl; naive_solver. Qed.

Lemma bind_switch {A B} (m : M A) (f : A -> M B) s s' k :
  m s = Switch s' k -> (m ≫= f) s = Switch s' (fun s2 => bind_run f (k s2)).
Proof. unfold mbind, M_bind. by intros ->. Qed.

Lemma DEBUG_ASSERT_ok c s : c s = true -> DEBUG_ASSERT c s = Done tt s.
Proof. unfold DEBUG_ASSERT. intros ->. by destruct debug_build. Qed.

Lemma bind_assert {A} c (f : unit -> M A) s r :
  c s = true -> f tt s = r -> (DEBUG_ASSERT c ≫= f) s = r.
Proof. intros Hc Hf. by rewrite (bind_done _ _ _ _ _ (DEBUG_ASSERT_ok _ _ Hc)). Qed.

Lemma get_thread_ok s t th : threads s !! t = Some th -> get_thread t s = Done th s.
Proof. unfold get_thread. by intros ->. Qed.

Lemma upd_thread_ok s t th f :
  threads s !! t = Some th ->
  upd_thread t f s = Done tt (k_threads (<[t := f th]> (threads s)) s).
Proof. unfold upd_thread. by intros ->. Qed.

Lemma get_wq_ok s w q : wqs s !! w = Some q -> get_wq w s = Done q s.
Proof. unfold get_wq. by intros ->. Qed.

Lemma put_wq_ok s w q q' :
  wqs s !! w = Some q -> put_wq w q' s = Done tt (k_wqs (<[w := q']> (wqs s)) s).
Proof. unfold put_wq. by intros ->. Qed.

Lemma get_current_thread_ok s t :
  current_thread s = Some t -> get_current_thread s = Done t s.
Proof. unfold get_current_thread. by intros ->. Qed.

Lemma get_rq_ok s p q :
  0 <= p -> run_queue s !! Z.to_nat p = Some q -> get_rq p s = Done q s.
Proof. intros Hp Hq. unfold get_rq. rewrite decide_True by done. by rewrite Hq. Qed.

(** [THREAD_LOCK] and [THREAD_UNLOCK] as state updates: the saved value
    brings the interrupts back to what they were. *)
Definition lock_state s : kstate := k_thread_lock 1 (k_ints_enabled false s).
Definition saved_ints s : Z := if ints_enabled s then SPIN_LOCK_STATE_RESTORE_IRQ else 0.
Definition unlock_state (st : Z) s : kstate :=
  if has_flag st SPIN_LOCK_STATE_RESTORE_IRQ
  then k_ints_enabled true (k_thread_lock 0 s) else k_thread_lock 0 s.

Lemma THREAD_LOCK_ok s : THREAD_LOCK s = Done (saved_ints s) (lock_state s).
Proof.
  destruct s as [? ? ? ? ? ? ? ie ? ? ? ? ? ? ? ? ? ? ?].
  by destruct ie.
Qed.

Lemma THREAD_UNLOCK_ok st s : THREAD_UNLOCK st s = Done tt (unlock_state st s).
Proof.
  unfold THREAD_UNLOCK, spin_unlock_restore, arch_interrupt_restore, unlock_state.
  change (has_flag SPIN_LOCK_FLAG_INTERRUPTS SPIN_LOCK_FLAG_FIQ) with false.
  change (has_flag SPIN_LOCK_FLAG_INTERRUPTS SPIN_LOCK_FLAG_IRQ) with true.
  by destruct (has_flag st SPIN_LOCK_STATE_RESTORE_IRQ).
Qed.

Lemma lock_state_locked s : locked (lock_state s).
Proof. by destruct s. Qed.

Lemma unlock_saved_ints s s' :
  ints_enabled s' = false -> ints_enabled (unlock_state (saved_ints s) s') = ints_enabled s.
Proof. unfold saved_ints. by destruct (ints_enabled s), s'. Qed.

Lemma unlock_state_lock st s : thread_lock (unlock_state st s) = 0.
Proof. unfold unlock_state. by destruct has_flag. Qed.
End primitives.

(** [kstep] runs the next primitive of a kernel function in the goal
    [(m ≫= f) s = r]. *)
Ltac kprim :=
  first
    [ eassumption
    | eapply THREAD_LOCK_ok | eapply THREAD_UNLOCK_ok
    | eapply get_current_thread_ok; simpl; eassumption
    | eapply get_thread_ok; simpl; first [eassumption | apply lookup_insert_eq]
    | eapply upd_thread_ok; simpl; first [eassumption | apply lookup_insert_eq]
    | eapply get_wq_ok; simpl; first [eassumption | apply lookup_insert_eq]
    | eapply put_wq_ok; simpl; first [eassumption | apply lookup_insert_eq]
    | reflexivity ].

Ltac kstep := erewrite bind_done; [| solve [kprim] ].
Ltac kassert := apply bind_assert; [simpl|].
