(* ===== verification/KInv.v ===== *)
(** * The scheduler invariant and the safety predicate

    [kinv run H s] says that the queues, the thread states and the run-queue
    bitmap of the state [s] agree: a thread is linked in exactly the queue
    its state says, [run] is the one running thread, and the threads of [H]
    are in flux (between two writes of a kernel function).  [safe] says what a
    resumption guarantees at its switches and at its end.  The lemmas of this
    file are the moves the kernel functions are made of: open a thread, write
    its fields, link it, unlink it, close it. *)

From S2P Require Import Prelude Kernel.

Inductive qid := RunQ (p : nat) | WaitQ (w : wqid).

#[export] Instance qid_eq_dec : EqDecision qid.
Proof. solve_decision. Defined.

(** The threads linked in a queue. *)
Definition queue (s : kstate) (q : qid) : list ptr :=
  match q with
  | RunQ p => default [] (run_queue s !! p)
  | WaitQ w => default [] (wq_list <$> wqs s !! w)
  end.

(** The queue a thread belongs in. *)
Definition home (th : thread_t) : option qid :=
  match state th with
  | THREAD_READY => Some (RunQ (Z.to_nat (priority th)))
  | THREAD_BLOCKED => WaitQ <$> blocking_wait_queue th
  | _ => None
  end.

Definition idle_state (st : thread_state) : Prop :=
  st = THREAD_SUSPENDED \/ st = THREAD_READY \/ st = THREAD_RUNNING.

(** No thread has [THREAD_FLAG_IDLE]; a thread with stack guard words has a
    stack. *)
Definition bad_flags (th : thread_t) : bool :=
  has_flag (flags th) THREAD_FLAG_IDLE ||
  (has_flag (flags th) THREAD_FLAG_DEBUG_STACK_BOUNDS_CHECK && bool_decide (stack th = None)).

Record kinv (run : option ptr) (H : gset positive) (s : kstate) : Prop := {
  ki_len : length (run_queue s) = 32%nat;
  ki_bm : 0 <= run_queue_bitmap s < 2 ^ 32;
  ki_bits : forall p, (p < 32)%nat ->
    Z.testbit (run_queue_bitmap s) (Z.of_nat p) =
    negb (bool_decide (queue s (RunQ p) = []));
  ki_home : forall t q, t ∈ queue s q <->
    t ∉ H /\ exists th, threads s !! t = Some th /\ home th = Some q;
  ki_nodup : forall q, NoDup (queue s q);
  ki_count : forall w q, wqs s !! w = Some q -> wq_count q = Z.of_nat (length (wq_list q));
  ki_prio : forall t th, threads s !! t = Some th -> 0 <= priority th < NUM_PRIORITIES;
  ki_runs : forall t th, t ∉ H -> threads s !! t = Some th ->
    state th = THREAD_RUNNING -> run = Some t;
  ki_cur : forall t, run = Some t ->
    t ∉ H /\ exists th, threads s !! t = Some th /\ state th = THREAD_RUNNING;
  ki_idle : exists th, threads s !! _idle_thread = Some th /\
    (_idle_thread ∉ H -> idle_state (state th));
  ki_magic : forall t th, threads s !! t = Some th ->
    state th <> THREAD_DEATH -> magic th = THREAD_MAGIC;
  ki_flag : forall t th, threads s !! t = Some th -> bad_flags th = false;
  ki_tl_nodup : NoDup (thread_list s);
  ki_tl : forall t, t ∈ thread_list s <->
    exists th, threads s !! t = Some th /\ magic th = THREAD_MAGIC;
  ki_fresh : forall t, is_Some (threads s !! t) \/ t ∈ allocated s ->
    (t < next_ptr s)%positive;
  ki_idle_static : _idle_thread ∉ allocated s;
  ki_retcode : forall t, is_Some (wqs s !! RetcodeWQ t) -> is_Some (threads s !! t);
  ki_overrun : overrun s = ∅;
}.

(** ** Safety of a resumption

    [G] holds of the state at every switch, [Q] of the result and the state
    at the end, provided [R] holds of the state whenever the thread is
    switched back to. *)
Fixpoint safe {A} (G R : kstate -> Prop) (Q : A -> kstate -> Prop) (r : run A) : Prop :=
  match r with
  | Done a s => Q a s
  | Switch s k => G s /\ forall s', R s' -> safe G R Q (k s')
  | Fail _ => False
  end.

Section safe.
Context {A B : Type} (G R : kstate -> Prop).

Lemma safe_mono (Q Q' : A -> kstate -> Prop) r :
  safe G R Q r -> (forall a s, Q a s -> Q' a s) -> safe G R Q' r.
Proof. induction r as [a s|s k IH|e]; simpl; naive_solver. Qed.

Lemma safe_weaken (G' R' : kstate -> Prop) (Q : A -> kstate -> Prop) r :
  safe G R Q r -> (forall s, G s -> G' s) -> (forall s, R' s -> R s) ->
  safe G' R' Q r.
Proof. intros Hr HG HR. induction r as [a s|s k IH|e]; simpl in *; naive_solver. Qed.

Lemma safe_bind (Q : A -> kstate -> Prop) (Q' : B -> kstate -> Prop) (f : A -> M B) r :
  safe G R Q r -> (forall a s, Q a s -> safe G R Q' (f a s)) ->
  safe G R Q' (bind_run f r).
Proof. induction r as [a s|s k IH|e]; simpl; naive_solver. Qed.
End safe.

Lemma safe_bind_done {A B} G R Q (m : M A) (f : A -> M B) s a s' :
  m s = Done a s' -> safe G R Q (f a s') -> safe G R Q ((m ≫= f) s).
Proof. intros Hm Hf. by rewrite (bind_done _ _ _ _ _ Hm). Qed.

Lemma safe_bind' {A B} G R Q Q' (m : M A) (f : A -> M B) s :
  safe G R Q (m s) -> (forall a s', Q a s' -> safe G R Q' (f a s')) ->
  safe G R Q' ((m ≫= f) s).
Proof. intros. by apply (safe_bind G R Q). Qed.

(** ** What scheduling leaves alone *)

(** The fields of a thread that no scheduling operation writes. *)
Definition th_static (th : thread_t) : thread_t :=
  th_wait_queue_block_ret 0 (th_blocking_wait_queue None (th_terrno 0
    (th_remaining_quantum 0 (th_state THREAD_SUSPENDED th)))).

(** [s'] differs from [s] only by scheduling: queues, thread states, the
    current thread, the lock, the interrupt bit and [errno]. *)
Record sched_only (s s' : kstate) : Prop := {
  so_threads : th_static <$> threads s' = th_static <$> threads s;
  so_wqs : wq_magic <$> wqs s' = wq_magic <$> wqs s;
  so_tl : thread_list s' = thread_list s;
  so_mutexes : mutexes s' = mutexes s;
  so_semaphores : semaphores s' = semaphores s;
  so_events : events s' = events s;
  so_ticks : ticks s' = ticks s;
  so_fiqs : fiqs_enabled s' = fiqs_enabled s;
  so_malloc : malloc_fails s' = malloc_fails s;
  so_next : next_ptr s' = next_ptr s;
  so_allocated : allocated s' = allocated s;
  so_overrun : overrun s' = overrun s;
  so_ltimers : ltimers s' = ltimers s;
  so_fw_log : fw_log s' = fw_log s;
}.

#[export] Instance sched_only_preorder : PreOrder sched_only.
Proof.
  split.
  - by intros s.
  - intros s1 s2 s3 [] []. constructor; congruence.
Qed.

Create HintDb kern.

Lemma sched_only_threads_eq s s' t th :
  sched_only s s' -> threads s !! t = Some th ->
  exists th', threads s' !! t = Some th' /\ th_static th' = th_static th.
Proof.
  intros Hso Hth. pose proof (so_threads _ _ Hso) as E.
  apply (f_equal (.!! t)) in E. rewrite !lookup_fmap, Hth in E.
  destruct (threads s' !! t) as [th'|]; [|done].
  apply (inj Some) in E. eauto.
Qed.

Lemma sched_only_upd s t th f :
  threads s !! t = Some th -> th_static (f th) = th_static th ->
  sched_only s (k_threads (<[t := f th]> (threads s)) s).
Proof.
  intros Hth Hf. constructor; try done. simpl.
  rewrite fmap_insert, Hf. apply insert_id. by rewrite lookup_fmap, Hth.
Qed.

Lemma sched_only_put_wq s w wq wq' :
  wqs s !! w = Some wq -> wq_magic wq' = wq_magic wq ->
  sched_only s (k_wqs (<[w := wq']> (wqs s)) s).
Proof.
  intros Hth Hf. constructor; try done. simpl.
  rewrite fmap_insert, Hf. apply insert_id. by rewrite lookup_fmap, Hth.
Qed.

(** ** Queues after writes *)

Lemma queue_put_rq s p l q :
  (p < length (run_queue s))%nat ->
  queue (k_run_queue (<[p := l]> (run_queue s)) s) q =
  if decide (q = RunQ p) then l else queue s q.
Proof.
  intros Hp. destruct q as [p'|w]; simpl; [|by repeat case_decide].
  rewrite list_lookup_insert. repeat case_decide; naive_solver.
Qed.

Lemma queue_put_wq s w wq q :
  queue (k_wqs (<[w := wq]> (wqs s)) s) q =
  if decide (q = WaitQ w) then wq_list wq else queue s q.
Proof.
  destruct q as [p'|w']; simpl; [by repeat case_decide|].
  rewrite lookup_insert. repeat case_decide; naive_solver.
Qed.

Lemma testbit_set_bit bm p p' :
  0 <= p -> 0 <= p' ->
  Z.testbit (Z.lor bm (Z.shiftl 1 p)) p' = Z.testbit bm p' || bool_decide (p = p').
Proof.
  intros. rewrite Z.lor_spec, Z.shiftl_1_l, Z.pow2_bits_eqb by done.
  f_equal. by destruct (Z.eqb_spec p p'); case_bool_decide.
Qed.

Lemma testbit_clear_bit bm p p' :
  0 <= p -> 0 <= p' ->
  Z.testbit (Z.land bm (Z.lnot (Z.shiftl 1 p))) p' =
  Z.testbit bm p' && negb (bool_decide (p = p')).
Proof.
  intros. rewrite Z.land_spec, Z.lnot_spec, Z.shiftl_1_l, Z.pow2_bits_eqb by done.
  f_equal. f_equal. by destruct (Z.eqb_spec p p'); case_bool_decide.
Qed.

Lemma lor_range a b n : 0 <= n -> 0 <= a < 2 ^ n -> 0 <= b < 2 ^ n -> 0 <= Z.lor a b < 2 ^ n.
Proof.
  intros Hn [Ha Ha'] [Hb Hb']. split; [by apply Z.lor_nonneg|].
  destruct (Z.eq_dec (Z.lor a b) 0) as [->|Hne]; [by apply Z.pow_pos_nonneg; lia|].
  assert (0 <= Z.lor a b) by (by apply Z.lor_nonneg).
  apply Z.log2_lt_pow2; [lia|].
  rewrite Z.log2_lor by done.
  apply Z.max_lub_lt.
  - destruct (Z.eq_dec a 0) as [->|]; [|by apply Z.log2_lt_pow2; lia].
    simpl. destruct (Z.eq_dec n 0) as [->|]; [|lia]. exfalso. apply Hne.
    assert (b = 0) as -> by lia. done.
  - destruct (Z.eq_dec b 0) as [->|]; [|by apply Z.log2_lt_pow2; lia].
    simpl. destruct (Z.eq_dec n 0) as [->|]; [|lia]. exfalso. apply Hne.
    assert (a = 0) as -> by lia. done.
Qed.

Lemma land_range a b n : 0 <= n -> 0 <= a < 2 ^ n -> 0 <= Z.land a b < 2 ^ n.
Proof.
  intros Hn Ha.
  assert (Z.land a b = Z.land a b `mod` 2 ^ n) as ->.
  { rewrite <- Z.land_ones by done.
    rewrite <- Z.land_assoc, (Z.land_comm b), Z.land_assoc.
    rewrite (Z.land_ones a) by done. by rewrite Z.mod_small. }
  apply Z.mod_pos_bound. by apply Z.pow_pos_nonneg.
Qed.

(** ** The moves *)

(** Only the scheduler's own fields matter. *)
Definition same_sched (s s' : kstate) : Prop :=
  threads s' = threads s /\ run_queue s' = run_queue s /\
  run_queue_bitmap s' = run_queue_bitmap s /\ wqs s' = wqs s /\
  thread_list s' = thread_list s /\ next_ptr s' = next_ptr s /\
  allocated s' = allocated s /\ overrun s' = overrun s.

Lemma kinv_ext run H s s' : kinv run H s -> same_sched s s' -> kinv run H s'.
Proof.
  intros HI (E1 & E2 & E3 & E4 & E5 & E6 & E7 & E8).
  assert (Hq : forall q, queue s' q = queue s q).
  { intros [p|w]; simpl; by rewrite ?E2, ?E4. }
  destruct HI. constructor; intros *; rewrite ?Hq, ?E1, ?E2, ?E3, ?E4, ?E5, ?E6, ?E7, ?E8; eauto.
Qed.

Lemma kinv_queue_state run H s t q th :
  kinv run H s -> t ∈ queue s q -> threads s !! t = Some th -> home th = Some q.
Proof. intros HI Hin Hth. apply (ki_home _ _ _ HI) in Hin as (_ & th' & ? & ?). naive_solver. Qed.

Lemma kinv_queue_thread run H s t q :
  kinv run H s -> t ∈ queue s q -> exists th, threads s !! t = Some th /\ home th = Some q.
Proof. intros HI Hin. apply (ki_home _ _ _ HI) in Hin as (_ & ?). done. Qed.

(** Taking a thread that is in no queue into flux. *)
Lemma kinv_open_none run H s t th :
  kinv run H s -> threads s !! t = Some th -> home th = None ->
  kinv (if decide (run = Some t) then None else run) ({[t]} ∪ H) s.
Proof.
  intros HI Hth Hh. destruct HI. constructor; try done.
  - intros t' q. rewrite ki_home0. split; [|set_solver].
    intros [Ht (th' & Hth' & Hq)]. split; [|eauto].
    assert (t' ≠ t) by (intros ->; congruence). set_solver.
  - intros t' th' Ht' Hth' Hst. case_decide as Hr; [|by eapply ki_runs0; set_solver].
    assert (run = Some t') by (eapply ki_runs0; set_solver). set_solver.
  - intros t' Ht'. case_decide as Hr; [done|].
    destruct (ki_cur0 _ Ht') as (? & ?). split; [set_solver|done].
  - destruct ki_idle0 as (thi & Hi & Hst). exists thi. set_solver.
Qed.

(** Unlinking the head of a run queue. *)
Lemma kinv_open_rq run H s p t l :
  kinv run H s -> (p < 32)%nat -> queue s (RunQ p) = t :: l ->
  kinv run ({[t]} ∪ H)
    (k_run_queue_bitmap
       (if decide (l = []) then Z.land (run_queue_bitmap s) (Z.lnot (Z.shiftl 1 (Z.of_nat p)))
        else run_queue_bitmap s)
       (k_run_queue (<[p := l]> (run_queue s)) s)).
Proof.
  intros HI Hp Hq.
  assert (Hhome : forall t', t' ∈ t :: l -> exists th, threads s !! t' = Some th /\
            home th = Some (RunQ p)).
  { intros t' Hin. rewrite <- Hq in Hin. by eapply kinv_queue_thread. }
  pose proof (ki_nodup _ _ _ HI (RunQ p)) as Hnd. rewrite Hq in Hnd.
  apply NoDup_cons in Hnd as [Htl Hnd].
  assert (Hqs : forall q bm, queue (k_run_queue_bitmap bm
            (k_run_queue (<[p := l]> (run_queue s)) s)) q =
            if decide (q = RunQ p) then l else queue s q).
  { intros q bm. rewrite <- queue_put_rq; [done|]. by rewrite (ki_len _ _ _ HI). }
  destruct (Hhome t ltac:(set_solver)) as (th & Hth & Hhm).
  destruct HI. constructor; try done.
  - simpl. by rewrite length_insert.
  - simpl. case_decide; [by apply land_range|done].
  - intros p' Hp'. rewrite Hqs. simpl run_queue_bitmap.
    destruct (decide (RunQ p' = RunQ p)) as [[= ->]|Hne].
    + destruct (decide (l = [])) as [->|Hl].
      * rewrite testbit_clear_bit by lia. rewrite (bool_decide_eq_true_2 (Z.of_nat p = _)) by done.
        simpl. by rewrite andb_false_r.
      * rewrite ki_bits0, Hq by done. by rewrite !bool_decide_eq_false_2.
    + destruct (decide (l = [])) as [->|Hl]; [|by apply ki_bits0].
      rewrite testbit_clear_bit by lia.
      rewrite (bool_decide_eq_false_2 (Z.of_nat p = _)) by (intros ?; apply Hne; f_equal; lia).
      rewrite andb_true_r. by apply ki_bits0.
  - intros t' q. rewrite Hqs. simpl threads. case_decide as Hcase; [subst q|].
    + split.
      * intros Hin. destruct (proj1 (ki_home0 t' (RunQ p))) as (? & ?); [rewrite Hq; set_solver|].
        split; [|done]. assert (t' ≠ t) by (intros ->; done). set_solver.
      * intros [Hnin Hex]. assert (Hin : t' ∈ queue s (RunQ p)) by (apply ki_home0; set_solver).
        rewrite Hq in Hin. set_solver.
    + rewrite ki_home0. split; [|set_solver].
      intros [Hnin (th' & Hth' & Hh')]. split; [|eauto].
      assert (t' ≠ t) by (intros ->; congruence). set_solver.
  - intros q. rewrite Hqs. case_decide; [done|apply ki_nodup0].
  - intros t' th' Hn. apply ki_runs0. set_solver.
  - intros t' Ht'. destruct (ki_cur0 _ Ht') as (Hn & th' & Hth' & Hst). split; [|eauto].
    assert (t' ≠ t); [|set_solver]. intros ->. unfold home in Hhm. simplify_map_eq. by rewrite Hst in Hhm.
  - destruct ki_idle0 as (thi & Hi & Hst). exists thi. set_solver.
Qed.

(** Unlinking a thread from a wait queue. *)
Lemma kinv_open_wq run H s w wq l1 t l2 :
  kinv run H s -> wqs s !! w = Some wq -> wq_list wq = l1 ++ t :: l2 ->
  kinv run ({[t]} ∪ H)
    (k_wqs (<[w := mk_wq (wq_magic wq) (l1 ++ l2) (wq_count wq - 1)]> (wqs s)) s).
Proof.
  intros HI Hw Hl. assert (Hq : queue s (WaitQ w) = l1 ++ t :: l2) by (simpl; by rewrite Hw).
  pose proof (ki_nodup _ _ _ HI (WaitQ w)) as Hnd. rewrite Hq in Hnd.
  assert (Hnd' : NoDup (l1 ++ l2) /\ t ∉ l1 ++ l2).
  { apply NoDup_app in Hnd as (Hnd1 & Hd & [Ht Hnd2]%NoDup_cons). split; [|set_solver].
    apply NoDup_app. split_and!; [done| |done]. intros x Hx Hx'. apply (Hd x Hx). set_solver. }
  destruct Hnd' as [Hnd' Htn].
  destruct (kinv_queue_thread run H s t (WaitQ w) HI) as (th & Hth & Hhm);
    [rewrite Hq; set_solver|].
  destruct HI. constructor; try done.
  - intros t' q. rewrite queue_put_wq. simpl threads. case_decide as Hcase; [subst q|].
    + simpl. split.
      * intros Hin. destruct (proj1 (ki_home0 t' (WaitQ w))) as (? & ?); [rewrite Hq; set_solver|].
        split; [|done]. assert (t' ≠ t) by (intros ->; done). set_solver.
      * intros [Hnin Hex]. assert (Hin : t' ∈ queue s (WaitQ w)) by (apply ki_home0; set_solver).
        rewrite Hq in Hin. set_solver.
    + rewrite ki_home0. split; [|set_solver].
      intros [Hnin (th' & Hth' & Hh')]. split; [|eauto].
      assert (t' ≠ t) by (intros ->; congruence). set_solver.
  - intros q. rewrite queue_put_wq. case_decide; [done|apply ki_nodup0].
  - intros w' wq'. simpl. rewrite lookup_insert. case_decide; [|apply ki_count0].
    intros [= <-]. simpl. rewrite (ki_count0 _ _ Hw), Hl, !length_app. simpl. lia.
  - intros t' th' Hn. apply ki_runs0. set_solver.
  - intros t' Ht'. destruct (ki_cur0 _ Ht') as (Hn & th' & Hth' & Hst). split; [|eauto].
    assert (t' ≠ t); [|set_solver]. intros ->. unfold home in Hhm. simplify_map_eq. by rewrite Hst in Hhm.
  - destruct ki_idle0 as (thi & Hi & Hst). exists thi. set_solver.
  - intros t'. simpl. rewrite lookup_insert. case_decide; [|apply ki_retcode0].
    subst w. intros _. apply ki_retcode0. by eexists.
Qed.

(** Writing the fields of a thread in flux. *)
Lemma kinv_write run H s t th th' :
  kinv run H s -> t ∈ H -> threads s !! t = Some th ->
  0 <= priority th' < NUM_PRIORITIES -> magic th' = magic th ->
  bad_flags th' = bad_flags th ->
  (state th' <> THREAD_DEATH -> magic th' = THREAD_MAGIC) ->
  kinv run H (k_threads (<[t := th']> (threads s)) s).
Proof.
  intros HI Ht Hth Hp Hm Hf Hm'. destruct HI. constructor; try done; simpl.
  - intros t' q. rewrite (ki_home0 t' q). simpl.
    split; intros [Hn Hex]; (split; [done|]); assert (t' ≠ t) by (intros ->; done).
    + by rewrite lookup_insert_ne.
    + by rewrite lookup_insert_ne in Hex.
  - intros t' th''. rewrite lookup_insert. case_decide; [by intros [= <-]|apply ki_prio0].
  - intros t' th'' Hn. rewrite lookup_insert_ne by (intros ->; done). by apply ki_runs0.
  - intros t' Hr. destruct (ki_cur0 _ Hr) as (Hn & Hex). split; [done|].
    rewrite lookup_insert_ne by (intros ->; done). done.
  - destruct ki_idle0 as (thi & Hi & Hst). rewrite lookup_insert. case_decide; [|eauto].
    subst t. eexists; split; [done|]. intros; done.
  - intros t' th''. rewrite lookup_insert. case_decide; [by intros [= <-]|apply ki_magic0].
  - intros t' th''. rewrite lookup_insert. case_decide; [|apply ki_flag0].
    intros [= <-]. rewrite Hf. by apply (ki_flag0 t th).
  - intros t'. rewrite ki_tl0, lookup_insert. case_decide as Hc; [|done]. subst t'.
    split; intros (? & ? & ?); simplify_eq; eauto with congruence.
  - intros t'. rewrite lookup_insert. case_decide; [|apply ki_fresh0].
    subst t'. intros _. apply ki_fresh0. left. eauto.
  - intros t' Hr. rewrite lookup_insert. case_decide; [by eexists|by apply ki_retcode0].
Qed.

Lemma priority_bit p : 0 <= p < 32 -> u32 (Z.shiftl 1 p) = Z.shiftl 1 p /\ 0 <= Z.shiftl 1 p < 2 ^ 32.
Proof.
  intros Hp. rewrite Z.shiftl_1_l. unfold u32.
  assert (0 < 2 ^ p) by (apply Z.pow_pos_nonneg; lia).
  assert (2 ^ p < 2 ^ 32) by (apply Z.pow_lt_mono_r; lia).
  rewrite Z.mod_small by lia. lia.
Qed.

(** Linking a thread in flux into the run queue of its priority. *)
Lemma kinv_close_rq run H s t th l' :
  kinv run H s -> t ∈ H -> threads s !! t = Some th -> state th = THREAD_READY ->
  l' ≡ₚ t :: queue s (RunQ (Z.to_nat (priority th))) ->
  kinv run (H ∖ {[t]})
    (k_run_queue_bitmap (Z.lor (run_queue_bitmap s) (u32 (Z.shiftl 1 (priority th))))
       (k_run_queue (<[Z.to_nat (priority th) := l']> (run_queue s)) s)).
Proof.
  intros HI Ht Hth Hst Hl. set (p := Z.to_nat (priority th)) in *.
  pose proof (ki_prio _ _ _ HI _ _ Hth) as Hp. unfold NUM_PRIORITIES in Hp.
  assert (Hpz : priority th = Z.of_nat p) by (unfold p; lia).
  assert (Hpn : (p < 32)%nat) by lia.
  destruct (priority_bit (priority th) Hp) as [-> Hbit]. rewrite Hpz in Hbit |- *.
  assert (Hqs : forall q bm, queue (k_run_queue_bitmap bm
            (k_run_queue (<[p := l']> (run_queue s)) s)) q =
            if decide (q = RunQ p) then l' else queue s q).
  { intros q bm. rewrite <- queue_put_rq; [done|]. by rewrite (ki_len _ _ _ HI). }
  destruct HI. constructor; try done.
  - simpl. by rewrite length_insert.
  - simpl. apply lor_range; lia.
  - intros p' Hp'. rewrite Hqs. simpl run_queue_bitmap. rewrite testbit_set_bit by lia.
    rewrite ki_bits0 by done. case_decide as Hc; [injection Hc as ->|].
    + rewrite (bool_decide_eq_true_2 (Z.of_nat p = _)), orb_true_r by done.
      rewrite bool_decide_eq_false_2; [done|]. intros ->. by apply Permutation_nil_cons in Hl.
    + rewrite (bool_decide_eq_false_2 (Z.of_nat p = _)), orb_false_r; [done|].
      intros ?. apply Hc. f_equal. lia.
  - intros t' q. rewrite Hqs. simpl threads. case_decide as Hc; [subst q|].
    + rewrite Hl. rewrite elem_of_cons, ki_home0. split.
      * intros [->|[Hn Hex]]; [|set_solver]. split; [set_solver|]. exists th. split; [done|].
        unfold home. by rewrite Hst.
      * intros [Hn Hex]. destruct (decide (t' = t)); [by left|right]. set_solver.
    + rewrite ki_home0. split; [set_solver|]. intros [Hn (th' & Hth' & Hh')].
      split; [|eauto]. assert (t' ≠ t); [|set_solver]. intros ->. simplify_map_eq.
      unfold home in Hh'. rewrite Hst in Hh'. by injection Hh' as <-.
  - intros q. rewrite Hqs. case_decide as Hc; [|apply ki_nodup0]. rewrite Hl.
    apply NoDup_cons. split; [|apply ki_nodup0]. rewrite ki_home0. set_solver.
  - intros t' th' Hn Hth' Hr. apply (ki_runs0 t' th'); try done.
    assert (t' ≠ t); [|set_solver]. intros ->. simpl in Hth'. congruence.
  - intros t' Hr. destruct (ki_cur0 _ Hr). set_solver.
  - destruct ki_idle0 as (thi & Hi & Hsti). exists thi. split; [done|]. intros Hn.
    destruct (decide (_idle_thread = t)) as [<-|]; [|set_solver].
    simplify_map_eq. right. by left.
Qed.

(** Linking a thread in flux at the end of a wait queue. *)
Lemma kinv_close_wq run H s t th w wq :
  kinv run H s -> t ∈ H -> threads s !! t = Some th -> state th = THREAD_BLOCKED ->
  blocking_wait_queue th = Some w -> wqs s !! w = Some wq -> t <> _idle_thread ->
  kinv run (H ∖ {[t]})
    (k_wqs (<[w := mk_wq (wq_magic wq) (wq_list wq ++ [t]) (wq_count wq + 1)]> (wqs s)) s).
Proof.
  intros HI Ht Hth Hst Hb Hw Hidle.
  assert (Hq : queue s (WaitQ w) = wq_list wq) by (simpl; by rewrite Hw).
  destruct HI. constructor; try done.
  - intros t' q. rewrite queue_put_wq. simpl threads. case_decide as Hc; [subst q|].
    + simpl. rewrite elem_of_app, list_elem_of_singleton, <- Hq, ki_home0. split.
      * intros [[Hn Hex]| -> ]; [set_solver|]. split; [set_solver|]. exists th. split; [done|].
        unfold home. by rewrite Hst, Hb.
      * intros [Hn Hex]. destruct (decide (t' = t)); [by right|left]. set_solver.
    + rewrite ki_home0. split; [set_solver|]. intros [Hn (th' & Hth' & Hh')].
      split; [|eauto]. assert (t' ≠ t); [|set_solver]. intros ->. simplify_map_eq.
      unfold home in Hh'. rewrite Hst, Hb in Hh'. by injection Hh' as <-.
  - intros q. rewrite queue_put_wq. case_decide as Hc; [subst q|apply ki_nodup0]. simpl.
    apply NoDup_app. split_and!; [rewrite <- Hq; apply ki_nodup0| |apply NoDup_singleton].
    intros x Hx ->%list_elem_of_singleton. rewrite <- Hq, ki_home0 in Hx. naive_solver.
  - intros w' wq'. simpl. rewrite lookup_insert. case_decide; [|apply ki_count0].
    intros [= <-]. simpl. rewrite (ki_count0 _ _ Hw), length_app. simpl. lia.
  - intros t' th' Hn Hth' Hr. apply (ki_runs0 t' th'); try done.
    assert (t' ≠ t); [|set_solver]. intros ->. simpl in Hth'. congruence.
  - intros t' Hr. destruct (ki_cur0 _ Hr). set_solver.
  - destruct ki_idle0 as (thi & Hi & Hsti). exists thi. split; [done|]. set_solver.
  - intros t'. simpl. rewrite lookup_insert. case_decide; [|apply ki_retcode0].
    subst w. intros _. apply ki_retcode0. by eexists.
Qed.

(** Letting a thread in flux run. *)
Lemma kinv_close_running H s t th :
  kinv None H s -> t ∈ H -> threads s !! t = Some th -> state th = THREAD_RUNNING ->
  kinv (Some t) (H ∖ {[t]}) s.
Proof.
  intros HI Ht Hth Hst. destruct HI. constructor; try done.
  - intros t' q. rewrite ki_home0. split; [set_solver|].
    intros [Hn (th' & Hth' & Hh')]. split; [|eauto]. assert (t' ≠ t); [|set_solver].
    intros ->. simplify_map_eq. unfold home in Hh'. by rewrite Hst in Hh'.
  - intros t' th' Hn Hth' Hr. destruct (decide (t' = t)) as [->|]; [done|].
    exfalso. by assert (None = Some t') by (eapply ki_runs0; set_solver).
  - intros t' [= <-]. split; [set_solver|eauto].
  - destruct ki_idle0 as (thi & Hi & Hsti). exists thi. split; [done|]. intros Hn.
    destruct (decide (_idle_thread = t)) as [<-|]; [|set_solver].
    simplify_map_eq. right. by right.
Qed.

(** Leaving a thread that belongs in no queue and does not run. *)
Lemma kinv_close_none run H s t th :
  kinv run H s -> t ∈ H -> threads s !! t = Some th -> home th = None ->
  state th <> THREAD_RUNNING -> (t = _idle_thread -> idle_state (state th)) ->
  kinv run (H ∖ {[t]}) s.
Proof.
  intros HI Ht Hth Hh Hst Hid. destruct HI. constructor; try done.
  - intros t' q. rewrite ki_home0. split; [set_solver|].
    intros [Hn (th' & Hth' & Hh')]. split; [|eauto]. assert (t' ≠ t); [|set_solver].
    intros ->. congruence.
  - intros t' th' Hn Hth' Hr. apply (ki_runs0 t' th'); try done.
    assert (t' ≠ t); [|set_solver]. intros ->. congruence.
  - intros t' Hr. destruct (ki_cur0 _ Hr). set_solver.
  - destruct ki_idle0 as (thi & Hi & Hsti). exists thi. split; [done|]. intros Hn.
    destruct (decide (_idle_thread = t)) as [<-|]; [|set_solver]. simplify_map_eq. auto.
Qed.

(** Writing fields of a thread the scheduler does not look at. *)
Lemma kinv_upd_same run H s t th th' :
  kinv run H s -> threads s !! t = Some th ->
  state th' = state th -> priority th' = priority th -> magic th' = magic th ->
  bad_flags th' = bad_flags th ->
  blocking_wait_queue th' = blocking_wait_queue th ->
  kinv run H (k_threads (<[t := th']> (threads s)) s).
Proof.
  intros HI Hth Hst Hp Hm Hf Hb.
  assert (Hh : home th' = home th) by (unfold home; by rewrite Hst, Hp, Hb).
  destruct HI. constructor; try done; simpl.
  - intros t' q. rewrite (ki_home0 t' q). rewrite lookup_insert. case_decide; [|done].
    subst t'. by split; intros (? & ? & ? & ?); (split; [done|]); eexists;
      (split; [done|]); simplify_eq; congruence.
  - intros t' th''. rewrite lookup_insert. case_decide; [|apply ki_prio0].
    intros [= <-]. rewrite Hp. by eapply ki_prio0.
  - intros t' th'' Hn. rewrite lookup_insert. case_decide; [|by apply (ki_runs0 t' th'')].
    subst t'. intros [= <-]. rewrite Hst. by apply (ki_runs0 t th).
  - intros t' Hr. destruct (ki_cur0 _ Hr) as (Hn & th'' & Hth'' & Hst''). split; [done|].
    rewrite lookup_insert. case_decide; [|eauto]. subst t'.
    eexists. split; [done|]. congruence.
  - destruct ki_idle0 as (thi & Hi & Hsti). rewrite lookup_insert. case_decide; [|eauto].
    subst t. eexists. split; [done|]. rewrite Hst. simplify_eq. done.
  - intros t' th''. rewrite lookup_insert. case_decide; [|by apply (ki_magic0 t' th'')].
    subst t'. intros [= <-]. rewrite Hst, Hm. by apply (ki_magic0 t th).
  - intros t' th''. rewrite lookup_insert. case_decide; [|apply ki_flag0].
    intros [= <-]. rewrite Hf. by apply (ki_flag0 t th).
  - intros t'. rewrite ki_tl0, lookup_insert. case_decide as Hc; [|done]. subst t'.
    split; intros (? & ? & ?); simplify_eq; eauto with congruence.
  - intros t'. rewrite lookup_insert. case_decide; [|apply ki_fresh0].
    subst t'. intros _. apply ki_fresh0. left. eauto.
  - intros t' Hr. rewrite lookup_insert. case_decide; [by eexists|by apply ki_retcode0].
Qed.

Lemma kinv_home_queue run H s t th q :
  kinv run H s -> t ∉ H -> threads s !! t = Some th -> home th = Some q -> t ∈ queue s q.
Proof. intros HI Hn Hth Hh. apply (ki_home _ _ _ HI). eauto. Qed.

Lemma kinv_queue_unique run H s t q q' :
  kinv run H s -> t ∈ queue s q -> t ∈ queue s q' -> q = q'.
Proof.
  intros HI Hq Hq'. apply (ki_home _ _ _ HI) in Hq as (_ & th & ? & ?).
  apply (ki_home _ _ _ HI) in Hq' as (_ & th' & ? & ?). congruence.
Qed.

(** ** Checking the invariant of a concrete state *)

Definition queues_of (s : kstate) : list qid :=
  (RunQ <$> seq 0 32) ++ (WaitQ <$> (map_to_list (wqs s)).*1).

Definition thread_check (run : option ptr) (s : kstate) (t : ptr) (th : thread_t) : bool :=
  (0 <=? priority th) && (priority th <? NUM_PRIORITIES) && negb (bad_flags th) &&
  (negb (bool_decide (state th = THREAD_RUNNING)) || bool_decide (run = Some t)) &&
  (bool_decide (state th = THREAD_DEATH) || (magic th =? THREAD_MAGIC)) &&
  match home th with Some q => bool_decide (t ∈ queue s q) | None => true end &&
  bool_decide (t ∈ thread_list s <-> magic th = THREAD_MAGIC) &&
  (t <? next_ptr s)%positive.

Definition kinv_check (run : option ptr) (s : kstate) : bool :=
  (length (run_queue s) =? 32)%nat &&
  (0 <=? run_queue_bitmap s) && (run_queue_bitmap s <? 2 ^ 32) &&
  forallb (fun p => eqb (Z.testbit (run_queue_bitmap s) (Z.of_nat p))
    (negb (bool_decide (queue s (RunQ p) = [])))) (seq 0 32) &&
  forallb (fun q => bool_decide (NoDup (queue s q)) &&
    forallb (fun t => bool_decide (threads s !! t ≫= home = Some q)) (queue s q)) (queues_of s) &&
  forallb (fun '(_, q) => wq_count q =? Z.of_nat (length (wq_list q))) (map_to_list (wqs s)) &&
  forallb (fun '(t, th) => thread_check run s t th) (map_to_list (threads s)) &&
  match run with
  | Some t => bool_decide (state <$> threads s !! t = Some THREAD_RUNNING)
  | None => true
  end &&
  match threads s !! _idle_thread with
  | Some th => bool_decide (state th ∈ [THREAD_SUSPENDED; THREAD_READY; THREAD_RUNNING])
  | None => false
  end &&
  bool_decide (NoDup (thread_list s)) &&
  forallb (fun t => bool_decide (is_Some (threads s !! t))) (thread_list s) &&
  forallb (fun t => (t <? next_ptr s)%positive) (elements (allocated s)) &&
  bool_decide (_idle_thread ∉ allocated s) &&
  forallb (fun '(w, _) => match w with
    | RetcodeWQ t => bool_decide (is_Some (threads s !! t)) | _ => true end) (map_to_list (wqs s)) &&
  bool_decide (overrun s = ∅).

Lemma queue_in_queues_of s t q : length (run_queue s) = 32%nat -> t ∈ queue s q -> q ∈ queues_of s.
Proof.
  intros Hlen Ht. unfold queues_of. destruct q as [p|w]; simpl in Ht; apply elem_of_app.
  - left. apply list_elem_of_fmap. exists p. split; [done|]. apply elem_of_seq.
    destruct (run_queue s !! p) eqn:E; [|set_solver]. apply lookup_lt_Some in E. lia.
  - right. apply list_elem_of_fmap. exists w. split; [done|].
    destruct (wqs s !! w) as [q|] eqn:E; [|set_solver].
    apply list_elem_of_fmap. exists (w, q). split; [done|]. by apply elem_of_map_to_list.
Qed.

Lemma thread_check_ok run s t th :
  thread_check run s t th = true ->
  0 <= priority th < NUM_PRIORITIES /\ bad_flags th = false /\
  (state th = THREAD_RUNNING -> run = Some t) /\
  (state th <> THREAD_DEATH -> magic th = THREAD_MAGIC) /\
  (forall q, home th = Some q -> t ∈ queue s q) /\
  (t ∈ thread_list s <-> magic th = THREAD_MAGIC) /\ (t < next_ptr s)%positive.
Proof.
  unfold thread_check. rewrite !andb_true_iff, !orb_true_iff, !negb_true_iff, !bool_decide_eq_true,
    bool_decide_eq_false, Z.leb_le, Z.ltb_lt, Z.eqb_eq, Pos.ltb_lt.
  intros (((((((? & ?) & ?) & Hr) & Hm) & Hh) & Ht) & Hn). split_and!; try done; [naive_solver..|].
  intros q Hq. rewrite Hq in Hh. by apply bool_decide_eq_true in Hh.
Qed.

Lemma queues_check_ok s : length (run_queue s) = 32%nat ->
  forallb (fun q => bool_decide (NoDup (queue s q)) &&
    forallb (fun t => bool_decide (threads s !! t ≫= home = Some q)) (queue s q)) (queues_of s) = true ->
  forall q t, t ∈ queue s q -> NoDup (queue s q) /\ exists th, threads s !! t = Some th /\ home th = Some q.
Proof.
  intros Hlen Hqs q t Ht. pose proof (queue_in_queues_of _ _ _ Hlen Ht) as Hq.
  pose proof (forallb_in _ _ _ Hqs Hq) as HH. apply andb_true_iff in HH as [Hnd HH].
  apply bool_decide_eq_true in Hnd. split; [done|].
  pose proof (forallb_in _ _ _ HH Ht) as HH'. apply bool_decide_eq_true, bind_Some in HH'.
  destruct HH' as (th & ? & ?). eauto.
Qed.

Lemma kinv_check_sound run s : kinv_check run s = true -> kinv run ∅ s.
Proof.
  unfold kinv_check. rewrite !andb_true_iff.
  intros ((((((((((((((Hlen & Hb1) & Hb2) & Hbits) & Hqs) & Hcnt) & Hth) & Hrun) & Hidle) & Htl) & Htl2)
    & Hal) & Hst) & Hrc) & Hov).
  apply Nat.eqb_eq in Hlen. apply Z.leb_le in Hb1. apply Z.ltb_lt in Hb2.
  assert (HT : forall t th, threads s !! t = Some th -> thread_check run s t th = true).
  { intros t th Ht. apply elem_of_map_to_list in Ht.
    exact (forallb_in _ _ _ Hth Ht). }
  pose proof (queues_check_ok s Hlen Hqs) as HQ.
  constructor; try done.
  - intros p Hp. apply eqb_prop. refine (forallb_in _ _ _ Hbits _). apply elem_of_seq. lia.
  - intros t q. split.
    + intros Ht. split; [set_solver|]. by apply HQ.
    + intros (_ & th & Ht & Hh). by apply (thread_check_ok _ _ _ _ (HT t th Ht)).
  - intros q. destruct (queue s q) as [|t l] eqn:E; [constructor|]. rewrite <- E.
    apply (HQ q t). rewrite E. set_solver.
  - intros w q Hw. apply elem_of_map_to_list in Hw.
    pose proof (forallb_in _ _ _ Hcnt Hw) as HH. by apply Z.eqb_eq in HH.
  - intros t th Ht. apply (thread_check_ok _ _ _ _ (HT t th Ht)).
  - intros t th _ Ht. apply (thread_check_ok _ _ _ _ (HT t th Ht)).
  - intros t ->. split; [set_solver|]. apply bool_decide_eq_true in Hrun.
    destruct (threads s !! t) as [th|]; [|done]. exists th. split; [done|]. by injection Hrun.
  - destruct (threads s !! _idle_thread) as [th|] eqn:E; [|done]. exists th. split; [done|].
    intros _. apply bool_decide_eq_true in Hidle. unfold idle_state. set_solver.
  - intros t th Ht. apply (thread_check_ok _ _ _ _ (HT t th Ht)).
  - intros t th Ht. apply (thread_check_ok _ _ _ _ (HT t th Ht)).
  - by apply bool_decide_eq_true in Htl.
  - intros t. split.
    + intros Ht. pose proof (forallb_in _ _ _ Htl2 Ht) as HH. apply bool_decide_eq_true in HH.
      destruct HH as [th Hth']. exists th. split; [done|].
      by apply (thread_check_ok _ _ _ _ (HT t th Hth')).
    + intros (th & Hth' & Hm). by apply (thread_check_ok _ _ _ _ (HT t th Hth')).
  - intros t [[th Ht]|Ht]; [apply (thread_check_ok _ _ _ _ (HT t th Ht))|].
    apply elem_of_elements in Ht. pose proof (forallb_in _ _ _ Hal Ht) as HH. by apply Pos.ltb_lt.
  - by apply bool_decide_eq_true in Hst.
  - intros t [q Hq]. apply elem_of_map_to_list in Hq.
    pose proof (forallb_in _ _ _ Hrc Hq) as HH. by apply bool_decide_eq_true in HH.
  - by apply bool_decide_eq_true in Hov.
Qed.

(** A small system: thread 2 runs, thread 3 is ready, the idle thread has not
    run yet; a mutex at 10, a semaphore at 11 and an event at 12 are free. *)
Definition demo_thread (prio : Z) (st : thread_state) : thread_t :=
  mk_thread THREAD_MAGIC prio st 5 0 0 None 0 None None 4096 0 0 0 [].

Definition demo_state : kstate :=
  mk_kstate
    (<[1%positive := demo_thread 0 THREAD_SUSPENDED]>
     (<[2%positive := demo_thread 16 THREAD_RUNNING]>
      (<[3%positive := demo_thread 16 THREAD_READY]> ∅)))
    [3; 2; 1]%positive (<[16%nat := [3%positive]]> (replicate 32 [])) (2 ^ 16)
    (list_to_map ((fun w => (w, WAIT_QUEUE_INITIAL_VALUE)) <$>
       [RetcodeWQ 1; RetcodeWQ 2; RetcodeWQ 3; MutexWQ 10; SemWQ 11; EventWQ 12]))
    (Some 2%positive) 0 true false 0
    {[10%positive := mk_mutex MUTEX_MAGIC None 0]}
    {[11%positive := mk_sem SEMAPHORE_MAGIC 0]}
    {[12%positive := mk_event EVENT_MAGIC false 0]}
    0 [] 20 {[2%positive; 3%positive]} ∅ ∅ [].

Lemma demo_kinv : kinv (Some 2%positive) ∅ demo_state.
Proof. apply kinv_check_sound. by vm_compute. Qed.

(** ** Allocation and the thread list *)

Definition malloc_state (p : ptr) (fs : list bool) (s : kstate) : kstate :=
  k_malloc_fails fs (k_next_ptr (Pos.succ p) (k_allocated ({[p]} ∪ allocated s) s)).

Lemma malloc_fail_ok s fs : malloc_fails s = true :: fs -> malloc s = Done None (k_malloc_fails fs s).
Proof. unfold malloc. by intros ->. Qed.

Lemma malloc_ok s :
  head (malloc_fails s) <> Some true ->
  malloc s = Done (Some (next_ptr s)) (malloc_state (next_ptr s) (tail (malloc_fails s)) s).
Proof. unfold malloc. by destruct (malloc_fails s) as [|[] ?]. Qed.

Lemma kinv_queues run H s s' :
  kinv run H s -> threads s' = threads s -> run_queue s' = run_queue s ->
  run_queue_bitmap s' = run_queue_bitmap s -> wqs s' = wqs s -> thread_list s' = thread_list s ->
  (forall t, t ∈ allocated s' -> (t < next_ptr s')%positive) -> (next_ptr s <= next_ptr s')%positive ->
  _idle_thread ∉ allocated s' -> overrun s' = overrun s -> kinv run H s'.
Proof.
  intros HI E1 E2 E3 E4 E5 Ha Hn Hs E6.
  assert (Hq : forall q, queue s' q = queue s q).
  { intros [p|w]; simpl; by rewrite ?E2, ?E4. }
  destruct HI. constructor; intros *; rewrite ?Hq, ?E1, ?E2, ?E3, ?E4, ?E5, ?E6; eauto.
  intros [Ht|Ht]; [|by apply Ha]. assert (t < next_ptr s)%positive by (apply ki_fresh0; by left). lia.
Qed.

Lemma kinv_malloc run H s fs : kinv run H s -> kinv run H (malloc_state (next_ptr s) fs s).
Proof.
  intros HI. assert (Hi : (_idle_thread < next_ptr s)%positive).
  { destruct (ki_idle _ _ _ HI) as (th & Hth & _). apply (ki_fresh _ _ _ HI). left. by eexists. }
  eapply kinv_queues; [exact HI|done..| |simpl; lia| |done].
  - simpl. intros t [->%elem_of_singleton|Ht]%elem_of_union; [lia|].
    assert (t < next_ptr s)%positive by (apply (ki_fresh _ _ _ HI); by right). lia.
  - simpl. pose proof (ki_idle_static _ _ _ HI). intros [E%elem_of_singleton|?]%elem_of_union; [lia|done].
Qed.

Lemma fresh_not_thread run H s : kinv run H s -> threads s !! next_ptr s = None.
Proof.
  intros HI. destruct (threads s !! next_ptr s) as [th|] eqn:E; [|done].
  assert (next_ptr s < next_ptr s)%positive by (apply (ki_fresh _ _ _ HI); left; by eexists). lia.
Qed.

Definition add_thread (t : ptr) (th : thread_t) (s : kstate) : kstate :=
  k_thread_list (t :: thread_list s)
    (k_threads (<[t := th]> (threads s))
       (k_wqs (<[RetcodeWQ t := WAIT_QUEUE_INITIAL_VALUE]> (wqs s)) s)).

Lemma kinv_add_thread run s t th :
  kinv run ∅ s -> threads s !! t = None -> (t < next_ptr s)%positive ->
  state th = THREAD_SUSPENDED -> magic th = THREAD_MAGIC -> bad_flags th = false ->
  0 <= priority th < NUM_PRIORITIES -> kinv run ∅ (add_thread t th s).
Proof.
  intros HI Ht Hlt Hst Hm Hf Hp.
  assert (Hw : wqs s !! RetcodeWQ t = None).
  { destruct (wqs s !! RetcodeWQ t) eqn:E; [|done].
    destruct (ki_retcode _ _ _ HI t) as [th' Hth']; [by eexists|congruence]. }
  assert (Hq : forall q, queue (add_thread t th s) q = queue s q).
  { intros [p|w]; [done|]. simpl. rewrite lookup_insert. case_decide; [|done]. subst w. by rewrite Hw. }
  destruct HI. constructor; try done.
  - intros t' q. rewrite Hq, ki_home0. simpl. rewrite lookup_insert. case_decide; [subst t'|done].
    split; intros (_ & th' & Hth' & Hh); [congruence|]. injection Hth' as <-.
    unfold home in Hh. by rewrite Hst in Hh.
  - intros q. rewrite Hq. apply ki_nodup0.
  - intros w q. simpl. rewrite lookup_insert. case_decide; [by intros [= <-]|apply ki_count0].
  - intros t' th'. simpl. rewrite lookup_insert. case_decide; [by intros [= <-]|apply ki_prio0].
  - intros t' th' _. simpl. rewrite lookup_insert. case_decide; [intros [= <-]; congruence|].
    apply ki_runs0. set_solver.
  - intros t' Hr. destruct (ki_cur0 _ Hr) as (Hn & th' & Hth' & Hst'). split; [done|].
    exists th'. simpl. rewrite lookup_insert_ne by congruence. done.
  - destruct ki_idle0 as (thi & Hi & Hsti). exists thi. simpl.
    rewrite lookup_insert_ne by congruence. done.
  - intros t' th'. simpl. rewrite lookup_insert. case_decide; [by intros [= <-]|apply ki_magic0].
  - intros t' th'. simpl. rewrite lookup_insert. case_decide; [by intros [= <-]|apply ki_flag0].
  - simpl. apply NoDup_cons. split; [|done]. intros Hin. apply ki_tl0 in Hin as (? & ? & _). congruence.
  - intros t'. simpl. rewrite elem_of_cons, lookup_insert, ki_tl0. case_decide as Hc; [subst t'|].
    + split; [eauto|by left].
    + split; [intros [?|?]; [congruence|done]|by right].
  - intros t'. simpl. rewrite lookup_insert. case_decide; [by subst t'|apply ki_fresh0].
  - intros t'. simpl. destruct (decide (t' = t)) as [->|Hne]; [simplify_map_eq; by eexists|].
    rewrite !lookup_insert_ne by congruence. apply ki_retcode0.
Qed.

(** A dead thread leaves the global list and loses its magic. *)
Definition unlist_dead (t : ptr) (th : thread_t) (s : kstate) : kstate :=
  k_threads (<[t := th_magic 0 th]> (threads s)) (k_thread_list (list_remove1 t (thread_list s)) s).

Lemma kinv_unlist_dead run H s t th :
  kinv run H s -> threads s !! t = Some th -> state th = THREAD_DEATH ->
  kinv run H (unlist_dead t th s).
Proof.
  intros HI Hth Hst. unfold unlist_dead.
  assert (Hh : home th = None) by (unfold home; by rewrite Hst).
  assert (Hh' : home (th_magic 0 th) = None) by done.
  destruct HI. constructor; try done.
  - intros t' q. rewrite (ki_home0 t' q). simpl threads. rewrite lookup_insert. case_decide; [|done].
    subst t'. split; intros (? & th' & ? & ?); simplify_eq; congruence.
  - intros t' th'. simpl. rewrite lookup_insert. case_decide; [intros [= <-]; exact (ki_prio0 t th Hth)|apply ki_prio0].
  - intros t' th' Hn. simpl. rewrite lookup_insert. case_decide; [intros [= <-]; simpl; congruence|by apply ki_runs0].
  - intros t' Hr. destruct (ki_cur0 _ Hr) as (Hn & th' & Hth' & Hst'). split; [done|].
    exists th'. simpl. rewrite lookup_insert_ne; [done|]. intros ->. congruence.
  - destruct ki_idle0 as (thi & Hi & Hsti). simpl. rewrite lookup_insert. case_decide; [|eauto].
    subst t. eexists. split; [done|]. by simplify_eq.
  - intros t' th'. simpl. rewrite lookup_insert. case_decide; [intros [= <-]; done|apply ki_magic0].
  - intros t' th'. simpl. rewrite lookup_insert. case_decide; [intros [= <-]; exact (ki_flag0 t th Hth)|apply ki_flag0].
  - simpl. by apply NoDup_list_remove1.
  - intros t'. simpl. rewrite elem_of_list_remove1, ki_tl0, lookup_insert by done. case_decide as Hc.
    + subst t'. split; [naive_solver|]. intros (? & [= <-] & ?). done.
    + naive_solver.
  - intros t'. simpl. rewrite lookup_insert. case_decide; [|apply ki_fresh0].
    subst t'. intros _. apply ki_fresh0. left. by eexists.
  - intros t' Hr. simpl. rewrite lookup_insert. case_decide; [by eexists|by apply ki_retcode0].
Qed.

(** Freeing a block that is not a thread, or a thread that is dead, unlisted
    and has no joiner waiting. *)
Definition free_state (p : ptr) (s : kstate) : kstate :=
  k_allocated (allocated s ∖ {[p]})
    (k_threads (delete p (threads s)) (k_wqs (delete (RetcodeWQ p) (wqs s)) s)).

Lemma free_ok p s : p ∈ allocated s -> free p s = Done tt (free_state p s).
Proof. intros Hp. unfold free. by rewrite decide_True. Qed.

Lemma kinv_free run s p :
  kinv run ∅ s -> p ∈ allocated s ->
  (forall th, threads s !! p = Some th -> state th = THREAD_DEATH /\ magic th = 0) ->
  queue s (WaitQ (RetcodeWQ p)) = [] -> kinv run ∅ (free_state p s).
Proof.
  intros HI Hp Hdead Hqe.
  assert (Hpi : p <> _idle_thread) by (intros ->; by apply (ki_idle_static _ _ _ HI)).
  assert (Hq : forall q, queue (free_state p s) q = queue s q).
  { intros [n|w]; [done|]. simpl. rewrite lookup_delete. case_decide; [|done]. subst w. done. }
  destruct HI. constructor; try done.
  - intros t q. rewrite Hq, ki_home0. simpl. rewrite lookup_delete. case_decide as Hc; [|done]. subst t.
    split; intros (_ & th & Hth & Hh); [|done]. destruct (Hdead _ Hth) as [Hst _].
    unfold home in Hh. by rewrite Hst in Hh.
  - intros q. rewrite Hq. apply ki_nodup0.
  - intros w q. simpl. rewrite lookup_delete. case_decide; [done|apply ki_count0].
  - intros t th. simpl. rewrite lookup_delete. case_decide; [done|apply ki_prio0].
  - intros t th Hn. simpl. rewrite lookup_delete. case_decide; [done|by apply ki_runs0].
  - intros t Hr. destruct (ki_cur0 _ Hr) as (Hn & th & Hth & Hst). split; [done|]. exists th. simpl.
    rewrite lookup_delete_ne; [done|]. intros <-. destruct (Hdead _ Hth). congruence.
  - destruct ki_idle0 as (thi & Hi & Hsti). exists thi. simpl. by rewrite lookup_delete_ne.
  - intros t th. simpl. rewrite lookup_delete. case_decide; [done|apply ki_magic0].
  - intros t th. simpl. rewrite lookup_delete. case_decide; [done|apply ki_flag0].
  - intros t. simpl. rewrite ki_tl0, lookup_delete. case_decide as Hc; [|done]. subst t.
    split; [|by intros (? & ? & _)]. intros (th & Hth & Hm). destruct (Hdead _ Hth) as [_ Hm'].
    rewrite Hm in Hm'. done.
  - intros t. simpl. rewrite lookup_delete. intros [Ht|Ht]; apply ki_fresh0.
    + case_decide; [by destruct Ht|by left].
    + right. set_solver.
  - simpl. set_solver.
  - intros t. simpl. destruct (decide (t = p)) as [->|Hne].
    + rewrite lookup_delete_eq. by intros [].
    + rewrite !lookup_delete_ne by congruence. apply ki_retcode0.
Qed.
