(* ===== verification/Sched.v ===== *)
(** * The scheduler ([lk/kernel/thread.c])

    Run queue manipulation, the choice of the next thread, rescheduling and
    the operations on the current thread that only reschedule: yield,
    preempt, block, unblock, the timer tick, sleep and priority changes.
    The theorems say that the thread chosen is the head of the highest
    priority run queue that is not empty, that every operation keeps the
    scheduler invariant, and that the scheduler lock and the interrupt state
    are as the caller left them. *)

From S2P Require Import Prelude Kernel KInv.

Section ops.
Context `{Config}.

(** A condition on the fields of a thread. *)
Definition thread_assert (t : ptr) (c : thread_t -> bool) : M unit :=
  DEBUG_ASSERT (fun s => match threads s !! t with Some th => c th | None => false end).

(** [t->magic == THREAD_MAGIC] *)
Definition thread_magic_ok (th : thread_t) : bool := magic th =? THREAD_MAGIC.

Definition thread_in_state (st : thread_state) (th : thread_t) : bool :=
  bool_decide (state th = st).

(** [list_in_list(&t->queue_node)] *)
Definition queue_node_in_list (t : ptr) (s : kstate) : bool :=
  existsb (fun l => bool_decide (t ∈ l)) (run_queue s) ||
  existsb (fun '(_, q) => bool_decide (t ∈ wq_list q)) (map_to_list (wqs s)).

Definition insert_in_run_queue_head (t : ptr) : M unit :=
  thread_assert t thread_magic_ok;;
  thread_assert t (thread_in_state THREAD_READY);;
  DEBUG_ASSERT (fun s => negb (queue_node_in_list t s));;
  DEBUG_ASSERT arch_ints_disabled;;
  DEBUG_ASSERT spin_lock_held;;
  th ← get_thread t;
  q ← get_rq (priority th);
  put_rq (priority th) (t :: q);;
  modify (fun s => k_run_queue_bitmap
    (Z.lor (run_queue_bitmap s) (u32 (Z.shiftl 1 (priority th)))) s).

Definition insert_in_run_queue_tail (t : ptr) : M unit :=
  thread_assert t thread_magic_ok;;
  thread_assert t (thread_in_state THREAD_READY);;
  DEBUG_ASSERT (fun s => negb (queue_node_in_list t s));;
  DEBUG_ASSERT arch_ints_disabled;;
  DEBUG_ASSERT spin_lock_held;;
  th ← get_thread t;
  q ← get_rq (priority th);
  put_rq (priority th) (q ++ [t]);;
  modify (fun s => k_run_queue_bitmap
    (Z.lor (run_queue_bitmap s) (u32 (Z.shiftl 1 (priority th)))) s).

Definition thread_is_realtime (th : thread_t) : bool :=
  has_flag (flags th) THREAD_FLAG_REAL_TIME && (DEFAULT_PRIORITY <? priority th).

Definition thread_is_idle (th : thread_t) : bool :=
  has_flag (flags th) THREAD_FLAG_IDLE.

Definition thread_is_real_time_or_idle (th : thread_t) : bool :=
  has_flag (flags th) (Z.lor THREAD_FLAG_REAL_TIME THREAD_FLAG_IDLE).

(** [__builtin_clz] of a nonzero 32-bit value *)
Definition clz32 (x : Z) : Z := 31 - Z.log2 x.

(** The loop of [get_top_thread]. *)
Fixpoint get_top_thread_loop (fuel : nat) (local_run_queue_bitmap : Z) : M ptr :=
  match fuel with
  | O => fail Fuel
  | S fuel' =>
      if local_run_queue_bitmap =? 0 then mret _idle_thread
      else
        let next_queue :=
          HIGHEST_PRIORITY - clz32 local_run_queue_bitmap - (4 * 8 - NUM_PRIORITIES) in
        q ← get_rq next_queue;
        match q with
        | newthread :: q' =>
            put_rq next_queue q';;
            when (bool_decide (q' = []))
              (modify (fun s => k_run_queue_bitmap
                 (Z.land (run_queue_bitmap s) (Z.lnot (Z.shiftl 1 next_queue))) s));;
            mret newthread
        | [] =>
            get_top_thread_loop fuel'
              (Z.land local_run_queue_bitmap (Z.lnot (Z.shiftl 1 next_queue)))
        end
  end.

Definition get_top_thread : M ptr :=
  bm ← get run_queue_bitmap; get_top_thread_loop 33 bm.

(** The check of the guard words at the bottom of the outgoing stack
    ([THREAD_STACK_BOUNDS_CHECK], defined when [LK_DEBUGLEVEL > 1]). *)
Definition stack_bounds_check (oldthread : ptr) : M unit :=
  if debug_build then
    th ← get_thread oldthread;
    when (has_flag (flags th) THREAD_FLAG_DEBUG_STACK_BOUNDS_CHECK)
      (match stack th with
       | Some p => ov ← get overrun; when (bool_decide (p ∈ ov)) (fail Panic)
       | None => fail UB
       end)
  else mret tt.

(** [swapcontext]: the thread stops here until it is switched back to. *)
Definition arch_context_switch (oldthread newthread : ptr) : M unit :=
  fun s => Switch s (fun s' => Done tt s').

Definition thread_resched : M unit :=
  current_thread ← get_current_thread;
  DEBUG_ASSERT arch_ints_disabled;;
  DEBUG_ASSERT spin_lock_held;;
  thread_assert current_thread (fun th => negb (thread_in_state THREAD_RUNNING th));;
  newthread ← get_top_thread;
  upd_thread newthread (th_state THREAD_RUNNING);;
  let oldthread := current_thread in
  if decide (newthread = oldthread) then mret tt
  else
    upd_thread newthread (fun th =>
      if remaining_quantum th <=? 0 then th_remaining_quantum 5 th else th);;
    set_current_thread newthread;;
    stack_bounds_check oldthread;;
    e ← get errno;
    upd_thread oldthread (th_terrno e);;
    th ← get_thread newthread;
    modify (k_errno (terrno th));;
    arch_context_switch oldthread newthread.

Definition thread_yield : M unit :=
  current_thread ← get_current_thread;
  thread_assert current_thread thread_magic_ok;;
  thread_assert current_thread (thread_in_state THREAD_RUNNING);;
  st ← THREAD_LOCK;
  upd_thread current_thread (th_state THREAD_READY);;
  upd_thread current_thread (th_remaining_quantum 0);;
  th ← get_thread current_thread;
  when (negb (thread_is_idle th)) (insert_in_run_queue_tail current_thread);;
  thread_resched;;
  THREAD_UNLOCK st.

Definition thread_preempt : M unit :=
  current_thread ← get_current_thread;
  thread_assert current_thread thread_magic_ok;;
  thread_assert current_thread (thread_in_state THREAD_RUNNING);;
  st ← THREAD_LOCK;
  upd_thread current_thread (th_state THREAD_READY);;
  th ← get_thread current_thread;
  when (negb (thread_is_idle th))
    (if 0 <? remaining_quantum th then insert_in_run_queue_head current_thread
     else insert_in_run_queue_tail current_thread);;
  thread_resched;;
  THREAD_UNLOCK st.

Definition arch_idle : M unit := thread_preempt.

Definition thread_block : M unit :=
  current_thread ← get_current_thread;
  thread_assert current_thread thread_magic_ok;;
  thread_assert current_thread (thread_in_state THREAD_BLOCKED);;
  DEBUG_ASSERT spin_lock_held;;
  thread_assert current_thread (fun th => negb (thread_is_idle th));;
  thread_resched.

Definition thread_unblock (t : ptr) (resched : bool) : M unit :=
  thread_assert t thread_magic_ok;;
  thread_assert t (thread_in_state THREAD_BLOCKED);;
  DEBUG_ASSERT spin_lock_held;;
  thread_assert t (fun th => negb (thread_is_idle th));;
  upd_thread t (th_state THREAD_READY);;
  insert_in_run_queue_head t;;
  mp_reschedule MP_CPU_ALL_BUT_LOCAL 0;;
  when resched thread_resched.

(** [enum handler_return] ([Include/lk/kernel/timer.h]) *)
Inductive handler_return := INT_NO_RESCHEDULE | INT_RESCHEDULE.

Definition thread_timer_tick : M handler_return :=
  current_thread ← get_current_thread;
  th ← get_thread current_thread;
  if thread_is_real_time_or_idle th then mret INT_NO_RESCHEDULE
  else
    upd_thread current_thread (fun th => th_remaining_quantum (s32 (remaining_quantum th - 1)) th);;
    th ← get_thread current_thread;
    mret (if remaining_quantum th <=? 0 then INT_RESCHEDULE else INT_NO_RESCHEDULE).

Definition thread_sleep_handler (t : ptr) : M handler_return :=
  thread_assert t thread_magic_ok;;
  thread_assert t (thread_in_state THREAD_SLEEPING);;
  st ← THREAD_LOCK;
  upd_thread t (th_state THREAD_READY);;
  insert_in_run_queue_head t;;
  THREAD_UNLOCK st;;
  mret INT_RESCHEDULE.

Definition thread_sleep (delay : Z) : M unit :=
  current_thread ← get_current_thread;
  thread_assert current_thread thread_magic_ok;;
  thread_assert current_thread (thread_in_state THREAD_RUNNING);;
  thread_assert current_thread (fun th => negb (thread_is_idle th));;
  timer_initialize;;
  st ← THREAD_LOCK;
  timer_set_oneshot delay;;
  upd_thread current_thread (th_state THREAD_SLEEPING);;
  thread_resched;;
  THREAD_UNLOCK st.

Definition thread_set_priority (priority : Z) : M unit :=
  current_thread ← get_current_thread;
  st ← THREAD_LOCK;
  let priority := if priority <=? IDLE_PRIORITY then IDLE_PRIORITY + 1 else priority in
  let priority := if HIGHEST_PRIORITY <? priority then HIGHEST_PRIORITY else priority in
  upd_thread current_thread (th_priority priority);;
  upd_thread current_thread (th_state THREAD_READY);;
  insert_in_run_queue_head current_thread;;
  thread_resched;;
  THREAD_UNLOCK st.

End ops.

(** ** Specification *)

(** [t] is the head of the highest priority run queue that is not empty, or
    the idle thread when all of them are empty. *)
Definition is_top (s : kstate) (t : ptr) : Prop :=
  (exists p l, (p < 32)%nat /\ queue s (RunQ p) = t :: l /\
     forall p', (p < p' < 32)%nat -> queue s (RunQ p') = []) \/
  (t = _idle_thread /\ forall p, (p < 32)%nat -> queue s (RunQ p) = []).

(** The fields of a thread that a context switch does not save or refill. *)
Definition th_core (th : thread_t) : thread_t := th_terrno 0 (th_remaining_quantum 0 th).

(** [s'] is [s] after the current thread [me] gave the CPU to [top]. *)
Record dispatched (me : ptr) (s : kstate) (top : ptr) (s' : kstate) : Prop := {
  dp_top : is_top s top;
  dp_kinv : kinv (Some top) ∅ s';
  dp_locked : locked s';
  dp_cur : current_thread s' = Some top;
  dp_frame : sched_only s s';
  dp_wqs : wqs s' = wqs s;
  dp_queue : forall p, queue s' (RunQ p) = list_remove1 top (queue s (RunQ p));
  dp_core : forall t, th_core <$> threads s' !! t =
    (fun th => th_core (if decide (t = top) then th_state THREAD_RUNNING th else th)) <$> threads s !! t;
  dp_errno : top <> me ->
    Some (errno s') = terrno <$> threads s !! top /\
    terrno <$> threads s' !! me = Some (errno s);
}.

(** What a thread will be told is not touched. *)
Lemma dp_ret me s top s' : dispatched me s top s' ->
  forall t, wait_queue_block_ret <$> threads s' !! t = wait_queue_block_ret <$> threads s !! t.
Proof.
  intros Hd t. pose proof (f_equal (fmap wait_queue_block_ret) (dp_core _ _ _ _ Hd t)) as E.
  rewrite <- !option_fmap_compose in E. etrans; [exact E|].
  destruct (threads s !! t); [|done]. simpl. by case_decide.
Qed.

(** The outcome of rescheduling from [me] in state [s], [c] being what [me]
    does next: it does it at once, or another thread gets the CPU and [me]
    does it when it is switched back to. *)
Inductive reschedules {A} (me : ptr) (c : M A) (s : kstate) : run A -> Prop :=
| resched_same s' : dispatched me s me s' -> reschedules me c s (c s')
| resched_other top s' : top <> me -> dispatched me s top s' ->
    reschedules me c s (Switch s' (fun s2 => c s2)).

(** The state in which [me] executes between two kernel calls. *)
Record running (me : ptr) (s : kstate) : Prop := {
  rn_kinv : kinv (Some me) ∅ s;
  rn_cur : current_thread s = Some me;
  rn_unlocked : thread_lock s = 0;
}.

(** The state in which [me] hands the CPU over, and the one it gets back. *)
Definition switched (me : ptr) (s : kstate) : Prop :=
  exists top, top <> me /\ kinv (Some top) ∅ s /\ current_thread s = Some top /\ locked s.
Definition resumed (me : ptr) (s : kstate) : Prop :=
  kinv (Some me) ∅ s /\ current_thread s = Some me /\ locked s.

(** A kernel call: it does not fail, keeps the scheduler invariant at every
    switch and at the end, releases the lock and restores the interrupts. *)
Definition op_safe {A} (me : ptr) (ie : bool) (Q : A -> kstate -> Prop) (r : run A) : Prop :=
  safe (switched me) (resumed me)
    (fun a s' => running me s' /\ ints_enabled s' = ie /\ Q a s') r.

Definition rq_linked (p : Z) (l : list ptr) (s : kstate) : kstate :=
  k_run_queue_bitmap (Z.lor (run_queue_bitmap s) (u32 (Z.shiftl 1 p)))
    (k_run_queue (<[Z.to_nat p := l]> (run_queue s)) s).

(** ** Lemmas *)

Section lemmas.
Context `{Config}.
Implicit Types (s : kstate) (t me : ptr).

Lemma thread_assert_ok t c s th :
  threads s !! t = Some th -> c th = true -> thread_assert t c s = Done tt s.
Proof. intros Hth Hc. apply DEBUG_ASSERT_ok. by rewrite Hth. Qed.

Lemma in_list_queue t s :
  queue_node_in_list t s = true -> exists q, t ∈ queue s q.
Proof.
  unfold queue_node_in_list. rewrite orb_true_iff, !existsb_exists.
  intros [(l & Hl & Ht)|([w q] & Hl & Ht)]; apply bool_decide_eq_true in Ht.
  - apply list_elem_of_In, list_elem_of_lookup in Hl as [p Hp].
    exists (RunQ p). simpl. by rewrite Hp.
  - apply list_elem_of_In, elem_of_map_to_list in Hl. exists (WaitQ w). simpl. by rewrite Hl.
Qed.

Lemma flux_not_in_list run F s t :
  kinv run F s -> t ∈ F -> negb (queue_node_in_list t s) = true.
Proof.
  intros HI Ht. destruct (queue_node_in_list t s) eqn:E; [|done].
  apply in_list_queue in E as [q Hq]. by apply (ki_home _ _ _ HI) in Hq as [? _].
Qed.

Lemma kinv_rq run F s p :
  kinv run F s -> 0 <= p < NUM_PRIORITIES ->
  run_queue s !! Z.to_nat p = Some (queue s (RunQ (Z.to_nat p))).
Proof.
  intros HI Hp. simpl.
  destruct (lookup_lt_is_Some_2 (run_queue s) (Z.to_nat p)) as [q Hq].
  { rewrite (ki_len _ _ _ HI). unfold NUM_PRIORITIES in Hp. lia. }
  by rewrite Hq.
Qed.

Lemma rq_linked_sched_only p l s : sched_only s (rq_linked p l s).
Proof. by constructor. Qed.

Lemma insert_head_ok run F s t th :
  kinv run F s -> t ∈ F -> threads s !! t = Some th -> state th = THREAD_READY ->
  locked s ->
  insert_in_run_queue_head t s =
    Done tt (rq_linked (priority th) (t :: queue s (RunQ (Z.to_nat (priority th)))) s) /\
  kinv run (F ∖ {[t]})
    (rq_linked (priority th) (t :: queue s (RunQ (Z.to_nat (priority th)))) s).
Proof.
  intros HI Ht Hth Hst [Hi Hl]. split; [|by apply (kinv_close_rq run F s t th)].
  pose proof (ki_prio _ _ _ HI _ _ Hth) as Hp.
  unfold insert_in_run_queue_head.
  erewrite bind_done; [|eapply thread_assert_ok; [done|]].
  2: { unfold thread_magic_ok. rewrite (ki_magic _ _ _ HI _ _ Hth); [done|congruence]. }
  erewrite bind_done; [|eapply thread_assert_ok; [done|by apply bool_decide_eq_true]].
  kassert; [by eapply flux_not_in_list|].
  kassert; [unfold arch_ints_disabled; by rewrite Hi|].
  kassert; [unfold spin_lock_held; by rewrite Hl|].
  kstep. erewrite bind_done; [|apply get_rq_ok; [lia|by eapply kinv_rq]].
  by kstep.
Qed.

Lemma insert_tail_ok run F s t th :
  kinv run F s -> t ∈ F -> threads s !! t = Some th -> state th = THREAD_READY ->
  locked s ->
  insert_in_run_queue_tail t s =
    Done tt (rq_linked (priority th) (queue s (RunQ (Z.to_nat (priority th))) ++ [t]) s) /\
  kinv run (F ∖ {[t]})
    (rq_linked (priority th) (queue s (RunQ (Z.to_nat (priority th))) ++ [t]) s).
Proof.
  intros HI Ht Hth Hst [Hi Hl].
  split; [|apply (kinv_close_rq run F s t th); try done; by rewrite Permutation_app_comm].
  pose proof (ki_prio _ _ _ HI _ _ Hth) as Hp.
  unfold insert_in_run_queue_tail.
  erewrite bind_done; [|eapply thread_assert_ok; [done|]].
  2: { unfold thread_magic_ok. rewrite (ki_magic _ _ _ HI _ _ Hth); [done|congruence]. }
  erewrite bind_done; [|eapply thread_assert_ok; [done|by apply bool_decide_eq_true]].
  kassert; [by eapply flux_not_in_list|].
  kassert; [unfold arch_ints_disabled; by rewrite Hi|].
  kassert; [unfold spin_lock_held; by rewrite Hl|].
  kstep. erewrite bind_done; [|apply get_rq_ok; [lia|by eapply kinv_rq]].
  by kstep.
Qed.

(** *** Choosing the next thread *)

(** [s] after taking [t] out of its run queue. *)
Definition rq_popped (p : nat) (l : list ptr) (s : kstate) : kstate :=
  k_run_queue_bitmap
    (if decide (l = []) then Z.land (run_queue_bitmap s) (Z.lnot (Z.shiftl 1 (Z.of_nat p)))
     else run_queue_bitmap s)
    (k_run_queue (<[p := l]> (run_queue s)) s).

Lemma next_queue_log2 bm : HIGHEST_PRIORITY - clz32 bm - (4 * 8 - NUM_PRIORITIES) = Z.log2 bm.
Proof. unfold HIGHEST_PRIORITY, NUM_PRIORITIES, clz32. lia. Qed.

Lemma get_top_thread_loop_ok fuel s p t l :
  0 <= p -> run_queue s !! Z.to_nat p = Some (t :: l) -> run_queue_bitmap s <> 0 ->
  Z.log2 (run_queue_bitmap s) = p ->
  get_top_thread_loop (S fuel) (run_queue_bitmap s) s = Done t (rq_popped (Z.to_nat p) l s).
Proof.
  intros Hp Hq Hbm Hlog. unfold get_top_thread_loop; fold get_top_thread_loop.
  rewrite (proj2 (Z.eqb_neq _ _)) by done. cbv zeta. rewrite next_queue_log2, Hlog.
  erewrite bind_done; [|by apply get_rq_ok]. cbv iota. kstep.
  unfold rq_popped. rewrite !Z2Nat.id by done.
  by destruct l.
Qed.

Lemma top_queue_bits s H0 run :
  kinv run H0 s -> run_queue_bitmap s <> 0 ->
  let p := Z.to_nat (Z.log2 (run_queue_bitmap s)) in
  (p < 32)%nat /\ queue s (RunQ p) <> [] /\
  forall p', (p < p' < 32)%nat -> queue s (RunQ p') = [].
Proof.
  intros HI Hbm p. pose proof (ki_bm _ _ _ HI) as Hr.
  assert (Hlog : 0 <= Z.log2 (run_queue_bitmap s) < 32).
  { split; [apply Z.log2_nonneg|]. apply Z.log2_lt_pow2; lia. }
  assert (Hp : (p < 32)%nat) by (unfold p; lia).
  split_and!; [done| |].
  - pose proof (ki_bits _ _ _ HI p Hp) as Hb. unfold p in Hb at 1.
    rewrite Z2Nat.id, Z.bit_log2 in Hb by lia.
    intros Hq. by rewrite bool_decide_eq_true_2 in Hb.
  - intros p' Hp'. pose proof (ki_bits _ _ _ HI p' ltac:(lia)) as Hb.
    rewrite Z.bits_above_log2 in Hb by (unfold p in *; lia).
    by case_bool_decide.
Qed.

Lemma bitmap_zero s H0 run :
  kinv run H0 s -> run_queue_bitmap s = 0 -> forall p, (p < 32)%nat -> queue s (RunQ p) = [].
Proof.
  intros HI Hbm p Hp. pose proof (ki_bits _ _ _ HI p Hp) as Hb.
  rewrite Hbm, Z.bits_0 in Hb. by case_bool_decide.
Qed.

Lemma get_top_thread_ok run H0 s :
  kinv run H0 s ->
  (exists p t l, (p < 32)%nat /\ queue s (RunQ p) = t :: l /\
     (forall p', (p < p' < 32)%nat -> queue s (RunQ p') = []) /\
     get_top_thread s = Done t (rq_popped p l s) /\
     kinv run ({[t]} ∪ H0) (rq_popped p l s)) \/
  ((forall p, (p < 32)%nat -> queue s (RunQ p) = []) /\
     get_top_thread s = Done _idle_thread s).
Proof.
  intros HI. destruct (decide (run_queue_bitmap s = 0)) as [Hz|Hnz].
  - right. split; [by eapply bitmap_zero|]. unfold get_top_thread. kstep. by rewrite Hz.
  - left. destruct (top_queue_bits s H0 run HI Hnz) as (Hp & Hne & Htop).
    set (p := Z.to_nat (Z.log2 (run_queue_bitmap s))) in *.
    destruct (queue s (RunQ p)) as [|t l] eqn:Hq; [done|].
    exists p, t, l. split_and!; try done; [|by apply kinv_open_rq].
    unfold get_top_thread. kstep.
    apply get_top_thread_loop_ok; [apply Z.log2_nonneg| |done|done]. fold p.
    pose proof (kinv_rq run H0 s (Z.of_nat p) HI) as E. rewrite Nat2Z.id, Hq in E.
    apply E. unfold NUM_PRIORITIES. lia.
Qed.

(** Whatever the run queues hold, [get_top_thread] takes one thread out. *)
Lemma get_top_thread_flux s :
  kinv None ∅ s ->
  exists t th bm rq,
    let s1 := k_run_queue_bitmap bm (k_run_queue rq s) in
    get_top_thread s = Done t s1 /\ kinv None {[t]} s1 /\ is_top s t /\
    threads s !! t = Some th /\ state th <> THREAD_DEATH /\
    forall p, queue s1 (RunQ p) = list_remove1 t (queue s (RunQ p)).
Proof.
  intros HI. destruct (get_top_thread_ok _ _ _ HI)
    as [(p & t & l & Hp & Hq & Hab & Hrun & HI')|(Hemp & Hrun)].
  - destruct (kinv_queue_thread _ _ _ t (RunQ p) HI ltac:(rewrite Hq; set_solver))
      as (th & Hth & Hh).
    eexists t, th, _, _. cbv zeta. split_and!; [exact Hrun| | |done| |].
    + by rewrite (right_id_L ∅ (∪)) in HI'.
    + left. eauto 10.
    + intros Hd. unfold home in Hh. by rewrite Hd in Hh.
    + intros p'. pose proof (queue_put_rq s p l (RunQ p')) as E.
      rewrite (ki_len _ _ _ HI) in E. etrans; [exact (E Hp)|].
      case_decide as Hc; [injection Hc as ->; by rewrite Hq, list_remove1_head|].
      rewrite list_remove1_notin; [done|]. intros Hin. apply Hc.
      apply (kinv_queue_unique None ∅ s t _ _ HI Hin). rewrite Hq. set_solver.
  - destruct (ki_idle _ _ _ HI) as (th & Hth & Hid). specialize (Hid ltac:(set_solver)).
    assert (Hsus : state th = THREAD_SUSPENDED).
    { destruct Hid as [?|[Hr|Hr]]; [done| |].
      - pose proof (ki_prio _ _ _ HI _ _ Hth) as Hp. unfold NUM_PRIORITIES in Hp.
        assert (Hin : _idle_thread ∈ queue s (RunQ (Z.to_nat (priority th)))).
        { eapply kinv_home_queue; [done|set_solver|done|]. unfold home. by rewrite Hr. }
        rewrite Hemp in Hin by lia. set_solver.
      - exfalso. by pose proof (ki_runs _ _ _ HI _ _ (not_elem_of_empty _) Hth Hr). }
    exists _idle_thread, th, (run_queue_bitmap s), (run_queue s).
    replace (k_run_queue_bitmap _ _) with s by (by destruct s). cbv zeta.
    split_and!; [exact Hrun| |right; by split|exact Hth|by rewrite Hsus|].
    + rewrite <- (right_id_L ∅ (∪) {[_]}).
      eapply (kinv_open_none None ∅); [done..|]. unfold home. by rewrite Hsus.
    + intros p. rewrite list_remove1_notin; [done|]. intros Hin.
      apply kinv_queue_state with (1:=HI) (3:=Hth) in Hin. unfold home in Hin. by rewrite Hsus in Hin.
Qed.

Lemma bind_thread_assert {A} t c s th (f : unit -> M A) r :
  threads s !! t = Some th -> c th = true -> f tt s = r -> (thread_assert t c ≫= f) s = r.
Proof. intros Hth Hc. apply bind_assert. by rewrite Hth. Qed.

Definition set_quantum (th : thread_t) : thread_t :=
  if remaining_quantum th <=? 0 then th_remaining_quantum 5 th else th.

Lemma set_quantum_static th : th_static (set_quantum th) = th_static th.
Proof. unfold set_quantum. by destruct (_ <=? _). Qed.

Lemma set_quantum_core th : th_core (set_quantum th) = th_core th.
Proof. unfold set_quantum. by destruct (_ <=? _). Qed.

Lemma set_quantum_sched th :
  state (set_quantum th) = state th /\ priority (set_quantum th) = priority th /\
  magic (set_quantum th) = magic th /\
  blocking_wait_queue (set_quantum th) = blocking_wait_queue th /\
  terrno (set_quantum th) = terrno th /\
  bad_flags (set_quantum th) = bad_flags th /\
  wait_queue_block_ret (set_quantum th) = wait_queue_block_ret th.
Proof. unfold set_quantum. by destruct (_ <=? _). Qed.

Lemma stack_bounds_check_ok run F s t th :
  kinv run F s -> threads s !! t = Some th -> stack_bounds_check t s = Done tt s.
Proof.
  intros HI Hth. unfold stack_bounds_check. destruct debug_build; [|done]. kstep.
  pose proof (ki_flag _ _ _ HI _ _ Hth) as Hf. apply orb_false_iff in Hf as [_ Hf].
  destruct has_flag; [|done]. destruct (stack th) as [p|]; [|done].
  simpl. kstep. by rewrite (ki_overrun _ _ _ HI), bool_decide_eq_false_2.
Qed.

Lemma dispatch_running s t th bm rq :
  let s1 := k_run_queue_bitmap bm (k_run_queue rq s) in
  kinv None {[t]} s1 -> threads s !! t = Some th -> state th <> THREAD_DEATH ->
  kinv (Some t) ∅ (k_threads (<[t := th_state THREAD_RUNNING th]> (threads s1)) s1).
Proof.
  intros s1 HI Hth Hst. replace ∅ with ({[t]} ∖ {[t]} : gset positive) by set_solver.
  apply (kinv_close_running _ _ _ (th_state THREAD_RUNNING th)); [|set_solver| |done].
  - eapply kinv_write; [done|set_solver|done| |done|done|].
    + exact (ki_prio _ _ _ HI _ _ Hth).
    + intros _. exact (ki_magic _ _ _ HI _ _ Hth Hst).
  - simpl. by rewrite lookup_insert_eq.
Qed.

(** What is left of [thread_resched] when [t] was chosen instead of [me]. *)
Definition switch_to (me t : ptr) : M unit :=
  upd_thread t set_quantum;;
  set_current_thread t;;
  stack_bounds_check me;;
  e ← get errno;
  upd_thread me (th_terrno e);;
  th ← get_thread t;
  modify (k_errno (terrno th));;
  arch_context_switch me t.

(** The state in which [t] (with the fields [th]) takes over from [me]. *)
Definition switched_to (me : ptr) (thm : thread_t) (t : ptr) (th : thread_t) (s : kstate) : kstate :=
  k_errno (terrno th) (k_threads (<[me := th_terrno (errno s) thm]> (<[t := set_quantum th]> (threads s)))
    (k_current_thread (Some t) (k_threads (<[t := set_quantum th]> (threads s)) s))).

Lemma switch_to_ok me thm t th s :
  kinv (Some t) ∅ s -> t <> me -> threads s !! t = Some th -> threads s !! me = Some thm ->
  switch_to me t s = Switch (switched_to me thm t th s) (fun s' => Done tt s') /\
  kinv (Some t) ∅ (switched_to me thm t th s) /\ sched_only s (switched_to me thm t th s).
Proof.
  intros HI Hne Ht Hme. destruct (set_quantum_sched th) as (Q1 & Q2 & Q3 & Q4 & Q5 & Q7 & Q6).
  set (s3 := k_threads (<[t := set_quantum th]> (threads s)) s). set (s4 := k_current_thread (Some t) s3).
  set (s5 := k_threads (<[me := th_terrno (errno s4) thm]> (threads s4)) s4).
  assert (Hme4 : threads s4 !! me = Some thm) by (simpl; by simplify_map_eq).
  assert (Ht5 : threads s5 !! t = Some (set_quantum th)) by (simpl; by simplify_map_eq).
  assert (HI4 : kinv (Some t) ∅ s4).
  { eapply (kinv_ext _ _ s3); [|done]. by eapply (kinv_upd_same _ _ s t). }
  split; [|split].
  - unfold switch_to. erewrite bind_done; [|exact (upd_thread_ok s t _ set_quantum Ht)].
    fold s3. kstep. fold s4. erewrite bind_done by exact (stack_bounds_check_ok _ _ s4 me thm HI4 Hme4). kstep.
    erewrite bind_done; [|exact (upd_thread_ok s4 me _ _ Hme4)]. fold s5.
    erewrite bind_done; [|exact (get_thread_ok s5 t _ Ht5)]. rewrite Q5. by kstep.
  - eapply (kinv_ext _ _ s5); [|done]. by eapply (kinv_upd_same _ _ s4 me thm).
  - transitivity s3; [apply (sched_only_upd s t _ set_quantum Ht), set_quantum_static|].
    transitivity s4; [by constructor|].
    transitivity s5; [by apply (sched_only_upd s4 me thm (th_terrno (errno s4)))|by constructor].
Qed.

Lemma thread_resched_ok me s thm :
  kinv None ∅ s -> locked s -> current_thread s = Some me -> threads s !! me = Some thm ->
  reschedules me (mret tt) s (thread_resched s).
Proof.
  intros HI [Hi Hl] Hcur Hme.
  assert (Hnr : negb (thread_in_state THREAD_RUNNING thm) = true).
  { unfold thread_in_state. case_bool_decide as Hs; [|done].
    by pose proof (ki_runs _ _ _ HI _ _ (not_elem_of_empty _) Hme Hs). }
  destruct (get_top_thread_flux s HI) as (t & th & bm & rq & Hget & HI1 & Htop & Hth & Hst & Hrm).
  pose proof (dispatch_running s t th bm rq HI1 Hth Hst) as HI2.
  set (s1 := k_run_queue_bitmap bm (k_run_queue rq s)) in *.
  set (s2 := k_threads (<[t := th_state THREAD_RUNNING th]> (threads s1)) s1) in *.
  assert (Hso2 : sched_only s s2).
  { etrans; [|apply (sched_only_upd s1 t th (th_state THREAD_RUNNING) Hth)]; done. }
  assert (Hrun : thread_resched s = (if decide (t = me) then mret tt else switch_to me t) s2).
  { unfold thread_resched. kstep.
    kassert; [unfold arch_ints_disabled; by rewrite Hi|].
    kassert; [unfold spin_lock_held; by rewrite Hl|].
    eapply bind_thread_assert; [done..|].
    erewrite bind_done by exact Hget.
    erewrite bind_done; [|apply (upd_thread_ok s1 t th); exact Hth]. done. }
  rewrite Hrun. destruct (decide (t = me)) as [->|Hne].
  - apply (resched_same me (mret tt)). constructor; try done.
    intros t'. simpl. rewrite lookup_insert. repeat case_decide; subst; by rewrite ?Hth.
  - destruct (switch_to_ok me thm t (th_state THREAD_RUNNING th) s2 HI2 Hne) as (-> & HI6 & Hso6);
      [simpl; by simplify_map_eq..|].
    apply (resched_other me (mret tt) s t); [done|]. constructor; try done.
    + by etrans.
    + intros t'. simpl. rewrite !lookup_insert. repeat case_decide; subst; try done.
      * by rewrite Hme.
      * rewrite Hth. simpl. by rewrite set_quantum_core.
    + intros _. simpl. rewrite Hth. simplify_map_eq. done.
Qed.

Lemma bind_resched {A} me s thm (c : M A) :
  kinv None ∅ s -> locked s -> current_thread s = Some me -> threads s !! me = Some thm ->
  reschedules me c s ((thread_resched;; c) s).
Proof.
  intros HI Hl Hcur Hme. unfold mbind, M_bind.
  destruct (thread_resched_ok me s thm HI Hl Hcur Hme) as [s' Hd|top s' Hne Hd]; simpl.
  - by apply resched_same.
  - by apply (resched_other me c s top).
Qed.

Lemma dispatched_resumed me s s' : dispatched me s me s' -> resumed me s'.
Proof. by intros []. Qed.

Lemma reschedules_safe {A} me (c : M A) s r Q :
  reschedules me c s r ->
  (forall s', resumed me s' -> safe (switched me) (resumed me) Q (c s')) ->
  safe (switched me) (resumed me) Q r.
Proof.
  intros [s' Hd|top s' Hne Hd] Hc; simpl.
  - by apply Hc, (dispatched_resumed me s).
  - split; [|done]. exists top. by destruct Hd.
Qed.

(** *** The state after requeueing the running thread *)

(** The state in which [me] calls [thread_resched]. *)
Definition parked (me : ptr) (s : kstate) : Prop :=
  kinv None ∅ s /\ locked s /\ current_thread s = Some me /\ is_Some (threads s !! me).

Lemma parked_resched {A} me s (c : M A) :
  parked me s -> reschedules me c s ((thread_resched;; c) s).
Proof. intros (? & ? & ? & thm & ?). by eapply bind_resched. Qed.

Lemma kinv_open_running me F s th th' :
  kinv (Some me) F s -> threads s !! me = Some th ->
  0 <= priority th' < NUM_PRIORITIES -> magic th' = magic th -> bad_flags th' = bad_flags th ->
  kinv None ({[me]} ∪ F) (k_threads (<[me := th']> (threads s)) s).
Proof.
  intros HI Hth Hp Hm Hf.
  destruct (ki_cur _ _ _ HI me eq_refl) as (_ & th0 & Hth0 & Hst). simplify_eq.
  assert (HI1 : kinv None ({[me]} ∪ F) s).
  { pose proof (kinv_open_none (Some me) F s me th HI Hth) as HH.
    rewrite decide_True in HH by done. apply HH. unfold home. by rewrite Hst. }
  eapply kinv_write; [done|set_solver|done..|].
  intros _. rewrite Hm. apply (ki_magic _ _ _ HI _ _ Hth). by rewrite Hst.
Qed.

Lemma queue_rq_linked run F p l s q :
  kinv run F s -> 0 <= p < NUM_PRIORITIES ->
  queue (rq_linked p l s) q = if decide (q = RunQ (Z.to_nat p)) then l else queue s q.
Proof.
  intros HI Hp. rewrite <- (queue_put_rq s); [done|].
  rewrite (ki_len _ _ _ HI). unfold NUM_PRIORITIES in Hp. lia.
Qed.

(** Linking the current thread, already marked ready, at the head or at the
    tail of the run queue of its priority. *)
Lemma requeue_ok (atend : bool) me s th :
  kinv None {[me]} s -> threads s !! me = Some th -> state th = THREAD_READY ->
  locked s -> current_thread s = Some me ->
  let q := queue s (RunQ (Z.to_nat (priority th))) in
  let s' := rq_linked (priority th) (if atend then q ++ [me] else me :: q) s in
  (if atend then insert_in_run_queue_tail me else insert_in_run_queue_head me) s = Done tt s' /\
  parked me s'.
Proof.
  intros HI Hth Hst Hl Hcur q s'.
  assert (Hp : kinv None ∅ s' -> parked me s').
  { intros HI'. split; [done|]. split; [exact Hl|]. split; [exact Hcur|eauto]. }
  destruct atend.
  - destruct (insert_tail_ok None {[me]} s me th) as [Hr HI']; [done|set_solver|done..|].
    rewrite difference_diag_L in HI'. eauto.
  - destruct (insert_head_ok None {[me]} s me th) as [Hr HI']; [done|set_solver|done..|].
    rewrite difference_diag_L in HI'. eauto.
Qed.

Lemma running_thread me s :
  running me s -> exists th, threads s !! me = Some th /\ state th = THREAD_RUNNING /\
    magic th = THREAD_MAGIC /\ bad_flags th = false /\ 0 <= priority th < NUM_PRIORITIES.
Proof.
  intros [HI _ _]. destruct (ki_cur _ _ _ HI me eq_refl) as (_ & th & Hth & Hst).
  exists th. split_and!; try done.
  - apply (ki_magic _ _ _ HI _ _ Hth). by rewrite Hst.
  - by apply (ki_flag _ _ _ HI _ _ Hth).
  - by apply (ki_prio _ _ _ HI _ _ Hth).
  - by apply (ki_prio _ _ _ HI _ _ Hth).
Qed.

Lemma kinv_lock_state run F s : kinv run F s -> kinv run F (lock_state s).
Proof. intros HI. by eapply kinv_ext. Qed.

Lemma kinv_unlock_state run F st s : kinv run F s -> kinv run F (unlock_state st s).
Proof. intros HI. unfold unlock_state. destruct has_flag; by eapply kinv_ext. Qed.

Lemma unlock_running me st s : resumed me s -> running me (unlock_state st s).
Proof.
  intros (HI & Hc & _). constructor; [by apply kinv_unlock_state| |apply unlock_state_lock].
  unfold unlock_state. by destruct has_flag.
Qed.

(** The usual end of a kernel call that has rescheduled. *)
Lemma reschedules_unlock me s0 s1 r :
  reschedules me (THREAD_UNLOCK (saved_ints s0)) s1 r ->
  op_safe me (ints_enabled s0) (fun _ _ => True) r.
Proof.
  intros Hr. eapply reschedules_safe; [done|]. intros s' Hs'. rewrite THREAD_UNLOCK_ok. simpl.
  split_and!; [by apply unlock_running| |done].
  apply unlock_saved_ints. apply Hs'.
Qed.
End lemmas.

(** ** Properties *)

(** Nothing outside the threads and the scheduler has changed. *)
Definition same_objects (s s' : kstate) : Prop :=
  (wqs s' = wqs s /\ thread_list s' = thread_list s /\ mutexes s' = mutexes s /\
   semaphores s' = semaphores s /\ events s' = events s /\ ticks s' = ticks s /\
   allocated s' = allocated s /\ ltimers s' = ltimers s /\ next_ptr s' = next_ptr s /\ fw_log s' = fw_log s) /\
  forall t, current_thread s <> Some t -> threads s' !! t = threads s !! t.

(** [me] waits in the run queue of priority [p], at the head or at the tail;
    the other queues, threads and objects of [s'] are those of [s]. *)
Definition requeued (atend : bool) (me : ptr) (p : Z) (s s' : kstate) : Prop :=
  parked me s' /\ same_objects s s' /\
  queue s' (RunQ (Z.to_nat p)) =
    (if atend then queue s (RunQ (Z.to_nat p)) ++ [me] else me :: queue s (RunQ (Z.to_nat p))) /\
  (forall q, q <> RunQ (Z.to_nat p) -> queue s' q = queue s q).

(** [s1] has the threads of [s], and no thread but [me] is linked in a queue
    that was not linked in one. *)
Record moved (me : ptr) (s s1 : kstate) : Prop := {
  mv_dom : dom (threads s1) = dom (threads s);
  mv_queue : forall t q, t ∈ queue s1 q -> t = me \/ exists q', t ∈ queue s q';
}.

Lemma moved_trans me s s1 s2 : moved me s s1 -> moved me s1 s2 -> moved me s s2.
Proof.
  intros [D1 Q1] [D2 Q2]. split; [congruence|]. intros t q Ht.
  destruct (Q2 t q Ht) as [->|[q' Ht']]; [by left|]. by apply (Q1 t q').
Qed.

Lemma moved_same me s s1 :
  dom (threads s1) = dom (threads s) -> (forall q, queue s1 q = queue s q) -> moved me s s1.
Proof. intros Hd Hq. split; [done|]. intros t q Ht. right. exists q. by rewrite <- Hq. Qed.

Lemma sched_only_dom s s1 : sched_only s s1 -> dom (threads s1) = dom (threads s).
Proof.
  intros Hso. rewrite <- (dom_fmap_L th_static (threads s1)), (so_threads _ _ Hso). apply dom_fmap_L.
Qed.

Lemma dispatched_moved me me' s top s1 : dispatched me s top s1 -> moved me' s s1.
Proof.
  intros Hd. split; [apply sched_only_dom, Hd|]. intros t [p|w] Ht; right.
  - rewrite (dp_queue _ _ _ _ Hd) in Ht. exists (RunQ p). revert Ht. clear.
    induction (queue s (RunQ p)) as [|x l IH]; simpl; [done|]. case_decide; set_solver.
  - exists (WaitQ w). revert Ht. unfold queue. by rewrite (dp_wqs _ _ _ _ Hd).
Qed.

Lemma requeued_moved atend me p s s1 :
  current_thread s = Some me -> is_Some (threads s !! me) -> requeued atend me p s s1 -> moved me s s1.
Proof.
  intros Hc Hme (Hpk & [_ Hth] & Hq & Hqs). split.
  - apply set_eq. intros t. rewrite !elem_of_dom. destruct (decide (t = me)) as [->|Hne].
    + split; [done|]. intros _. apply Hpk.
    + by rewrite Hth by congruence.
  - intros t q Ht. destruct (decide (q = RunQ (Z.to_nat p))) as [->|Hne].
    + rewrite Hq in Ht. destruct atend; [apply elem_of_app in Ht as [Ht|Ht%list_elem_of_singleton]|
        apply elem_of_cons in Ht as [Ht|Ht]]; eauto.
    + rewrite Hqs in Ht by done. eauto.
Qed.

Lemma not_idle th : bad_flags th = false -> negb (thread_is_idle th) = true.
Proof. unfold bad_flags, thread_is_idle. by intros [-> _]%orb_false_iff. Qed.

Ltac current_prologue :=
  erewrite bind_done; [|by apply get_current_thread_ok, rn_cur];
  repeat (erewrite bind_done; [|eapply thread_assert_ok;
    [eassumption|by first [apply Z.eqb_eq | apply bool_decide_eq_true | apply not_idle]]]).

Section requeue.
Context `{Config}.

Lemma requeue_step (atend : bool) me s0 s th th' :
  kinv (Some me) ∅ s0 -> threads s0 !! me = Some th ->
  s = k_threads (<[me := th']> (threads s0)) s0 ->
  magic th' = magic th -> bad_flags th' = bad_flags th -> state th' = THREAD_READY ->
  0 <= priority th' < NUM_PRIORITIES -> locked s0 -> current_thread s0 = Some me ->
  exists s', (if atend then insert_in_run_queue_tail me else insert_in_run_queue_head me) s
    = Done tt s' /\ requeued atend me (priority th') s0 s' /\ threads s' = threads s.
Proof.
  intros HI Hth -> Hm Hf Hst Hp Hl Hcur.
  set (s := k_threads _ s0).
  assert (HI' : kinv None {[me]} s).
  { rewrite <- (right_id_L ∅ (∪) {[me]}). by eapply kinv_open_running. }
  destruct (requeue_ok atend me s th' HI') as [Hrun Hpk]; try done.
  { simpl. by simplify_map_eq. }
  eexists. split; [exact Hrun|]. split; [|done].
  pose proof (fun l q => queue_rq_linked _ _ (priority th') l s q HI' Hp) as Hq.
  split_and!.
  - exact Hpk.
  - split; [done|]. rewrite Hcur. intros t Ht. simpl. rewrite lookup_insert_ne; [done|congruence].
  - rewrite Hq, decide_True by done. by destruct atend.
  - intros q Hne. by rewrite Hq, decide_False.
Qed.

(** The prologue of the operations on the current thread. *)
Lemma running_lock me s :
  running me s ->
  kinv (Some me) ∅ (lock_state s) /\ locked (lock_state s) /\
  current_thread (lock_state s) = Some me.
Proof.
  intros [HI Hc _]. split_and!; [by apply kinv_lock_state|apply lock_state_locked|done].
Qed.

Lemma insert_same {A} (m : gmap positive A) i x y : <[i := y]> (<[i := x]> m) = <[i := y]> m.
Proof. apply map_eq. intros j. rewrite !lookup_insert. by case_decide. Qed.

Lemma running_facts me s th :
  running me s -> threads s !! me = Some th ->
  state th = THREAD_RUNNING /\ magic th = THREAD_MAGIC /\ bad_flags th = false /\
  0 <= priority th < NUM_PRIORITIES.
Proof. intros Hrn Hth. destruct (running_thread me s Hrn) as (? & ? & ?). by simplify_eq. Qed.

Lemma thread_yield_ok me s th :
  running me s -> threads s !! me = Some th ->
  (exists s1, requeued true me (priority th) s s1 /\
     threads s1 !! me = Some (th_remaining_quantum 0 (th_state THREAD_READY th)) /\
     reschedules me (THREAD_UNLOCK (saved_ints s)) s1 (thread_yield s)) /\
  op_safe me (ints_enabled s) (fun _ _ => True) (thread_yield s).
Proof.
  intros Hrn Hth. destruct (running_facts me s th Hrn Hth) as (Hst & Hm & Hf & Hp).
  destruct (running_lock me s Hrn) as (HI & Hl & Hc).
  set (th' := th_remaining_quantum 0 (th_state THREAD_READY th)).
  destruct (requeue_step true me (lock_state s) _ th th' HI Hth eq_refl) as (s1 & Hins & Hrq & Hths);
    try done.
  assert (Hrun : reschedules me (THREAD_UNLOCK (saved_ints s)) s1 (thread_yield s)).
  { unfold thread_yield. current_prologue.
    kstep. kstep. kstep. kstep. simpl. rewrite insert_same.
    rewrite not_idle by done. cbv [when]. erewrite bind_done by exact Hins.
    apply parked_resched. apply Hrq. }
  split.
  - exists s1. split; [exact Hrq|]. split; [|done]. rewrite Hths. simpl. by simplify_map_eq.
  - by eapply reschedules_unlock.
Qed.

(** C17: yielding puts the running thread at the tail of the queue of its
    priority with its quantum used up, and gives the CPU to the head of the
    highest non-empty queue; the call returns with the lock released and the
    interrupts as they were. *)
Theorem thread_yield_round_robin me s th :
  running me s -> threads s !! me = Some th ->
  (exists s1, requeued true me (priority th) s s1 /\
     threads s1 !! me = Some (th_remaining_quantum 0 (th_state THREAD_READY th)) /\
     reschedules me (THREAD_UNLOCK (saved_ints s)) s1 (thread_yield s)) /\
  op_safe me (ints_enabled s) (fun _ _ => True) (thread_yield s).
Proof. apply thread_yield_ok. Qed.

Lemma thread_preempt_ok me s th :
  running me s -> threads s !! me = Some th ->
  (exists s1, requeued (remaining_quantum th <=? 0) me (priority th) s s1 /\
     threads s1 !! me = Some (th_state THREAD_READY th) /\
     reschedules me (THREAD_UNLOCK (saved_ints s)) s1 (thread_preempt s)) /\
  op_safe me (ints_enabled s) (fun _ _ => True) (thread_preempt s).
Proof.
  intros Hrn Hth. destruct (running_facts me s th Hrn Hth) as (Hst & Hm & Hf & Hp).
  destruct (running_lock me s Hrn) as (HI & Hl & Hc).
  set (th' := th_state THREAD_READY th).
  destruct (requeue_step (remaining_quantum th <=? 0) me (lock_state s) _ th th' HI Hth eq_refl)
    as (s1 & Hins & Hrq & Hths); try done.
  assert (Hrun : reschedules me (THREAD_UNLOCK (saved_ints s)) s1 (thread_preempt s)).
  { unfold thread_preempt. current_prologue. kstep. kstep. kstep.
    rewrite not_idle by done. cbv [when]. change (remaining_quantum (th_state _ th)) with (remaining_quantum th).
    rewrite Z.leb_antisym in Hins. destruct (0 <? remaining_quantum th); simpl in Hins;
      erewrite bind_done by exact Hins; apply parked_resched, Hrq. }
  split; [|by eapply reschedules_unlock].
  exists s1. split; [exact Hrq|]. split; [|done]. rewrite Hths. simpl. by simplify_map_eq.
Qed.

(** Preemption puts the running thread at the head of the queue of its
    priority while it has quantum left and at the tail otherwise, and gives
    the CPU to the head of the highest non-empty queue. *)
Theorem thread_preempt_spec me s th :
  running me s -> threads s !! me = Some th ->
  (exists s1, requeued (remaining_quantum th <=? 0) me (priority th) s s1 /\
     threads s1 !! me = Some (th_state THREAD_READY th) /\
     reschedules me (THREAD_UNLOCK (saved_ints s)) s1 (thread_preempt s)) /\
  op_safe me (ints_enabled s) (fun _ _ => True) (thread_preempt s).
Proof. apply thread_preempt_ok. Qed.

Lemma thread_set_priority_ok me s th p :
  running me s -> threads s !! me = Some th ->
  let p' := Z.min HIGHEST_PRIORITY (Z.max (IDLE_PRIORITY + 1) p) in
  (exists s1, requeued false me p' s s1 /\
     threads s1 !! me = Some (th_state THREAD_READY (th_priority p' th)) /\
     reschedules me (THREAD_UNLOCK (saved_ints s)) s1 (thread_set_priority p s)) /\
  op_safe me (ints_enabled s) (fun _ _ => True) (thread_set_priority p s).
Proof.
  intros Hrn Hth p'. destruct (running_facts me s th Hrn Hth) as (Hst & Hm & Hf & Hp).
  destruct (running_lock me s Hrn) as (HI & Hl & Hc).
  set (th' := th_state THREAD_READY (th_priority p' th)).
  assert (Hp' : 0 <= p' < NUM_PRIORITIES).
  { unfold p', HIGHEST_PRIORITY, IDLE_PRIORITY, LOWEST_PRIORITY, NUM_PRIORITIES. lia. }
  destruct (requeue_step false me (lock_state s) _ th th' HI Hth eq_refl)
    as (s1 & Hins & Hrq & Hths); try done.
  assert (Hrun : reschedules me (THREAD_UNLOCK (saved_ints s)) s1 (thread_set_priority p s)).
  { unfold thread_set_priority. current_prologue. kstep. cbv zeta.
    replace (if HIGHEST_PRIORITY <? _ then _ else _) with p'; cycle 1.
    { unfold p', HIGHEST_PRIORITY, IDLE_PRIORITY, LOWEST_PRIORITY, NUM_PRIORITIES.
      bool_cases; lia. }
    kstep. kstep. simpl threads. rewrite insert_same.
    erewrite bind_done by exact Hins. apply parked_resched, Hrq. }
  split; [|by eapply reschedules_unlock].
  exists s1. split; [exact Hrq|]. split; [|done]. rewrite Hths. simpl. by simplify_map_eq.
Qed.

(** A priority change clamps the priority to 1..31, stores it, requeues
    the running thread at the head of the queue of the new priority and
    reschedules. *)
Theorem thread_set_priority_spec me s th p :
  running me s -> threads s !! me = Some th ->
  let p' := Z.min HIGHEST_PRIORITY (Z.max (IDLE_PRIORITY + 1) p) in
  (exists s1, requeued false me p' s s1 /\
     threads s1 !! me = Some (th_state THREAD_READY (th_priority p' th)) /\
     reschedules me (THREAD_UNLOCK (saved_ints s)) s1 (thread_set_priority p s)) /\
  op_safe me (ints_enabled s) (fun _ _ => True) (thread_set_priority p s).
Proof. apply thread_set_priority_ok. Qed.
End requeue.

(** ** Choosing the next thread *)

Section choose.
Context `{Config}.

Lemma clear_top_bit bm :
  0 < bm -> Z.land bm (Z.lnot (Z.shiftl 1 (Z.log2 bm))) = bm - 2 ^ Z.log2 bm.
Proof.
  intros Hbm. pose proof (Z.log2_nonneg bm) as Hn.
  change (Z.land bm (Z.lnot ?x)) with (Z.land bm (Z.lnot x)).
  rewrite <- Z.ldiff_land, Z.shiftl_1_l.
  symmetry. apply Z.sub_nocarry_ldiff.
  apply Z.bits_inj_iff'. intros n Hn'. rewrite Z.ldiff_spec, Z.bits_0, Z.pow2_bits_eqb by done.
  destruct (Z.eqb_spec (Z.log2 bm) n) as [<-|]; [|done]. by rewrite Z.bit_log2.
Qed.

Lemma get_rq_cases p s : get_rq p s = Fail UB \/ exists q, get_rq p s = Done q s.
Proof. unfold get_rq. destruct (match decide _ with left _ => _ | right _ => _ end); eauto. Qed.

Lemma get_top_thread_loop_fuel fuel bm s :
  0 <= bm < 2 ^ Z.of_nat fuel -> get_top_thread_loop (S fuel) bm s <> Fail Fuel.
Proof.
  revert bm. induction fuel as [|fuel IH]; intros bm Hbm.
  - assert (bm = 0) as -> by lia. done.
  - unfold get_top_thread_loop; fold get_top_thread_loop.
    destruct (Z.eqb_spec bm 0) as [->|Hne]; [done|]. cbv zeta. rewrite next_queue_log2.
    destruct (get_rq_cases (Z.log2 bm) s) as [Hq|[[|t q] Hq]]; unfold mbind, M_bind;
      rewrite Hq; simpl bind_run; [done| |by destruct q].
    rewrite clear_top_bit by lia. apply IH.
    pose proof (Z.log2_spec bm ltac:(lia)) as [Hl1 Hl2].
    assert (Hl : Z.log2 bm < Z.of_nat (S fuel)) by (apply Z.log2_lt_pow2; lia).
    assert (2 ^ Z.log2 bm <= 2 ^ Z.of_nat fuel) by (apply Z.pow_le_mono_r; lia).
    rewrite Z.pow_succ_r in Hl2 by apply Z.log2_nonneg. lia.
Qed.

(** The loop of [get_top_thread] ends within 33 iterations whatever the
    bitmap and the queues hold (they need not agree). *)
Theorem get_top_thread_terminates s :
  0 <= run_queue_bitmap s < 2 ^ 32 -> get_top_thread s <> Fail Fuel.
Proof. intros Hbm. exact (get_top_thread_loop_fuel 32 _ s Hbm). Qed.

(** [get_top_thread] takes the head of the highest priority run queue
    that is not empty out of its queue and clears the queue's bit when it
    becomes empty; only with all queues empty it returns the idle thread. *)
Theorem get_top_thread_highest s :
  kinv None ∅ s ->
  exists t s1, get_top_thread s = Done t s1 /\ is_top s t /\ kinv None {[t]} s1 /\
    forall p, queue s1 (RunQ p) = list_remove1 t (queue s (RunQ p)).
Proof.
  intros HI. destruct (get_top_thread_flux s HI) as (t & th & bm & rq & Hr & HI1 & Ht & _ & _ & Hq).
  eauto 10.
Qed.

(** C16: rescheduling from a parked thread hands the CPU to the top thread:
    at once when it is the caller itself, and otherwise by a context switch
    that swaps [errno]; no thread but the new one changes state. *)
Theorem thread_resched_dispatches me s :
  parked me s -> reschedules me (mret tt) s (thread_resched s).
Proof. intros (HI & Hl & Hc & thm & Hme). by eapply thread_resched_ok. Qed.
End choose.

(** ** Witnesses *)

Definition demo_parked : kstate :=
  k_threads (<[2%positive := demo_thread 16 THREAD_READY]> (threads demo_state))
    (k_run_queue (<[16%nat := [3; 2]%positive]> (run_queue demo_state)) (lock_state demo_state)).

Lemma demo_running : running 2 demo_state.
Proof. constructor; [apply demo_kinv|done|done]. Qed.

Lemma demo_parked_ok : parked 2 demo_parked.
Proof.
  split; [apply kinv_check_sound; by vm_compute|]. split; [done|]. split; [done|by eexists].
Qed.

#[local] Existing Instance debug_config.

Lemma thread_yield_round_robin_witness :
  op_safe 2 true (fun _ _ => True) (thread_yield demo_state).
Proof.
  refine (proj2 (thread_yield_round_robin 2 demo_state (demo_thread 16 THREAD_RUNNING) _ _));
    [apply demo_running|reflexivity].
Defined.

Lemma thread_preempt_spec_witness :
  op_safe 2 true (fun _ _ => True) (thread_preempt demo_state).
Proof.
  refine (proj2 (thread_preempt_spec 2 demo_state (demo_thread 16 THREAD_RUNNING) _ _));
    [apply demo_running|reflexivity].
Defined.

Lemma thread_set_priority_spec_witness :
  op_safe 2 true (fun _ _ => True) (thread_set_priority 99 demo_state).
Proof.
  refine (proj2 (thread_set_priority_spec 2 demo_state (demo_thread 16 THREAD_RUNNING) 99 _ _));
    [apply demo_running|reflexivity].
Defined.

Lemma get_top_thread_terminates_witness :
  get_top_thread (k_run_queue_bitmap (2 ^ 31 + 1) demo_state) <> Fail Fuel.
Proof. apply get_top_thread_terminates. by vm_compute. Defined.

Lemma get_top_thread_highest_witness :
  exists t s1, get_top_thread demo_parked = Done t s1 /\ is_top demo_parked t.
Proof.
  destruct (get_top_thread_highest demo_parked) as (t & s1 & Hr & Ht & _); [apply demo_parked_ok|].
  exists t, s1. split; [exact Hr|exact Ht].
Defined.

Lemma thread_resched_dispatches_witness :
  reschedules 2 (mret tt) demo_parked (thread_resched demo_parked).
Proof. apply thread_resched_dispatches. apply demo_parked_ok. Defined.
