(* ===== verification/WaitQueue.v ===== *)
(** * Wait queues ([lk/kernel/thread.c], [Include/lk/kernel/wait.h])

    Blocking on a queue, waking its first or all of its threads, pulling one
    thread out of the queue it blocks on, and destroying a queue.  Waiters are
    woken in the order in which they blocked; every operation keeps the
    scheduler invariant. *)

From S2P Require Import Prelude Kernel KInv Sched.

Section ops.
Context `{Config}.

Definition wait_assert (w : wqid) (c : wait_queue_t -> bool) : M unit :=
  DEBUG_ASSERT (fun s => match wqs s !! w with Some q => c q | None => false end).

Definition wait_magic_ok (q : wait_queue_t) : bool := wq_magic q =? WAIT_QUEUE_MAGIC.

Definition wait_queue_init (w : wqid) : M unit :=
  modify (fun s => k_wqs (<[w := WAIT_QUEUE_INITIAL_VALUE]> (wqs s)) s).

(** [count] counts the distinct threads linked in the queue, so it stays far
    below [INT_MAX] in a 32-bit address space and is not wrapped. *)
Definition wait_queue_block (wait : wqid) (timeout : Z) : M Z :=
  current_thread ← get_current_thread;
  wait_assert wait wait_magic_ok;;
  thread_assert current_thread (thread_in_state THREAD_RUNNING);;
  DEBUG_ASSERT arch_ints_disabled;;
  DEBUG_ASSERT spin_lock_held;;
  if timeout =? 0 then mret ERR_TIMED_OUT
  else
    q ← get_wq wait;
    put_wq wait (mk_wq (wq_magic q) (wq_list q ++ [current_thread]) (wq_count q + 1));;
    upd_thread current_thread (th_state THREAD_BLOCKED);;
    upd_thread current_thread (th_blocking_wait_queue (Some wait));;
    upd_thread current_thread (th_wait_queue_block_ret NO_ERROR);;
    when (negb (timeout =? INFINITE_TIME)) (timer_initialize;; timer_set_oneshot timeout);;
    thread_resched;;
    when (negb (timeout =? INFINITE_TIME)) timer_cancel;;
    th ← get_thread current_thread;
    mret (wait_queue_block_ret th).

Definition wait_queue_wake_one (wait : wqid) (reschedule : bool) (wait_queue_error : Z) : M Z :=
  current_thread ← get_current_thread;
  wait_assert wait wait_magic_ok;;
  DEBUG_ASSERT arch_ints_disabled;;
  DEBUG_ASSERT spin_lock_held;;
  q ← get_wq wait;
  match wq_list q with
  | [] => mret 0
  | t :: l =>
      put_wq wait (mk_wq (wq_magic q) l (wq_count q - 1));;
      thread_assert t (thread_in_state THREAD_BLOCKED);;
      upd_thread t (th_state THREAD_READY);;
      upd_thread t (th_wait_queue_block_ret wait_queue_error);;
      upd_thread t (th_blocking_wait_queue None);;
      when reschedule
        (upd_thread current_thread (th_state THREAD_READY);;
         insert_in_run_queue_head current_thread);;
      insert_in_run_queue_head t;;
      mp_reschedule MP_CPU_ALL_BUT_LOCAL 0;;
      when reschedule thread_resched;;
      mret 1
  end.

(** The loop of [wait_queue_wake_all]. *)
Fixpoint wake_all_loop (fuel : nat) (wait : wqid) (wait_queue_error ret : Z) : M Z :=
  match fuel with
  | O => fail Fuel
  | S fuel' =>
      q ← get_wq wait;
      match wq_list q with
      | [] => mret ret
      | t :: l =>
          put_wq wait (mk_wq (wq_magic q) l (wq_count q - 1));;
          thread_assert t (thread_in_state THREAD_BLOCKED);;
          upd_thread t (th_state THREAD_READY);;
          upd_thread t (th_wait_queue_block_ret wait_queue_error);;
          upd_thread t (th_blocking_wait_queue None);;
          insert_in_run_queue_head t;;
          wake_all_loop fuel' wait wait_queue_error (ret + 1)
      end
  end.

Definition wait_queue_wake_all (wait : wqid) (reschedule : bool) (wait_queue_error : Z) : M Z :=
  current_thread ← get_current_thread;
  wait_assert wait wait_magic_ok;;
  DEBUG_ASSERT arch_ints_disabled;;
  DEBUG_ASSERT spin_lock_held;;
  q ← get_wq wait;
  when (reschedule && (0 <? wq_count q))
    (upd_thread current_thread (th_state THREAD_READY);;
     insert_in_run_queue_head current_thread);;
  ret ← wake_all_loop (S (length (wq_list q))) wait wait_queue_error 0;
  wait_assert wait (fun q => wq_count q =? 0);;
  when (0 <? ret)
    (mp_reschedule MP_CPU_ALL_BUT_LOCAL 0;; when reschedule thread_resched);;
  mret ret.

Definition wait_queue_destroy (wait : wqid) (reschedule : bool) : M unit :=
  wait_assert wait wait_magic_ok;;
  DEBUG_ASSERT arch_ints_disabled;;
  DEBUG_ASSERT spin_lock_held;;
  wait_queue_wake_all wait reschedule ERR_OBJECT_DESTROYED;;
  q ← get_wq wait;
  put_wq wait (mk_wq 0 (wq_list q) (wq_count q)).

Definition thread_unblock_from_wait_queue (t : ptr) (wait_queue_error : Z) : M Z :=
  thread_assert t thread_magic_ok;;
  DEBUG_ASSERT arch_ints_disabled;;
  DEBUG_ASSERT spin_lock_held;;
  th ← get_thread t;
  if negb (thread_in_state THREAD_BLOCKED th) then mret ERR_NOT_BLOCKED
  else
    match blocking_wait_queue th with
    | None => fail UB
    | Some wait =>
        wait_assert wait wait_magic_ok;;
        DEBUG_ASSERT (queue_node_in_list t);;
        q ← get_wq wait;
        put_wq wait (mk_wq (wq_magic q) (list_remove1 t (wq_list q)) (wq_count q - 1));;
        upd_thread t (th_blocking_wait_queue None);;
        upd_thread t (th_state THREAD_READY);;
        upd_thread t (th_wait_queue_block_ret wait_queue_error);;
        insert_in_run_queue_head t;;
        mp_reschedule MP_CPU_ALL_BUT_LOCAL 0;;
        mret NO_ERROR
    end.

Definition wait_queue_timeout_handler (thread : ptr) : M handler_return :=
  thread_assert thread thread_magic_ok;;
  spin_lock;;
  err ← thread_unblock_from_wait_queue thread ERR_TIMED_OUT;
  spin_unlock;;
  mret (if NO_ERROR <=? err then INT_RESCHEDULE else INT_NO_RESCHEDULE).

End ops.

(** ** Specification *)

(** The fields of a thread that is woken with result [err]. *)
Definition woken (err : Z) (th : thread_t) : thread_t :=
  th_blocking_wait_queue None (th_wait_queue_block_ret err (th_state THREAD_READY th)).

(** The fields of a thread that blocks on [w]. *)
Definition blocked (w : wqid) (th : thread_t) : thread_t :=
  th_wait_queue_block_ret NO_ERROR (th_blocking_wait_queue (Some w) (th_state THREAD_BLOCKED th)).

(** [s] with [t], now [th'], out of [w], where [l] remains. *)
Definition popped_state (w : wqid) (l : list ptr) (t : ptr) (th' : thread_t) (s : kstate) : kstate :=
  let s1 := match wqs s !! w with
            | Some q => k_wqs (<[w := mk_wq (wq_magic q) l (wq_count q - 1)]> (wqs s)) s
            | None => s
            end in
  k_threads (<[t := th']> (threads s1)) s1.

(** What waking [ts] out of [w] with result [err] does to the queues and to
    the threads: [w] keeps [l], every woken thread goes to the head of the run
    queue of its priority, so that a thread woken later is in front. *)
Record woke_all (w : wqid) (err : Z) (ts l : list ptr) (s s' : kstate) : Prop := {
  wk_wait : queue s' (WaitQ w) = l;
  wk_other : forall w', w' <> w -> queue s' (WaitQ w') = queue s (WaitQ w');
  wk_run : forall p, queue s' (RunQ p) =
    reverse (filter (fun t => Z.to_nat <$> (priority <$> threads s !! t) = Some p) ts)
      ++ queue s (RunQ p);
  wk_threads : forall t, threads s' !! t =
    (if decide (t ∈ ts) then woken err else id) <$> threads s !! t;
  wk_frame : sched_only s s';
}.

Section lemmas.
Context `{Config}.
Implicit Types (s : kstate) (t me : ptr).

Lemma wait_assert_ok w c s q : wqs s !! w = Some q -> c q = true -> wait_assert w c s = Done tt s.
Proof. intros Hw Hc. apply DEBUG_ASSERT_ok. by rewrite Hw. Qed.

Lemma woken_static err th : th_static (woken err th) = th_static th.
Proof. done. Qed.

Lemma waiter_facts run F s w q t :
  kinv run F s -> wqs s !! w = Some q -> t ∈ wq_list q ->
  exists th, threads s !! t = Some th /\ state th = THREAD_BLOCKED /\
    blocking_wait_queue th = Some w /\ t ∉ F /\ 0 <= priority th < NUM_PRIORITIES /\
    magic th = THREAD_MAGIC.
Proof.
  intros HI Hw Ht. assert (Hq : t ∈ queue s (WaitQ w)) by (simpl; by rewrite Hw).
  apply (ki_home _ _ _ HI) in Hq as (HF & th & Hth & Hh). exists th.
  unfold home in Hh. destruct (state th) eqn:Hst; try done.
  destruct (blocking_wait_queue th); simplify_eq/=.
  split_and!; try done; try by apply (ki_prio _ _ _ HI _ _ Hth).
  apply (ki_magic _ _ _ HI _ _ Hth). by rewrite Hst.
Qed.

Lemma waiter_not_running me F s w q t :
  kinv (Some me) F s -> wqs s !! w = Some q -> t ∈ wq_list q -> t <> me.
Proof.
  intros HI Hw Ht ->. destruct (waiter_facts _ _ _ _ _ _ HI Hw Ht) as (th & Hth & Hst & _).
  destruct (ki_cur _ _ _ HI me eq_refl) as (_ & ? & ? & ?). simplify_eq. congruence.
Qed.

Lemma popped_kinv run F s w q l1 t l2 th err :
  kinv run F s -> wqs s !! w = Some q -> wq_list q = l1 ++ t :: l2 ->
  threads s !! t = Some th ->
  kinv run ({[t]} ∪ F) (popped_state w (l1 ++ l2) t (woken err th) s).
Proof.
  intros HI Hw Hl Hth.
  destruct (waiter_facts run F s w q t HI Hw ltac:(rewrite Hl; set_solver))
    as (th0 & Hth0 & Hst & Hb & HF & Hp & Hm). simplify_eq.
  unfold popped_state. rewrite Hw.
  eapply kinv_write; [by eapply kinv_open_wq|set_solver|exact Hth|done..].
Qed.

Lemma popped_queue s w q l t th' :
  wqs s !! w = Some q ->
  forall q', queue (popped_state w l t th' s) q' = if decide (q' = WaitQ w) then l else queue s q'.
Proof.
  intros Hw q'. unfold popped_state. rewrite Hw.
  etrans; [exact (queue_put_wq s w (mk_wq (wq_magic q) l (wq_count q - 1)) q')|done].
Qed.

Lemma popped_sched_only s w q l t th err :
  wqs s !! w = Some q -> threads s !! t = Some th ->
  sched_only s (popped_state w l t (woken err th) s).
Proof.
  intros Hw Hth. unfold popped_state. rewrite Hw.
  etrans; [by apply (sched_only_put_wq s w q (mk_wq (wq_magic q) l (wq_count q - 1)))|].
  by apply (sched_only_upd (k_wqs _ s) t th (woken err)).
Qed.

(** The three writes that wake a thread, one after the other. *)
Lemma wake_writes {A} s t th err (f : unit -> M A) :
  threads s !! t = Some th ->
  (upd_thread t (th_state THREAD_READY);;
   upd_thread t (th_wait_queue_block_ret err);;
   upd_thread t (th_blocking_wait_queue None) ≫= f) s =
  f tt (k_threads (<[t := woken err th]> (threads s)) s).
Proof. intros Hth. kstep. kstep. kstep. simpl. by rewrite !insert_same. Qed.

(** The state after the head [t] of [w] was unlinked and marked ready. *)
Lemma pop_head s w q t l th err run F :
  kinv run F s -> wqs s !! w = Some q -> wq_list q = t :: l -> threads s !! t = Some th ->
  let s1 := popped_state w l t (woken err th) s in
  kinv run ({[t]} ∪ F) s1 /\ threads s1 !! t = Some (woken err th).
Proof.
  intros HI Hw Hl Hth s1. split; [by apply (popped_kinv run F s w q [] t l)|].
  unfold s1, popped_state. rewrite Hw. simpl. by simplify_map_eq.
Qed.

(** One iteration: the head of [w] is unlinked, marked and put in front of
    its run queue. *)
Definition woke_one (w : wqid) (l : list ptr) (t : ptr) (th : thread_t) (err : Z) (s : kstate) : kstate :=
  let s1 := popped_state w l t (woken err th) s in
  rq_linked (priority th) (t :: queue s1 (RunQ (Z.to_nat (priority th)))) s1.

Lemma woke_one_ok run F s w q t l th err :
  kinv run F s -> locked s -> wqs s !! w = Some q -> wq_list q = t :: l ->
  threads s !! t = Some th -> t ∉ F ->
  insert_in_run_queue_head t (popped_state w l t (woken err th) s) =
    Done tt (woke_one w l t th err s) /\
  kinv run F (woke_one w l t th err s).
Proof.
  intros HI Hlk Hw Hl Hth HF.
  destruct (pop_head s w q t l th err run F HI Hw Hl Hth) as [HI1 Ht1].
  destruct (insert_head_ok run ({[t]} ∪ F) (popped_state w l t (woken err th) s) t
    (woken err th) HI1) as [Hr HI2]; [set_solver|done|done| |].
  { unfold popped_state. by rewrite Hw. }
  split; [exact Hr|]. replace F with (({[t]} ∪ F) ∖ {[t]}) by set_solver. exact HI2.
Qed.

Lemma woke_one_woke run F s w q t l th err :
  kinv run F s -> wqs s !! w = Some q -> wq_list q = t :: l -> threads s !! t = Some th ->
  woke_all w err [t] l s (woke_one w l t th err s).
Proof.
  intros HI Hw Hl Hth.
  destruct (pop_head s w q t l th err run F HI Hw Hl Hth) as [HI1 Ht1].
  assert (Hp : 0 <= priority th < NUM_PRIORITIES) by apply (ki_prio _ _ _ HI _ _ Hth).
  pose proof (fun l' q' => queue_rq_linked _ _ (priority th) l' _ q' HI1 Hp) as Hq.
  unfold woke_one. constructor.
  - rewrite Hq, decide_False, (popped_queue s w q), decide_True by done. done.
  - intros w' Hw'. rewrite Hq, decide_False, (popped_queue s w q), decide_False by congruence. done.
  - intros p. rewrite Hq, !(popped_queue s w q), filter_cons, Hth by done. simpl.
    rewrite filter_nil. case_decide as Hc.
    + injection Hc as ->. by rewrite decide_True.
    + rewrite decide_False; [done|]. intros [= <-]. done.
  - intros t'. unfold popped_state. rewrite Hw. simpl. rewrite lookup_insert.
    case_decide; [subst t'; rewrite decide_True, Hth by set_solver; done|].
    rewrite decide_False by set_solver. by rewrite option_fmap_id.
  - etrans; [by apply (popped_sched_only s w q l t th err)|]. by constructor.
Qed.

(** The iteration of the wake loops up to the insertion. *)
Lemma pop_writes {A} run F s w q t l th err (f : unit -> M A) :
  kinv run F s -> wqs s !! w = Some q -> wq_list q = t :: l -> threads s !! t = Some th ->
  (put_wq w (mk_wq (wq_magic q) l (wq_count q - 1));;
   thread_assert t (thread_in_state THREAD_BLOCKED);;
   upd_thread t (th_state THREAD_READY);;
   upd_thread t (th_wait_queue_block_ret err);;
   upd_thread t (th_blocking_wait_queue None) ≫= f) s =
  f tt (popped_state w l t (woken err th) s).
Proof.
  intros HI Hw Hl Hth.
  destruct (waiter_facts run F s w q t HI Hw ltac:(rewrite Hl; set_solver))
    as (th0 & Hth0 & Hst & _). simplify_eq.
  kstep. erewrite bind_done; [|eapply thread_assert_ok; [done|by apply bool_decide_eq_true]].
  unfold popped_state. rewrite Hw.
  kstep. kstep. kstep. simpl. by rewrite !insert_same.
Qed.

(** The CPU-wide fields. *)
Definition same_cpu (s s' : kstate) : Prop :=
  current_thread s' = current_thread s /\ thread_lock s' = thread_lock s /\
  ints_enabled s' = ints_enabled s /\ errno s' = errno s.

Lemma same_cpu_locked s s' : same_cpu s s' -> locked s -> locked s'.
Proof. unfold same_cpu, locked. naive_solver congruence. Qed.

Lemma same_cpu_trans s1 s2 s3 : same_cpu s1 s2 -> same_cpu s2 s3 -> same_cpu s1 s3.
Proof. unfold same_cpu. intuition congruence. Qed.

Lemma woke_one_cpu w l t th err s : same_cpu s (woke_one w l t th err s).
Proof. unfold woke_one, popped_state. by destruct (wqs s !! w). Qed.

Lemma woke_one_wq w q l t th err s :
  wqs s !! w = Some q ->
  wqs (woke_one w l t th err s) !! w = Some (mk_wq (wq_magic q) l (wq_count q - 1)).
Proof. intros Hw. unfold woke_one, popped_state. rewrite Hw. simpl. by simplify_map_eq. Qed.

Lemma woke_all_nil w err s q : wqs s !! w = Some q -> wq_list q = [] -> woke_all w err [] [] s s.
Proof.
  intros Hw Hl. constructor; try done.
  - simpl. by rewrite Hw.
  - intros t. rewrite decide_False by set_solver. by rewrite option_fmap_id.
Qed.

Lemma woke_all_cons w err t ts l l' s s1 s2 :
  t ∉ ts -> woke_all w err [t] l s s1 -> woke_all w err ts l' s1 s2 ->
  woke_all w err (t :: ts) l' s s2.
Proof.
  intros Ht [] []. constructor; try done.
  - intros w' Hw'. by rewrite wk_other1, wk_other0.
  - intros p. rewrite wk_run1, wk_run0, filter_cons.
    assert (Hf : forall ts' : list ptr, filter (λ t0, Z.to_nat <$> (priority <$> threads s1 !! t0) = Some p) ts' =
              filter (λ t0, Z.to_nat <$> (priority <$> threads s !! t0) = Some p) ts').
    { intros ts'. apply list_filter_iff. intros t'. rewrite wk_threads0.
      by destruct (threads s !! t'), (decide (t' ∈ [t])). }
    rewrite Hf, filter_cons, filter_nil. case_decide; [|done].
    change (reverse [t]) with [t]. by rewrite reverse_cons, <- app_assoc.
  - intros t'. rewrite wk_threads1, wk_threads0.
    destruct (decide (t' = t)) as [->|Hne].
    + rewrite (decide_True (P := t ∈ [t])), (decide_False (P := t ∈ ts)),
        (decide_True (P := t ∈ t :: ts)) by set_solver. by rewrite option_fmap_id.
    + rewrite (decide_False (P := t' ∈ [t])), option_fmap_id by set_solver.
      destruct (decide (t' ∈ ts)); [rewrite decide_True|rewrite decide_False]; set_solver.
  - by etrans.
Qed.

Lemma wake_all_loop_ok w err : forall fuel run F s q ret,
  kinv run F s -> locked s -> wqs s !! w = Some q -> (forall t, t ∈ wq_list q -> t ∉ F) ->
  (length (wq_list q) < fuel)%nat ->
  exists s', wake_all_loop fuel w err ret s = Done (ret + Z.of_nat (length (wq_list q))) s' /\
    kinv run F s' /\ woke_all w err (wq_list q) [] s s' /\ same_cpu s s' /\
    wqs s' !! w = Some (mk_wq (wq_magic q) [] 0).
Proof.
  induction fuel as [|fuel IH]; intros run F s q ret HI Hlk Hw HF Hlen; [lia|].
  simpl wake_all_loop. kstep. destruct (wq_list q) as [|t l] eqn:Hl.
  - exists s. split; [by rewrite Z.add_0_r|]. split_and!; try done; [by eapply woke_all_nil|].
    pose proof (ki_count _ _ _ HI _ _ Hw) as Hc. rewrite Hl in Hc. rewrite Hw.
    destruct q; simpl in *; by subst.
  - destruct (waiter_facts _ _ _ _ _ t HI Hw ltac:(rewrite Hl; set_solver)) as (th & Hth & _ & _ & HFt & _).
    rewrite (pop_writes run F s w q t l th err) by done.
    destruct (woke_one_ok run F s w q t l th err HI Hlk Hw Hl Hth HFt) as [Hins HI1].
    erewrite bind_done by exact Hins.
    pose proof (woke_one_woke run F s w q t l th err HI Hw Hl Hth) as Hwk.
    pose proof (woke_one_wq w q l t th err s Hw) as Hw1.
    pose proof (woke_one_cpu w l t th err s) as Hcpu.
    assert (Hnd : NoDup (t :: l)).
    { rewrite <- Hl. pose proof (ki_nodup _ _ _ HI (WaitQ w)) as Hnd. simpl in Hnd. by rewrite Hw in Hnd. }
    apply NoDup_cons in Hnd as [Htl _].
    destruct (IH run F _ _ (ret + 1) HI1 (same_cpu_locked _ _ Hcpu Hlk) Hw1) as (s2 & Hr & HI2 & Hwk2 & Hcpu2 & Hw2);
      [set_solver|simpl in *; lia|].
    exists s2. split; [rewrite Hr; f_equal; simpl; lia|]. split; [done|].
    split; [by eapply woke_all_cons|]. split; [by eapply same_cpu_trans|done].
Qed.
End lemmas.

(** ** Properties *)

(** The state in which [me] calls the wait-queue operations: it runs and holds
    the thread lock.  [w] is an initialised wait queue. *)
Definition wq_ready (w : wqid) (s : kstate) : Prop :=
  exists q, wqs s !! w = Some q /\ wq_magic q = WAIT_QUEUE_MAGIC.

Section properties.
Context `{Config}.
Implicit Types (s : kstate) (t me : ptr).

Lemma resumed_thread me s :
  resumed me s -> exists th, threads s !! me = Some th /\ state th = THREAD_RUNNING /\
    magic th = THREAD_MAGIC /\ bad_flags th = false /\ 0 <= priority th < NUM_PRIORITIES.
Proof.
  intros (HI & Hc & _). apply (running_thread me (k_thread_lock 0 s)).
  constructor; [by eapply kinv_ext|done|done].
Qed.

Lemma kernel_asserts {A} s (f : M A) :
  locked s -> (DEBUG_ASSERT arch_ints_disabled;; DEBUG_ASSERT spin_lock_held;; f) s = f s.
Proof.
  intros [Hi Hl]. kassert; [unfold arch_ints_disabled; by rewrite Hi|].
  kassert; [unfold spin_lock_held; by rewrite Hl|done].
Qed.

Lemma wait_magic_assert {A} w s q (f : M A) :
  wqs s !! w = Some q -> wq_magic q = WAIT_QUEUE_MAGIC ->
  (wait_assert w wait_magic_ok;; f) s = f s.
Proof.
  intros Hw Hm. erewrite bind_done; [done|]. eapply wait_assert_ok; [done|]. by apply Z.eqb_eq.
Qed.

Lemma woke_all_parked me w err ts l s s1 :
  parked me s -> kinv None ∅ s1 -> same_cpu s s1 -> woke_all w err ts l s s1 -> parked me s1.
Proof.
  intros (HI & Hl & Hc & th & Hth) HI1 Hcpu Hwk. split; [done|].
  split; [by eapply same_cpu_locked|]. split; [destruct Hcpu as (-> & _); done|].
  rewrite (wk_threads _ _ _ _ _ _ Hwk), Hth. by eexists.
Qed.

(** The part of a wake that makes room for the woken threads. *)
Definition self_queued (me : ptr) (th : thread_t) (s : kstate) : kstate :=
  rq_linked (priority th) (me :: queue s (RunQ (Z.to_nat (priority th))))
    (k_threads (<[me := th_state THREAD_READY th]> (threads s)) s).

Lemma self_queued_ok me th s :
  resumed me s -> threads s !! me = Some th ->
  (upd_thread me (th_state THREAD_READY);; insert_in_run_queue_head me) s
    = Done tt (self_queued me th s) /\
  requeued false me (priority th) s (self_queued me th s) /\
  sched_only s (self_queued me th s).
Proof.
  intros Hr Hth. pose proof (resumed_thread me s Hr) as (th0 & Hth0 & Hst & Hm & Hf & Hp).
  simplify_eq. destruct Hr as (HI & Hc & Hl).
  destruct (requeue_step false me s _ th (th_state THREAD_READY th) HI Hth eq_refl)
    as (s' & Hins & Hrq & Hths); try done.
  assert (s' = self_queued me th s) as ->.
  { pose proof (kinv_open_running me ∅ s th (th_state THREAD_READY th) HI Hth) as HI'.
    rewrite (right_id_L ∅ (∪)) in HI'. specialize (HI' Hp eq_refl eq_refl).
    destruct (insert_head_ok None {[me]} _ me (th_state THREAD_READY th) HI') as [HH _];
      [set_solver|simpl; by simplify_map_eq|done|done|].
    rewrite HH in Hins. by injection Hins as <-. }
  split; [by kstep|]. split; [done|].
  etrans; [by apply (sched_only_upd s me th (th_state THREAD_READY) Hth)|]. by constructor.
Qed.

Lemma self_queued_wqs me th s : wqs (self_queued me th s) = wqs s.
Proof. done. Qed.

(** Waking all waiters, whoever runs. *)
Lemma wake_all_gen run me w err s q :
  kinv run ∅ s -> current_thread s = Some me -> locked s ->
  wqs s !! w = Some q -> wq_magic q = WAIT_QUEUE_MAGIC ->
  exists s', wait_queue_wake_all w false err s = Done (Z.of_nat (length (wq_list q))) s' /\
    kinv run ∅ s' /\ same_cpu s s' /\ woke_all w err (wq_list q) [] s s'.
Proof.
  intros HI Hc Hl Hw Hm.
  destruct (wake_all_loop_ok w err (S (length (wq_list q))) run ∅ s q 0 HI Hl Hw)
    as (s' & Hr & HI' & Hwk & Hcpu & Hw'); [set_solver|lia|].
  exists s'. split; [|by split].
  unfold wait_queue_wake_all. kstep. erewrite wait_magic_assert, kernel_asserts by done.
  kstep. kstep. erewrite bind_done by exact Hr.
  erewrite bind_done; [|by eapply wait_assert_ok].
  destruct (0 <? _); by kstep.
Qed.

Lemma wake_all_ok me w err s q :
  resumed me s -> wqs s !! w = Some q -> wq_magic q = WAIT_QUEUE_MAGIC ->
  exists s', wait_queue_wake_all w false err s = Done (Z.of_nat (length (wq_list q))) s' /\
    resumed me s' /\ woke_all w err (wq_list q) [] s s'.
Proof.
  intros (HI & Hc & Hl) Hw Hm.
  destruct (wake_all_gen _ me w err s q HI Hc Hl Hw Hm) as (s' & Hr & HI' & Hcpu & Hwk).
  exists s'. split; [done|]. split; [|done]. split; [done|].
  split; [destruct Hcpu as (-> & _); done|by eapply same_cpu_locked].
Qed.

Lemma wake_all_none me w b err s q :
  resumed me s -> wqs s !! w = Some q -> wq_magic q = WAIT_QUEUE_MAGIC -> wq_list q = [] ->
  wait_queue_wake_all w b err s = Done 0 s.
Proof.
  intros (HI & Hc & Hl) Hw Hm Hnil.
  assert (Hcount : wq_count q = Z.of_nat (length (wq_list q))) by exact (ki_count _ _ _ HI _ _ Hw).
  unfold wait_queue_wake_all. kstep. erewrite wait_magic_assert, kernel_asserts by done. kstep.
  assert (Hloop : wake_all_loop 1 w err 0 s = Done 0 s).
  { simpl wake_all_loop. kstep. by rewrite Hnil. }
  rewrite Hcount, Hnil. cbn [length Z.of_nat]. rewrite andb_false_r.
  kstep. erewrite bind_done by exact Hloop.
  erewrite bind_done; [|eapply wait_assert_ok; [done|by rewrite Hcount, Hnil]]. by kstep.
Qed.

(** Waking all waiters with rescheduling puts the caller behind the
    woken threads of its priority and then lets the scheduler choose; with no
    waiter it does nothing. *)
Lemma wake_all_resched_ok me w err s q th :
  resumed me s -> wqs s !! w = Some q -> wq_magic q = WAIT_QUEUE_MAGIC ->
  threads s !! me = Some th ->
  (wq_list q = [] -> wait_queue_wake_all w true err s = Done 0 s) /\
  (wq_list q <> [] ->
   exists s0 s1, requeued false me (priority th) s s0 /\
     woke_all w err (wq_list q) [] s0 s1 /\ parked me s1 /\
     reschedules me (mret (Z.of_nat (length (wq_list q)))) s1 (wait_queue_wake_all w true err s)).
Proof.
  intros Hr Hw Hm Hth. pose proof Hr as (HI & Hc & Hl).
  assert (Hcount : wq_count q = Z.of_nat (length (wq_list q))) by exact (ki_count _ _ _ HI _ _ Hw).
  split.
  - by eapply wake_all_none.
  - intros Hne. destruct (self_queued_ok me th s Hr Hth) as (Hself & Hrq & _).
    pose proof Hrq as ((HI0 & Hl0 & Hc0 & Hme0) & _).
    destruct (wake_all_loop_ok w err (S (length (wq_list q))) None ∅ (self_queued me th s) q 0
      HI0 Hl0) as (s1 & Hrun & HI1 & Hwk & Hcpu & Hw1); [done|set_solver|lia|].
    exists (self_queued me th s), s1.
    assert (Hpk : parked me s1) by (eapply woke_all_parked; [apply Hrq|done..]).
    split; [done|]. split; [done|]. split; [done|]. unfold wait_queue_wake_all. kstep.
    erewrite wait_magic_assert, kernel_asserts by done. kstep.
    rewrite Hcount. assert (Hpos : 0 < Z.of_nat (length (wq_list q))).
    { destruct (wq_list q); [done|]. simpl. lia. }
    rewrite (proj2 (Z.ltb_lt _ _)) by done. cbv [andb when].
    erewrite bind_done by exact Hself. erewrite bind_done by exact Hrun.
    erewrite bind_done; [|by eapply wait_assert_ok].
    rewrite Z.add_0_l, (proj2 (Z.ltb_lt _ _)) by done. cbv [when].
    by apply parked_resched.
Qed.

Lemma wake_one_false me w err s q t l :
  resumed me s -> wqs s !! w = Some q -> wq_magic q = WAIT_QUEUE_MAGIC -> wq_list q = t :: l ->
  exists s', wait_queue_wake_one w false err s = Done 1 s' /\ resumed me s' /\
    woke_all w err [t] l s s'.
Proof.
  intros (HI & Hc & Hlk) Hw Hm Hl.
  destruct (waiter_facts _ _ _ _ _ t HI Hw ltac:(rewrite Hl; set_solver)) as (th & Hth & _ & _ & HF & _).
  destruct (woke_one_ok _ _ _ _ _ _ _ _ err HI Hlk Hw Hl Hth HF) as [Hins HI1].
  exists (woke_one w l t th err s). split; [|split].
  - unfold wait_queue_wake_one. kstep. erewrite wait_magic_assert, kernel_asserts by done.
    kstep. rewrite Hl, (pop_writes (Some me) ∅ s w q t l th err) by done.
    kstep. erewrite bind_done by exact Hins. by kstep.
  - pose proof (woke_one_cpu w l t th err s) as Hcpu. split; [done|].
    split; [destruct Hcpu as (-> & _); done|by eapply same_cpu_locked].
  - by eapply woke_one_woke.
Qed.

(** The two insertions of [wait_queue_wake_one] commute with unlinking the
    waiter. *)
Lemma self_queued_woke_one me th w q l t tht err s :
  resumed me s -> threads s !! me = Some th -> wqs s !! w = Some q -> wq_list q = t :: l ->
  threads s !! t = Some tht ->
  exists s2,
    (upd_thread me (th_state THREAD_READY);; insert_in_run_queue_head me)
      (popped_state w l t (woken err tht) s) = Done tt s2 /\
    insert_in_run_queue_head t s2 = Done tt (woke_one w l t tht err (self_queued me th s)).
Proof.
  intros (HI & Hc & Hlk) Hth Hw Hl Htht.
  assert (Hne : t <> me) by (eapply waiter_not_running; [done..|]; rewrite Hl; set_solver).
  destruct (pop_head s w q t l tht err _ _ HI Hw Hl Htht) as [HI1 Ht1].
  set (s1 := popped_state w l t (woken err tht) s) in *.
  assert (Hlk1 : locked s1) by (unfold s1, popped_state; by rewrite Hw).
  assert (Hme1 : threads s1 !! me = Some th).
  { unfold s1, popped_state. rewrite Hw. simpl. by simplify_map_eq. }
  assert (Hp : 0 <= priority th < NUM_PRIORITIES) by apply (ki_prio _ _ _ HI _ _ Hth).
  pose proof (kinv_open_running me _ s1 th (th_state THREAD_READY th) HI1 Hme1 Hp eq_refl eq_refl) as HI2.
  destruct (insert_head_ok _ _ _ me (th_state THREAD_READY th) HI2) as [Hr2 HI3];
    [set_solver|simpl; by simplify_map_eq|done|done|].
  eexists. split; [kstep; exact Hr2|].
  destruct (insert_head_ok _ _ _ t (woken err tht) HI3) as [Hr3 _]; [set_solver| |done|done|].
  { simpl. by rewrite lookup_insert_ne. }
  rewrite Hr3. f_equal.
  unfold woke_one, s1, self_queued, popped_state. simpl wqs. rewrite Hw. unfold rq_linked. simpl.
  by rewrite (insert_insert_ne (threads s)).
Qed.

(** Waking one waiter with rescheduling: the caller goes to the front of
    its run queue, the first waiter in front of that, and the scheduler
    chooses; with no waiter nothing happens. *)
Lemma wake_one_ok me w err s q th :
  resumed me s -> wqs s !! w = Some q -> wq_magic q = WAIT_QUEUE_MAGIC ->
  threads s !! me = Some th ->
  match wq_list q with
  | [] => forall b, wait_queue_wake_one w b err s = Done 0 s
  | t :: l =>
      (exists s', wait_queue_wake_one w false err s = Done 1 s' /\ resumed me s' /\
        woke_all w err [t] l s s') /\
      (exists s0 s1, requeued false me (priority th) s s0 /\ sched_only s s0 /\
        woke_all w err [t] l s0 s1 /\ parked me s1 /\
        reschedules me (mret 1) s1 (wait_queue_wake_one w true err s))
  end.
Proof.
  intros Hr Hw Hm Hth. pose proof Hr as (HI & Hc & Hlk).
  destruct (wq_list q) as [|t l] eqn:Hl.
  { intros b. unfold wait_queue_wake_one. kstep.
    erewrite wait_magic_assert, kernel_asserts by done. kstep. by rewrite Hl. }
  split; [by eapply wake_one_false|].
  destruct (waiter_facts _ _ _ _ _ t HI Hw ltac:(rewrite Hl; set_solver)) as (tht & Htht & _ & _ & HF & _).
  destruct (self_queued_ok me th s Hr Hth) as (_ & Hrq & Hso).
  pose proof Hrq as ((HI0 & Hlk0 & Hc0 & Hme0) & _).
  assert (Hne : t <> me) by (eapply waiter_not_running; [done..|]; rewrite Hl; set_solver).
  assert (Htht0 : threads (self_queued me th s) !! t = Some tht) by (simpl; by rewrite lookup_insert_ne).
  destruct (self_queued_woke_one me th w q l t tht err s) as (s2 & Hr2 & Hr3); try done.
  destruct (woke_one_ok None ∅ (self_queued me th s) w q t l tht err) as [_ HI1]; try done.
  pose proof (woke_one_woke None ∅ (self_queued me th s) w q t l tht err HI0 Hw Hl Htht0) as Hwk.
  assert (Hpk : parked me (woke_one w l t tht err (self_queued me th s))).
  { eapply woke_all_parked; [apply Hrq|done|apply woke_one_cpu|done]. }
  do 2 eexists. split; [exact Hrq|]. split; [exact Hso|]. split; [exact Hwk|]. split; [exact Hpk|].
  unfold wait_queue_wake_one. kstep. erewrite wait_magic_assert, kernel_asserts by done.
  kstep. rewrite Hl, (pop_writes (Some me) ∅ s w q t l tht err) by done. cbv [when].
  erewrite bind_done by exact Hr2. erewrite bind_done by exact Hr3. kstep.
  by apply parked_resched.
Qed.

(** *** Blocking *)

Definition blocked_state (w : wqid) (q : wait_queue_t) (me : ptr) (th : thread_t) (s : kstate) : kstate :=
  let s1 := k_wqs (<[w := mk_wq (wq_magic q) (wq_list q ++ [me]) (wq_count q + 1)]> (wqs s)) s in
  k_threads (<[me := blocked w th]> (threads s1)) s1.

Lemma blocked_kinv w q me th s :
  kinv (Some me) ∅ s -> wqs s !! w = Some q -> threads s !! me = Some th -> me <> _idle_thread ->
  kinv None ∅ (blocked_state w q me th s).
Proof.
  intros HI Hw Hth Hidle.
  assert (Hp : 0 <= priority th < NUM_PRIORITIES) by apply (ki_prio _ _ _ HI _ _ Hth).
  pose proof (kinv_open_running me ∅ s th (blocked w th) HI Hth Hp eq_refl eq_refl) as HI1.
  rewrite (right_id_L ∅ (∪)) in HI1.
  eapply (kinv_close_wq _ _ _ me (blocked w th) w q) in HI1; try done; [|set_solver|].
  - by rewrite difference_diag_L in HI1.
  - simpl. by simplify_map_eq.
Qed.

Ltac block_head :=
  unfold wait_queue_block; kstep; erewrite wait_magic_assert by done;
  (erewrite bind_done; [|eapply thread_assert_ok; [done|by apply bool_decide_eq_true]]);
  erewrite kernel_asserts by done.

(** Blocking.  A zero timeout returns [ERR_TIMED_OUT] at once.  With an
    infinite one the caller goes to the tail of the wait queue, the scheduler
    chooses another thread, and the call returns the result that whoever wakes
    the caller stores.  Any other timeout runs into the [assert(0)] of the
    timer stubs. *)
Lemma block_ok me w s q th timeout :
  resumed me s -> wqs s !! w = Some q -> wq_magic q = WAIT_QUEUE_MAGIC ->
  threads s !! me = Some th -> me <> _idle_thread ->
  wait_queue_block w 0 s = Done ERR_TIMED_OUT s /\
  (exists s1, parked me s1 /\ sched_only s s1 /\
     queue s1 (WaitQ w) = wq_list q ++ [me] /\
     (forall q', q' <> WaitQ w -> queue s1 q' = queue s q') /\
     threads s1 = <[me := blocked w th]> (threads s) /\
     reschedules me (th' ← get_thread me; mret (wait_queue_block_ret th')) s1
       (wait_queue_block w INFINITE_TIME s)) /\
  (NDEBUG = false -> timeout <> 0 -> timeout <> INFINITE_TIME ->
     wait_queue_block w timeout s = Fail Panic).
Proof.
  intros Hr Hw Hm Hth Hidle. pose proof Hr as (HI & Hc & Hlk).
  destruct (resumed_thread me s Hr) as (th0 & Hth0 & Hst & _). simplify_eq.
  split_and!.
  - by block_head.
  - exists (blocked_state w q me th s). split; [|split; [|split; [|split; [|split]]]].
    + split; [by apply blocked_kinv|]. split; [done|]. split; [done|]. simpl. simplify_map_eq. by eexists.
    + etrans; [by apply (sched_only_put_wq s w q (mk_wq (wq_magic q) (wq_list q ++ [me]) (wq_count q + 1)))|].
      by apply (sched_only_upd (k_wqs _ s) me th (blocked w)).
    + simpl. by simplify_map_eq.
    + intros q' Hq'. etrans; [exact (queue_put_wq s w (mk_wq (wq_magic q) (wq_list q ++ [me]) (wq_count q + 1)) q')|].
      by rewrite decide_False.
    + done.
    + block_head. change (INFINITE_TIME =? 0) with false. cbv iota.
      kstep. kstep. kstep. kstep. kstep. change (INFINITE_TIME =? INFINITE_TIME) with true. simpl when.
      kstep. simpl threads. rewrite !insert_same. apply parked_resched.
      split; [by apply (blocked_kinv w q me th s)|]. split; [done|]. split; [done|].
      simpl. simplify_map_eq. by eexists.
  - intros Hnd H0 Hinf. block_head. rewrite (proj2 (Z.eqb_neq _ _)) by done.
    kstep. kstep. kstep. kstep. kstep. rewrite (proj2 (Z.eqb_neq timeout INFINITE_TIME)) by done.
    unfold timer_initialize, timer_assert. rewrite Hnd. done.
Qed.

Lemma unblock_ok me t th w err s :
  resumed me s -> threads s !! t = Some th -> magic th = THREAD_MAGIC -> wq_ready w s ->
  (state th <> THREAD_BLOCKED -> thread_unblock_from_wait_queue t err s = Done ERR_NOT_BLOCKED s) /\
  (state th = THREAD_BLOCKED -> blocking_wait_queue th = Some w ->
   exists s', thread_unblock_from_wait_queue t err s = Done NO_ERROR s' /\ resumed me s' /\
     sched_only s s' /\
     queue s' (WaitQ w) = list_remove1 t (queue s (WaitQ w)) /\
     queue s' (RunQ (Z.to_nat (priority th))) = t :: queue s (RunQ (Z.to_nat (priority th))) /\
     threads s' = <[t := woken err th]> (threads s)).
Proof.
  intros (HI & Hc & Hlk) Hth Hm (q & Hw & Hmq). split.
  { intros Hst. unfold thread_unblock_from_wait_queue.
    erewrite bind_done; [|eapply thread_assert_ok; [done|by apply Z.eqb_eq]].
    rewrite kernel_asserts by done. kstep. unfold thread_in_state. by rewrite bool_decide_eq_false_2. }
  intros Hst Hb.
  assert (Hin : t ∈ queue s (WaitQ w)).
  { eapply kinv_home_queue; [done|set_solver|done|]. unfold home. by rewrite Hst, Hb. }
  simpl in Hin. rewrite Hw in Hin. simpl in Hin.
  pose proof Hin as (l1 & l2 & Hl)%list_elem_of_split.
  assert (Hn : t ∉ l1).
  { pose proof (ki_nodup _ _ _ HI (WaitQ w)) as Hnd. simpl in Hnd. rewrite Hw in Hnd. simpl in Hnd.
    rewrite Hl in Hnd. apply NoDup_app in Hnd as (_ & Hd & _). intros Ht. apply (Hd t Ht). set_solver. }
  assert (Hrm : list_remove1 t (wq_list q) = l1 ++ l2) by (by rewrite Hl, list_remove1_app).
  pose proof (popped_kinv (Some me) ∅ s w q l1 t l2 th err HI Hw Hl Hth) as HI1.
  set (s1 := popped_state w (l1 ++ l2) t (woken err th) s) in *.
  assert (Hp : 0 <= priority th < NUM_PRIORITIES) by apply (ki_prio _ _ _ HI _ _ Hth).
  destruct (insert_head_ok (Some me) ({[t]} ∪ ∅) s1 t (woken err th) HI1) as [Hins HI2];
    [set_solver| |done| |].
  1,2: unfold s1, popped_state; rewrite Hw; simpl; by simplify_map_eq.
  set (s2 := rq_linked _ _ s1) in *.
  replace (({[t]} ∪ ∅) ∖ {[t]}) with (∅ : gset ptr) in HI2 by set_solver.
  pose proof (fun l q => queue_rq_linked _ _ (priority th) l s1 q HI1 Hp) as Hq.
  exists s2. split; [|split; [|split; [|split; [|split]]]].
  - unfold thread_unblock_from_wait_queue.
    erewrite bind_done; [|eapply thread_assert_ok; [done|by apply Z.eqb_eq]].
    rewrite kernel_asserts by done. kstep. unfold thread_in_state. rewrite bool_decide_eq_true_2 by done.
    cbv [negb]. rewrite Hb. erewrite wait_magic_assert by done.
    kassert.
    { unfold queue_node_in_list. apply orb_true_iff. right. apply existsb_exists. exists (w, q).
      split; [by apply list_elem_of_In, elem_of_map_to_list|by apply bool_decide_eq_true]. }
    kstep. kstep. kstep. kstep. kstep. simpl threads. rewrite !insert_same, Hrm.
    unfold s1, popped_state in Hins. rewrite Hw in Hins. simpl in Hins.
    erewrite bind_done by exact Hins. kstep. unfold s2, s1, popped_state. by rewrite Hw.
  - split; [done|]. unfold s2, s1, popped_state. rewrite Hw. by split.
  - etrans; [by apply (popped_sched_only s w q (l1 ++ l2) t th err)|]. by constructor.
  - unfold s2. rewrite Hq, decide_False by done. unfold s1.
    rewrite (popped_queue s w q), decide_True by done. simpl. by rewrite Hw.
  - unfold s2. rewrite Hq, decide_True by done. unfold s1. f_equal.
    by rewrite (popped_queue s w q), decide_False.
  - unfold s2, s1, popped_state. by rewrite Hw.
Qed.

Lemma block_zero me w s q :
  resumed me s -> wqs s !! w = Some q -> wq_magic q = WAIT_QUEUE_MAGIC ->
  wait_queue_block w 0 s = Done ERR_TIMED_OUT s.
Proof.
  intros Hr Hw Hm. pose proof Hr as (HI & Hc & Hlk).
  destruct (resumed_thread me s Hr) as (th0 & Hth0 & Hst & _). by block_head.
Qed.

Lemma woke_ret run F w err ts l s s' q t :
  woke_all w err ts l s s' -> kinv run F s -> wqs s !! w = Some q -> t ∈ wq_list q -> t ∈ ts ->
  wait_queue_block_ret <$> threads s' !! t = Some err.
Proof.
  intros Hwk HI Hw Ht Hts. rewrite (wk_threads _ _ _ _ _ _ Hwk), decide_True by done.
  destruct (waiter_facts run F s w q t HI Hw Ht) as (tht & -> & _). done.
Qed.

(** *** What the clients use *)

Lemma wq_ready_sched_only w s s' : sched_only s s' -> wq_ready w s -> wq_ready w s'.
Proof.
  intros Hso (q & Hq & Hm). pose proof (so_wqs _ _ Hso) as E.
  apply (f_equal (.!! w)) in E. rewrite !lookup_fmap, Hq in E.
  destruct (wqs s' !! w) as [q'|] eqn:Hq'; [|done]. exists q'. split; [done|].
  apply (inj Some) in E. congruence.
Qed.

Lemma wq_ready_queue w s : wq_ready w s ->
  exists q, wqs s !! w = Some q /\ wq_magic q = WAIT_QUEUE_MAGIC /\ wq_list q = queue s (WaitQ w).
Proof. intros (q & Hq & Hm). exists q. split; [done|]. split; [done|]. simpl. by rewrite Hq. Qed.

Lemma dispatched_wait me s top s' w : dispatched me s top s' -> queue s' (WaitQ w) = queue s (WaitQ w).
Proof. intros Hd. simpl. by rewrite (dp_wqs _ _ _ _ Hd). Qed.

Lemma resumed_lock me s : running me s -> resumed me (lock_state s).
Proof. intros Hr. destruct (running_lock me s Hr) as (? & ? & ?). by split. Qed.

Lemma resumed_ext me s s' : resumed me s -> same_sched s s' -> same_cpu s s' -> resumed me s'.
Proof.
  intros (HI & Hc & Hl) Hss Hcpu. split; [by eapply kinv_ext|].
  split; [destruct Hcpu as (-> & _); done|by eapply same_cpu_locked].
Qed.

(** [reschedules] under a continuation. *)
Lemma reschedules_bind {A B} me (c : M A) (f : A -> M B) s r :
  reschedules me c s r -> reschedules me (c ≫= f) s (bind_run f r).
Proof.
  intros [s' Hd|top s' Hne Hd].
  - exact (resched_same me (c ≫= f) s s' Hd).
  - exact (resched_other me (c ≫= f) s top s' Hne Hd).
Qed.

(** The outcome of rescheduling, with [G] at the switch. *)
Lemma reschedules_safe_at {A} me (c : M A) s r (G R : kstate -> Prop) Q :
  reschedules me c s r ->
  (forall s', dispatched me s me s' -> safe G R Q (c s')) ->
  (forall top s', top <> me -> dispatched me s top s' -> G s') ->
  (forall s', R s' -> safe G R Q (c s')) ->
  safe G R Q r.
Proof. intros [s' Hd|top s' Hne Hd] Hc HG HR; simpl; [by apply Hc|]. split; [by eapply HG|done]. Qed.

(** Waking all waiters without rescheduling empties the wait queue, puts
    every waiter in front of its run queue with the given result (the last
    waiter foremost) and returns their number. *)
Theorem wait_queue_wake_all_spec me w err s q :
  resumed me s -> wqs s !! w = Some q -> wq_magic q = WAIT_QUEUE_MAGIC ->
  exists s', wait_queue_wake_all w false err s = Done (Z.of_nat (length (wq_list q))) s' /\
    resumed me s' /\ woke_all w err (wq_list q) [] s s'.
Proof. apply wake_all_ok. Qed.

(** A wake with rescheduling hands the CPU over: when the first waiter's
    priority is that of the caller or higher, and no thread of a higher
    priority is ready, the waiter runs next, and the caller returns 1 when it
    gets the CPU back.  The waiter's call of [wait_queue_block] will return the
    given result. *)
Theorem wait_queue_wake_one_hands_over me w err s q th t l tht :
  resumed me s -> wqs s !! w = Some q -> wq_magic q = WAIT_QUEUE_MAGIC ->
  wq_list q = t :: l -> threads s !! me = Some th -> threads s !! t = Some tht ->
  priority th <= priority tht ->
  (forall p, priority tht < p < NUM_PRIORITIES -> queue s (RunQ (Z.to_nat p)) = []) ->
  exists s' k, wait_queue_wake_one w true err s = Switch s' k /\
    current_thread s' = Some t /\ kinv (Some t) ∅ s' /\
    wait_queue_block_ret <$> threads s' !! t = Some err /\
    queue s' (WaitQ w) = l /\ (forall s2, k s2 = Done 1 s2).
Proof.
  intros Hr Hw Hm Hl Hth Htht Hpr Hab.
  pose proof (wake_one_ok me w err s q th Hr Hw Hm Hth) as HH. rewrite Hl in HH.
  destruct HH as (_ & s0 & s1 & (Hpk0 & _ & Hq0 & Hqo0) & Hso0 & Hwk & Hpk1 & Hre).
  assert (Hne : t <> me).
  { destruct Hr as (HI & _). eapply waiter_not_running; [done..|]. rewrite Hl. set_solver. }
  assert (Ht0 : exists th0, threads s0 !! t = Some th0 /\ priority th0 = priority tht).
  { destruct (sched_only_threads_eq s s0 t tht Hso0 Htht) as (th0 & Hth0 & Est).
    exists th0. split; [done|]. exact (f_equal priority Est). }
  destruct Ht0 as (th0 & Hth0 & Hpth0).
  assert (Hb : 0 <= priority tht < NUM_PRIORITIES /\ 0 <= priority th < NUM_PRIORITIES).
  { destruct Hr as (HI & _). split; by eapply ki_prio. }
  assert (Hhead : queue s1 (RunQ (Z.to_nat (priority tht))) =
            t :: queue s0 (RunQ (Z.to_nat (priority tht)))).
  { rewrite (wk_run _ _ _ _ _ _ Hwk), filter_cons, filter_nil, Hth0. simpl. rewrite Hpth0.
    by rewrite decide_True. }
  assert (Habove : forall p, (Z.to_nat (priority tht) < p < 32)%nat -> queue s1 (RunQ p) = []).
  { intros p Hp. rewrite (wk_run _ _ _ _ _ _ Hwk), filter_cons, filter_nil, Hth0. simpl fmap.
    rewrite Hpth0, decide_False by (intros [= <-]; lia). simpl reverse. rewrite app_nil_l.
    rewrite Hqo0 by (intros [= ->]; lia).
    replace p with (Z.to_nat (Z.of_nat p)) by lia. apply Hab. unfold NUM_PRIORITIES. lia. }
  assert (Htop : forall top, is_top s1 top -> top = t).
  { intros top [(p & l' & Hp & Hq & Ha)|(_ & He)].
    - destruct (decide (p = Z.to_nat (priority tht))) as [->|Hpne]; [congruence|].
      destruct (decide (p < Z.to_nat (priority tht))%nat).
      + unfold NUM_PRIORITIES in Hb.
        pose proof (Ha (Z.to_nat (priority tht)) ltac:(lia)) as E. by rewrite Hhead in E.
      + rewrite Habove in Hq by lia. done.
    - rewrite He in Hhead; [done|]. unfold NUM_PRIORITIES in Hb. lia. }
  assert (Hret : wait_queue_block_ret <$> threads s1 !! t = Some err).
  { rewrite (wk_threads _ _ _ _ _ _ Hwk), decide_True, Hth0 by set_solver. done. }
  destruct Hre as [s' Hd|top s' Htne Hd].
  - exfalso. apply Hne. symmetry. apply Htop, Hd.
  - assert (top = t) as -> by (apply Htop, Hd).
    do 2 eexists. split; [done|]. split; [apply Hd|]. split; [apply Hd|].
    split; [by rewrite (dp_ret _ _ _ _ Hd)|]. split; [|done].
    rewrite <- (wk_wait _ _ _ _ _ _ Hwk). simpl. by rewrite (dp_wqs _ _ _ _ Hd).
Qed.

(** [wait_queue_block].  A zero timeout returns [ERR_TIMED_OUT] at once.
    With an infinite one the caller goes to the tail of the wait queue, the
    scheduler chooses another thread, and the call returns the result that
    whoever wakes the caller stores.  Any other timeout runs into the
    [assert(0)] of the timer stubs. *)
Theorem wait_queue_block_spec me w s q th timeout :
  resumed me s -> wqs s !! w = Some q -> wq_magic q = WAIT_QUEUE_MAGIC ->
  threads s !! me = Some th -> me <> _idle_thread ->
  wait_queue_block w 0 s = Done ERR_TIMED_OUT s /\
  (exists s1, parked me s1 /\ sched_only s s1 /\
     queue s1 (WaitQ w) = wq_list q ++ [me] /\
     (forall q', q' <> WaitQ w -> queue s1 q' = queue s q') /\
     threads s1 = <[me := blocked w th]> (threads s) /\
     reschedules me (th' ← get_thread me; mret (wait_queue_block_ret th')) s1
       (wait_queue_block w INFINITE_TIME s)) /\
  (NDEBUG = false -> timeout <> 0 -> timeout <> INFINITE_TIME ->
     wait_queue_block w timeout s = Fail Panic).
Proof. apply block_ok. Qed.

(** Pulling a thread out of the queue it blocks on (the timeout handler's
    work): a thread that is not blocked gives [ERR_NOT_BLOCKED] and nothing
    changes; a blocked one is unlinked from the middle of its queue, the other
    waiters keep their order, and it is put in front of its run queue with the
    given result. *)
Theorem thread_unblock_from_wait_queue_spec me t th w err s :
  resumed me s -> threads s !! t = Some th -> magic th = THREAD_MAGIC -> wq_ready w s ->
  (state th <> THREAD_BLOCKED -> thread_unblock_from_wait_queue t err s = Done ERR_NOT_BLOCKED s) /\
  (state th = THREAD_BLOCKED -> blocking_wait_queue th = Some w ->
   exists s', thread_unblock_from_wait_queue t err s = Done NO_ERROR s' /\ resumed me s' /\
     sched_only s s' /\
     queue s' (WaitQ w) = list_remove1 t (queue s (WaitQ w)) /\
     queue s' (RunQ (Z.to_nat (priority th))) = t :: queue s (RunQ (Z.to_nat (priority th))) /\
     threads s' = <[t := woken err th]> (threads s)).
Proof. apply unblock_ok. Qed.
End properties.

(** ** Witnesses *)

(** [demo_state] with the lock held and thread 3 blocked on the wait queue [w]. *)
Definition demo_waiting (w : wqid) : kstate :=
  lock_state
    (k_threads (<[3%positive := blocked w (demo_thread 16 THREAD_READY)]> (threads demo_state))
       (k_run_queue (replicate 32 []) (k_run_queue_bitmap 0
          (k_wqs (<[w := mk_wq WAIT_QUEUE_MAGIC [3%positive] 1]> (wqs demo_state)) demo_state)))).

Lemma demo_waiting_resumed : resumed 2 (demo_waiting (SemWQ 11)).
Proof. split; [apply kinv_check_sound; by vm_compute|]. split; [done|]. by split. Qed.

Lemma demo_held_resumed : resumed 2 (lock_state demo_state).
Proof. split; [apply kinv_lock_state, demo_kinv|]. split; [done|]. by split. Qed.

#[local] Existing Instance debug_config.

Lemma wait_queue_wake_all_spec_witness :
  exists s', wait_queue_wake_all (SemWQ 11) false 0 (demo_waiting (SemWQ 11)) = Done 1 s' /\
    resumed 2 s'.
Proof.
  destruct (wait_queue_wake_all_spec 2 (SemWQ 11) 0 (demo_waiting (SemWQ 11))
    (mk_wq WAIT_QUEUE_MAGIC [3%positive] 1)) as (s' & Hr & Hres & _);
    [apply demo_waiting_resumed|reflexivity|reflexivity|].
  exists s'. split; [exact Hr|exact Hres].
Defined.

Lemma wait_queue_wake_one_hands_over_witness :
  exists s' k, wait_queue_wake_one (SemWQ 11) true 0 (demo_waiting (SemWQ 11)) = Switch s' k /\
    current_thread s' = Some 3%positive.
Proof.
  destruct (wait_queue_wake_one_hands_over 2 (SemWQ 11) 0 (demo_waiting (SemWQ 11))
    (mk_wq WAIT_QUEUE_MAGIC [3%positive] 1) (demo_thread 16 THREAD_RUNNING) 3 []
    (blocked (SemWQ 11) (demo_thread 16 THREAD_READY))) as (s' & k & Hr & Hc & _).
  - apply demo_waiting_resumed.
  - reflexivity.
  - reflexivity.
  - reflexivity.
  - reflexivity.
  - reflexivity.
  - simpl. lia.
  - intros p Hp. unfold queue, demo_waiting. cbn [run_queue lock_state k_threads k_run_queue
      k_thread_lock k_ints_enabled]. rewrite lookup_replicate_2; [done|]. unfold NUM_PRIORITIES in Hp. lia.
  - exists s', k. split; [exact Hr|exact Hc].
Defined.

Lemma wait_queue_block_spec_witness :
  wait_queue_block (EventWQ 12) 0 (lock_state demo_state) = Done ERR_TIMED_OUT (lock_state demo_state) /\
  wait_queue_block (EventWQ 12) 7 (lock_state demo_state) = Fail Panic.
Proof.
  destruct (wait_queue_block_spec 2 (EventWQ 12) (lock_state demo_state) WAIT_QUEUE_INITIAL_VALUE
    (demo_thread 16 THREAD_RUNNING) 7) as (H0 & _ & H7);
    [apply demo_held_resumed|reflexivity|reflexivity|reflexivity|done|].
  split; [exact H0|apply H7; [reflexivity|lia|unfold INFINITE_TIME, UINT32_MAX; lia]].
Defined.

Lemma thread_unblock_from_wait_queue_spec_witness :
  thread_unblock_from_wait_queue 2 0 (demo_waiting (SemWQ 11)) =
    Done ERR_NOT_BLOCKED (demo_waiting (SemWQ 11)) /\
  exists s', thread_unblock_from_wait_queue 3 ERR_TIMED_OUT (demo_waiting (SemWQ 11)) =
    Done NO_ERROR s' /\ resumed 2 s'.
Proof.
  assert (Hw : wq_ready (SemWQ 11) (demo_waiting (SemWQ 11))) by (eexists; split; reflexivity).
  split.
  - refine (proj1 (thread_unblock_from_wait_queue_spec 2 2 (demo_thread 16 THREAD_RUNNING)
      (SemWQ 11) 0 _ demo_waiting_resumed eq_refl eq_refl Hw) _). done.
  - destruct (proj2 (thread_unblock_from_wait_queue_spec 2 3
      (blocked (SemWQ 11) (demo_thread 16 THREAD_READY)) (SemWQ 11) ERR_TIMED_OUT
      _ demo_waiting_resumed eq_refl eq_refl Hw) eq_refl eq_refl) as (s' & Hr & Hres & _).
    exists s'. split; [exact Hr|exact Hres].
Defined.
