(* ===== verification/Footprint.v ===== *)
(** * What a kernel call leaves alone

    The calls on one object (a mutex, a semaphore, an event) change that object
    and its wait queue, and the scheduler's state of the threads; every other
    object, and what a thread waiting elsewhere will be told, stays.  This is
    what lets the invariants of several objects live side by side. *)

From S2P Require Import Prelude Kernel KInv Sched WaitQueue.

(** What a waiting thread will be told when it gets the CPU back. *)
Definition told (s : kstate) (t : ptr) : option Z := wait_queue_block_ret <$> threads s !! t.
Definition told_ok (s : kstate) (t : ptr) : Prop := told s t = Some NO_ERROR.

(** From [s] to [s1] only the object of [w], and the thread [me], have changed:
    [None] for no object. *)
Record touched (w : option wqid) (me : ptr) (s s1 : kstate) : Prop := {
  tc_moved : moved me s s1;
  tc_mutexes : forall m, w <> Some (MutexWQ m) -> mutexes s1 !! m = mutexes s !! m;
  tc_semaphores : forall m, w <> Some (SemWQ m) -> semaphores s1 !! m = semaphores s !! m;
  tc_events : forall e, w <> Some (EventWQ e) -> events s1 !! e = events s !! e;
  tc_ready : forall w', wq_ready w' s -> wq_ready w' s1;
  tc_queue : forall w', w <> Some w' -> queue s1 (WaitQ w') = queue s (WaitQ w');
  tc_wait : forall w' t, t ∈ queue s1 (WaitQ w') -> t = me \/ t ∈ queue s (WaitQ w');
  tc_told : forall t, t <> me -> (forall w', w = Some w' -> t ∉ queue s (WaitQ w')) -> told s1 t = told s t;
}.

Section touched.
Context `{Config}.
Implicit Types (s : kstate) (t me : ptr) (w : wqid).

Lemma current_not_queued me q s : kinv (Some me) ∅ s -> me ∉ queue s q.
Proof.
  intros HI Hq. apply (ki_home _ _ _ HI) in Hq as (_ & th & Hth & Hh).
  destruct (ki_cur _ _ _ HI me eq_refl) as (_ & th' & Hth' & Hst). simplify_eq.
  unfold home in Hh. by rewrite Hst in Hh.
Qed.

Lemma touched_trans o me s s1 s2 : touched o me s s1 -> touched o me s1 s2 -> touched o me s s2.
Proof.
  intros [] []. constructor; intros; [by eapply moved_trans|..].
  - by rewrite tc_mutexes1, tc_mutexes0.
  - by rewrite tc_semaphores1, tc_semaphores0.
  - by rewrite tc_events1, tc_events0.
  - auto.
  - by rewrite tc_queue1, tc_queue0.
  - naive_solver.
  - rewrite tc_told1, tc_told0; [done..|]. naive_solver.
Qed.

Lemma touched_weaken o me s s1 : touched None me s s1 -> touched o me s s1.
Proof. intros []. constructor; intros; first [done | by auto | by apply tc_told0]. Qed.

(** Steps of the scheduler that leave the wait queues and the results alone. *)
Lemma touched_sched o me s s1 :
  sched_only s s1 -> moved me s s1 -> (forall w, queue s1 (WaitQ w) = queue s (WaitQ w)) ->
  (forall t, t <> me -> told s1 t = told s t) -> touched o me s s1.
Proof.
  intros Hso Hmv Hq Ht. apply touched_weaken. constructor; intros; try done.
  - by rewrite (so_mutexes _ _ Hso).
  - by rewrite (so_semaphores _ _ Hso).
  - by rewrite (so_events _ _ Hso).
  - by eapply wq_ready_sched_only.
  - right. by rewrite <- Hq.
  - by apply Ht.
Qed.

(** A state that differs outside the scheduler and the objects only. *)
Lemma touched_same o me s s1 :
  threads s1 = threads s -> (forall q, queue s1 q = queue s q) -> wqs s1 = wqs s ->
  mutexes s1 = mutexes s -> semaphores s1 = semaphores s -> events s1 = events s -> touched o me s s1.
Proof.
  intros Ht Hq Hw Hm Hs He. apply touched_weaken. constructor; intros; try congruence.
  - apply moved_same; [by rewrite Ht|done].
  - unfold wq_ready in *. by rewrite Hw.
  - right. by rewrite <- Hq.
  - unfold told. by rewrite Ht.
Qed.

Lemma touched_refl o me s : touched o me s s.
Proof. by apply touched_same. Qed.

Lemma touched_unlock o me st s : touched o me s (unlock_state st s).
Proof. apply touched_same; unfold unlock_state; destruct has_flag; try done; by intros []. Qed.

Lemma touched_lock o me s : touched o me s (lock_state s).
Proof. by apply touched_same; try intros []. Qed.

Lemma touched_mutex m me v s : touched (Some (MutexWQ m)) me s (k_mutexes (<[m := v]> (mutexes s)) s).
Proof.
  constructor; intros; try done; [apply moved_same; [done|by intros []]| |by right].
  simpl. rewrite lookup_insert_ne; [done|congruence].
Qed.

Lemma touched_semaphore m me v s :
  touched (Some (SemWQ m)) me s (k_semaphores (<[m := v]> (semaphores s)) s).
Proof.
  constructor; intros; try done; [apply moved_same; [done|by intros []]| |by right].
  simpl. rewrite lookup_insert_ne; [done|congruence].
Qed.

Lemma touched_event e me v s : touched (Some (EventWQ e)) me s (k_events (<[e := v]> (events s)) s).
Proof.
  constructor; intros; try done; [apply moved_same; [done|by intros []]| |by right].
  simpl. rewrite lookup_insert_ne; [done|congruence].
Qed.

(** *** Dispatching and requeueing *)

Lemma dispatched_told me s top s1 t : dispatched me s top s1 -> told s1 t = told s t.
Proof. intros Hd. exact (dp_ret _ _ _ _ Hd t). Qed.

Lemma requeued_touched o b me p s s1 :
  current_thread s = Some me -> is_Some (threads s !! me) -> requeued b me p s s1 -> touched o me s s1.
Proof.
  intros Hc Hme Hrq. apply touched_weaken. pose proof (requeued_moved _ _ _ _ _ Hc Hme Hrq) as Hmv.
  destruct Hrq as (_ & ((Hwq & _ & Hmx & Hsem & Hev & _) & Hths) & _ & Hqs).
  constructor; intros; try congruence.
  - unfold wq_ready in *. by rewrite Hwq.
  - by apply Hqs.
  - right. by rewrite <- Hqs.
  - unfold told. rewrite Hths by congruence. done.
Qed.

(** *** Blocking and waking *)

Lemma enqueued_touched w me s s1 :
  sched_only s s1 -> queue s1 (WaitQ w) = queue s (WaitQ w) ++ [me] ->
  (forall q, q <> WaitQ w -> queue s1 q = queue s q) ->
  (forall t, t <> me -> threads s1 !! t = threads s !! t) -> touched (Some w) me s s1.
Proof.
  intros Hso Hw Hqs Hths.
  assert (Hin : forall t q, t ∈ queue s1 q -> t = me \/ t ∈ queue s q).
  { intros t q Ht. destruct (decide (q = WaitQ w)) as [->|Hne]; [|by rewrite Hqs in Ht by done; right].
    rewrite Hw in Ht. apply elem_of_app in Ht as [Ht|Ht%list_elem_of_singleton]; [by right|by left]. }
  constructor; intros.
  - split; [by apply sched_only_dom|]. intros t q Ht. destruct (Hin t q Ht); [by left|right; by eexists].
  - by rewrite (so_mutexes _ _ Hso).
  - by rewrite (so_semaphores _ _ Hso).
  - by rewrite (so_events _ _ Hso).
  - by eapply wq_ready_sched_only.
  - apply Hqs. congruence.
  - by apply Hin.
  - unfold told. by rewrite Hths.
Qed.

(** The threads [ts] at the front of the queue are woken. *)
Lemma woke_touched me w err ts l s s1 :
  queue s (WaitQ w) = ts ++ l -> woke_all w err ts l s s1 -> touched (Some w) me s s1.
Proof.
  intros Hq Hwk. pose proof (wk_frame _ _ _ _ _ _ Hwk) as Hso.
  assert (Hin : forall w' t, t ∈ queue s1 (WaitQ w') -> t ∈ queue s (WaitQ w')).
  { intros w' t Ht. destruct (decide (w' = w)) as [->|Hne]; [|by rewrite (wk_other _ _ _ _ _ _ Hwk) in Ht].
    rewrite (wk_wait _ _ _ _ _ _ Hwk) in Ht. rewrite Hq. set_solver. }
  constructor; intros.
  - split; [by apply sched_only_dom|]. intros t [p|w'] Ht; right; [|by eexists; apply Hin].
    rewrite (wk_run _ _ _ _ _ _ Hwk) in Ht. apply elem_of_app in Ht as [Ht|Ht]; [|by eexists].
    apply elem_of_reverse, list_elem_of_filter in Ht as [_ Ht]. exists (WaitQ w). rewrite Hq. set_solver.
  - by rewrite (so_mutexes _ _ Hso).
  - by rewrite (so_semaphores _ _ Hso).
  - by rewrite (so_events _ _ Hso).
  - by eapply wq_ready_sched_only.
  - apply (wk_other _ _ _ _ _ _ Hwk). congruence.
  - right. by apply Hin.
  - unfold told. rewrite (wk_threads _ _ _ _ _ _ Hwk), decide_False; [by destruct (threads s !! t)|].
    intros Ht. apply (H1 w eq_refl). rewrite Hq. set_solver.
Qed.

Lemma requeued_woke_touched b me p w err ts l s s0 s1 :
  resumed me s -> requeued b me p s s0 -> queue s (WaitQ w) = ts ++ l -> woke_all w err ts l s0 s1 ->
  touched (Some w) me s s1.
Proof.
  intros Hr Hrq Hq Hwk. destruct (resumed_thread me s Hr) as (th & Hth & _).
  eapply touched_trans; [eapply requeued_touched; [apply Hr|by eexists|exact Hrq]|].
  eapply woke_touched; [|exact Hwk]. rewrite <- Hq. by apply Hrq.
Qed.

(** *** What waiting threads are told *)

(** What a thread that blocked in a call does when it gets the CPU back. *)
Definition block_resume (me : ptr) (st : Z) : M Z :=
  ret ← (th' ← get_thread me; mret (wait_queue_block_ret th'));
  THREAD_UNLOCK st;;
  mret ret.

Lemma block_resume_told me st s :
  resumed me s -> told_ok s me -> block_resume me st s = Done NO_ERROR (unlock_state st s).
Proof.
  intros Hr Ht. destruct (resumed_thread me s Hr) as (th & Hth & _).
  unfold told_ok, told in Ht. rewrite Hth in Ht. injection Ht as Ht.
  unfold block_resume. erewrite bind_done; [|by kstep]. rewrite Ht. by kstep.
Qed.

(** A thread that blocks, or is woken with [NO_ERROR], is told [NO_ERROR]:
    with no other wake-ups this is all a waiting thread is ever told. *)
Lemma woke_told w ts l s s1 t : woke_all w NO_ERROR ts l s s1 -> told_ok s t -> told_ok s1 t.
Proof.
  intros Hwk. unfold told_ok, told. rewrite (wk_threads _ _ _ _ _ _ Hwk).
  case_decide; destruct (threads s !! t); done.
Qed.

Lemma woke_told_in w ts l s s1 t th : woke_all w NO_ERROR ts l s s1 ->
  t ∈ ts -> threads s !! t = Some th -> told_ok s1 t.
Proof.
  intros Hwk Ht Hth. unfold told_ok, told. by rewrite (wk_threads _ _ _ _ _ _ Hwk), decide_True, Hth.
Qed.

Lemma requeued_told b me p s s0 t : current_thread s = Some me -> t <> me ->
  requeued b me p s s0 -> told_ok s t -> told_ok s0 t.
Proof. intros Hc Hne (_ & [_ Hths] & _). unfold told_ok, told. rewrite Hths; [done|]. rewrite Hc. congruence. Qed.
End touched.
