(* ===== verification/Thread.v ===== *)
(** * Threads ([lk/kernel/thread.c], [lk/arch_thread.c], [lk/heap.c])

    The life of a thread: the bootstrap thread that covers the caller, creation
    with the allocation failures, resuming, detaching, joining and exiting. *)

From S2P Require Import Prelude Kernel KInv Sched WaitQueue.

(** [strlcpy(t->name, name, sizeof(t->name))]: a name is the sequence of its
    characters before the terminating NUL. *)
Definition THREAD_NAME_SIZE : nat := 32.
Definition strlcpy_name (name : list Z) : list Z := firstn (THREAD_NAME_SIZE - 1) name.

(** [memset(t, 0, sizeof(thread_t))] *)
Definition zero_thread : thread_t :=
  mk_thread 0 0 THREAD_SUSPENDED 0 0 0 None 0 None None 0 0 0 0 [].

Section ops.
Context `{Config}.

Definition init_thread_struct (t : ptr) (name : list Z) : M unit :=
  modify (fun s => k_threads
    (<[t := th_name (strlcpy_name name) (th_magic THREAD_MAGIC zero_thread)]> (threads s)) s).

(** [makecontext] of the thread's context, to start in [initial_thread_func]
    on its stack and not to return. *)
Definition arch_thread_initialize (t : ptr) : M unit :=
  upd_thread t (fun th => th_arch (Some (mk_ucontext (stack th) (stack_size th) 0 None)) th).

(** The allocation of [thread_create_etc] and the fields it fills in. *)
Definition thread_create_etc (t0 : option ptr) (name : list Z) (entry arg : Z) (priority : Z)
    (stack0 : option ptr) (stack_size : Z) : M (option ptr) :=
  t1 ← (match t0 with Some t => mret (Some t) | None => malloc end);
  match t1 with
  | None => mret None
  | Some t =>
      let flags := match t0 with Some _ => 0 | None => THREAD_FLAG_FREE_STRUCT end in
      init_thread_struct t name;;
      upd_thread t (th_entry entry);;
      upd_thread t (th_arg arg);;
      upd_thread t (th_priority priority);;
      upd_thread t (th_state THREAD_SUSPENDED);;
      upd_thread t (th_blocking_wait_queue None);;
      upd_thread t (th_wait_queue_block_ret NO_ERROR);;
      upd_thread t (th_retcode 0);;
      wait_queue_init (RetcodeWQ t);;
      upd_thread t (th_terrno 0);;
      let checked := match stack0 with Some _ => false | None => debug_build end in
      let stack_size := if checked then u32 (stack_size + THREAD_STACK_PADDING_SIZE) else stack_size in
      stk ← (match stack0 with Some p => mret (Some p) | None => malloc end);
      match stk with
      | None =>
          when (has_flag flags THREAD_FLAG_FREE_STRUCT) (free t);;
          mret None
      | Some p =>
          let flags := match stack0 with
                       | Some _ => flags | None => Z.lor flags THREAD_FLAG_FREE_STACK end in
          let flags := if checked then Z.lor flags THREAD_FLAG_DEBUG_STACK_BOUNDS_CHECK else flags in
          when checked (modify (fun s => k_overrun (overrun s ∖ {[p]}) s));;
          upd_thread t (th_stack (Some p));;
          upd_thread t (th_stack_size stack_size);;
          upd_thread t (th_flags flags);;
          arch_thread_initialize t;;
          st ← THREAD_LOCK;
          modify (fun s => k_thread_list (t :: thread_list s) s);;
          THREAD_UNLOCK st;;
          mret (Some t)
      end
  end.

Definition thread_create (name : list Z) (entry arg priority stack_size : Z) : M (option ptr) :=
  thread_create_etc None name entry arg priority None stack_size.

Definition thread_set_real_time (t : option ptr) : M Z :=
  match t with
  | None => mret ERR_INVALID_ARGS
  | Some t =>
      thread_assert t thread_magic_ok;;
      st ← THREAD_LOCK;
      upd_thread t (fun th => th_flags (Z.lor (flags th) THREAD_FLAG_REAL_TIME) th);;
      THREAD_UNLOCK st;;
      mret NO_ERROR
  end.

(** [thread_resume] up to its [THREAD_UNLOCK]; the result: whether it goes on
    with a yield. *)
Definition thread_resume_locked (t : ptr) : M bool :=
  thread_assert t thread_magic_ok;;
  thread_assert t (fun th => negb (thread_in_state THREAD_DEATH th));;
  ints_disabled ← get arch_ints_disabled;
  st ← THREAD_LOCK;
  th ← get_thread t;
  resched ←
    (if thread_in_state THREAD_SUSPENDED th then
       upd_thread t (th_state THREAD_READY);;
       insert_in_run_queue_head t;;
       mret (negb ints_disabled)
     else mret false);
  mp_reschedule MP_CPU_ALL_BUT_LOCAL 0;;
  THREAD_UNLOCK st;;
  mret resched.

(** The whole call, when no interrupt comes before the yield; see [LifeMachine]. *)
Definition thread_resume (t : ptr) : M Z :=
  resched ← thread_resume_locked t;
  when resched thread_yield;;
  mret NO_ERROR.

(** [heap_delayed_free] has no body. *)
Definition heap_delayed_free (p : ptr) : M unit := mret tt.

(** Unlinking a thread from the global thread list. *)
Definition thread_list_delete (t : ptr) : M unit :=
  modify (fun s => k_thread_list (list_remove1 t (thread_list s)) s).

(** [thread_join], once the thread is dead or the wait for it has ended with
    [err]; [st] is what [THREAD_LOCK] saved. *)
Definition thread_join_rest (t : ptr) (st err : Z) : M (Z * Z) :=
  if err <? 0 then THREAD_UNLOCK st;; mret (err, 0)
  else
    thread_assert t thread_magic_ok;;
    thread_assert t (thread_in_state THREAD_DEATH);;
    thread_assert t (fun th => bool_decide (blocking_wait_queue th = None));;
    DEBUG_ASSERT (fun s => negb (queue_node_in_list t s));;
    th ← get_thread t;
    let rc := retcode th in
    thread_list_delete t;;
    upd_thread t (th_magic 0);;
    THREAD_UNLOCK st;;
    th ← get_thread t;
    match stack th with
    | Some p => when (has_flag (flags th) THREAD_FLAG_FREE_STACK) (free p)
    | None => mret tt
    end;;
    th ← get_thread t;
    when (has_flag (flags th) THREAD_FLAG_FREE_STRUCT) (free t);;
    mret (NO_ERROR, rc).

(** [thread_join(t, &retcode, timeout)]: the status and, on success, the
    return code. *)
Definition thread_join (t : ptr) (timeout : Z) : M (Z * Z) :=
  thread_assert t thread_magic_ok;;
  st ← THREAD_LOCK;
  th ← get_thread t;
  if has_flag (flags th) THREAD_FLAG_DETACHED then
    THREAD_UNLOCK st;; mret (ERR_THREAD_DETACHED, 0)
  else
    err ← (if negb (thread_in_state THREAD_DEATH th)
           then wait_queue_block (RetcodeWQ t) timeout else mret NO_ERROR);
    thread_join_rest t st err.

(** [thread_detach] up to its [THREAD_UNLOCK]; the result: its status, or
    nothing when the thread is dead and [thread_join] has to reap it. *)
Definition thread_detach_locked (t : ptr) : M (option Z) :=
  thread_assert t thread_magic_ok;;
  st ← THREAD_LOCK;
  wait_queue_wake_all (RetcodeWQ t) false ERR_THREAD_DETACHED;;
  th ← get_thread t;
  if thread_in_state THREAD_DEATH th then
    upd_thread t (fun th => th_flags (Z.land (flags th) (Z.lnot THREAD_FLAG_DETACHED)) th);;
    THREAD_UNLOCK st;;
    mret None
  else
    upd_thread t (fun th => th_flags (Z.lor (flags th) THREAD_FLAG_DETACHED) th);;
    THREAD_UNLOCK st;;
    mret (Some NO_ERROR).

(** The whole call, when no interrupt comes between its two critical sections;
    [LifeMachine] takes them apart. *)
Definition thread_detach (t : ptr) : M Z :=
  r ← thread_detach_locked t;
  match r with
  | Some err => mret err
  | None => r ← thread_join t 0; mret (fst r)
  end.

Definition thread_detach_and_resume (t : ptr) : M Z :=
  err ← thread_detach t;
  if err <? 0 then mret err else thread_resume t.

Definition thread_exit (rc : Z) : M unit :=
  current_thread ← get_current_thread;
  thread_assert current_thread thread_magic_ok;;
  thread_assert current_thread (thread_in_state THREAD_RUNNING);;
  thread_assert current_thread (fun th => negb (thread_is_idle th));;
  st ← THREAD_LOCK;
  upd_thread current_thread (th_state THREAD_DEATH);;
  upd_thread current_thread (th_retcode rc);;
  th ← get_thread current_thread;
  (if has_flag (flags th) THREAD_FLAG_DETACHED then
     thread_list_delete current_thread;;
     upd_thread current_thread (th_magic 0);;
     match stack th with
     | Some p =>
         when (has_flag (flags th) THREAD_FLAG_FREE_STACK)
           (heap_delayed_free p;;
            upd_thread current_thread (fun th => th_flags
              (Z.land (flags th) (Z.lnot THREAD_FLAG_DEBUG_STACK_BOUNDS_CHECK)) th))
     | None => mret tt
     end;;
     when (has_flag (flags th) THREAD_FLAG_FREE_STRUCT) (heap_delayed_free current_thread)
   else
     wait_queue_wake_all (RetcodeWQ current_thread) false 0;;
     mret tt);;
  thread_resched;;
  fail Panic.

(** The first code a new thread runs, [ct_entry] being what its entry point
    does. *)
Definition initial_thread_func (ct_entry : Z -> Z -> M Z) : M unit :=
  spin_unlock;;
  ct ← get_current_thread;
  th ← get_thread ct;
  ret ← ct_entry (entry th) (arg th);
  thread_exit ret.

(** "bootstrap" *)
Definition bootstrap_name : list Z := [98; 111; 111; 116; 115; 116; 114; 97; 112].
(** "idle" *)
Definition idle_name : list Z := [105; 100; 108; 101].

Definition thread_init_early : M unit :=
  modify (k_run_queue (replicate (Z.to_nat NUM_PRIORITIES) []));;
  modify (k_thread_list []);;
  t ← malloc;
  match t with
  | None => fail UB
  | Some t =>
      init_thread_struct t bootstrap_name;;
      upd_thread t (th_priority HIGHEST_PRIORITY);;
      upd_thread t (th_state THREAD_RUNNING);;
      upd_thread t (th_flags THREAD_FLAG_DETACHED);;
      wait_queue_init (RetcodeWQ t);;
      modify (fun s => k_thread_list (t :: thread_list s) s);;
      set_current_thread t
  end.

Definition thread_init : M unit := mret tt.

Definition thread_set_name (name : list Z) : M unit :=
  current_thread ← get_current_thread;
  upd_thread current_thread (th_name (strlcpy_name name)).

(** The loop of [idle_thread_routine], [n] times. *)
Fixpoint idle_thread_routine (n : nat) : M unit :=
  match n with O => mret tt | S n' => arch_idle;; idle_thread_routine n' end.

(** Code addresses are opaque numbers. *)
Definition idle_thread_entry : Z := 0.

Definition thread_create_idle : M unit :=
  thread_create_etc (Some _idle_thread) idle_name idle_thread_entry 0 IDLE_PRIORITY None
    DEFAULT_STACK_SIZE;;
  thread_detach _idle_thread;;
  mret tt.

End ops.

(** [thread_state_to_str] ("susp" and so on as ASCII codes) *)
Definition thread_state_to_str (st : thread_state) : list Z :=
  match st with
  | THREAD_SUSPENDED => [115; 117; 115; 112]
  | THREAD_READY => [114; 100; 121]
  | THREAD_RUNNING => [114; 117; 110]
  | THREAD_BLOCKED => [98; 108; 111; 107]
  | THREAD_SLEEPING => [115; 108; 101; 112]
  | THREAD_DEATH => [100; 101; 116; 104]
  end.

(** ** Specification *)

(** A thread as [thread_create_etc] leaves it. *)
Definition new_thread (name : list Z) (entry arg prio : Z) (stk : ptr) (size fl : Z) : thread_t :=
  mk_thread THREAD_MAGIC prio THREAD_SUSPENDED 0 fl 0 None NO_ERROR
    (Some (mk_ucontext (Some stk) size 0 None)) (Some stk) size entry arg 0 (strlcpy_name name).

Definition FREE_BOTH : Z := Z.lor THREAD_FLAG_FREE_STRUCT THREAD_FLAG_FREE_STACK.

(** With guard words ([LK_DEBUGLEVEL > 1]) the stack grows and is marked. *)
Definition created_flags `{Config} : Z :=
  if debug_build then Z.lor FREE_BOTH THREAD_FLAG_DEBUG_STACK_BOUNDS_CHECK else FREE_BOTH.
Definition created_size `{Config} (size : Z) : Z :=
  if debug_build then u32 (size + THREAD_STACK_PADDING_SIZE) else size.

Section proofs.
Context `{Config}.
Implicit Types (s : kstate) (t me : ptr).

Lemma running_ext me s s' :
  running me s -> kinv (Some me) ∅ s' -> current_thread s' = current_thread s ->
  thread_lock s' = thread_lock s -> running me s'.
Proof. intros [HI Hc Hl] HI' Ec El. constructor; [done|congruence|congruence]. Qed.

Lemma bind_cases {A B C} (o : option A) (a : A -> M B) (b : M B) (f : B -> M C) s r :
  (match o with
   | Some x => (a x ≫= f) s = r
   | None => (b ≫= f) s = r
   end) -> ((match o with Some x => a x | None => b end) ≫= f) s = r.
Proof. by destruct o. Qed.

Ltac crun := repeat (kstep; simpl threads; rewrite ?insert_same).

Ltac create_prefix Hhead :=
  unfold thread_create, thread_create_etc;
  erewrite bind_done by (apply malloc_ok; exact Hhead); cbv zeta iota;
  unfold init_thread_struct, wait_queue_init; crun.

Lemma fresh_wq run s : kinv run ∅ s -> wqs s !! RetcodeWQ (next_ptr s) = None.
Proof.
  intros HI. destruct (wqs s !! RetcodeWQ (next_ptr s)) eqn:E; [|done].
  destruct (ki_retcode _ _ _ HI (next_ptr s)) as [th Hth]; [by eexists|].
  by rewrite (fresh_not_thread _ _ _ HI) in Hth.
Qed.

Lemma fresh_not_allocated run s : kinv run ∅ s -> next_ptr s ∉ allocated s.
Proof.
  intros HI Hin. assert (next_ptr s < next_ptr s)%positive by (apply (ki_fresh _ _ _ HI); by right). lia.
Qed.

Lemma create_no_stack me name entry arg prio size s fs :
  running me s -> malloc_fails s = false :: true :: fs ->
  exists s', thread_create name entry arg prio size s = Done None s' /\
    running me s' /\ threads s' = threads s /\ allocated s' = allocated s /\
    thread_list s' = thread_list s /\ wqs s' = wqs s /\ (next_ptr s <= next_ptr s')%positive.
Proof.
  intros Hr Hmf. pose proof Hr as [HI Hc Hlk].
  pose proof (fresh_not_thread _ _ _ HI) as Hfr. pose proof (fresh_wq _ _ HI) as Hfw.
  pose proof (fresh_not_allocated _ _ HI) as Hfa.
  assert (Hal : ({[next_ptr s]} ∪ allocated s) ∖ {[next_ptr s]} = allocated s) by set_solver.
  assert (Hhead : head (malloc_fails s) <> Some true) by by rewrite Hmf.
  eexists. split.
  - create_prefix Hhead. erewrite bind_done by (by apply malloc_fail_ok; simpl; rewrite Hmf). cbv iota.
    change (when _ _) with (free (next_ptr s)).
    erewrite bind_done by (apply free_ok; simpl; set_solver). reflexivity.
  - simpl. rewrite !delete_insert_id by done. split; [|do 4 (split; [done|]); lia].
    eapply running_ext; [done| |done|done]. eapply kinv_queues; [exact HI|..]; try done; simpl.
    + by rewrite delete_insert_id.
    + by rewrite delete_insert_id.
    + rewrite Hal. intros t Ht. assert (t < next_ptr s)%positive by (apply (ki_fresh _ _ _ HI); by right). lia.
    + lia.
    + rewrite Hal. apply (ki_idle_static _ _ _ HI).
Qed.

Lemma create_success me name entry arg prio size s :
  running me s -> 0 <= prio < NUM_PRIORITIES ->
  head (malloc_fails s) <> Some true -> head (tail (malloc_fails s)) <> Some true ->
  exists t stk s', thread_create name entry arg prio size s = Done (Some t) s' /\
    running me s' /\ threads s !! t = None /\ t ∉ allocated s /\ stk ∉ allocated s /\
    threads s' = <[t := new_thread name entry arg prio stk (created_size size) created_flags]> (threads s) /\
    allocated s' = {[stk]} ∪ ({[t]} ∪ allocated s) /\
    thread_list s' = t :: thread_list s /\ ints_enabled s' = ints_enabled s /\
    wqs s' = <[RetcodeWQ t := WAIT_QUEUE_INITIAL_VALUE]> (wqs s) /\ run_queue s' = run_queue s /\
    events s' = events s /\ ltimers s' = ltimers s /\
    t = next_ptr s /\ stk = Pos.succ (next_ptr s) /\ next_ptr s' = Pos.succ stk.
Proof.
  intros Hr Hp H1 H2. pose proof Hr as [HI Hc Hlk].
  pose proof (fresh_not_thread _ _ _ HI) as Hfr.
  set (t := next_ptr s). set (stk := Pos.succ t).
  set (s1 := malloc_state t (tail (malloc_fails s)) s).
  set (s2 := malloc_state stk (tail (malloc_fails s1)) s1).
  set (th := new_thread name entry arg prio stk (created_size size) created_flags).
  assert (HI2 : kinv (Some me) ∅ s2) by (by do 2 apply kinv_malloc).
  assert (HI3 : kinv (Some me) ∅ (add_thread t th s2)).
  { apply kinv_add_thread; try done; [simpl; unfold stk; lia|].
    unfold th, bad_flags, created_flags. simpl. by destruct debug_build. }
  exists t, stk, (unlock_state (saved_ints s) (lock_state (add_thread t th s2))).
  split; [|split; [|split; [done|split; [by eapply fresh_not_allocated|split]]]].
  - assert (Hov : overrun s ∖ {[stk]} = overrun s) by (rewrite (ki_overrun _ _ _ HI); set_solver).
    create_prefix H1. erewrite bind_done by (by apply malloc_ok). cbv zeta iota.
    unfold arch_thread_initialize. fold t stk.
    unfold s2, malloc_state, add_thread, lock_state, saved_ints, unlock_state, th, new_thread,
      created_flags, created_size.
    destruct debug_build; simpl when; crun; unfold mret, M_ret, saved_ints, unlock_state;
      simpl ints_enabled; destruct (ints_enabled s); simpl;
      f_equal; apply kstate_ext; simpl; rewrite ?insert_same; first [reflexivity | exact Hov].
  - eapply running_ext; [done|by apply kinv_unlock_state, kinv_lock_state|..].
    + unfold unlock_state. by destruct has_flag.
    + rewrite unlock_state_lock. by rewrite Hlk.
  - intros Hin. assert (stk < next_ptr s)%positive by (apply (ki_fresh _ _ _ HI); by right).
    unfold stk, t in *. lia.
  - unfold saved_ints, unlock_state. by destruct (ints_enabled s) eqn:E.
Qed.

(** Either outcome of [thread_create]. *)
Lemma create_cases me name entry arg prio size s :
  running me s -> 0 <= prio < NUM_PRIORITIES ->
  (exists s', thread_create name entry arg prio size s = Done None s' /\ running me s' /\
     threads s' = threads s /\ allocated s' = allocated s /\ wqs s' = wqs s /\
     (next_ptr s <= next_ptr s')%positive) \/
  (head (malloc_fails s) <> Some true /\ head (tail (malloc_fails s)) <> Some true).
Proof.
  intros Hr Hp. pose proof Hr as [HI Hc Hlk]. destruct (malloc_fails s) as [|[] fs] eqn:Hmf; [by right| |].
  - left. exists (k_malloc_fails fs s). split; [|split; [|do 3 (split; [done|]); simpl; lia]].
    + unfold thread_create, thread_create_etc. by erewrite bind_done by (apply malloc_fail_ok; exact Hmf).
    + apply (running_ext me s); [done|by apply (kinv_ext _ _ s)|done|done].
  - destruct fs as [|[] fs]; [by right| |by right]. left.
    destruct (create_no_stack me name entry arg prio size s fs Hr Hmf) as (s' & ? & ? & ? & ? & ? & ? & ?).
    by exists s'.
Qed.

(** Creating a thread.  When the thread structure cannot be allocated, or
    its stack cannot, the call returns NULL and nothing stays allocated;
    otherwise it returns a fresh, suspended thread that is in no queue, owns
    its structure and stack, and is first in the thread list. *)
Theorem thread_create_spec me name entry arg prio size s :
  running me s -> 0 <= prio < NUM_PRIORITIES ->
  match malloc_fails s with
  | true :: _ => exists s', thread_create name entry arg prio size s = Done None s' /\
      running me s' /\ threads s' = threads s /\ allocated s' = allocated s /\
      thread_list s' = thread_list s
  | false :: true :: _ => exists s', thread_create name entry arg prio size s = Done None s' /\
      running me s' /\ threads s' = threads s /\ allocated s' = allocated s /\
      thread_list s' = thread_list s
  | _ => exists t stk s', thread_create name entry arg prio size s = Done (Some t) s' /\
      running me s' /\ threads s !! t = None /\ t ∉ allocated s /\ stk ∉ allocated s /\
      threads s' = <[t := new_thread name entry arg prio stk (created_size size) created_flags]> (threads s) /\
      allocated s' = {[stk]} ∪ ({[t]} ∪ allocated s) /\
      thread_list s' = t :: thread_list s /\ ints_enabled s' = ints_enabled s
  end.
Proof.
  intros Hr Hp. pose proof Hr as [HI Hc Hlk].
  pose proof (fresh_not_thread _ _ _ HI) as Hfr.
  assert (Hsucc : head (malloc_fails s) <> Some true -> head (tail (malloc_fails s)) <> Some true ->
    exists t stk s', thread_create name entry arg prio size s = Done (Some t) s' /\
      running me s' /\ threads s !! t = None /\ t ∉ allocated s /\ stk ∉ allocated s /\
      threads s' = <[t := new_thread name entry arg prio stk (created_size size) created_flags]> (threads s) /\
      allocated s' = {[stk]} ∪ ({[t]} ∪ allocated s) /\
      thread_list s' = t :: thread_list s /\ ints_enabled s' = ints_enabled s).
  { intros H1 H2. destruct (create_success me name entry arg prio size s Hr Hp H1 H2)
      as (t & stk & s' & ? & ? & ? & ? & ? & ? & ? & ? & ? & _). by exists t, stk, s'. }
  destruct (malloc_fails s) as [|[] fs] eqn:Hmf; [by apply Hsucc| |].
  - exists (k_malloc_fails fs s). split; [|split; [|done]].
    + unfold thread_create, thread_create_etc. by erewrite bind_done by (apply malloc_fail_ok; exact Hmf).
    + apply (running_ext me s); [done|by apply (kinv_ext _ _ s)|done|done].
  - destruct fs as [|[] fs]; [by apply Hsucc| |by apply Hsucc].
    destruct (create_no_stack me name entry arg prio size s fs Hr Hmf) as (s' & ? & ? & ? & ? & ? & _). by exists s'.
Qed.

(** Marking a suspended thread ready and linking it. *)
Definition resumed_state (t : ptr) (th : thread_t) (s : kstate) : kstate :=
  rq_linked (priority th) (t :: queue s (RunQ (Z.to_nat (priority th))))
    (k_threads (<[t := th_state THREAD_READY th]> (threads s)) s).

Lemma make_ready_ok me t th s :
  resumed me s -> threads s !! t = Some th -> state th = THREAD_SUSPENDED ->
  (upd_thread t (th_state THREAD_READY);; insert_in_run_queue_head t) s =
    Done tt (resumed_state t th s) /\ resumed me (resumed_state t th s).
Proof.
  intros (HI & Hc & Hlk) Hth Hst.
  assert (Hne : Some me <> Some t).
  { intros [= <-]. destruct (ki_cur _ _ _ HI me eq_refl) as (_ & th' & ? & ?). simplify_eq. congruence. }
  pose proof (kinv_open_none (Some me) ∅ s t th HI Hth) as HI1. rewrite decide_False in HI1 by done.
  specialize (HI1 ltac:(unfold home; by rewrite Hst)). rewrite (right_id_L ∅ (∪)) in HI1.
  pose proof (kinv_write _ _ _ t th (th_state THREAD_READY th) HI1 ltac:(set_solver) Hth
    (ki_prio _ _ _ HI _ _ Hth) eq_refl eq_refl) as HI2.
  specialize (HI2 ltac:(intros _; apply (ki_magic _ _ _ HI _ _ Hth); by rewrite Hst)).
  destruct (insert_head_ok (Some me) {[t]} _ t (th_state THREAD_READY th) HI2) as [Hr HI3];
    [set_solver|simpl; by simplify_map_eq|done|done|].
  rewrite difference_diag_L in HI3. split; [kstep; exact Hr|by split].
Qed.

(** The state in which [thread_resume] yields. *)
Definition resumed_end (t : ptr) (th : thread_t) (s : kstate) : kstate :=
  unlock_state (saved_ints s) (resumed_state t th (lock_state s)).

Lemma resume_suspended_ok me t th s :
  running me s -> threads s !! t = Some th -> state th = THREAD_SUSPENDED ->
  let s0 := resumed_end t th s in
  running me s0 /\ ints_enabled s0 = ints_enabled s /\
  threads s0 = <[t := th_state THREAD_READY th]> (threads s) /\
  queue s0 (RunQ (Z.to_nat (priority th))) = t :: queue s (RunQ (Z.to_nat (priority th))) /\
  sched_only s s0 /\
  thread_resume_locked t s = Done (ints_enabled s) s0 /\
  thread_resume t s = ((if ints_enabled s then thread_yield else mret tt);; mret NO_ERROR) s0.
Proof.
  intros Hr Hth Hst s0.
  enough (Hok : running me s0 /\ ints_enabled s0 = ints_enabled s /\
    threads s0 = <[t := th_state THREAD_READY th]> (threads s) /\
    queue s0 (RunQ (Z.to_nat (priority th))) = t :: queue s (RunQ (Z.to_nat (priority th))) /\
    sched_only s s0 /\ thread_resume_locked t s = Done (ints_enabled s) s0).
  { destruct Hok as (? & ? & ? & ? & ? & Hl). do 5 (split; [done|]). split; [done|].
    unfold thread_resume. rewrite (bind_done _ _ _ _ _ Hl). by destruct (ints_enabled s). } pose proof Hr as [HI Hc Hlk].
  pose proof (resumed_lock me s Hr) as Hres.
  assert (Hm : thread_magic_ok th = true).
  { apply Z.eqb_eq. apply (ki_magic _ _ _ HI _ _ Hth). by rewrite Hst. }
  destruct (make_ready_ok me t th _ Hres Hth Hst) as [Hrun Hres1].
  set (s1 := resumed_state t th (lock_state s)) in *.
  change (s0) with (unlock_state (saved_ints s) s1).
  split; [by apply unlock_running|]. split; [apply unlock_saved_ints, Hres1|].
  split; [unfold unlock_state; by destruct has_flag|]. split; [|split].
  - transitivity (queue s1 (RunQ (Z.to_nat (priority th)))); [unfold unlock_state; by destruct has_flag|].
    pose proof (ki_prio _ _ _ HI _ _ Hth) as Hp.
    assert (Hl : (Z.to_nat (priority th) < length (run_queue s))%nat).
    { rewrite (ki_len _ _ _ HI). unfold NUM_PRIORITIES in Hp. lia. }
    etrans; [exact (queue_put_rq (lock_state s) _ _ (RunQ (Z.to_nat (priority th))) Hl)|].
    by rewrite decide_True.
  - etrans; [by apply (sched_only_upd s t th (th_state THREAD_READY) Hth)|].
    unfold unlock_state. destruct has_flag; by constructor.
  - unfold thread_resume_locked, thread_in_state.
    erewrite !bind_done by (eapply thread_assert_ok; [done|by rewrite ?Hst]).
    kstep. kstep. kstep. rewrite bool_decide_eq_true_2 by done.
    erewrite bind_done; cycle 1.
    { revert Hrun. unfold mbind, M_bind. intros Hrun.
      destruct (upd_thread t (th_state THREAD_READY) (lock_state s)) as [[] ? | |]; try done.
      simpl in *. by rewrite Hrun. }
    kstep. kstep. fold s1. unfold arch_ints_disabled. by rewrite negb_involutive.
Qed.

(** Resuming a living thread that is not suspended. *)
Lemma resume_awake_ok me t th s :
  running me s -> threads s !! t = Some th -> state th <> THREAD_DEATH -> state th <> THREAD_SUSPENDED ->
  thread_resume_locked t s = Done false (unlock_state (saved_ints s) (lock_state s)) /\
  thread_resume t s = Done NO_ERROR (unlock_state (saved_ints s) (lock_state s)) /\
  running me (unlock_state (saved_ints s) (lock_state s)).
Proof.
  intros Hr Hth Hnd Hst. pose proof Hr as [HI Hc Hlk].
  assert (Hm : thread_magic_ok th = true) by (apply Z.eqb_eq; by apply (ki_magic _ _ _ HI _ _ Hth)).
  assert (Hd : negb (thread_in_state THREAD_DEATH th) = true).
  { unfold thread_in_state. by rewrite bool_decide_eq_false_2. }
  enough (Hl : thread_resume_locked t s = Done false (unlock_state (saved_ints s) (lock_state s))).
  { split; [done|]. split; [|by apply unlock_running, resumed_lock].
    unfold thread_resume. by rewrite (bind_done _ _ _ _ _ Hl). }
  unfold thread_resume_locked. erewrite !bind_done by (eapply thread_assert_ok; [done|done]).
  kstep. kstep. kstep. unfold thread_in_state. rewrite bool_decide_eq_false_2 by done.
  kstep. kstep. by kstep.
Qed.

(** Resuming a suspended thread puts it in front of the run queue of its
    priority, and yields to it when interrupts were enabled; resuming a thread
    that is not suspended does nothing and returns [NO_ERROR] too. *)
Theorem thread_resume_spec me t th s :
  running me s -> threads s !! t = Some th -> state th <> THREAD_DEATH ->
  (state th <> THREAD_SUSPENDED ->
     exists s', thread_resume t s = Done NO_ERROR s' /\ running me s' /\ threads s' = threads s /\
       run_queue s' = run_queue s /\ ints_enabled s' = ints_enabled s) /\
  (state th = THREAD_SUSPENDED ->
     exists s0, running me s0 /\ ints_enabled s0 = ints_enabled s /\
       threads s0 = <[t := th_state THREAD_READY th]> (threads s) /\
       queue s0 (RunQ (Z.to_nat (priority th))) = t :: queue s (RunQ (Z.to_nat (priority th))) /\
       thread_resume t s = ((if ints_enabled s then thread_yield else mret tt);; mret NO_ERROR) s0 /\
       op_safe me (ints_enabled s) (fun ret _ => ret = NO_ERROR) (thread_resume t s)).
Proof.
  intros Hr Hth Hnd. pose proof Hr as [HI Hc Hlk].
  split; intros Hst.
  - destruct (resume_awake_ok me t th s Hr Hth Hnd Hst) as (_ & Hrun & Hr').
    exists (unlock_state (saved_ints s) (lock_state s)). split; [done|]. split; [done|].
    unfold saved_ints, unlock_state. by destruct (ints_enabled s) eqn:E.
  - destruct (resume_suspended_ok me t th s Hr Hth Hst) as (Hr0 & Hie & Ht0 & Hq0 & _ & _ & Heq).
    set (s0 := resumed_end t th s) in *. exists s0. do 5 (split; [done|]).
    rewrite Heq, <- Hie. destruct (ints_enabled s0) eqn:Ei; [|by split].
    destruct (running_thread me s0 Hr0) as (thm & Hthm & _).
    pose proof (proj2 (thread_yield_ok me s0 thm Hr0 Hthm)) as Hy. rewrite Ei in Hy.
    eapply safe_bind; [exact Hy|]. intros [] s' (Hrn & Hi & _). by split.
Qed.

(** *** Exiting *)

Lemma clear_debug_flag f :
  has_flag (Z.land f (Z.lnot THREAD_FLAG_DEBUG_STACK_BOUNDS_CHECK)) THREAD_FLAG_IDLE =
  has_flag f THREAD_FLAG_IDLE.
Proof. unfold has_flag. by rewrite <- Z.land_assoc. Qed.

Lemma clear_debug_flag_gone f :
  has_flag (Z.land f (Z.lnot THREAD_FLAG_DEBUG_STACK_BOUNDS_CHECK))
    THREAD_FLAG_DEBUG_STACK_BOUNDS_CHECK = false.
Proof. unfold has_flag. rewrite <- Z.land_assoc. change (Z.land (Z.lnot _) _) with 0. by rewrite Z.land_0_r. Qed.

(** The caller, marked dead. *)
Lemma dead_kinv me th rc s :
  kinv (Some me) ∅ s -> threads s !! me = Some th -> me <> _idle_thread ->
  kinv None ∅ (k_threads (<[me := th_retcode rc (th_state THREAD_DEATH th)]> (threads s)) s).
Proof.
  intros HI Hth Hidle. set (th' := th_retcode rc (th_state THREAD_DEATH th)).
  pose proof (kinv_open_running me ∅ s th th' HI Hth (ki_prio _ _ _ HI _ _ Hth) eq_refl eq_refl) as HI1.
  rewrite (right_id_L ∅ (∪)) in HI1.
  eapply (kinv_close_none _ _ _ me th') in HI1; try done; [|set_solver|].
  - by rewrite difference_diag_L in HI1.
  - simpl. by simplify_map_eq.
Qed.

(** A dead thread other than the idle thread is never chosen. *)
Lemma dead_not_top run me th s :
  kinv run ∅ s -> threads s !! me = Some th -> state th = THREAD_DEATH ->
  me <> _idle_thread -> ~ is_top s me.
Proof.
  intros HI Hth Hst Hidle [(p & l & Hp & Hq & _)|[? _]]; [|done].
  pose proof (kinv_queue_state _ _ _ me (RunQ p) th HI) as HH. rewrite Hq in HH.
  specialize (HH ltac:(set_solver) Hth). unfold home in HH. by rewrite Hst in HH.
Qed.

(** What an exiting thread leaves behind when it enters the scheduler. *)
Record exited (me : ptr) (rc : Z) (s s' : kstate) : Prop := {
  ex_parked : parked me s';
  ex_dead : exists th', threads s' !! me = Some th' /\ state th' = THREAD_DEATH /\ retcode th' = rc;
  ex_allocated : allocated s' = allocated s;
  ex_detached : forall th, threads s !! me = Some th ->
    if has_flag (flags th) THREAD_FLAG_DETACHED then me ∉ thread_list s'
    else thread_list s' = thread_list s /\ queue s' (WaitQ (RetcodeWQ me)) = [] /\
      forall t, t ∈ queue s (WaitQ (RetcodeWQ me)) ->
        wait_queue_block_ret <$> threads s' !! t = Some 0;
  ex_me : forall th, threads s !! me = Some th -> exists th', threads s' !! me = Some th' /\
    stack th' = stack th /\ blocking_wait_queue th' = blocking_wait_queue th /\
    wait_queue_block_ret th' = wait_queue_block_ret th /\
    if has_flag (flags th) THREAD_FLAG_DETACHED then magic th' = 0
    else th' = th_retcode rc (th_state THREAD_DEATH th);
  ex_others : forall th t, threads s !! me = Some th -> t <> me -> threads s' !! t =
    (if negb (has_flag (flags th) THREAD_FLAG_DETACHED) && bool_decide (t ∈ queue s (WaitQ (RetcodeWQ me)))
     then woken 0 else id) <$> threads s !! t;
  ex_queues : forall th w, threads s !! me = Some th ->
    has_flag (flags th) THREAD_FLAG_DETACHED = true \/ w <> RetcodeWQ me -> queue s' (WaitQ w) = queue s (WaitQ w);
  ex_ready : forall w, wq_ready w s -> wq_ready w s';
  ex_next : next_ptr s' = next_ptr s;
}.

(** The caller of [thread_exit], dead and detached: out of the thread list, its
    guard words no longer checked when its stack was allocated for it. *)
Definition dead_detached (rc : Z) (th : thread_t) : thread_t :=
  let th' := th_magic 0 (th_retcode rc (th_state THREAD_DEATH th)) in
  if match stack th with Some _ => has_flag (flags th) THREAD_FLAG_FREE_STACK | None => false end
  then th_flags (Z.land (flags th) (Z.lnot THREAD_FLAG_DEBUG_STACK_BOUNDS_CHECK)) th' else th'.

Definition unlisted_exit (me : ptr) (rc : Z) (th : thread_t) (s : kstate) : kstate :=
  k_threads (<[me := dead_detached rc th]> (threads s))
    (k_thread_list (list_remove1 me (thread_list s)) (lock_state s)).

Lemma unlisted_exit_kinv me rc th s :
  running me s -> threads s !! me = Some th -> me <> _idle_thread -> kinv None ∅ (unlisted_exit me rc th s).
Proof.
  intros Hr Hth Hidle. destruct (running_facts me s th Hr Hth) as (_ & _ & Hf & _). pose proof Hr as [HI _ _].
  set (th' := th_retcode rc (th_state THREAD_DEATH th)).
  set (s0 := k_threads (<[me := th']> (threads s)) (lock_state s)).
  assert (HI0 : kinv None ∅ s0) by exact (dead_kinv me th rc (lock_state s) (kinv_lock_state _ _ _ HI) Hth Hidle).
  assert (HI1 : kinv None ∅ (unlist_dead me th' s0)).
  { apply kinv_unlist_dead; [done|simpl; by simplify_map_eq|done]. }
  assert (E : unlisted_exit me rc th s = k_threads (<[me := dead_detached rc th]>
    (threads (unlist_dead me th' s0))) (unlist_dead me th' s0)).
  { unfold unlisted_exit, unlist_dead, s0. simpl. by rewrite !insert_same. }
  rewrite E. eapply (kinv_upd_same _ _ _ me (th_magic 0 th')); [done|simpl; by simplify_map_eq|..];
    unfold dead_detached; destruct (match stack th with Some _ => _ | None => _ end); try done.
  change (bad_flags (th_magic 0 th')) with (bad_flags th). rewrite Hf.
  apply orb_false_iff in Hf as [Hf _]. unfold bad_flags. cbn [flags th_flags].
  by rewrite clear_debug_flag, clear_debug_flag_gone, Hf.
Qed.

Lemma unlist_exited me rc th s :
  running me s -> threads s !! me = Some th -> me <> _idle_thread ->
  has_flag (flags th) THREAD_FLAG_DETACHED = true -> exited me rc s (unlisted_exit me rc th s).
Proof.
  intros Hr Hth Hidle Hfl. pose proof Hr as [HI Hc _].
  assert (Hme : threads (unlisted_exit me rc th s) !! me = Some (dead_detached rc th)) by (simpl; by simplify_map_eq).
  assert (Hdd : state (dead_detached rc th) = THREAD_DEATH /\ retcode (dead_detached rc th) = rc /\
    stack (dead_detached rc th) = stack th /\ magic (dead_detached rc th) = 0 /\
    blocking_wait_queue (dead_detached rc th) = blocking_wait_queue th /\
    wait_queue_block_ret (dead_detached rc th) = wait_queue_block_ret th).
  { unfold dead_detached. by destruct (match stack th with Some _ => _ | None => _ end). }
  destruct Hdd as (? & ? & ? & ? & ? & ?).
  constructor; try done; [| |intros th3 Hth3..|intros th3 t Hth3 Hne];
    try (rewrite Hth in Hth3; injection Hth3 as <-; rewrite Hfl).
  - split; [by apply unlisted_exit_kinv|]. split; [done|]. split; [done|by eexists].
  - by eexists.
  - simpl. rewrite elem_of_list_remove1 by apply (ki_tl_nodup _ _ _ HI). naive_solver.
  - by eexists.
  - simpl. rewrite lookup_insert_ne by congruence. by rewrite option_fmap_id.
Qed.

Lemma exit_detached me rc th s :
  running me s -> threads s !! me = Some th -> me <> _idle_thread ->
  has_flag (flags th) THREAD_FLAG_DETACHED = true ->
  exists s1, exited me rc s s1 /\ reschedules me (fail Panic) s1 (thread_exit rc s).
Proof.
  intros Hr Hth Hidle Hfl. destruct (running_facts me s th Hr Hth) as (Hst & Hm & Hf & Hp).
  pose proof (unlist_exited me rc th s Hr Hth Hidle Hfl) as Hex.
  exists (unlisted_exit me rc th s). split; [done|].
  unfold thread_exit. current_prologue. kstep. kstep. kstep. simpl threads. rewrite insert_same.
  kstep. change (flags (th_retcode _ _)) with (flags th). rewrite Hfl.
  erewrite bind_done; cycle 1.
  { unfold thread_list_delete. kstep. kstep. simpl threads. rewrite insert_same.
    change (stack (th_retcode _ _)) with (stack th).
    erewrite bind_done; cycle 1.
    { instantiate (1 := unlisted_exit me rc th s). instantiate (1 := tt).
      unfold unlisted_exit, dead_detached. destruct (stack th) as [p|]; [|done].
      destruct (has_flag (flags th) THREAD_FLAG_FREE_STACK); [|done]. simpl when.
      kstep. erewrite upd_thread_ok by (simpl; apply lookup_insert_eq). simpl. by rewrite insert_same. }
    transitivity (Done tt (unlisted_exit me rc th s)); [|reflexivity].
    by destruct (has_flag (flags th) THREAD_FLAG_FREE_STRUCT). }
  apply parked_resched, Hex.
Qed.

(** The caller of [thread_exit], dead, once it has woken its joiners. *)
Lemma woke_exited me rc th q s s1 :
  let s0 := k_threads (<[me := th_retcode rc (th_state THREAD_DEATH th)]> (threads s)) (lock_state s) in
  threads s !! me = Some th -> has_flag (flags th) THREAD_FLAG_DETACHED = false ->
  wqs s !! RetcodeWQ me = Some q -> me ∉ wq_list q -> kinv None ∅ s0 -> parked me s1 ->
  woke_all (RetcodeWQ me) 0 (wq_list q) [] s0 s1 -> exited me rc s s1.
Proof.
  intros s0 Hth Hfl Hq Hnw HI0 Hpk Hwk.
  assert (Hme : threads s1 !! me = Some (th_retcode rc (th_state THREAD_DEATH th))).
  { rewrite (wk_threads _ _ _ _ _ _ Hwk), decide_False by done. simpl. by simplify_map_eq. }
  pose proof (wk_frame _ _ _ _ _ _ Hwk) as Hso.
  constructor; [done|by eexists|apply (so_allocated _ _ Hso)|..];
    try (intros th3 Hth3; rewrite Hth in Hth3; injection Hth3 as <-; rewrite Hfl).
  - split; [apply (so_tl _ _ Hso)|]. split; [apply (wk_wait _ _ _ _ _ _ Hwk)|].
    intros t Ht. simpl in Ht. rewrite Hq in Ht. by eapply woke_ret.
  - by eexists.
  - intros th3 t Hth3 Hne. rewrite Hth in Hth3. injection Hth3 as <-.
    rewrite Hfl, (wk_threads _ _ _ _ _ _ Hwk). simpl. rewrite Hq, lookup_insert_ne by congruence. simpl.
    case_bool_decide; by case_decide.
  - intros th3 w Hth3 Hw. rewrite Hth in Hth3. injection Hth3 as <-. rewrite Hfl in Hw.
    apply (wk_other _ _ _ _ _ _ Hwk). by destruct Hw.
  - intros w. exact (wq_ready_sched_only w s0 s1 Hso).
  - apply (so_next _ _ Hso).
Qed.

Lemma exit_joinable me rc th s :
  running me s -> threads s !! me = Some th -> me <> _idle_thread ->
  wq_ready (RetcodeWQ me) s -> has_flag (flags th) THREAD_FLAG_DETACHED = false ->
  exists s1, exited me rc s s1 /\ reschedules me (fail Panic) s1 (thread_exit rc s).
Proof.
  intros Hr Hth Hidle (q & Hq & Hqm) Hfl.
  destruct (running_facts me s th Hr Hth) as (Hst & Hm & Hf & Hp). pose proof Hr as [HI Hc Hlk].
  set (th' := th_retcode rc (th_state THREAD_DEATH th)).
  set (s0 := k_threads (<[me := th']> (threads s)) (lock_state s)).
  assert (HI0 : kinv None ∅ s0) by exact (dead_kinv me th rc (lock_state s) (kinv_lock_state _ _ _ HI) Hth Hidle).
  assert (Hth0 : threads s0 !! me = Some th') by (simpl; by simplify_map_eq).
  destruct (wake_all_gen None me (RetcodeWQ me) 0 s0 q HI0 Hc (lock_state_locked s) Hq Hqm)
    as (s1 & Hrun & HI1 & Hcpu & Hwk).
  assert (Hnw : me ∉ wq_list q).
  { intros Hin. destruct (waiter_facts _ _ _ _ _ me HI0 Hq Hin) as (? & ? & ? & _). simplify_eq/=. }
  assert (Hth1 : threads s1 !! me = Some th').
  { by rewrite (wk_threads _ _ _ _ _ _ Hwk), decide_False, Hth0. }
  assert (Hpk : parked me s1).
  { eapply woke_all_parked; [|done|exact Hcpu|exact Hwk].
    split; [done|]. split; [done|]. split; [done|]. by eexists. }
  exists s1. split; [by eapply woke_exited|].
  unfold thread_exit. current_prologue.
  kstep. kstep. kstep. simpl threads. rewrite insert_same. fold th' s0.
  kstep. change (flags th') with (flags th). rewrite Hfl.
  erewrite bind_done; cycle 1.
  { erewrite bind_done by exact Hrun. reflexivity. }
  by apply parked_resched.
Qed.

(** C11: a thread that exits never runs again.  It is marked dead with its
    return code, every thread joining it is released with result 0, or, when
    it is detached, it leaves the thread list; the CPU goes to another thread
    with the scheduler invariant intact, and being switched back to would
    panic.  Nothing is freed, not even for a detached thread, since
    [heap_delayed_free] does nothing. *)
Theorem thread_exit_spec me rc th s :
  running me s -> threads s !! me = Some th -> me <> _idle_thread -> wq_ready (RetcodeWQ me) s ->
  exists s1 s' top, exited me rc s s1 /\ thread_exit rc s = Switch s' (fun _ => Fail Panic) /\
    dispatched me s1 top s' /\ top <> me /\ allocated s' = allocated s.
Proof.
  intros Hr Hth Hidle Hw.
  assert (HE : exists s1, exited me rc s s1 /\ reschedules me (fail Panic) s1 (thread_exit rc s)).
  { destruct (has_flag (flags th) THREAD_FLAG_DETACHED) eqn:Hfl;
      [by eapply exit_detached|by eapply exit_joinable]. }
  destruct HE as (s1 & Hex & Hre).
  destruct (ex_dead _ _ _ _ Hex) as (th1 & Hth1 & Hst1 & _).
  destruct (ex_parked _ _ _ _ Hex) as (HI1 & _).
  pose proof (dead_not_top None me th1 s1 HI1 Hth1 Hst1 Hidle) as Hnt.
  inversion Hre as [s' Hd E|top s' Hne Hd E]; [by destruct (Hnt (dp_top _ _ _ _ Hd))|].
  exists s1, s', top. split; [done|]. split; [done|]. split; [done|]. split; [done|].
  rewrite (so_allocated _ _ (dp_frame _ _ _ _ Hd)). apply (ex_allocated _ _ _ _ Hex).
Qed.

(** *** Joining and detaching *)

Lemma unlist_resumed me t th s :
  resumed me s -> threads s !! t = Some th -> state th = THREAD_DEATH ->
  resumed me (unlist_dead t th s).
Proof. intros (HI & Hc & Hl) Hth Hst. split; [by apply kinv_unlist_dead|by split]. Qed.

Lemma running_free me p s :
  running me s -> p ∈ allocated s ->
  (forall th, threads s !! p = Some th -> state th = THREAD_DEATH /\ magic th = 0) ->
  queue s (WaitQ (RetcodeWQ p)) = [] -> running me (free_state p s).
Proof. intros [HI Hc Hlk] Hp Hd Hq. constructor; [by apply kinv_free|done|done]. Qed.

(** A dead thread [t] that owns its structure and its stack [stk], and that
    nobody joins. *)
Record reapable (t : ptr) (th : thread_t) (stk : ptr) (s : kstate) : Prop := {
  rp_thread : threads s !! t = Some th;
  rp_magic : magic th = THREAD_MAGIC;
  rp_dead : state th = THREAD_DEATH;
  rp_flags : flags th = created_flags;
  rp_stack : stack th = Some stk;
  rp_blocked : blocking_wait_queue th = None;
  rp_joiners : queue s (WaitQ (RetcodeWQ t)) = [];
  rp_alloc : t ∈ allocated s /\ stk ∈ allocated s /\ stk <> t /\ threads s !! stk = None;
}.

(** The state after taking it out of the thread list, and after the join. *)
Definition unlisted_state (st : Z) (t : ptr) (th : thread_t) (s : kstate) : kstate :=
  unlock_state st (unlist_dead t th s).
Definition joined_state (st : Z) (t : ptr) (th : thread_t) (stk : ptr) (s : kstate) : kstate :=
  free_state t (free_state stk (unlisted_state st t th s)).

Lemma unlisted_fields st t th s :
  threads (unlisted_state st t th s) = <[t := th_magic 0 th]> (threads s) /\
  allocated (unlisted_state st t th s) = allocated s /\ wqs (unlisted_state st t th s) = wqs s /\
  thread_list (unlisted_state st t th s) = list_remove1 t (thread_list s) /\
  next_ptr (unlisted_state st t th s) = next_ptr s.
Proof. unfold unlisted_state, unlock_state. by destruct has_flag. Qed.

Lemma joined_running me st t th stk s :
  resumed me s -> reapable t th stk s -> running me (joined_state st t th stk s).
Proof.
  intros Hr [Hth Hm Hst Hfl Hstk Hb Hq (Hta & Hsa & Hne & Hns)]. pose proof Hr as [HI _].
  destruct (unlisted_fields st t th s) as (Hths & Hal & Hw & _).
  assert (Hr2 : running me (unlisted_state st t th s)) by (by apply unlock_running, unlist_resumed).
  assert (Hsw : wqs s !! RetcodeWQ stk = None).
  { destruct (wqs s !! RetcodeWQ stk) eqn:E; [|done].
    destruct (ki_retcode _ _ _ HI stk) as [? ?]; [by eexists|congruence]. }
  apply running_free; [apply running_free; [done|by rewrite Hal| |]|simpl; rewrite Hal; set_solver| |].
  - intros th0. by rewrite Hths, lookup_insert_ne, Hns by congruence.
  - simpl. by rewrite Hw, Hsw.
  - intros th0. simpl. rewrite lookup_delete_ne, Hths, lookup_insert_eq by congruence.
    by intros [= <-].
  - simpl. rewrite lookup_delete_ne, Hw by congruence. exact Hq.
Qed.

Lemma created_flag_values :
  has_flag created_flags THREAD_FLAG_DETACHED = false /\
  has_flag created_flags THREAD_FLAG_FREE_STACK = true /\
  has_flag created_flags THREAD_FLAG_FREE_STRUCT = true.
Proof. unfold created_flags. by destruct debug_build. Qed.

(** A dead thread is in no queue. *)
Lemma dead_not_in_list run F t th s :
  kinv run F s -> threads s !! t = Some th -> state th = THREAD_DEATH ->
  negb (queue_node_in_list t s) = true.
Proof.
  intros HI Hth Hst. destruct (queue_node_in_list t s) eqn:E; [|done]. exfalso.
  apply in_list_queue in E as [q Hin].
  pose proof (kinv_queue_state _ _ _ t q th HI Hin Hth) as HH.
  unfold home in HH. by rewrite Hst in HH.
Qed.

Lemma join_rest_ok me st t th stk s :
  resumed me s -> reapable t th stk s ->
  thread_join_rest t st NO_ERROR s = Done (NO_ERROR, retcode th) (joined_state st t th stk s).
Proof.
  intros Hr [Hth Hm Hst Hfl Hstk Hb Hq (Hta & Hsa & Hne & Hns)]. pose proof Hr as [HI _].
  destruct (unlisted_fields st t th s) as (Hths & Hal & _).
  destruct created_flag_values as (_ & Hf2 & Hf3).
  unfold thread_join_rest. change (NO_ERROR <? 0) with false. cbv iota.
  erewrite !bind_done by (eapply thread_assert_ok; [done|by first [apply Z.eqb_eq | apply bool_decide_eq_true]]).
  kassert; [by eapply dead_not_in_list|]. kstep. unfold thread_list_delete. kstep. kstep. kstep.
  change (unlock_state _ _) with (unlisted_state st t th s).
  assert (Hth2 : threads (unlisted_state st t th s) !! t = Some (th_magic 0 th)) by (rewrite Hths; by simplify_map_eq).
  erewrite bind_done by (apply get_thread_ok; exact Hth2).
  change (stack (th_magic 0 th)) with (stack th). change (flags (th_magic 0 th)) with (flags th).
  rewrite Hstk, Hfl, Hf2. cbv [when].
  erewrite bind_done by (apply free_ok; by rewrite Hal).
  erewrite bind_done by (apply get_thread_ok; simpl; rewrite lookup_delete_ne by congruence; exact Hth2).
  change (flags (th_magic 0 th)) with (flags th). rewrite Hfl, Hf3.
  erewrite bind_done by (apply free_ok; simpl; rewrite Hal; set_solver). done.
Qed.

Lemma join_rest_err t st err s : err < 0 -> thread_join_rest t st err s = Done (err, 0) (unlock_state st s).
Proof. intros He. unfold thread_join_rest. rewrite (proj2 (Z.ltb_lt _ _)) by done. by kstep. Qed.

Lemma reapable_lock t th stk s : reapable t th stk s -> reapable t th stk (lock_state s).
Proof. by intros []. Qed.

Lemma join_dead_ok me t th stk timeout s :
  running me s -> reapable t th stk s ->
  thread_join t timeout s = Done (NO_ERROR, retcode th) (joined_state (saved_ints s) t th stk (lock_state s)).
Proof.
  intros Hr Hrp. pose proof Hrp as [Hth Hm Hst Hfl _ _ _ _]. destruct created_flag_values as (Hf1 & _).
  unfold thread_join. erewrite bind_done by (eapply thread_assert_ok; [done|by apply Z.eqb_eq]).
  kstep. kstep. rewrite Hfl, Hf1. unfold thread_in_state. rewrite bool_decide_eq_true_2 by done.
  cbn [negb]. cbv iota. kstep.
  eapply (join_rest_ok me); [by apply resumed_lock|by apply reapable_lock].
Qed.

Lemma join_detached_ok me t th timeout s :
  running me s -> threads s !! t = Some th -> magic th = THREAD_MAGIC ->
  has_flag (flags th) THREAD_FLAG_DETACHED = true ->
  thread_join t timeout s = Done (ERR_THREAD_DETACHED, 0) (unlock_state (saved_ints s) (lock_state s)).
Proof.
  intros Hr Hth Hm Hfl. unfold thread_join.
  erewrite bind_done by (eapply thread_assert_ok; [done|by apply Z.eqb_eq]).
  kstep. kstep. rewrite Hfl. by kstep.
Qed.

(** Joining a living thread that is not detached: waiting for it. *)
Lemma join_alive_ok t th timeout s :
  threads s !! t = Some th -> magic th = THREAD_MAGIC ->
  has_flag (flags th) THREAD_FLAG_DETACHED = false -> state th <> THREAD_DEATH ->
  thread_join t timeout s =
    (wait_queue_block (RetcodeWQ t) timeout ≫= thread_join_rest t (saved_ints s)) (lock_state s).
Proof.
  intros Hth Hm Hfl Hd. unfold thread_join.
  erewrite bind_done by (eapply thread_assert_ok; [done|by apply Z.eqb_eq]).
  kstep. kstep. rewrite Hfl. unfold thread_in_state. by rewrite bool_decide_eq_false_2.
Qed.

(** Joining a dead thread that owns its structure and its stack returns
    its return code, takes it out of the thread list and frees both blocks;
    a detached thread cannot be joined. *)
Theorem thread_join_spec me t th stk timeout s :
  running me s -> threads s !! t = Some th -> magic th = THREAD_MAGIC ->
  (has_flag (flags th) THREAD_FLAG_DETACHED = true ->
     exists s', thread_join t timeout s = Done (ERR_THREAD_DETACHED, 0) s' /\ running me s' /\
       threads s' = threads s /\ ints_enabled s' = ints_enabled s) /\
  (state th = THREAD_DEATH -> flags th = created_flags -> stack th = Some stk ->
   blocking_wait_queue th = None -> queue s (WaitQ (RetcodeWQ t)) = [] ->
   t ∈ allocated s -> stk ∈ allocated s -> stk <> t -> threads s !! stk = None ->
     exists s', thread_join t timeout s = Done (NO_ERROR, retcode th) s' /\ running me s' /\
       threads s' = delete t (threads s) /\ allocated s' = allocated s ∖ {[stk]} ∖ {[t]} /\
       t ∉ thread_list s' /\ ints_enabled s' = ints_enabled s).
Proof.
  intros Hr Hth Hm. split.
  - intros Hfl. exists (unlock_state (saved_ints s) (lock_state s)).
    split; [by eapply join_detached_ok|split; [by apply unlock_running, resumed_lock|]].
    unfold saved_ints, unlock_state. by destruct (ints_enabled s) eqn:E.
  - intros Hst Hfl Hstk Hb Hq Hta Hsa Hne Hns.
    assert (Hrp : reapable t th stk s) by (by constructor).
    destruct (unlisted_fields (saved_ints s) t th (lock_state s)) as (Hths & Hal & _ & Htl & _).
    exists (joined_state (saved_ints s) t th stk (lock_state s)). split; [by eapply join_dead_ok|].
    split; [by apply joined_running; [apply resumed_lock|apply reapable_lock]|]. simpl. rewrite Hths, Hal, Htl. split; [|split; [done|split]].
    + rewrite (delete_id _ stk) by (rewrite lookup_insert_ne by congruence; done).
      apply delete_insert_eq.
    + destruct Hr as [HI _ _]. rewrite elem_of_list_remove1 by apply (ki_tl_nodup _ _ _ HI). naive_solver.
    + apply unlock_saved_ints. by destruct (resumed_lock me s Hr) as (_ & _ & []).
Qed.

Lemma set_detached_other f b :
  Z.land THREAD_FLAG_DETACHED b = 0 -> has_flag (Z.lor f THREAD_FLAG_DETACHED) b = has_flag f b.
Proof. intros Hb. unfold has_flag. by rewrite Z.land_lor_distr_l, Hb, Z.lor_0_r. Qed.

Lemma set_detached_flag f : has_flag (Z.lor f THREAD_FLAG_DETACHED) THREAD_FLAG_DETACHED = true.
Proof.
  unfold has_flag. rewrite Z.land_lor_distr_l. apply negb_true_iff, Z.eqb_neq. intros E.
  apply Z.lor_eq_0_iff in E as [_ E]. done.
Qed.

Lemma detach_locked_done t err s s' :
  thread_detach_locked t s = Done (Some err) s' -> thread_detach t s = Done err s'.
Proof. intros Hl. unfold thread_detach. by rewrite (bind_done _ _ _ _ _ Hl). Qed.

(** Detaching a living thread nobody joins. *)
Lemma detach_alone_ok me t th s :
  running me s -> threads s !! t = Some th -> state th <> THREAD_DEATH -> wq_ready (RetcodeWQ t) s ->
  queue s (WaitQ (RetcodeWQ t)) = [] ->
  let th' := th_flags (Z.lor (flags th) THREAD_FLAG_DETACHED) th in
  let s' := unlock_state (saved_ints s) (k_threads (<[t := th']> (threads s)) (lock_state s)) in
  thread_detach t s = Done NO_ERROR s' /\ running me s' /\ ints_enabled s' = ints_enabled s.
Proof.
  intros Hr Hth Hnd Hw Hq th' s'. pose proof Hr as [HI _ _].
  destruct (wq_ready_queue _ _ Hw) as (q & Hwq & Hm & Hql). rewrite Hq in Hql.
  pose proof (resumed_lock me s Hr) as Hres.
  assert (Hres' : resumed me (k_threads (<[t := th']> (threads s)) (lock_state s))).
  { destruct Hres as (HI' & Hc & Hl). split; [|by split].
    eapply (kinv_upd_same _ _ (lock_state s) t th); try done.
    unfold bad_flags, th'. cbn [flags stack th_flags]. by rewrite !set_detached_other. }
  split; [|split; [by apply unlock_running|apply unlock_saved_ints, Hres']].
  apply detach_locked_done. unfold thread_detach_locked. erewrite bind_done; [|eapply thread_assert_ok; [done|]].
  2: { apply Z.eqb_eq. by apply (ki_magic _ _ _ HI _ _ Hth). }
  kstep. erewrite bind_done by (eapply (wake_all_none me); done).
  kstep. unfold thread_in_state. rewrite bool_decide_eq_false_2 by done. kstep. by kstep.
Qed.

(** Detaching and resuming a suspended thread nobody joins: what
    [thread_create]'s callers do with a thread of their own. *)
Lemma detach_and_resume_ok me t th s :
  running me s -> threads s !! t = Some th -> state th = THREAD_SUSPENDED -> wq_ready (RetcodeWQ t) s ->
  queue s (WaitQ (RetcodeWQ t)) = [] ->
  exists s', thread_detach_and_resume t s =
      ((if ints_enabled s then thread_yield else mret tt);; mret NO_ERROR) s' /\
    running me s' /\ ints_enabled s' = ints_enabled s /\
    threads s' = <[t := th_state THREAD_READY (th_flags (Z.lor (flags th) THREAD_FLAG_DETACHED) th)]> (threads s) /\
    queue s' (RunQ (Z.to_nat (priority th))) = t :: queue s (RunQ (Z.to_nat (priority th))) /\
    ltimers s' = ltimers s /\ events s' = events s /\ wqs s' = wqs s /\ allocated s' = allocated s.
Proof.
  intros Hr Hth Hst Hw Hq.
  destruct (detach_alone_ok me t th s Hr Hth ltac:(by rewrite Hst) Hw Hq) as (Hdet & Hr1 & Hi1).
  set (th' := th_flags _ th) in *. set (s1 := unlock_state _ _) in *.
  assert (Hf : threads s1 = <[t := th']> (threads s) /\ wqs s1 = wqs s /\ events s1 = events s /\
    ltimers s1 = ltimers s /\ allocated s1 = allocated s /\ run_queue s1 = run_queue s).
  { unfold s1, unlock_state. by destruct has_flag. }
  destruct Hf as (E1 & E2 & E3 & E4 & E5 & E6).
  destruct (resume_suspended_ok me t th' s1 Hr1) as (Hr2 & Hi2 & Hths & Hq2 & Hso & _ & Hrun);
    [by rewrite E1, lookup_insert_eq|done|].
  exists (resumed_end t th' s1). split; [|split; [done|split; [congruence|split; [|split; [|]]]]].
  - unfold thread_detach_and_resume. erewrite bind_done by exact Hdet.
    transitivity (thread_resume t s1); [done|]. by rewrite Hrun, Hi1.
  - by rewrite Hths, E1, insert_insert_eq.
  - etrans; [exact Hq2|]. f_equal. simpl. by rewrite E6.
  - rewrite (so_ltimers _ _ Hso), (so_events _ _ Hso), (so_allocated _ _ Hso).
    split; [done|]. split; [done|]. split; [|done]. rewrite <- E2.
    unfold resumed_end, unlock_state. by destruct has_flag.
Qed.

(** Detaching a dead thread reaps it. *)
Lemma detach_dead_ok me t th stk s :
  running me s -> reapable t th stk s -> wq_ready (RetcodeWQ t) s ->
  let s1 := unlock_state (saved_ints s) (lock_state s) in
  thread_detach_locked t s = Done None s1 /\
  thread_detach t s = Done NO_ERROR (joined_state (saved_ints s1) t th stk (lock_state s1)) /\
  reapable t th stk s1 /\ running me s1.
Proof.
  intros Hr Hrp (q & Hq & Hqm) s1. pose proof Hrp as [Hth Hm Hst Hfl _ _ Hj _].
  simpl in Hj. rewrite Hq in Hj. simpl in Hj.
  assert (Hr1 : running me s1) by (by apply unlock_running, resumed_lock).
  assert (Hrp1 : reapable t th stk s1).
  { destruct Hrp. unfold s1, unlock_state. by destruct has_flag. }
  enough (Hl : thread_detach_locked t s = Done None s1).
  { split; [done|]. split; [|done]. unfold thread_detach. rewrite (bind_done _ _ _ _ _ Hl).
    by rewrite (bind_done _ _ _ _ _ (join_dead_ok me t th stk 0 s1 Hr1 Hrp1)). }
  unfold thread_detach_locked. erewrite bind_done by (eapply thread_assert_ok; [done|by apply Z.eqb_eq]).
  kstep. erewrite bind_done by (eapply (wake_all_none me); [by apply resumed_lock|done..]).
  kstep. unfold thread_in_state. rewrite bool_decide_eq_true_2 by done.
  assert (E : k_threads (<[t := th_flags (Z.land (flags th) (Z.lnot THREAD_FLAG_DETACHED)) th]>
    (threads (lock_state s))) (lock_state s) = lock_state s).
  { assert (Ef : th_flags (Z.land (flags th) (Z.lnot THREAD_FLAG_DETACHED)) th = th).
    { replace (Z.land _ _) with (flags th); [by destruct th|].
      rewrite Hfl. unfold created_flags. by destruct debug_build. }
    rewrite Ef, insert_id by done. by destruct s. }
  kstep. cbv beta. rewrite E. by kstep.
Qed.

(** Detaching a living thread. *)
Lemma detach_alive_ok me t th q s :
  running me s -> threads s !! t = Some th -> state th <> THREAD_DEATH ->
  wqs s !! RetcodeWQ t = Some q -> wq_magic q = WAIT_QUEUE_MAGIC ->
  let th1 := (if decide (t ∈ wq_list q) then woken ERR_THREAD_DETACHED else id) th in
  exists s1, woke_all (RetcodeWQ t) ERR_THREAD_DETACHED (wq_list q) [] (lock_state s) s1 /\
    let s2 := k_threads (<[t := th_flags (Z.lor (flags th1) THREAD_FLAG_DETACHED) th1]> (threads s1)) s1 in
    resumed me s2 /\ thread_detach_locked t s = Done (Some NO_ERROR) (unlock_state (saved_ints s) s2) /\
    thread_detach t s = Done NO_ERROR (unlock_state (saved_ints s) s2).
Proof.
  intros Hr Hth Hnd Hq Hqm th1. pose proof Hr as [HI Hc Hlk].
  destruct (wake_all_ok me (RetcodeWQ t) ERR_THREAD_DETACHED (lock_state s) q (resumed_lock me s Hr) Hq Hqm)
    as (s1 & Hrun & Hres1 & Hwk).
  assert (Hth1 : threads s1 !! t = Some th1).
  { rewrite (wk_threads _ _ _ _ _ _ Hwk). change (threads (lock_state s)) with (threads s). by rewrite Hth. }
  assert (Hst1 : state th1 <> THREAD_DEATH) by (unfold th1; by case_decide).
  exists s1. split; [done|]. intros s2. split.
  - destruct Hres1 as (HI1 & Hc1 & Hl1). split; [|by split].
    eapply (kinv_upd_same _ _ s1 t th1); try done.
    unfold bad_flags. cbn [flags stack th_flags]. by rewrite !set_detached_other.
  - enough (Hl : thread_detach_locked t s = Done (Some NO_ERROR) (unlock_state (saved_ints s) s2))
      by (split; [done|by apply detach_locked_done]).
    unfold thread_detach_locked. erewrite bind_done; [|eapply thread_assert_ok; [done|]].
    2: { apply Z.eqb_eq. by apply (ki_magic _ _ _ HI _ _ Hth). }
    kstep. erewrite bind_done by exact Hrun. kstep. unfold thread_in_state.
    rewrite bool_decide_eq_false_2 by done. kstep. by kstep.
Qed.

(** Detaching a living thread releases every thread joining it with
    [ERR_THREAD_DETACHED] and marks it detached; it goes on as before. *)
Theorem thread_detach_spec me t th s :
  running me s -> threads s !! t = Some th -> state th <> THREAD_DEATH -> wq_ready (RetcodeWQ t) s ->
  exists s' th', thread_detach t s = Done NO_ERROR s' /\ running me s' /\
    ints_enabled s' = ints_enabled s /\
    queue s' (WaitQ (RetcodeWQ t)) = [] /\
    (forall j, j ∈ queue s (WaitQ (RetcodeWQ t)) -> j <> t ->
       wait_queue_block_ret <$> threads s' !! j = Some ERR_THREAD_DETACHED) /\
    threads s' !! t = Some th' /\ has_flag (flags th') THREAD_FLAG_DETACHED = true /\
    state th' <> THREAD_DEATH.
Proof.
  intros Hr Hth Hnd (q & Hq & Hqm).
  destruct (detach_alive_ok me t th q s Hr Hth Hnd Hq Hqm) as (s1 & Hwk & Hres & _ & Hrun).
  set (th1 := (if decide (t ∈ wq_list q) then _ else id) th) in *. set (th' := th_flags _ th1) in *.
  set (s2 := k_threads _ s1) in *.
  assert (Hths : threads (unlock_state (saved_ints s) s2) = <[t := th']> (threads s1)).
  { unfold unlock_state. by destruct has_flag. }
  exists (unlock_state (saved_ints s) s2), th'.
  split; [done|split; [by apply unlock_running|split; [apply unlock_saved_ints, Hres|split; [|split; [|split]]]]].
  - transitivity (queue s1 (WaitQ (RetcodeWQ t))); [unfold unlock_state; by destruct has_flag|].
    apply (wk_wait _ _ _ _ _ _ Hwk).
  - intros j Hj Hjt. simpl in Hj. rewrite Hq in Hj. rewrite Hths, lookup_insert_ne by congruence.
    by eapply woke_ret; [exact Hwk|apply (resumed_lock me s Hr)|exact Hq| |].
  - rewrite Hths. by simplify_map_eq.
  - split; [apply set_detached_flag|]. unfold th', th1. by case_decide.
Qed.
End proofs.

(** ** Witnesses *)

#[local] Existing Instance debug_config.

Lemma thread_create_spec_witness :
  exists t s', thread_create [108; 107; 108] 7 0 16 4096 demo_state = Done (Some t) s' /\ running 2 s'.
Proof.
  destruct (thread_create_spec 2 [108; 107; 108] 7 0 16 4096 demo_state demo_running) as (t & stk & s' & Hr & Hrn & _);
    [unfold NUM_PRIORITIES; lia|].
  exists t, s'. split; [exact Hr|exact Hrn].
Defined.

Lemma thread_resume_spec_witness :
  op_safe 2 true (fun ret _ => ret = NO_ERROR) (thread_resume 1 demo_state).
Proof.
  destruct (proj2 (thread_resume_spec 2 1 (demo_thread 0 THREAD_SUSPENDED) demo_state
    demo_running eq_refl ltac:(done)) eq_refl) as (s0 & _ & _ & _ & _ & _ & Hs).
  exact Hs.
Defined.

Lemma thread_exit_spec_witness :
  exists s', thread_exit 5 demo_state = Switch s' (fun _ => Fail Panic).
Proof.
  destruct (thread_exit_spec 2 5 (demo_thread 16 THREAD_RUNNING) demo_state demo_running eq_refl)
    as (s1 & s' & top & _ & Hr & _).
  - done.
  - eexists; split; reflexivity.
  - exists s'. exact Hr.
Defined.

Lemma thread_join_spec_witness :
  exists s', thread_join 3 0 (k_threads (<[3%positive := th_flags THREAD_FLAG_DETACHED
    (demo_thread 16 THREAD_READY)]> (threads demo_state)) demo_state) = Done (ERR_THREAD_DETACHED, 0) s'.
Proof.
  destruct (proj1 (thread_join_spec 2 3 (th_flags THREAD_FLAG_DETACHED (demo_thread 16 THREAD_READY)) 9 0
    (k_threads (<[3%positive := th_flags THREAD_FLAG_DETACHED (demo_thread 16 THREAD_READY)]>
       (threads demo_state)) demo_state) ltac:(constructor; [apply kinv_check_sound; by vm_compute|done|done])
    eq_refl eq_refl) eq_refl) as (s' & Hr & _).
  exists s'. exact Hr.
Defined.

Lemma thread_detach_spec_witness :
  exists s', thread_detach 3 demo_state = Done NO_ERROR s' /\ running 2 s'.
Proof.
  destruct (thread_detach_spec 2 3 (demo_thread 16 THREAD_READY) demo_state demo_running eq_refl)
    as (s' & th' & Hr & Hrn & _).
  - done.
  - eexists; split; reflexivity.
  - exists s'. split; [exact Hr|exact Hrn].
Defined.
