(* ===== verification/LifeMachine.v ===== *)
(** * The life of threads, all of them together

    Threads create, resume, detach and join threads, exit, yield, are preempted
    and change their priority, in any order.  A machine is the kernel state
    with, for every thread that does not execute its own code, the rest of the
    call it is in, and four notes on the past: the threads created, the codes
    they exited with, the joins that succeeded, and the dead threads somebody
    has detached and is about to reap.  This file defines the machine and its
    invariant, and shows what scheduling leaves of it.

    A step is one critical section, from [THREAD_LOCK] to [THREAD_UNLOCK], or
    the part of one before or after a context switch: no interrupt arrives in
    between.  The timer interrupt preempts a thread whenever it does not hold
    the lock: [LPreempt] may come between any two steps.  So a call with two
    critical sections is two steps: [thread_resume] is [LResume] and then
    [LYield], and [thread_detach] of a dead thread is [LDetach] and then [LReap],
    its [thread_join].  What a call does without the lock - the assertions on
    the [magic] before it, the allocations of [thread_create] before it, the
    [free] of [thread_join] after it - concerns memory no other thread changes
    meanwhile, and belongs to the step of the critical section next to it: the
    rule of use is about the moment a call takes the lock. *)

From S2P Require Import Prelude Kernel KInv Sched WaitQueue Footprint Thread.

(** The calls of a thread; [LStart]: a new thread returns from its first
    first context switch ([initial_thread_func]) and begins with its own code;
    [LReap]: a thread that detached a dead one goes on to join it. *)
Inductive life_op :=
| LStart | LYield | LPreempt | LSetPriority (p : Z)
| LCreate (name : list Z) (entry arg priority size : Z)
| LResume (t : ptr) | LDetach (t : ptr) | LReap (t : ptr) | LJoin (t : ptr) (timeout : Z) | LExit (rc : Z).

(** What a step of a call returns: a status with a return code, a thread, or
    that the thread to detach is dead and has to be reaped. *)
Inductive lres := LStatus (st rc : Z) | LThread (t : option ptr) | LDead.

Abbreviation lpends := (gmap ptr (life_op * (kstate -> run lres))).

Section machine.
Context `{Config}.

Record lmachine := mk_lmachine {
  lks : kstate; lpend : lpends;
  created : gset ptr; exits : gmap ptr Z; joined : list (ptr * Z);
  reaping : gmap ptr ptr }.

Definition lexec (o : life_op) : M lres :=
  match o with
  | LStart => spin_unlock;; mret (LStatus 0 0)
  | LYield => thread_yield;; mret (LStatus 0 0)
  | LPreempt => thread_preempt;; mret (LStatus 0 0)
  | LSetPriority p => thread_set_priority p;; mret (LStatus 0 0)
  | LCreate name entry arg prio size => t ← thread_create name entry arg prio size; mret (LThread t)
  | LResume t => thread_resume_locked t;; mret (LStatus NO_ERROR 0)
  | LDetach t => r ← thread_detach_locked t; mret (if r is Some err then LStatus err 0 else LDead)
  | LReap t => r ← thread_join t 0; mret (LStatus (fst r) 0)
  | LJoin t timeout => r ← thread_join t timeout; mret (LStatus (fst r) (snd r))
  | LExit rc => thread_exit rc;; mret (LStatus 0 0)
  end.

(** The call is a join of [t]. *)
Definition joins (t : ptr) (o : life_op) : bool :=
  match o with LJoin t' _ => bool_decide (t' = t) | _ => false end.

Definition no_joiner (t : ptr) (pd : lpends) : Prop := map_Forall (fun _ c => joins t (fst c) = false) pd.

(** Nobody joins [t], or has detached it and is about to reap it. *)
Definition unclaimed (t : ptr) (mc : lmachine) : Prop :=
  no_joiner t (lpend mc) /\ map_Forall (fun _ t' => t' <> t) (reaping mc).

Definition alive (th : thread_t) : bool := negb (thread_in_state THREAD_DEATH th).

(** The rule of use.  A thread that is resumed is alive.  A thread that is
    joined or detached was created by [thread_create] and has not been joined
    yet; one thread at a time joins it, a dead thread that is being joined is
    not detached, and a dead thread that has been detached is left to the thread
    that reaps it.  There are no kernel timers, so a join waits for ever or
    not at all.  The idle thread neither waits nor exits.  A thread that has to
    reap another does so next, however often it is preempted before. *)
Definition lallowed (o : life_op) (me : ptr) (mc : lmachine) : Prop :=
  if reaping mc !! me is Some t then match o with LPreempt => True | LReap t' => t' = t | _ => False end else
  match o with
  | LStart | LReap _ => False
  | LYield | LPreempt | LSetPriority _ => True
  | LCreate _ _ _ prio _ => 0 <= prio < NUM_PRIORITIES
  | LResume t => alive <$> threads (lks mc) !! t = Some true
  | LDetach t => t ∈ created mc /\ magic <$> threads (lks mc) !! t = Some THREAD_MAGIC /\
      (alive <$> threads (lks mc) !! t = Some true \/ unclaimed t mc)
  | LJoin t timeout => t ∈ created mc /\ magic <$> threads (lks mc) !! t = Some THREAD_MAGIC /\
      unclaimed t mc /\ t <> me /\ me <> _idle_thread /\ (timeout = 0 \/ timeout = INFINITE_TIME)
  | LExit _ => me <> _idle_thread
  end.

#[export] Instance lallowed_dec o me mc : Decision (lallowed o me mc).
Proof. unfold lallowed, unclaimed, no_joiner. destruct (reaping mc !! me), o; apply _. Defined.

(** An exiting thread leaves its return code; the thread that reaps does so
    now. *)
Definition lenter (o : life_op) (me : ptr) (mc : lmachine) : lmachine :=
  match o with
  | LExit rc => mk_lmachine (lks mc) (lpend mc) (created mc) (<[me := rc]> (exits mc)) (joined mc) (reaping mc)
  | LReap _ => mk_lmachine (lks mc) (lpend mc) (created mc) (exits mc) (joined mc) (delete me (reaping mc))
  | _ => mc
  end.

(** The notes when a call returns. *)
Definition lnote (me : ptr) (o : life_op) (r : lres) (mc : lmachine) : lmachine :=
  match o, r with
  | LCreate _ _ _ _ _, LThread (Some t) =>
      mk_lmachine (lks mc) (<[t := (LStart, lexec LStart)]> (lpend mc)) ({[t]} ∪ created mc) (exits mc) (joined mc)
        (reaping mc)
  | LJoin t _, LStatus st rc =>
      if st =? NO_ERROR
      then mk_lmachine (lks mc) (lpend mc) (created mc) (exits mc) ((t, rc) :: joined mc) (reaping mc) else mc
  | LDetach t, LDead =>
      mk_lmachine (lks mc) (lpend mc) (created mc) (exits mc) (joined mc) (<[me := t]> (reaping mc))
  | _, _ => mc
  end.

(** What becomes of the machine when the call [o] of [me] returns, switches to
    another thread, or fails ([None]). *)
Definition lfinish (me : ptr) (o : life_op) (r : run lres) (mc : lmachine) : option lmachine :=
  match r with
  | Done res s' => Some (lnote me o res
      (mk_lmachine s' (delete me (lpend mc)) (created mc) (exits mc) (joined mc) (reaping mc)))
  | Switch s' k => Some (mk_lmachine s' (<[me := (o, k)]> (lpend mc)) (created mc) (exits mc) (joined mc) (reaping mc))
  | Fail _ => None
  end.

Inductive lstep : lmachine -> option lmachine -> Prop :=
| ls_call me o mc :
    current_thread (lks mc) = Some me -> lpend mc !! me = None -> lallowed o me mc ->
    lstep mc (lfinish me o (lexec o (lks mc)) (lenter o me mc))
| ls_resume me o k mc :
    current_thread (lks mc) = Some me -> lpend mc !! me = Some (o, k) ->
    lstep mc (lfinish me o (k (lks mc)) mc).

Definition lsteps : lmachine -> lmachine -> Prop := rtc (fun a b => lstep a (Some b)).

(** A schedule: the calls the threads make, in the order of the CPU. *)
Fixpoint ldrive (l : list life_op) (mc : lmachine) : option lmachine :=
  match l with
  | [] => Some mc
  | o :: l =>
      me ← current_thread (lks mc);
      mc' ← match lpend mc !! me with
            | Some (o', k) => lfinish me o' (k (lks mc)) mc
            | None => if decide (lallowed o me mc) then lfinish me o (lexec o (lks mc)) (lenter o me mc) else None
            end;
      ldrive l mc'
  end.

(** The system at start: [me] runs, the other threads have not run yet. *)
Definition lboot_pends (me : ptr) (s : kstate) : lpends :=
  (fun _ => (LStart, lexec LStart)) <$> delete me (threads s).
Definition lboot (me : ptr) (s : kstate) : lmachine := mk_lmachine s (lboot_pends me s) ∅ ∅ [] ∅.

Lemma ldrive_steps l mc mc' : ldrive l mc = Some mc' -> lsteps mc mc'.
Proof.
  revert mc. induction l as [|o l IH]; simpl; intros mc Hd; [simplify_eq; apply rtc_refl|].
  destruct (current_thread (lks mc)) as [me|] eqn:Hc; [simpl in Hd|done].
  apply bind_Some in Hd as (mc1 & H1 & Hd). eapply rtc_l; [|by apply IH]. rewrite <- H1.
  destruct (lpend mc !! me) as [[o' k]|] eqn:Hp; [by apply ls_resume|].
  case_decide; [by apply ls_call|done].
Qed.
End machine.

(** ** The invariant *)

Section invariant.
Context `{Config}.

(** The fields of a thread [t] that was created: a living one is as created or
    marked detached; a dead one has left its return code, and is joinable
    unless it was detached. *)
Definition life_ok (ex : gmap ptr Z) (t : ptr) (th : thread_t) : Prop :=
  (state th <> THREAD_DEATH -> flags th = created_flags \/ flags th = Z.lor created_flags THREAD_FLAG_DETACHED) /\
  (state th = THREAD_DEATH -> ex !! t = Some (retcode th) /\ (magic th = THREAD_MAGIC -> flags th = created_flags)).

(** The stack of a created thread is a block of its own. *)
Definition own_stack (base cr : gset ptr) (s : kstate) (t : ptr) (th : thread_t) : Prop :=
  exists stk, stack th = Some stk /\ stk <> t /\ t ∉ base /\ stk ∉ base /\ stk ∉ cr /\ threads s !! stk = None.

(** [t] is a thread that is not dead. *)
Definition lives (s : kstate) (t : ptr) : Prop := exists th, threads s !! t = Some th /\ state th <> THREAD_DEATH.

(** [t] has the CPU or is ready to. *)
Definition awake (s : kstate) (t : ptr) : Prop :=
  exists th, threads s !! t = Some th /\ (state th = THREAD_READY \/ state th = THREAD_RUNNING).

(** [t] joins [t']: it waits while [t'] lives and is not detached; otherwise it
    has been woken and told how the wait ended. *)
Definition join_wait (s : kstate) (t t' : ptr) : Prop :=
  (t ∈ queue s (WaitQ (RetcodeWQ t')) /\
     exists th', threads s !! t' = Some th' /\ state th' <> THREAD_DEATH /\ flags th' = created_flags) \/
  (t ∉ queue s (WaitQ (RetcodeWQ t')) /\ awake s t /\
     ((told s t = Some NO_ERROR /\ exists th', threads s !! t' = Some th' /\
         state th' = THREAD_DEATH /\ magic th' = THREAD_MAGIC) \/
      told s t = Some ERR_THREAD_DETACHED)).

(** The rest of a join that has waited. *)
Definition join_resume (me t : ptr) (st : Z) : M lres :=
  r ← (err ← (th' ← get_thread me; mret (wait_queue_block_ret th')); thread_join_rest t st err);
  mret (LStatus (fst r) (snd r)).

(** What is left of a call that only gives the lock back. *)
Definition unlocks (k : kstate -> run lres) : Prop := exists st, forall s, exists r, k s = Done r (unlock_state st s).

(** The rest of the call [o] of [t]. *)
Definition life_rest (s : kstate) (cr : gset ptr) (t : ptr) (o : life_op) (k : kstate -> run lres) : Prop :=
  match o with
  | LJoin t' _ => t' ∈ cr /\ t <> t' /\ lives s t /\ (exists st, k = join_resume t t' st) /\ join_wait s t t'
  | LExit _ => ~ lives s t
  | LCreate _ _ _ _ _ | LResume _ | LDetach _ | LReap _ => False
  | _ => unlocks k
  end.

(** The life of threads is in order, [base] being the blocks that were
    allocated at the start and [cur] the thread that has the CPU, if any. *)
Record linv (base : gset ptr) (cur : option ptr) (mc : lmachine) : Prop := {
  li_ready : forall t, is_Some (threads (lks mc) !! t) -> wq_ready (RetcodeWQ t) (lks mc);
  li_blk : forall t th, threads (lks mc) !! t = Some th -> state th <> THREAD_BLOCKED -> blocking_wait_queue th = None;
  li_known : forall t, t ∈ created mc \/ is_Some (exits mc !! t) -> (t < next_ptr (lks mc))%positive;
  li_pend : forall t th, threads (lks mc) !! t = Some th -> state th <> THREAD_DEATH -> cur <> Some t ->
    is_Some (lpend mc !! t);
  li_alloc : forall p, p ∈ allocated (lks mc) <-> p ∈ base \/
    exists t th, t ∈ created mc /\ threads (lks mc) !! t = Some th /\ (p = t \/ stack th = Some p);
  li_own : forall t th, t ∈ created mc -> threads (lks mc) !! t = Some th ->
    own_stack base (created mc) (lks mc) t th;
  li_life : forall t th, t ∈ created mc -> threads (lks mc) !! t = Some th -> life_ok (exits mc) t th;
  li_stacks : forall t t' th th', t ∈ created mc -> t' ∈ created mc ->
    threads (lks mc) !! t = Some th -> threads (lks mc) !! t' = Some th' -> stack th = stack th' -> t = t';
  li_exits : forall t rc, exits mc !! t = Some rc -> t <> _idle_thread /\
    forall th, threads (lks mc) !! t = Some th -> state th = THREAD_DEATH /\ retcode th = rc;
  li_joined : forall t rc, (t, rc) ∈ joined mc -> exits mc !! t = Some rc /\ threads (lks mc) !! t = None;
  li_once : NoDup (fst <$> joined mc);
  li_rest : forall t o k, lpend mc !! t = Some (o, k) -> life_rest (lks mc) (created mc) t o k;
  li_waits : forall t t', t ∈ queue (lks mc) (WaitQ (RetcodeWQ t')) ->
    exists timeout k, lpend mc !! t = Some (LJoin t' timeout, k);
  li_one : forall a b t to_a to_b ka kb, lpend mc !! a = Some (LJoin t to_a, ka) ->
    lpend mc !! b = Some (LJoin t to_b, kb) -> a = b;
  li_reap : forall a t, reaping mc !! a = Some t -> t ∈ created mc /\ no_joiner t (lpend mc) /\
    exists th, threads (lks mc) !! t = Some th /\ state th = THREAD_DEATH /\ magic th = THREAD_MAGIC;
  li_reap_one : forall a b t, reaping mc !! a = Some t -> reaping mc !! b = Some t -> a = b;
}.

(** The thread that has the CPU executes its own code, or goes on with a call. *)
Definition ltinv (base : gset ptr) (mc : lmachine) : Prop :=
  exists me, current_thread (lks mc) = Some me /\ linv base (Some me) mc /\
    match lpend mc !! me with Some _ => resumed me (lks mc) | None => running me (lks mc) end.

(** ** What scheduling leaves alone *)

(** The fields the life of a thread depends on. *)
Definition same_life (th th1 : thread_t) : Prop :=
  magic th1 = magic th /\ flags th1 = flags th /\ stack th1 = stack th /\ retcode th1 = retcode th /\
  (state th1 = THREAD_DEATH <-> state th = THREAD_DEATH) /\
  ((state th <> THREAD_BLOCKED -> blocking_wait_queue th = None) ->
   state th1 <> THREAD_BLOCKED -> blocking_wait_queue th1 = None).

Record calm (s s1 : kstate) : Prop := {
  cm_threads : forall t, option_Forall2 same_life (threads s !! t) (threads s1 !! t);
  cm_ready : forall w, wq_ready w s -> wq_ready w s1;
  cm_alloc : allocated s1 = allocated s;
  cm_next : (next_ptr s <= next_ptr s1)%positive;
}.

(** Nor has a waiting thread been told anything. *)
Record quiet (s s1 : kstate) : Prop := {
  qt_calm : calm s s1;
  qt_told : forall t, told s1 t = told s t;
  qt_awake : forall t, awake s t -> awake s1 t;
  qt_queue : forall t, queue s1 (WaitQ (RetcodeWQ t)) = queue s (WaitQ (RetcodeWQ t));
}.

#[export] Instance same_life_preorder : PreOrder same_life.
Proof.
  split.
  - intros th. unfold same_life. tauto.
  - intros a b c (? & ? & ? & ? & ? & ?) (? & ? & ? & ? & ? & ?). unfold same_life.
    split_and!; [congruence..|tauto|tauto].
Qed.

#[export] Instance calm_preorder : PreOrder calm.
Proof.
  split.
  - intros s. by constructor.
  - intros a b c [T1 R1 L1 N1] [T2 R2 L2 N2]. constructor; [|by auto|congruence|lia].
    intros t. etrans; [apply T1|apply T2].
Qed.

#[export] Instance quiet_preorder : PreOrder quiet.
Proof.
  split.
  - intros s. by constructor.
  - intros a b c [C1 A1 W1 Q1] [C2 A2 W2 Q2]. constructor; [by etrans|..].
    + intros t. by rewrite A2.
    + auto.
    + intros t. by rewrite Q2.
Qed.

Lemma calm_back s s1 t th1 : calm s s1 -> threads s1 !! t = Some th1 ->
  exists th, threads s !! t = Some th /\ same_life th th1.
Proof.
  intros Hq Ht. pose proof (cm_threads _ _ Hq t) as E. rewrite Ht in E.
  inversion E as [th ? ? E1 E2|]; subst. by eexists.
Qed.

Lemma calm_forth s s1 t th : calm s s1 -> threads s !! t = Some th ->
  exists th1, threads s1 !! t = Some th1 /\ same_life th th1.
Proof.
  intros Hq Ht. pose proof (cm_threads _ _ Hq t) as E. rewrite Ht in E.
  inversion E as [? th1 ? E1 E2|]; subst. by eexists.
Qed.

Lemma calm_none s s1 t : calm s s1 -> threads s1 !! t = None <-> threads s !! t = None.
Proof. intros Hq. pose proof (cm_threads _ _ Hq t) as E. inversion E; naive_solver. Qed.

Lemma calm_lives s s1 t : calm s s1 -> lives s1 t <-> lives s t.
Proof.
  intros Hq. split; intros (th & Ht & Hst).
  - destruct (calm_back _ _ _ _ Hq Ht) as (th0 & ? & _ & _ & _ & _ & Ed & _). exists th0. split; [done|tauto].
  - destruct (calm_forth _ _ _ _ Hq Ht) as (th0 & ? & _ & _ & _ & _ & Ed & _). exists th0. split; [done|tauto].
Qed.

Lemma quiet_same s s1 : threads s1 = threads s -> wqs s1 = wqs s -> allocated s1 = allocated s ->
  (next_ptr s <= next_ptr s1)%positive -> quiet s s1.
Proof.
  intros Et Ew Ea En. constructor; [constructor; try done|..].
  - intros t. by rewrite Et.
  - intros w. unfold wq_ready. by rewrite Ew.
  - intros t. unfold told. by rewrite Et.
  - intros t. unfold awake. by rewrite Et.
  - intros t. simpl. by rewrite Ew.
Qed.

Lemma quiet_lock s : quiet s (lock_state s).
Proof. by apply quiet_same. Qed.

Lemma quiet_unlock st s : quiet s (unlock_state st s).
Proof. apply quiet_same; unfold unlock_state; by destruct has_flag. Qed.

(** The threads of a join: the one that waits has been told nothing. *)
Lemma join_wait_calm s s1 t t' : calm s s1 -> told s1 t = told s t -> (awake s t -> awake s1 t) ->
  (t ∈ queue s1 (WaitQ (RetcodeWQ t')) <-> t ∈ queue s (WaitQ (RetcodeWQ t'))) ->
  join_wait s t t' -> join_wait s1 t t'.
Proof.
  intros Hq Et Ea Eq [(Hin & th' & Ht' & Hst & Hfl)|(Hin & Ha & [(Ht & th' & Ht' & Hst & Hm)|Ht])];
    unfold join_wait; rewrite Eq, Et.
  - destruct (calm_forth _ _ _ _ Hq Ht') as (th1 & Hth1 & Em & Ef & _ & _ & Ed & _).
    left. split; [done|]. exists th1. split_and!; [done|tauto|congruence].
  - destruct (calm_forth _ _ _ _ Hq Ht') as (th1 & Hth1 & Em & Ef & _ & _ & Ed & _).
    right. split; [done|]. split; [auto|]. left. split; [done|]. exists th1. split_and!; [done|tauto|congruence].
  - right. split; [done|]. split; [auto|by right].
Qed.

Lemma life_rest_calm s s1 cr t o k : calm s s1 -> told s1 t = told s t -> (awake s t -> awake s1 t) ->
  (forall t', joins t' o = true -> queue s1 (WaitQ (RetcodeWQ t')) = queue s (WaitQ (RetcodeWQ t'))) ->
  life_rest s cr t o k -> life_rest s1 cr t o k.
Proof.
  intros Hq Et Ea Eq. destruct o; cbn [life_rest joins] in *; rewrite ?(calm_lives _ _ _ Hq); try done.
  intros (? & ? & ? & ? & ?). split_and!; [done..|]. eapply join_wait_calm; [done..| |done].
  rewrite Eq; [done|]. by apply bool_decide_eq_true.
Qed.

Lemma life_ok_same ex t th th1 : same_life th th1 -> life_ok ex t th -> life_ok ex t th1.
Proof. intros (Em & Ef & Es & Er & Ed & _). unfold life_ok. rewrite Em, Ef, Er. tauto. Qed.

(** Calm steps keep what concerns the threads; the calls in progress may be
    others. *)
Lemma linv_calm base cur cur1 s s1 pd pd1 cr ex jn rp :
  calm s s1 -> linv base cur (mk_lmachine s pd cr ex jn rp) ->
  (forall t, lives s t -> cur1 <> Some t -> is_Some (pd1 !! t)) ->
  (forall t o k, pd1 !! t = Some (o, k) -> life_rest s1 cr t o k) ->
  (forall t t', t ∈ queue s1 (WaitQ (RetcodeWQ t')) -> exists timeout k, pd1 !! t = Some (LJoin t' timeout, k)) ->
  (forall a b t to_a to_b ka kb, pd1 !! a = Some (LJoin t to_a, ka) ->
    pd1 !! b = Some (LJoin t to_b, kb) -> a = b) ->
  (forall t th, threads s !! t = Some th -> state th = THREAD_DEATH -> no_joiner t pd -> no_joiner t pd1) ->
  linv base cur1 (mk_lmachine s1 pd1 cr ex jn rp).
Proof.
  intros Hq [Hrd Hbk Hkn _ Hal How Hlf Hsk Hex Hjn Hnd _ _ _ Hrp Hrp1] Hpd Hre Hwt Hone Hnj.
  constructor; cbn [lks lpend created exits joined reaping] in *; try done.
  - intros t [th1 Ht1]. destruct (calm_back _ _ _ _ Hq Ht1) as (th & Ht & _).
    apply (cm_ready _ _ Hq), Hrd. by eexists.
  - intros t th1 Ht1. destruct (calm_back _ _ _ _ Hq Ht1) as (th & Ht & _ & _ & _ & _ & _ & Eb).
    apply Eb. intros Hst. by eapply Hbk.
  - intros t Ht. pose proof (cm_next _ _ Hq). apply Hkn in Ht. lia.
  - intros t th1 Ht1 Hst. apply Hpd, (calm_lives s s1 t Hq). by exists th1.
  - intros p. rewrite (cm_alloc _ _ Hq), Hal. split; (intros [?|(t & th & Hc & Ht & Hp)]; [by left|right]).
    + destruct (calm_forth _ _ _ _ Hq Ht) as (th1 & Ht1 & _ & _ & Es & _). exists t, th1. by rewrite Es.
    + destruct (calm_back _ _ _ _ Hq Ht) as (th1 & Ht1 & _ & _ & Es & _). exists t, th1. by rewrite <- Es.
  - intros t th1 Hc Ht1. destruct (calm_back _ _ _ _ Hq Ht1) as (th & Ht & _ & _ & Es & _).
    destruct (How t th Hc Ht) as (stk & ? & ? & ? & ? & ? & ?). exists stk. rewrite Es, (calm_none _ _ _ Hq). done.
  - intros t th1 Hc Ht1. destruct (calm_back _ _ _ _ Hq Ht1) as (th & Ht & Hsl).
    eapply life_ok_same; [exact Hsl|by apply Hlf].
  - intros t t' th1 th1' Hc Hc' Ht Ht'.
    destruct (calm_back _ _ _ _ Hq Ht) as (th & ? & _ & _ & -> & _).
    destruct (calm_back _ _ _ _ Hq Ht') as (th' & ? & _ & _ & -> & _). by apply Hsk.
  - intros t rc Ht. destruct (Hex t rc Ht) as [Hid Hdead]. split; [done|]. intros th1 Ht1.
    destruct (calm_back _ _ _ _ Hq Ht1) as (th & Ht0 & _ & _ & _ & -> & Ed & _).
    destruct (Hdead _ Ht0). tauto.
  - intros t rc Ht. rewrite (calm_none _ _ _ Hq). by apply Hjn.
  - intros a t Ha. destruct (Hrp a t Ha) as (Hc & Hno & th & Ht & Hd & Hm). split; [done|].
    split; [by eapply Hnj|]. destruct (calm_forth _ _ _ _ Hq Ht) as (th1 & Ht1 & Em & _ & _ & _ & Ed & _).
    exists th1. split; [done|]. split; [tauto|congruence].
Qed.

Lemma linv_quiet base cur s s1 pd cr ex jn rp :
  quiet s s1 -> linv base cur (mk_lmachine s pd cr ex jn rp) -> linv base cur (mk_lmachine s1 pd cr ex jn rp).
Proof.
  intros [Hcm Ht Ha Hq] Hi. eapply linv_calm; [done..| | | |apply Hi|done].
  - intros t (th & Hth & Hst). by apply (li_pend _ _ _ Hi t th).
  - intros t o k Hk. eapply life_rest_calm; [done|done|by apply Ha|done|by apply (li_rest _ _ _ Hi)].
  - intros t t'. rewrite Hq. apply (li_waits _ _ _ Hi).
Qed.
End invariant.

Section scheduling.
Context `{Config}.
Implicit Types (s : kstate) (t me : ptr) (mc : lmachine).

Lemma same_life_state th st : state th <> THREAD_DEATH -> state th <> THREAD_BLOCKED ->
  st <> THREAD_DEATH -> same_life th (th_state st th).
Proof. intros H1 H2 H3. unfold same_life. simpl. split_and!; try done. auto. Qed.

(** The thread that gets the CPU is alive and waits for nothing. *)
Lemma top_alive run s top : kinv run ∅ s -> is_top s top ->
  exists th, threads s !! top = Some th /\ state th <> THREAD_DEATH /\ state th <> THREAD_BLOCKED.
Proof.
  intros HI [(p & l & _ & Hp & _)|[-> _]].
  - destruct (kinv_queue_thread run ∅ s top (RunQ p) HI) as (th & Hth & Hh); [rewrite Hp; set_solver|].
    exists th. split; [done|]. unfold home in Hh. destruct (state th); try done.
    by destruct (blocking_wait_queue th).
  - destruct (ki_idle _ _ _ HI) as (th & Hth & Hst). exists th. split; [done|].
    destruct Hst as [->|[->| ->]]; [set_solver|done..].
Qed.

Lemma dispatched_quiet me s top s' : kinv None ∅ s -> dispatched me s top s' -> quiet s s'.
Proof.
  intros HI Hd. destruct (top_alive None s top HI (dp_top _ _ _ _ Hd)) as (tht & Htt & Hd1 & Hd2).
  constructor; [constructor|..].
  - intros t. pose proof (dp_core _ _ _ _ Hd t) as E.
    destruct (threads s !! t) as [th|] eqn:Ht, (threads s' !! t) as [th1|]; try done; constructor.
    apply (inj Some) in E.
    assert (Hf : magic th1 = magic th /\ flags th1 = flags th /\ stack th1 = stack th /\
      retcode th1 = retcode th /\ blocking_wait_queue th1 = blocking_wait_queue th /\
      state th1 = if decide (t = top) then THREAD_RUNNING else state th).
    { destruct th, th1. case_decide; by injection E as ->. }
    destruct Hf as (? & ? & ? & ? & Eb & Es). unfold same_life. rewrite Eb, Es. case_decide; [subst|by auto].
    simplify_eq. split_and!; auto. by split.
  - intros w. unfold wq_ready. by rewrite (dp_wqs _ _ _ _ Hd).
  - apply (so_allocated _ _ (dp_frame _ _ _ _ Hd)).
  - by rewrite (so_next _ _ (dp_frame _ _ _ _ Hd)).
  - intros t. by eapply dispatched_told.
  - intros t (th & Hth & Hst). pose proof (dp_core _ _ _ _ Hd t) as E. rewrite Hth in E.
    destruct (threads s' !! t) as [th1|] eqn:Hth1; [|done]. exists th1. split; [done|].
    apply (inj Some), (f_equal state) in E. simpl in E. rewrite E. case_decide; [by right|done].
  - intros t. by eapply dispatched_wait.
Qed.

(** Only the thread [t] has changed, in nothing that matters here. *)
Lemma calm_thread s s1 t th th1 : threads s !! t = Some th -> threads s1 !! t = Some th1 ->
  (forall t', t' <> t -> threads s1 !! t' = threads s !! t') -> same_life th th1 ->
  (forall w, wq_ready w s -> wq_ready w s1) ->
  allocated s1 = allocated s -> next_ptr s1 = next_ptr s -> calm s s1.
Proof.
  intros Ht Ht1 Hne Hsl Hw Ha Hn. constructor; try done; [|by rewrite Hn].
  intros t'. destruct (decide (t' = t)) as [->|]; [rewrite Ht, Ht1; by constructor|by rewrite Hne].
Qed.

Lemma quiet_thread s s1 t th th1 : threads s !! t = Some th -> threads s1 !! t = Some th1 ->
  (forall t', t' <> t -> threads s1 !! t' = threads s !! t') -> same_life th th1 ->
  wait_queue_block_ret th1 = wait_queue_block_ret th -> state th1 = THREAD_READY ->
  (forall w, wq_ready w s -> wq_ready w s1) ->
  (forall t, queue s1 (WaitQ (RetcodeWQ t)) = queue s (WaitQ (RetcodeWQ t))) ->
  allocated s1 = allocated s -> next_ptr s1 = next_ptr s -> quiet s s1.
Proof.
  intros Ht Ht1 Hne Hsl Hret Hst Hw Hq Ha Hn. constructor; [by eapply calm_thread| | |done].
  - intros t'. unfold told. destruct (decide (t' = t)) as [->|]; [rewrite Ht, Ht1; simpl; by rewrite Hret|].
    by rewrite Hne.
  - intros t' (th' & Hth' & Hst'). unfold awake. destruct (decide (t' = t)) as [->|]; [exists th1; by auto|].
    rewrite Hne by done. by exists th'.
Qed.

Lemma requeued_quiet b me p s s1 th th1 :
  running me s -> threads s !! me = Some th -> threads s1 !! me = Some th1 ->
  th_core th1 = th_core (th_priority (priority th1) (th_state THREAD_READY th)) ->
  requeued b me p s s1 -> quiet s s1.
Proof.
  intros Hr Hth Hth1 E (_ & ((Hw & _ & _ & _ & _ & _ & Ha & _ & Hn & _) & Hne) & _ & Hqs).
  destruct (running_facts me s th Hr Hth) as (Hst & _).
  assert (Hf : magic th1 = magic th /\ flags th1 = flags th /\ stack th1 = stack th /\ retcode th1 = retcode th /\
    blocking_wait_queue th1 = blocking_wait_queue th /\ state th1 = THREAD_READY /\
    wait_queue_block_ret th1 = wait_queue_block_ret th).
  { destruct th, th1. unfold th_core in E. simpl in *. by injection E as ->. }
  destruct Hf as (? & ? & ? & ? & Eb & Es & ?).
  apply (quiet_thread s s1 me th th1); try done.
  - intros t Ht. apply Hne. rewrite (rn_cur _ _ Hr). congruence.
  - unfold same_life. rewrite Eb, Es, Hst. split_and!; auto. by split.
  - intros w. unfold wq_ready. by rewrite Hw.
  - intros t. by apply Hqs.
Qed.
End scheduling.
