(* ===== verification/Life.v ===== *)
(** * The life of threads is in order

    Every call of [LifeMachine] keeps its invariant, under every interleaving:
    no call fails, a dead thread never runs, a join returns the code its thread
    exited with, once, no joining thread is forgotten, and no memory is lost or
    freed twice: what is allocated belongs to threads that have not been joined. *)

From S2P Require Import Prelude Kernel KInv Sched WaitQueue Footprint Thread LifeMachine.

Section life.
Context `{Config}.
Implicit Types (s : kstate) (t me : ptr) (mc : lmachine) (pd : lpends) (cr base : gset ptr)
  (ex : gmap ptr Z) (jn : list (ptr * Z)) (rp : gmap ptr ptr).

(** ** Calls in progress come and go *)

Lemma no_joiner_insert t me o k pd : joins t o = false -> no_joiner t pd -> no_joiner t (<[me := (o, k)]> pd).
Proof. intros Ho Hno. by apply map_Forall_insert_2. Qed.

Lemma no_joiner_delete t me pd : no_joiner t pd -> no_joiner t (delete me pd).
Proof. intros Hno. by apply map_Forall_delete. Qed.

Lemma linv_weaken base cur mc : linv base None mc -> linv base cur mc.
Proof.
  destruct mc as [s pd cr ex jn rp]. intros Hi. eapply (linv_calm base None cur s s); [done|done|..]; try apply Hi.
  - intros t (th & Hth & Hst) _. by apply (li_pend _ _ _ Hi t th).
  - done.
Qed.

(** The caller has given up the CPU in a call that is no join. *)
Lemma linv_park base me s pd cr ex jn rp o k :
  linv base (Some me) (mk_lmachine s pd cr ex jn rp) -> pd !! me = None -> life_rest s cr me o k ->
  (forall t, joins t o = false) -> linv base None (mk_lmachine s (<[me := (o, k)]> pd) cr ex jn rp).
Proof.
  intros Hi Hnp Hrest Hno. eapply (linv_calm base (Some me) None s s); [done|done|..].
  - intros t (th & Hth & Hst) _. destruct (decide (t = me)) as [->|Hne]; [rewrite lookup_insert_eq; by eexists|].
    rewrite lookup_insert_ne by done. apply (li_pend _ _ _ Hi t th); [done..|congruence].
  - intros t o' k' [[<- [= <- <-]]|[_ Hk]]%lookup_insert_Some; [done|by apply (li_rest _ _ _ Hi)].
  - intros t t' Ht. destruct (li_waits _ _ _ Hi t t' Ht) as (to & k' & Hk). simpl in Hk. exists to, k'.
    rewrite lookup_insert_ne; [done|congruence].
  - intros a b t to_a to_b ka kb [[<- [= -> <-]]|[Ha Hka]]%lookup_insert_Some;
      [specialize (Hno t); simpl in Hno; by case_bool_decide|].
    intros [[<- [= -> <-]]|[Hb Hkb]]%lookup_insert_Some;
      [specialize (Hno t); simpl in Hno; by case_bool_decide|by eapply (li_one _ _ _ Hi)].
  - intros t th _ _. by apply no_joiner_insert.
Qed.

(** The call of the caller is over. *)
Lemma linv_delete base me s pd cr ex jn rp :
  linv base (Some me) (mk_lmachine s pd cr ex jn rp) -> (forall q, me ∉ queue s q) ->
  linv base (Some me) (mk_lmachine s (delete me pd) cr ex jn rp).
Proof.
  intros Hi Hnq. eapply (linv_calm base (Some me) (Some me) s s); [done|done|..].
  - intros t (th & Hth & Hst) Hne. rewrite lookup_delete_ne by congruence. by apply (li_pend _ _ _ Hi t th).
  - intros t o' k' [_ Hk]%lookup_delete_Some. by apply (li_rest _ _ _ Hi).
  - intros t t' Ht. destruct (li_waits _ _ _ Hi t t' Ht) as (to & k' & Hk). exists to, k'.
    rewrite lookup_delete_ne; [done|]. intros ->. by eapply Hnq.
  - intros a b t to_a to_b ka kb [_ Ha]%lookup_delete_Some [_ Hb]%lookup_delete_Some. by eapply (li_one _ _ _ Hi).
  - intros t th _ _. by apply no_joiner_delete.
Qed.

(** A thread is about to be reaped, or its reaper has begun to. *)
Lemma linv_reaping base cur s pd cr ex jn rp me t th :
  linv base cur (mk_lmachine s pd cr ex jn rp) -> t ∈ cr -> no_joiner t pd ->
  (forall a, rp !! a <> Some t) -> threads s !! t = Some th -> state th = THREAD_DEATH -> magic th = THREAD_MAGIC ->
  linv base cur (mk_lmachine s pd cr ex jn (<[me := t]> rp)).
Proof.
  intros Hi Hc Hno Hnr Hth Hd Hm. destruct Hi as [? ? ? ? ? ? ? ? ? ? ? ? ? ? Hrep Hrep1].
  constructor; cbn [lks lpend created exits joined reaping] in *; try done.
  - intros a t' [[_ <-]|[_ Ha]]%lookup_insert_Some; [|by eapply Hrep]. split_and!; [done..|by exists th].
  - intros a b t' [[Ea Et]|[Ha Hra]]%lookup_insert_Some [[Eb Et']|[Hb Hrb]]%lookup_insert_Some;
      [congruence|by destruct (Hnr b); subst|by destruct (Hnr a); subst|by eapply Hrep1].
Qed.

Lemma linv_reaps base cur s pd cr ex jn rp me :
  linv base cur (mk_lmachine s pd cr ex jn rp) -> linv base cur (mk_lmachine s pd cr ex jn (delete me rp)).
Proof.
  intros []. constructor; cbn [lks lpend created exits joined reaping] in *; try done.
  - intros a t [_ Ha]%lookup_delete_Some. eauto.
  - intros a b t [_ Ha]%lookup_delete_Some [_ Hb]%lookup_delete_Some. eauto.
Qed.

(** ** The end of a thread's life *)

(** From [s] to [s1] the thread [t] has become [th'], and its joiners have been
    woken with [err]. *)
Record released (err : Z) (t : ptr) (th' : thread_t) (s s1 : kstate) : Prop := {
  rl_thread : threads s1 !! t = Some th';
  rl_others : forall t', t' <> t -> threads s1 !! t' =
    (if bool_decide (t' ∈ queue s (WaitQ (RetcodeWQ t))) then woken err else id) <$> threads s !! t';
  rl_empty : queue s1 (WaitQ (RetcodeWQ t)) = [];
  rl_queue : forall t', t' <> t -> queue s1 (WaitQ (RetcodeWQ t')) = queue s (WaitQ (RetcodeWQ t'));
  rl_ready : forall w, wq_ready w s -> wq_ready w s1;
  rl_alloc : allocated s1 = allocated s;
  rl_next : next_ptr s1 = next_ptr s;
}.

(** The other threads: woken, if they were joining [t]. *)
Lemma released_back run err t th' s s1 t' th1 : kinv run ∅ s -> released err t th' s s1 -> t' <> t ->
  threads s1 !! t' = Some th1 -> exists th, threads s !! t' = Some th /\
    ((t' ∉ queue s (WaitQ (RetcodeWQ t)) /\ th1 = th) \/
     (t' ∈ queue s (WaitQ (RetcodeWQ t)) /\ th1 = woken err th /\ state th = THREAD_BLOCKED)).
Proof.
  intros HI Hrl Hne Ht'. rewrite (rl_others _ _ _ _ _ Hrl _ Hne) in Ht'.
  destruct (threads s !! t') as [th|] eqn:Hth; [|done]. exists th. split; [done|].
  case_bool_decide as Hin; simpl in Ht'; injection Ht' as <-; [right|by left].
  do 2 (split; [done|]). pose proof (kinv_queue_state _ _ _ _ _ _ HI Hin Hth) as Hh.
  unfold home in Hh. by destruct (state th).
Qed.

Lemma released_forth run err t th' s s1 t' th : kinv run ∅ s -> released err t th' s s1 -> t' <> t ->
  threads s !! t' = Some th -> exists th1, threads s1 !! t' = Some th1 /\
    ((t' ∉ queue s (WaitQ (RetcodeWQ t)) /\ th1 = th) \/
     (t' ∈ queue s (WaitQ (RetcodeWQ t)) /\ th1 = woken err th /\ state th = THREAD_BLOCKED)).
Proof.
  intros HI Hrl Hne Ht'. pose proof (rl_others _ _ _ _ _ Hrl _ Hne) as E. rewrite Ht' in E.
  eexists. split; [exact E|]. case_bool_decide as Hin; [right|by left].
  do 2 (split; [done|]). pose proof (kinv_queue_state _ _ _ _ _ _ HI Hin Ht') as Hh.
  unfold home in Hh. by destruct (state th).
Qed.

Lemma released_none err t th' s s1 t' : released err t th' s s1 -> t' <> t ->
  threads s1 !! t' = None <-> threads s !! t' = None.
Proof. intros Hrl Hne. rewrite (rl_others _ _ _ _ _ Hrl _ Hne). by rewrite fmap_None. Qed.

(** What the end of [t], or its detachment, means to the thread itself and to
    the one that joins it. *)
Record ending (err : Z) (t : ptr) (th th' : thread_t) : Prop := {
  en_alive : state th <> THREAD_DEATH;
  en_stack : stack th' = stack th;
  en_ret : wait_queue_block_ret th' = wait_queue_block_ret th;
  en_blk : blocking_wait_queue th' = blocking_wait_queue th;
  en_state : (state th' = THREAD_DEATH /\ state th = THREAD_RUNNING) \/ state th' = state th;
  en_err : (err = NO_ERROR /\ state th' = THREAD_DEATH /\ magic th' = THREAD_MAGIC) \/ err = ERR_THREAD_DETACHED;
}.

Section released.
Context {base cr : gset ptr} {pd : lpends} {ex ex' : gmap ptr Z} {jn : list (ptr * Z)} {rp : gmap ptr ptr}.
Context {run : option ptr} {cur : option ptr} {err : Z} {t : ptr} {th th' : thread_t} {s s1 : kstate}.
Context (HI : kinv run ∅ s) (Hinv : linv base cur (mk_lmachine s pd cr ex jn rp)).
Context (Hrl : released err t th' s s1) (Hth : threads s !! t = Some th) (Hen : ending err t th th').

Lemma released_told t' o k : pd !! t' = Some (o, k) -> joins t o = false -> told s1 t' = told s t'.
Proof.
  intros Hk Hno. unfold told. destruct (decide (t' = t)) as [->|Hne].
  - rewrite (rl_thread _ _ _ _ _ Hrl), Hth. simpl. f_equal. apply Hen.
  - rewrite (rl_others _ _ _ _ _ Hrl _ Hne), bool_decide_eq_false_2; [by rewrite option_fmap_id|].
    intros Hin. destruct (li_waits _ _ _ Hinv t' t Hin) as (to & k' & Hk'). simpl in Hk'. simplify_eq.
    simpl in Hno. by case_bool_decide.
Qed.

Context (Hidle_call : state th' = THREAD_DEATH -> pd !! t = None).

Lemma released_awake t0 o k : pd !! t0 = Some (o, k) -> awake s t0 -> awake s1 t0.
Proof.
  intros Hk (th0 & Ht0 & Hst). destruct (decide (t0 = t)) as [->|Hne].
  - exists th'. split; [apply Hrl|]. rewrite Hth in Ht0. injection Ht0 as <-.
    destruct (en_state _ _ _ _ Hen) as [[Hd _]| ->]; [|done]. rewrite Hidle_call in Hk; done.
  - destruct (released_forth _ _ _ _ _ _ _ _ HI Hrl Hne Ht0) as (th1 & Hth1 & [(_ & ->)|(_ & -> & _)]);
      eexists; (split; [exact Hth1|by auto]).
Qed.

Lemma released_join_wait t0 t' to k : pd !! t0 = Some (LJoin t' to, k) -> join_wait s1 t0 t'.
Proof.
  intros Hk. destruct (li_rest _ _ _ Hinv _ _ _ Hk) as (Hc & Hne0 & _ & _ & Hw). simpl in Hc, Hw.
  destruct (decide (t' = t)) as [->|Hne].
  - right. rewrite (rl_empty _ _ _ _ _ Hrl). split; [set_solver|].
    destruct Hw as [(Hin & _)|(Hin & Ha & [(_ & th0 & Ht0 & Hd & _)|Ht])].
    + destruct (kinv_queue_thread _ _ _ _ _ HI Hin) as (tht & Htt & _).
      assert (E : told s1 t0 = Some err).
      { unfold told. by rewrite (rl_others _ _ _ _ _ Hrl _ Hne0), bool_decide_eq_true_2, Htt by done. }
      split.
      { exists (woken err tht). split; [|by left].
        by rewrite (rl_others _ _ _ _ _ Hrl _ Hne0), bool_decide_eq_true_2, Htt by done. }
      destruct (en_err _ _ _ _ Hen) as [(-> & Hd & Hm)| ->]; [left|by right].
      split; [done|]. exists th'. split; [apply Hrl|done].
    + rewrite Hth in Ht0. injection Ht0 as <-. by destruct (en_alive _ _ _ _ Hen).
    + split; [by eapply released_awake|].
      right. rewrite <- Ht. unfold told. rewrite (rl_others _ _ _ _ _ Hrl _ Hne0).
      by rewrite bool_decide_eq_false_2, option_fmap_id.
  - assert (Htold : told s1 t0 = told s t0).
    { eapply released_told; [exact Hk|]. simpl. by apply bool_decide_eq_false_2. }
    unfold join_wait. rewrite (rl_queue _ _ _ _ _ Hrl _ Hne), Htold.
    destruct Hw as [(Hin & th0 & Ht0 & Hst & Hfl)|(Hin & Ha%(released_awake _ _ _ Hk) & [(Htl & th0 & Ht0 & Hst & Hm)|Htl])].
    + destruct (released_forth _ _ _ _ _ _ _ _ HI Hrl Hne Ht0) as (th1 & Hth1 & [(_ & ->)|(_ & -> & _)]);
        left; (split; [done|]); eexists; (split; [exact Hth1|done]).
    + destruct (released_forth _ _ _ _ _ _ _ _ HI Hrl Hne Ht0) as (th1 & Hth1 & [(_ & ->)|(_ & _ & E)]);
        [|congruence]. right. do 2 (split; [done|]). left. split; [done|]. by exists th0.
    + right. do 2 (split; [done|]). by right.
Qed.

Lemma released_lives t0 : t0 <> t -> lives s1 t0 <-> lives s t0.
Proof.
  intros Hne. split; intros (th0 & Ht0 & Hst).
  - destruct (released_back _ _ _ _ _ _ _ _ HI Hrl Hne Ht0) as (th1 & ? & [(_ & ->)|(_ & -> & E)]);
      exists th1; (split; [done|congruence]).
  - destruct (released_forth _ _ _ _ _ _ _ _ HI Hrl Hne Ht0) as (th1 & ? & [(_ & ->)|(_ & -> & E)]);
      eexists; (split; [done|done]).
Qed.

Lemma released_rest t0 o k : pd !! t0 = Some (o, k) -> life_rest s1 cr t0 o k.
Proof.
  intros Hk. pose proof (li_rest _ _ _ Hinv _ _ _ Hk) as Hre.
  assert (Ht : lives s t0 -> lives s1 t0).
  { intros Hl. destruct (decide (t0 = t)) as [->|Hne]; [|by apply released_lives].
    exists th'. split; [apply Hrl|]. intros Hd. rewrite Hidle_call in Hk; done. }
  destruct o; try exact Hre.
  - destruct Hre as (? & ? & ? & ? & _). split_and!; [done|done|by apply Ht|done|by eapply released_join_wait].
  - simpl in *. destruct (decide (t0 = t)) as [->|Hne]; [|by rewrite released_lives].
    destruct Hre. exists th. split; [done|apply Hen].
Qed.

(** The fields that no thread changes in the end of another. *)
Lemma released_stack t0 th1 : threads s1 !! t0 = Some th1 ->
  exists th0, threads s !! t0 = Some th0 /\ stack th1 = stack th0.
Proof.
  intros Ht0. destruct (decide (t0 = t)) as [->|Hne].
  - rewrite (rl_thread _ _ _ _ _ Hrl) in Ht0. injection Ht0 as <-. exists th. split; [done|apply Hen].
  - destruct (released_back _ _ _ _ _ _ _ _ HI Hrl Hne Ht0) as (th0 & ? & [(_ & ->)|(_ & -> & _)]); by exists th0.
Qed.

Lemma released_stack_forth t0 th0 : threads s !! t0 = Some th0 ->
  exists th1, threads s1 !! t0 = Some th1 /\ stack th1 = stack th0.
Proof.
  intros Ht0. destruct (decide (t0 = t)) as [->|Hne].
  - rewrite Hth in Ht0. injection Ht0 as <-. exists th'. split; [apply Hrl|apply Hen].
  - destruct (released_forth _ _ _ _ _ _ _ _ HI Hrl Hne Ht0) as (th1 & ? & [(_ & ->)|(_ & -> & _)]); by eexists.
Qed.

Lemma released_dom t0 : threads s1 !! t0 = None <-> threads s !! t0 = None.
Proof.
  destruct (decide (t0 = t)) as [->|Hne]; [|by eapply released_none].
  by rewrite (rl_thread _ _ _ _ _ Hrl), Hth.
Qed.

(** The notes on exits after the release. *)
Context (Hexo : forall t', t' <> t -> ex' !! t' = ex !! t').
Context (Hext : forall rc, ex' !! t = Some rc -> t <> _idle_thread /\ state th' = THREAD_DEATH /\ retcode th' = rc).
Context (Hlife : t ∈ cr -> life_ok ex' t th').

Lemma released_life t0 th1 : t0 ∈ cr -> threads s1 !! t0 = Some th1 -> life_ok ex' t0 th1.
Proof.
  intros Hc Ht0. destruct (decide (t0 = t)) as [->|Hne].
  - rewrite (rl_thread _ _ _ _ _ Hrl) in Ht0. injection Ht0 as <-. by apply Hlife.
  - destruct (released_back _ _ _ _ _ _ _ _ HI Hrl Hne Ht0) as (th0 & Hth0 & Hor).
    destruct (li_life _ _ _ Hinv t0 th0 Hc Hth0) as [Ha Hd]. unfold life_ok. rewrite Hexo by done.
    destruct Hor as [(_ & ->)|(_ & -> & Hst)]; [done|]. simpl. split; [|done].
    intros _. apply Ha. by rewrite Hst.
Qed.

Lemma linv_released : linv base cur (mk_lmachine s1 pd cr ex' jn rp).
Proof.
  pose proof Hinv as [Hrd Hbk Hkn Hpd Hal How Hlf Hsk Hex Hjn Hnd Hre Hwt Hone Hrep Hrep1].
  constructor; cbn [lks lpend created exits joined reaping] in *; try done.
  - intros t0 [th1 Ht0]. destruct (released_stack _ _ Ht0) as (th0 & ? & _). apply Hrl, Hrd. by eexists.
  - intros t0 th1 Ht0 Hst. destruct (decide (t0 = t)) as [->|Hne].
    + rewrite (rl_thread _ _ _ _ _ Hrl) in Ht0. injection Ht0 as <-. rewrite (en_blk _ _ _ _ Hen).
      eapply Hbk; [exact Hth|]. destruct (en_state _ _ _ _ Hen) as [[_ E]|E]; congruence.
    + destruct (released_back _ _ _ _ _ _ _ _ HI Hrl Hne Ht0) as (th0 & ? & [(_ & ->)|(_ & -> & _)]);
        [by eapply Hbk|done].
  - intros t0 Ht0. rewrite (rl_next _ _ _ _ _ Hrl). destruct (decide (t0 = t)) as [->|Hne];
      [|apply Hkn; by rewrite <- Hexo by done]. apply (ki_fresh _ _ _ HI). left. by eexists.
  - intros t0 th1 Ht0 Hst. destruct (decide (t0 = t)) as [->|Hne].
    + apply (Hpd _ _ Hth), Hen.
    + destruct (released_back _ _ _ _ _ _ _ _ HI Hrl Hne Ht0) as (th0 & ? & [(_ & ->)|(_ & -> & E)]);
        eapply Hpd; try done. by rewrite E.
  - intros p. rewrite (rl_alloc _ _ _ _ _ Hrl), Hal.
    split; (intros [?|(t0 & th0 & Hc & Ht0 & Hp)]; [by left|right]).
    + destruct (released_stack_forth _ _ Ht0) as (th1 & ? & E). exists t0, th1. by rewrite E.
    + destruct (released_stack _ _ Ht0) as (th1 & ? & E). exists t0, th1. by rewrite <- E.
  - intros t0 th1 Hc Ht0. destruct (released_stack _ _ Ht0) as (th0 & Hth0 & E).
    destruct (How t0 th0 Hc Hth0) as (stk & ? & ? & ? & ? & ? & ?). exists stk. by rewrite E, released_dom.
  - apply released_life.
  - intros t0 t0' th0 th0' Hc Hc' Ht0 Ht0'.
    destruct (released_stack _ _ Ht0) as (? & ? & ->), (released_stack _ _ Ht0') as (? & ? & ->). by apply Hsk.
  - intros t0 rc Hrc. destruct (decide (t0 = t)) as [->|Hne].
    + destruct (Hext _ Hrc) as (? & ? & ?). split; [done|]. intros th1.
      rewrite (rl_thread _ _ _ _ _ Hrl). by intros [= <-].
    + rewrite Hexo in Hrc by done. destruct (Hex _ _ Hrc) as [? Hd]. split; [done|]. intros th1 Ht0.
      destruct (released_back _ _ _ _ _ _ _ _ HI Hrl Hne Ht0) as (th0 & Hth0 & [(_ & ->)|(_ & _ & E)]);
        [by apply Hd|]. destruct (Hd _ Hth0). congruence.
  - intros t0 rc Hj. destruct (Hjn _ _ Hj) as [Hrc Hno]. assert (Hne : t0 <> t) by congruence.
    by rewrite Hexo, released_dom.
  - apply released_rest.
  - intros t0 t' Ht0. destruct (decide (t' = t)) as [->|Hne].
    + rewrite (rl_empty _ _ _ _ _ Hrl) in Ht0. set_solver.
    + rewrite (rl_queue _ _ _ _ _ Hrl) in Ht0 by done. by apply Hwt.
  - intros a t0 Ha. destruct (Hrep a t0 Ha) as (Hc & Hno & th0 & Ht0 & Hd & Hm). do 2 (split; [done|]).
    assert (Hne : t0 <> t) by (intros ->; apply (en_alive _ _ _ _ Hen); congruence).
    destruct (released_forth _ _ _ _ _ _ _ _ HI Hrl Hne Ht0) as (th1 & Hth1 & [(_ & ->)|(_ & _ & E)]);
      [by exists th0|congruence].
Qed.
End released.

(** *** A dead thread is reaped *)

Lemma joined_fields st t th stk s : reapable t th stk s -> (forall p, is_Some (wqs s !! RetcodeWQ p) -> is_Some (threads s !! p)) ->
  let s1 := joined_state st t th stk s in
  threads s1 = delete t (threads s) /\ allocated s1 = allocated s ∖ {[stk]} ∖ {[t]} /\ next_ptr s1 = next_ptr s /\
  (forall t', queue s1 (WaitQ (RetcodeWQ t')) = queue s (WaitQ (RetcodeWQ t'))) /\
  (forall t', t' <> t -> threads s !! t' <> None -> wq_ready (RetcodeWQ t') s -> wq_ready (RetcodeWQ t') s1).
Proof.
  intros [Hth Hm Hst Hfl Hstk Hb Hq (Hta & Hsa & Hne & Hns)] Hrw s1.
  destruct (unlisted_fields st t th s) as (Eths & Eal & Ew & _ & Enx).
  assert (Hsw : wqs s !! RetcodeWQ stk = None).
  { destruct (wqs s !! RetcodeWQ stk) eqn:E; [|done]. destruct (Hrw stk); [by eexists|congruence]. }
  assert (Ews : wqs s1 = delete (RetcodeWQ t) (wqs s)).
  { unfold s1. simpl. rewrite Ew. by rewrite (delete_id (wqs s)). }
  split; [|split; [by rewrite <- Eal|split; [done|split]]].
  - unfold s1. simpl. rewrite Eths, (delete_id _ stk) by (rewrite lookup_insert_ne by congruence; done).
    apply delete_insert_eq.
  - intros t'. unfold queue. rewrite Ews. destruct (decide (t' = t)) as [->|Hne'].
    + rewrite lookup_delete_eq. by symmetry.
    + by rewrite lookup_delete_ne by congruence.
  - intros t' Hne' _. unfold wq_ready. rewrite Ews, lookup_delete_ne by congruence. done.
Qed.

Section reaped.
Context {base cr : gset ptr} {pd : lpends} {ex : gmap ptr Z} {jn : list (ptr * Z)} {rp : gmap ptr ptr}.
Context {run cur : option ptr} {t stk : ptr} {th : thread_t} {s s1 : kstate}.
Context (HI : kinv run ∅ s) (Hinv : linv base cur (mk_lmachine s pd cr ex jn rp)).
Context (Hc : t ∈ cr) (Hth : threads s !! t = Some th) (Hdead : state th = THREAD_DEATH) (Hm : magic th = THREAD_MAGIC).
Context (Hno : no_joiner t pd).

Lemma no_joiner_queue : queue s (WaitQ (RetcodeWQ t)) = [].
Proof.
  destruct (queue s (WaitQ (RetcodeWQ t))) as [|j l] eqn:E; [done|].
  destruct (li_waits _ _ _ Hinv j t) as (to & k & Hk); [simpl lks; rewrite E; set_solver|].
  specialize (Hno _ _ Hk). simpl in Hno. by case_bool_decide.
Qed.

Lemma dead_reapable : exists stk, reapable t th stk s.
Proof.
  destruct (li_own _ _ _ Hinv t th Hc Hth) as (stk' & Hstk & Hne & Hb1 & Hb2 & Hncr & Hns).
  destruct (li_life _ _ _ Hinv t th Hc Hth) as [_ Hd]. destruct (Hd Hdead) as [_ Hfl].
  exists stk'. constructor; try done; [by apply Hfl| |apply no_joiner_queue|].
  - eapply (li_blk _ _ _ Hinv t); [done|by rewrite Hdead].
  - pose proof (li_alloc _ _ _ Hinv) as Hal. simpl in *.
    split; [|split; [|done]]; apply Hal; right; exists t, th; by auto.
Qed.

Context (Hnr : forall a, rp !! a <> Some t).
Context (Hrp : reapable t th stk s) (st : Z) (Es1 : s1 = joined_state st t th stk s).

Lemma reaped_lookup t0 th0 : threads s1 !! t0 = Some th0 <-> t0 <> t /\ threads s !! t0 = Some th0.
Proof.
  destruct (joined_fields st t th stk s Hrp (ki_retcode _ _ _ HI)) as (E & _). rewrite Es1, E, lookup_delete_Some.
  split; intros []; by split.
Qed.

Lemma reaped_none t0 : threads s1 !! t0 = None <-> t0 = t \/ threads s !! t0 = None.
Proof.
  destruct (joined_fields st t th stk s Hrp (ki_retcode _ _ _ HI)) as (E & _). rewrite Es1, E, lookup_delete_None.
  split; intros [|]; auto.
Qed.

Lemma reaped_alloc p : p ∈ allocated s1 <-> p ∈ base \/
  exists t0 th0, t0 ∈ cr /\ threads s1 !! t0 = Some th0 /\ (p = t0 \/ stack th0 = Some p).
Proof.
  destruct (joined_fields st t th stk s Hrp (ki_retcode _ _ _ HI)) as (_ & Ea & _).
  rewrite Es1, Ea, !elem_of_difference, !elem_of_singleton, <- Es1. setoid_rewrite reaped_lookup.
  pose proof (li_alloc _ _ _ Hinv) as Hal. pose proof (li_own _ _ _ Hinv) as How. simpl in Hal, How. rewrite Hal.
  destruct (How t th Hc Hth) as (stk' & Hstk & Hne & Hb1 & Hb2 & Hncr & Hns).
  pose proof (rp_stack _ _ _ _ Hrp) as Hstk2. assert (stk' = stk) as -> by congruence.
  split.
  - intros [[[Hp|(t0 & th0 & Hc0 & Ht0 & Hp)] Hp1] Hp2]; [by left|right].
    exists t0, th0. split; [done|]. split; [|done]. split; [|done].
    intros ->. rewrite Hth in Ht0. injection Ht0 as <-. naive_solver congruence.
  - intros [Hp|(t0 & th0 & Hc0 & (Hne0 & Ht0) & Hp)].
    + split; [split; [by left|]|]; by intros ->.
    + destruct (How t0 th0 Hc0 Ht0) as (stk0 & Hstk0 & ? & ? & ? & Hncr0 & ?).
      split; [split; [right; by exists t0, th0|]|].
      * intros ->. destruct Hp as [->|Hp]; [done|].
        apply Hne0, (li_stacks _ _ _ Hinv t0 t th0 th); try done. congruence.
      * intros ->. destruct Hp as [->|Hp]; [done|]. congruence.
Qed.

Lemma reaped_rest t0 o k : pd !! t0 = Some (o, k) -> life_rest s1 cr t0 o k.
Proof.
  intros Hk. pose proof (li_rest _ _ _ Hinv _ _ _ Hk) as Hre. destruct o; try exact Hre.
  - destruct Hre as (Hc' & Hne & (th0 & Ht0 & Hl) & Hst & Hw). simpl in Ht0, Hw, Hc'.
    assert (Ht : t0 <> t) by (intros ->; congruence).
    assert (Ht' : t1 <> t) by (intros ->; specialize (Hno _ _ Hk); simpl in Hno; by case_bool_decide).
    assert (E0 : threads s1 !! t0 = threads s !! t0) by (rewrite Ht0; by apply reaped_lookup).
    split_and!; [done|done|exists th0; by rewrite E0|done|].
    destruct (joined_fields st t th stk s Hrp (ki_retcode _ _ _ HI)) as (_ & _ & _ & Eq & _).
    assert (Et : told s1 t0 = told s t0) by (unfold told; by rewrite E0).
    unfold join_wait. rewrite Es1, Eq, <- Es1, Et.
    destruct Hw as [(Hin & th' & Hth' & Hd)|(Hin & (tha & Hta & Ha) & [(Hto & th' & Hth' & Hd)|Hto])].
    + left. split; [done|]. exists th'. split; [by apply reaped_lookup|done].
    + right. split; [done|]. split; [exists tha; split; [by apply reaped_lookup|done]|].
      left. split; [done|]. exists th'. split; [by apply reaped_lookup|done].
    + right. split; [done|]. split; [exists tha; split; [by apply reaped_lookup|done]|by right].
  - intros (th0 & Ht0%reaped_lookup & Hl). apply Hre. exists th0. by destruct Ht0.
Qed.

Lemma linv_reaped jn' : jn' = jn \/ jn' = (t, retcode th) :: jn -> linv base cur (mk_lmachine s1 pd cr ex jn' rp).
Proof.
  intros Hjn'. pose proof Hinv as [Hrd Hbk Hkn Hpd Hal How Hlf Hsk Hex Hjn Hnd Hre Hwt Hone Hrep Hrep1].
  destruct (joined_fields st t th stk s Hrp (ki_retcode _ _ _ HI)) as (_ & _ & En & Eq & Ew).
  constructor; cbn [lks lpend created exits joined reaping] in *; try done.
  - intros t0 [th0 [Hne Ht0]%reaped_lookup]. rewrite Es1. apply Ew; [done|congruence|]. apply Hrd. by eexists.
  - intros t0 th0 [_ Ht0]%reaped_lookup. by eapply Hbk.
  - intros t0 Ht0. rewrite Es1, En. by apply Hkn.
  - intros t0 th0 [_ Ht0]%reaped_lookup. by apply Hpd.
  - apply reaped_alloc.
  - intros t0 th0 Hc0 [_ Ht0]%reaped_lookup. destruct (How t0 th0 Hc0 Ht0) as (stk0 & ? & ? & ? & ? & ? & ?).
    exists stk0. split_and!; try done. apply reaped_none. by right.
  - intros t0 th0 Hc0 [_ Ht0]%reaped_lookup. by apply Hlf.
  - intros t0 t0' th0 th0' Hc0 Hc0' [_ Ht0]%reaped_lookup [_ Ht0']%reaped_lookup. by apply Hsk.
  - intros t0 rc Hrc. destruct (Hex t0 rc Hrc) as [? Hd]. split; [done|].
    intros th0 [_ Ht0]%reaped_lookup. by apply Hd.
  - intros t0 rc Hj. rewrite reaped_none. destruct Hjn' as [-> | ->]; [naive_solver|].
    apply elem_of_cons in Hj as [[= -> ->]|Hj]; [|naive_solver].
    split; [|by left]. by apply (Hlf t th).
  - destruct Hjn' as [-> | ->]; [done|]. simpl. apply NoDup_cons. split; [|done].
    intros ((t0 & rc) & E & Hj)%list_elem_of_fmap. simpl in E. subst t0. destruct (Hjn _ _ Hj). congruence.
  - apply reaped_rest.
  - intros t0 t'. rewrite Es1, Eq. apply Hwt.
  - intros a t0 Ha. destruct (Hrep a t0 Ha) as (Hc0 & Hno0 & th0 & Ht0 & Hd0 & Hm0). do 2 (split; [done|]).
    exists th0. split; [|done]. apply reaped_lookup. split; [|done]. intros ->. by destruct (Hnr a).
Qed.
End reaped.

(** ** A thread blocks in a join *)

Lemma linv_blocked base me t th tht s s1 pd cr ex jn rp timeout st :
  linv base (Some me) (mk_lmachine s pd cr ex jn rp) -> pd !! me = None ->
  threads s !! me = Some th -> state th = THREAD_RUNNING -> t <> me -> t ∈ cr -> no_joiner t pd ->
  threads s !! t = Some tht -> state tht <> THREAD_DEATH -> flags tht = created_flags ->
  sched_only s s1 -> threads s1 = <[me := blocked (RetcodeWQ t) th]> (threads s) ->
  queue s1 (WaitQ (RetcodeWQ t)) = queue s (WaitQ (RetcodeWQ t)) ++ [me] ->
  (forall q, q <> WaitQ (RetcodeWQ t) -> queue s1 q = queue s q) ->
  linv base None (mk_lmachine s1 (<[me := (LJoin t timeout, join_resume me t st)]> pd) cr ex jn rp).
Proof.
  intros Hi Hnp Hth Hst Hne Hc Hno Htt Hlt Hfl Hso Ets Eqt Eqs.
  assert (Hother : forall t', t' <> me -> threads s1 !! t' = threads s !! t').
  { intros t' Ht'. rewrite Ets. by rewrite lookup_insert_ne. }
  assert (Hme1 : threads s1 !! me = Some (blocked (RetcodeWQ t) th)) by (rewrite Ets; by simplify_map_eq).
  assert (Hcm : calm s s1).
  { eapply (calm_thread s s1 me th); [done|done|done| | |apply (so_allocated _ _ Hso)|apply (so_next _ _ Hso)].
    - unfold same_life. simpl. rewrite Hst. by split_and!.
    - intros w. by apply wq_ready_sched_only. }
  eapply linv_calm; [exact Hcm|exact Hi|..].
  - intros t' (th' & Ht' & Hst') _. destruct (decide (t' = me)) as [->|Hne']; [rewrite lookup_insert_eq; by eexists|].
    rewrite lookup_insert_ne by done. apply (li_pend _ _ _ Hi t' th'); [done..|congruence].
  - intros t' o k [[<- [= <- <-]]|[Hne' Hk]]%lookup_insert_Some.
    + simpl. split_and!; [done|done| |by exists st|].
      * exists (blocked (RetcodeWQ t) th). by split.
      * left. rewrite Eqt. split; [set_solver|]. exists tht. by rewrite Hother.
    + eapply life_rest_calm; [exact Hcm| | | |by apply (li_rest _ _ _ Hi)].
      * unfold told. by rewrite Hother.
      * unfold awake. by rewrite Hother.
      * intros t'' Hj. apply Eqs. intros [= ->]. specialize (Hno _ _ Hk). simpl in Hno. congruence.
  - intros j t' Hj. destruct (decide (t' = t)) as [->|Hne'].
    + assert (j = me) as ->; [|eexists _, _; by rewrite lookup_insert_eq].
      rewrite Eqt in Hj. apply elem_of_app in Hj as [Hj|Hj%list_elem_of_singleton]; [|done].
      destruct (li_waits _ _ _ Hi j t Hj) as (to & k & Hk). specialize (Hno _ _ Hk).
      simpl in Hno. by case_bool_decide.
    + rewrite Eqs in Hj by congruence. destruct (li_waits _ _ _ Hi j t' Hj) as (to & k & Hk). exists to, k.
      simpl in Hk. rewrite lookup_insert_ne; [done|congruence].
  - intros a b x to_a to_b ka kb [[<- [= -> <- <-]]|[Ha Hka]]%lookup_insert_Some
      [[<- [= <- <-]]|[Hb Hkb]]%lookup_insert_Some; try done.
    + specialize (Hno _ _ Hkb). simpl in Hno. by case_bool_decide.
    + subst. specialize (Hno _ _ Hka). simpl in Hno. by case_bool_decide.
    + by eapply (li_one _ _ _ Hi).
  - intros t' th' Ht' Hd'. apply no_joiner_insert. simpl. apply bool_decide_eq_false. congruence.
Qed.

(** ** A thread is created *)

Section creation.
Context {base cr : gset ptr} {pd : lpends} {ex : gmap ptr Z} {jn : list (ptr * Z)} {rp : gmap ptr ptr}.
Context {run cur : option ptr} {t stk : ptr} {th : thread_t} {s s1 : kstate}.
Context (HI : kinv run ∅ s) (Hinv : linv base cur (mk_lmachine s pd cr ex jn rp)).
Context (Et : t = next_ptr s) (Estk : stk = Pos.succ (next_ptr s)).
Context (Hstk : stack th = Some stk) (Hfl : flags th = created_flags) (Hst : state th = THREAD_SUSPENDED).
Context (Hblk : blocking_wait_queue th = None).
Context (Ets : threads s1 = <[t := th]> (threads s)) (Eal : allocated s1 = {[stk]} ∪ ({[t]} ∪ allocated s)).
Context (Ewq : wqs s1 = <[RetcodeWQ t := WAIT_QUEUE_INITIAL_VALUE]> (wqs s)) (Enx : next_ptr s1 = Pos.succ stk).

Lemma old_thread t0 : is_Some (threads s !! t0) \/ t0 ∈ allocated s \/ t0 ∈ cr \/ is_Some (ex !! t0) -> t0 <> t /\ t0 <> stk.
Proof.
  intros Ht0. assert (t0 < next_ptr s)%positive; [|subst; lia].
  destruct Ht0 as [|[|[|]]]; [apply (ki_fresh _ _ _ HI)..|apply (li_known _ _ _ Hinv)|apply (li_known _ _ _ Hinv)]; auto.
Qed.

Lemma creation_lookup t0 th0 : threads s1 !! t0 = Some th0 <-> (t0 = t /\ th0 = th) \/ threads s !! t0 = Some th0.
Proof.
  rewrite Ets, lookup_insert_Some. split; [naive_solver|]. intros [[-> ->]|Ht0]; [by left|right].
  split; [|done]. destruct (old_thread t0); [left; by eexists|congruence].
Qed.

Lemma creation_told t0 : t0 <> t -> told s1 t0 = told s t0.
Proof. intros Hne. unfold told. by rewrite Ets, lookup_insert_ne by congruence. Qed.

Lemma creation_queue t0 : queue s1 (WaitQ (RetcodeWQ t0)) = queue s (WaitQ (RetcodeWQ t0)).
Proof.
  simpl. rewrite Ewq, lookup_insert. case_decide as E; [|done]. injection E as <-.
  destruct (wqs s !! RetcodeWQ t) eqn:Eq; [|done].
  destruct (ki_retcode _ _ _ HI t) as [th0 Ht0]; [by eexists|]. by destruct (old_thread t ltac:(left; by eexists)).
Qed.

Lemma old_block t0 th0 p : t0 ∈ cr -> threads s !! t0 = Some th0 -> stack th0 = Some p -> p <> t /\ p <> stk.
Proof.
  intros Hc Ht0 Hp. apply old_thread. right. left. apply (li_alloc _ _ _ Hinv). right. exists t0, th0. by auto.
Qed.

Lemma creation_own t0 th0 : t0 ∈ {[t]} ∪ cr -> threads s1 !! t0 = Some th0 -> own_stack base ({[t]} ∪ cr) s1 t0 th0.
Proof.
  intros Hc Ht0.
  assert (Hbase : forall p, p ∈ base -> p <> t /\ p <> stk).
  { intros p Hp. apply old_thread. right. left. apply (li_alloc _ _ _ Hinv). by left. }
  assert (Hnone : forall p, p <> t -> threads s !! p = None -> threads s1 !! p = None).
  { intros p Hp. rewrite Ets. by rewrite lookup_insert_ne by congruence. }
  apply creation_lookup in Ht0 as [[-> ->]|Ht0].
  - exists stk. split; [done|]. split; [subst; lia|]. split_and!.
    + intros Hb. by destruct (Hbase t Hb).
    + intros Hb. by destruct (Hbase stk Hb).
    + intros [E%elem_of_singleton|Hb]%elem_of_union; [subst; lia|]. destruct (old_thread stk); auto.
    + apply Hnone; [subst; lia|]. destruct (threads s !! stk) eqn:E; [|done].
      destruct (old_thread stk); [left; by eexists|done].
  - assert (Hne : t0 <> t) by (apply old_thread; left; by eexists). assert (Hc0 : t0 ∈ cr) by set_solver.
    destruct (li_own _ _ _ Hinv t0 th0 Hc0 Ht0) as (p & Hp & ? & ? & ? & ? & ?). simpl in *.
    destruct (old_block t0 th0 p Hc0 Ht0 Hp). exists p. split_and!; try done; [set_solver|by apply Hnone].
Qed.

Lemma creation_alloc p : p ∈ allocated s1 <-> p ∈ base \/
  exists t0 th0, t0 ∈ {[t]} ∪ cr /\ threads s1 !! t0 = Some th0 /\ (p = t0 \/ stack th0 = Some p).
Proof.
  rewrite Eal, !elem_of_union, !elem_of_singleton. pose proof (li_alloc _ _ _ Hinv p) as Hal. simpl in Hal.
  rewrite Hal. setoid_rewrite creation_lookup. split.
  - intros [->|[->|[?|(t0 & th0 & Hc & Ht0 & Hp)]]]; [right; exists t, th|right; exists t, th|by left|].
    1,2: split_and!; [set_solver|by left|by auto].
    right. exists t0, th0. split_and!; [set_solver|by right|done].
  - intros [?|(t0 & th0 & Hc & [[-> ->]|Ht0] & Hp)]; [by auto| |].
    + destruct Hp as [->|Hp]; [by auto|left; congruence].
    + do 3 right. exists t0, th0. split_and!; try done.
      assert (t0 <> t) by (apply old_thread; left; by eexists). set_solver.
Qed.

Lemma creation_stacks t0 t0' th0 th0' : t0 ∈ {[t]} ∪ cr -> t0' ∈ {[t]} ∪ cr ->
  threads s1 !! t0 = Some th0 -> threads s1 !! t0' = Some th0' -> stack th0 = stack th0' -> t0 = t0'.
Proof.
  assert (Hno : forall t0 th0, t0 ∈ {[t]} ∪ cr -> threads s !! t0 = Some th0 -> t0 ∈ cr /\ stack th0 <> stack th).
  { intros t1 th1 Hc Ht1. assert (t1 <> t) by (apply old_thread; left; by eexists).
    assert (Hc1 : t1 ∈ cr) by set_solver. split; [done|]. rewrite Hstk. intros E.
    by destruct (old_block t1 th1 stk Hc1 Ht1 E). }
  intros Hc Hc' [[-> ->]|Ht0]%creation_lookup [[-> ->]|Ht0']%creation_lookup E; [done|..].
  - by destruct (Hno t0' th0' Hc' Ht0').
  - by destruct (Hno t0 th0 Hc Ht0).
  - eapply (li_stacks _ _ _ Hinv); [by eapply Hno|by eapply Hno|done..].
Qed.

Lemma creation_rest t0 o k : t0 <> t -> pd !! t0 = Some (o, k) -> life_rest s1 ({[t]} ∪ cr) t0 o k.
Proof.
  intros Hne Hk. pose proof (li_rest _ _ _ Hinv _ _ _ Hk) as Hre. destruct o; try exact Hre.
  - destruct Hre as (Hc' & Hne' & (th0 & Ht0 & Hl) & Hs & Hw). simpl in Hc', Ht0, Hw.
    split_and!; [set_solver|done|exists th0; split; [apply creation_lookup; by right|done]|done|].
    unfold join_wait. rewrite creation_queue, creation_told by done.
    destruct Hw as [(Hin & th' & Hth' & Hd)|(Hin & (tha & Hta & Ha) & [(Hto & th' & Hth' & Hd)|Hto])].
    + left. split; [done|]. exists th'. split; [apply creation_lookup; by right|done].
    + right. split; [done|]. split; [exists tha; split; [apply creation_lookup; by right|done]|].
      left. split; [done|]. exists th'. split; [apply creation_lookup; by right|done].
    + right. split; [done|]. split; [exists tha; split; [apply creation_lookup; by right|done]|by right].
  - intros (th0 & [[-> _]|Ht0]%creation_lookup & Hl); [done|]. apply Hre. by exists th0.
Qed.

Lemma linv_created k : unlocks k ->
  linv base cur (mk_lmachine s1 (<[t := (LStart, k)]> pd) ({[t]} ∪ cr) ex jn rp).
Proof.
  intros Hk. pose proof Hinv as [Hrd Hbk Hkn Hpd Hal How Hlf Hsk Hex Hjn Hnd Hre Hwt Hone Hrep Hrep1].
  constructor; cbn [lks lpend created exits joined reaping] in *; try done.
  - intros t0 [th0 Ht0]. destruct (decide (t0 = t)) as [->|Hne].
    + exists WAIT_QUEUE_INITIAL_VALUE. rewrite Ewq. by simplify_map_eq.
    + unfold wq_ready. rewrite Ewq, lookup_insert_ne by congruence. apply Hrd.
      apply creation_lookup in Ht0 as [[-> _]|?]; [done|by eexists].
  - intros t0 th0 [[-> ->]|Ht0]%creation_lookup; [done|by eapply Hbk].
  - intros t0 Ht0. rewrite Enx, Estk. destruct (decide (t0 = t)) as [->|Hne]; [subst; lia|].
    assert (t0 < next_ptr s)%positive; [apply Hkn; set_solver|lia].
  - intros t0 th0 Ht0 Hl Hc. destruct (decide (t0 = t)) as [->|Hne]; [rewrite lookup_insert_eq; by eexists|].
    rewrite lookup_insert_ne by congruence. apply creation_lookup in Ht0 as [[-> _]|?]; [done|by eapply Hpd].
  - apply creation_alloc.
  - apply creation_own.
  - intros t0 th0 Hc [[-> ->]|Ht0]%creation_lookup; [split; [by left|by rewrite Hst]|].
    assert (t0 <> t) by (apply old_thread; left; by eexists). apply Hlf; set_solver.
  - apply creation_stacks.
  - intros t0 rc Hrc. destruct (Hex t0 rc Hrc) as [? Hd]. split; [done|].
    intros th0 [[-> _]|Ht0]%creation_lookup; [|by apply Hd]. destruct (old_thread t) as [? _]; [|done].
    do 3 right. by eexists.
  - intros t0 rc Hj. destruct (Hjn t0 rc Hj) as [Hrc Hn]. split; [done|].
    destruct (old_thread t0); [do 3 right; by eexists|]. by rewrite Ets, lookup_insert_ne by congruence.
  - intros t0 o k' [[<- [= <- <-]]|[Hne Hk']]%lookup_insert_Some; [done|by apply creation_rest].
  - intros t0 t'. rewrite creation_queue. intros Ht0. destruct (Hwt _ _ Ht0) as (to & k' & Hk'). exists to, k'.
    rewrite lookup_insert_ne; [done|]. intros <-.
    destruct (kinv_queue_thread _ _ _ _ _ HI Ht0) as (th0 & Hth0 & _).
    by destruct (old_thread t ltac:(left; by eexists)).
  - intros a b x to_a to_b ka kb [[? [= ]]|[Ha Hka]]%lookup_insert_Some [[? [= ]]|[Hb Hkb]]%lookup_insert_Some.
    by eapply Hone.
  - intros a t0 Ha. destruct (Hrep a t0 Ha) as (Hc & Hno & th0 & Ht0 & Hd & Hm).
    split; [set_solver|]. split; [by apply no_joiner_insert|]. exists th0. split; [|done].
    apply creation_lookup. by right.
Qed.
End creation.
End life.
