(* ===== verification/LifeSafe.v ===== *)
(** * The life of threads, under every interleaving

    The steps of [LifeMachine] keep its invariant, and what follows from it. *)

From S2P Require Import Prelude Kernel KInv Sched WaitQueue Footprint Thread LifeMachine Life.

Section steps.
Context `{Config}.
Implicit Types (s : kstate) (t me : ptr) (mc : lmachine) (pd : lpends) (cr base : gset ptr)
  (ex : gmap ptr Z) (jn : list (ptr * Z)) (rp : gmap ptr ptr).

(** ** Switching and going on *)

Lemma ltinv_running base me mc :
  linv base (Some me) mc -> running me (lks mc) -> lpend mc !! me = None -> ltinv base mc.
Proof. intros Hi Hr Hnp. exists me. rewrite Hnp. split; [apply Hr|by split]. Qed.

Lemma top_ltinv base me s1 top s' pd cr ex jn rp :
  linv base None (mk_lmachine s1 pd cr ex jn rp) -> kinv None ∅ s1 -> dispatched me s1 top s' ->
  ltinv base (mk_lmachine s' pd cr ex jn rp) /\ resumed top s'.
Proof.
  intros Hi HI Hd. assert (Hres : resumed top s') by (split; [apply Hd|split; apply Hd]).
  destruct (top_alive None s1 top HI (dp_top _ _ _ _ Hd)) as (th & Hth & Hst & _).
  destruct (li_pend _ _ _ Hi top th Hth Hst ltac:(done)) as [x Hx]. simpl in Hx.
  split; [|done]. exists top. cbn [lks lpend]. rewrite Hx. split; [apply Hd|]. split; [|done].
  eapply linv_quiet; [by eapply dispatched_quiet|by apply linv_weaken].
Qed.

Lemma resumed_lives me s : resumed me s -> lives s me.
Proof. intros Hr. destruct (resumed_thread me s Hr) as (th & Hth & Hst & _). exists th. by rewrite Hst. Qed.

(** A call without notes, whose rest gives back the lock. *)
Definition simple_call (o : life_op) : bool :=
  match o with LStart | LYield | LPreempt | LSetPriority _ => true | _ => false end.

Lemma unlocks_step base me o k s s0 pd cr ex jn rp :
  resumed me s -> linv base (Some me) (mk_lmachine s pd cr ex jn rp) -> unlocks k -> simple_call o = true ->
  exists mc', lfinish me o (k s) (mk_lmachine s0 pd cr ex jn rp) = Some mc' /\ ltinv base mc'.
Proof.
  intros Hr Hi [st Hk] Ho. destruct (Hk s) as [r ->]. cbn [lfinish lpend created exits joined reaping].
  assert (E : forall mc, lnote me o r mc = mc) by (by destruct o). rewrite E. eexists. split; [done|].
  apply (ltinv_running base me); [|by apply unlock_running|apply lookup_delete_eq].
  eapply linv_quiet; [apply quiet_unlock|]. apply linv_delete; [done|].
  intros q. apply current_not_queued, Hr.
Qed.

(** A join that has waited ends. *)
Lemma join_step base me t timeout st s s0 pd cr ex jn rp :
  resumed me s -> linv base (Some me) (mk_lmachine s pd cr ex jn rp) ->
  pd !! me = Some (LJoin t timeout, join_resume me t st) ->
  exists mc', lfinish me (LJoin t timeout) (join_resume me t st s) (mk_lmachine s0 pd cr ex jn rp) = Some mc' /\
    ltinv base mc'.
Proof.
  intros Hr Hi Hk. destruct (li_rest _ _ _ Hi _ _ _ Hk) as (Hc & Hne & _ & _ & Hw). simpl in Hc, Hw.
  destruct (resumed_thread me s Hr) as (thm & Hthm & _).
  assert (Hret : forall e, told s me = Some e -> join_resume me t st s =
    bind_run (fun r => mret (LStatus (fst r) (snd r))) (thread_join_rest t st e s)).
  { intros e He. unfold told in He. rewrite Hthm in He. injection He as <-. unfold join_resume.
    unfold mbind at 1, M_bind at 1. f_equal. erewrite bind_done; [done|]. by kstep. }
  assert (Hnq : forall q, me ∉ queue s q) by (intros q; apply current_not_queued, Hr).
  pose proof (linv_delete base me s pd cr ex jn rp Hi Hnq) as Hi'.
  destruct Hw as [(Hin & _)|(_ & _ & [(Ht & th & Hth & Hd & Hm)|Ht])]; [by destruct (Hnq _ Hin)|..]; rewrite (Hret _ Ht).
  - assert (Hno : no_joiner t (delete me pd)).
    { intros b [ob kb] [Hb Hkb]%lookup_delete_Some. simpl. destruct (joins t ob) eqn:E; [|done].
      destruct ob; try done. simpl in E. apply bool_decide_eq_true in E as ->.
      destruct Hb. exact (li_one _ _ _ Hi me b t _ _ _ _ Hk Hkb). }
    destruct (dead_reapable (proj1 Hr) Hi' Hc Hth Hd Hm Hno) as [stk Hrp].
    rewrite (join_rest_ok me st t th stk s Hr Hrp). eexists. split; [done|].
    apply (ltinv_running base me); [|by apply joined_running|apply lookup_delete_eq].
    refine (linv_reaped (proj1 Hr) Hi' Hc Hth Hd Hno _ Hrp st eq_refl _ (or_intror eq_refl)).
    intros a Ha. destruct (li_reap _ _ _ Hi a t Ha) as (_ & Hnj & _). specialize (Hnj _ _ Hk). simpl in Hnj.
    by case_bool_decide.
  - rewrite join_rest_err by done. eexists. split; [done|].
    apply (ltinv_running base me); [|by apply unlock_running|apply lookup_delete_eq].
    eapply linv_quiet; [apply quiet_unlock|done].
Qed.

Lemma lresume_step base mc me o k :
  ltinv base mc -> current_thread (lks mc) = Some me -> lpend mc !! me = Some (o, k) ->
  exists mc', lfinish me o (k (lks mc)) mc = Some mc' /\ ltinv base mc'.
Proof.
  destruct mc as [s pd cr ex jn rp]. intros (me' & Hc' & Hi & Hr) Hc Hk. cbn [lks lpend] in *.
  assert (me' = me) as -> by congruence. rewrite Hk in Hr.
  pose proof (li_rest _ _ _ Hi _ _ _ Hk) as Hre. cbn [lks created] in Hre.
  destruct (simple_call o) eqn:Ho.
  - eapply unlocks_step; [done|done| |done]. by destruct o.
  - destruct o; try done.
    + destruct Hre as (_ & _ & _ & [st ->] & _). by apply join_step.
    + by destruct Hre; apply resumed_lives.
Qed.

(** A call that reschedules: either another thread runs, or the call goes on
    at once. *)
Lemma lresched_step base me o c s0 s1 r pd cr ex jn rp :
  linv base None (mk_lmachine s1 (<[me := (o, c)]> pd) cr ex jn rp) -> kinv None ∅ s1 -> reschedules me c s1 r ->
  exists mc', lfinish me o r (mk_lmachine s0 pd cr ex jn rp) = Some mc' /\ ltinv base mc'.
Proof.
  intros Hi HI [s' Hd|top s' Hne Hd].
  - destruct (top_ltinv _ _ _ _ _ _ _ _ _ _ Hi HI Hd) as [Ht Hres].
    destruct (lresume_step base _ me o c Ht (proj1 (proj2 Hres))) as (mc' & Hf & Hi');
      [cbn [lpend]; by rewrite lookup_insert_eq|].
    exists mc'. split; [|done]. rewrite <- Hf. cbn [lks].
    destruct (c s') as [res s2|s2 k|e]; cbn [lfinish lpend created exits joined reaping];
      [by rewrite delete_insert_eq|by rewrite insert_insert_eq|done].
  - destruct (top_ltinv _ _ _ _ _ _ _ _ _ _ Hi HI Hd) as [Ht _]. eexists. split; [done|]. exact Ht.
Qed.

(** ** Calls that only schedule *)

Lemma simple_resched base me o c s s0 s1 r pd cr ex jn rp :
  linv base (Some me) (mk_lmachine s pd cr ex jn rp) -> pd !! me = None -> quiet s s1 -> kinv None ∅ s1 ->
  reschedules me c s1 r -> unlocks c -> simple_call o = true ->
  exists mc', lfinish me o r (mk_lmachine s0 pd cr ex jn rp) = Some mc' /\ ltinv base mc'.
Proof.
  intros Hi Hnp Hq HI Hre Hun Ho. eapply lresched_step; [|exact HI|exact Hre].
  apply linv_park; [by eapply linv_quiet|done|by destruct o|by destruct o].
Qed.

Lemma lquiet_done base me o res s s0 s' pd cr ex jn rp :
  linv base (Some me) (mk_lmachine s pd cr ex jn rp) -> pd !! me = None -> quiet s s' -> running me s' ->
  (forall mc, lnote me o res mc = mc) ->
  exists mc', lfinish me o (Done res s') (mk_lmachine s0 pd cr ex jn rp) = Some mc' /\ ltinv base mc'.
Proof.
  intros Hi Hnp Hq Hr Hno. cbn [lfinish lpend created exits joined reaping]. rewrite Hno, delete_id by done.
  eexists. split; [done|]. apply (ltinv_running base me); [by eapply linv_quiet|done..].
Qed.

Lemma unlock_then st (x : lres) : unlocks (THREAD_UNLOCK st;; mret x).
Proof. exists st. intros s. exists x. erewrite bind_done by apply THREAD_UNLOCK_ok. done. Qed.

Lemma requeue_life base me o p b s s0 s1 th th1 (M0 : M unit) x pd cr ex jn rp :
  linv base (Some me) (mk_lmachine s pd cr ex jn rp) -> pd !! me = None -> running me s ->
  threads s !! me = Some th -> threads s1 !! me = Some th1 -> requeued b me p s s1 ->
  th_core th1 = th_core (th_priority (priority th1) (th_state THREAD_READY th)) ->
  reschedules me (THREAD_UNLOCK (saved_ints s)) s1 (M0 s) -> simple_call o = true ->
  exists mc', lfinish me o ((M0;; mret x) s) (mk_lmachine s0 pd cr ex jn rp) = Some mc' /\ ltinv base mc'.
Proof.
  intros Hi Hnp Hr Hth Hth1 Hrq E Hre Ho.
  eapply (simple_resched base me o (THREAD_UNLOCK (saved_ints s);; mret x)); [exact Hi|done| | | |by apply unlock_then|done].
  - by eapply requeued_quiet.
  - apply Hrq.
  - exact (reschedules_bind me _ (fun _ => mret x : M lres) s1 _ Hre).
Qed.

(** ** Creating and resuming *)

Lemma create_call base me name entry arg prio size s pd cr ex jn rp :
  linv base (Some me) (mk_lmachine s pd cr ex jn rp) -> pd !! me = None -> running me s -> 0 <= prio < NUM_PRIORITIES ->
  exists mc', lfinish me (LCreate name entry arg prio size) (lexec (LCreate name entry arg prio size) s)
    (mk_lmachine s pd cr ex jn rp) = Some mc' /\ ltinv base mc'.
Proof.
  intros Hi Hnp Hr Hp. cbn [lexec].
  destruct (create_cases me name entry arg prio size s Hr Hp) as [(s' & Hrun & Hr' & Et & Ea & Ew & En)|[H1 H2]].
  - erewrite bind_done by exact Hrun. eapply lquiet_done; [exact Hi|done| |done|done]. by apply quiet_same.
  - destruct (create_success me name entry arg prio size s Hr Hp H1 H2)
      as (t & stk & s' & Hrun & Hr' & Hnt & _ & _ & Et & Ea & _ & _ & Ew & _ & _ & _ & -> & -> & En).
    erewrite bind_done by exact Hrun. cbn [mret M_ret lfinish lnote lks lpend created exits joined reaping].
    rewrite delete_id by done. eexists. split; [done|]. apply (ltinv_running base me); [|done|].
    + eapply (linv_created (rn_kinv _ _ Hr) Hi eq_refl eq_refl); [..|exact Et|exact Ea|exact Ew|exact En|]; try done.
      exists 0. intros s0. by eexists.
    + cbn [lpend]. rewrite lookup_insert_ne; [done|]. intros <-.
      destruct (running_thread _ _ Hr) as (th & Hth & _). congruence.
Qed.

Lemma ready_quiet t th s : threads s !! t = Some th -> state th = THREAD_SUSPENDED ->
  threads (resumed_end t th s) = <[t := th_state THREAD_READY th]> (threads s) -> quiet s (resumed_end t th s).
Proof.
  intros Hth Hst Ets.
  assert (E : wqs (resumed_end t th s) = wqs s /\ allocated (resumed_end t th s) = allocated s /\
    next_ptr (resumed_end t th s) = next_ptr s) by (unfold resumed_end, unlock_state; by destruct has_flag).
  destruct E as (Ew & Ea & En). apply (quiet_thread s _ t th (th_state THREAD_READY th)); try done.
  - rewrite Ets. by simplify_map_eq.
  - intros t' Ht'. rewrite Ets. by rewrite lookup_insert_ne.
  - apply same_life_state; by rewrite ?Hst.
  - intros w. unfold wq_ready. by rewrite Ew.
  - intros t'. simpl. by rewrite Ew.
Qed.

Lemma resume_call base me t s pd cr ex jn rp :
  linv base (Some me) (mk_lmachine s pd cr ex jn rp) -> pd !! me = None -> running me s -> lives s t ->
  exists mc', lfinish me (LResume t) (lexec (LResume t) s) (mk_lmachine s pd cr ex jn rp) = Some mc' /\ ltinv base mc'.
Proof.
  intros Hi Hnp Hr (th & Hth & Hd). cbn [lexec].
  destruct (decide (state th = THREAD_SUSPENDED)) as [Hst|Hst].
  - destruct (resume_suspended_ok me t th s Hr Hth Hst) as (Hr0 & _ & Ets & _ & _ & Hrun & _).
    erewrite bind_done by exact Hrun. eapply lquiet_done; [exact Hi|done| |done|done].
    by apply (ready_quiet t th).
  - destruct (resume_awake_ok me t th s Hr Hth Hd Hst) as (Hrun & _ & Hr').
    erewrite bind_done by exact Hrun. eapply lquiet_done; [exact Hi|done| |done|done].
    etrans; [apply quiet_lock|apply quiet_unlock].
Qed.

(** ** Detaching *)

Lemma woke_released t err q th' s s1 : wqs s !! RetcodeWQ t = Some q ->
  woke_all (RetcodeWQ t) err (wq_list q) [] s s1 ->
  released err t th' s (k_threads (<[t := th']> (threads s1)) s1).
Proof.
  intros Hq Hwk. pose proof (wk_frame _ _ _ _ _ _ Hwk) as Hso. constructor; simpl.
  - by simplify_map_eq.
  - intros t' Hne. rewrite lookup_insert_ne, (wk_threads _ _ _ _ _ _ Hwk), Hq by done. simpl.
    case_bool_decide; by case_decide.
  - apply (wk_wait _ _ _ _ _ _ Hwk).
  - intros t' Hne. apply (wk_other _ _ _ _ _ _ Hwk). congruence.
  - intros w Hw. exact (wq_ready_sched_only w s s1 Hso Hw).
  - apply (so_allocated _ _ Hso).
  - apply (so_next _ _ Hso).
Qed.

Lemma not_own_joiner base cur mc t :
  linv base cur mc -> t ∉ queue (lks mc) (WaitQ (RetcodeWQ t)).
Proof.
  intros Hi Hin. destruct (li_waits _ _ _ Hi t t Hin) as (to & k & Hk).
  by destruct (li_rest _ _ _ Hi _ _ _ Hk) as (_ & ? & _).
Qed.

Lemma detach_alive_call base me t th s s0 pd cr ex jn rp :
  linv base (Some me) (mk_lmachine s pd cr ex jn rp) -> pd !! me = None -> running me s ->
  threads s !! t = Some th -> state th <> THREAD_DEATH -> t ∈ cr ->
  exists mc', lfinish me (LDetach t) (lexec (LDetach t) s) (mk_lmachine s0 pd cr ex jn rp) = Some mc' /\ ltinv base mc'.
Proof.
  intros Hi Hnp Hr Hth Hd Hc. cbn [lexec].
  destruct (li_ready _ _ _ Hi t) as (q & Hq & Hqm); [by eexists|]. simpl in Hq.
  pose proof (not_own_joiner _ _ _ t Hi) as Hnq. simpl in Hnq. rewrite Hq in Hnq. simpl in Hnq.
  destruct (detach_alive_ok me t th q s Hr Hth Hd Hq Hqm) as (s1 & Hwk & Hres & Hrun & _).
  rewrite decide_False in Hres, Hrun by done. simpl id in Hres, Hrun.
  set (th' := th_flags (Z.lor (flags th) THREAD_FLAG_DETACHED) th) in *.
  set (s2 := k_threads (<[t := th']> (threads s1)) s1) in *.
  erewrite bind_done by exact Hrun. cbn [mret M_ret lfinish lnote lks lpend created exits joined reaping].
  rewrite delete_id by done. eexists. split; [done|].
  apply (ltinv_running base me); [|by apply unlock_running|done].
  eapply linv_quiet; [apply quiet_unlock|].
  pose proof (linv_quiet _ _ _ _ _ _ _ _ _ (quiet_lock s) Hi) as Hil.
  assert (Hrl : released ERR_THREAD_DETACHED t th' (lock_state s) s2) by (by apply (woke_released t _ q)).
  eapply (linv_released (kinv_lock_state _ _ _ (rn_kinv _ _ Hr)) Hil Hrl Hth (ex' := ex)); [|done|done| |].
  - constructor; try done; by right.
  - intros rc Hrc. destruct (li_exits _ _ _ Hi _ _ Hrc) as [_ E]. by destruct (E _ Hth).
  - intros _. split; [|done]. intros _. simpl.
    destruct (proj1 (li_life _ _ _ Hi t th Hc Hth) Hd) as [-> | ->]; right; [done|].
    by rewrite <- Z.lor_assoc.
Qed.

(** A dead thread nobody claims is left to its detacher. *)
Lemma detach_dead_call base me t th s s0 pd cr ex jn rp :
  linv base (Some me) (mk_lmachine s pd cr ex jn rp) -> pd !! me = None -> running me s ->
  threads s !! t = Some th -> state th = THREAD_DEATH -> magic th = THREAD_MAGIC -> t ∈ cr -> no_joiner t pd ->
  (forall a, rp !! a <> Some t) ->
  exists mc', lfinish me (LDetach t) (lexec (LDetach t) s) (mk_lmachine s0 pd cr ex jn rp) = Some mc' /\ ltinv base mc'.
Proof.
  intros Hi Hnp Hr Hth Hd Hm Hc Hno Hnr. cbn [lexec].
  destruct (dead_reapable (rn_kinv _ _ Hr) Hi Hc Hth Hd Hm Hno) as [stk Hrp].
  destruct (detach_dead_ok me t th stk s Hr Hrp) as (Hrun & _ & Hrp1 & Hr1); [apply (li_ready _ _ _ Hi); by eexists|].
  set (s1 := unlock_state (saved_ints s) (lock_state s)) in *.
  erewrite bind_done by exact Hrun. cbn [mret M_ret lfinish lnote lks lpend created exits joined reaping].
  rewrite delete_id by done. eexists. split; [done|]. apply (ltinv_running base me); [|done|done].
  assert (Hq : quiet s s1) by (etrans; [apply quiet_lock|apply quiet_unlock]).
  eapply linv_reaping; [by eapply linv_quiet|done..|apply Hrp1|done|done].
Qed.

(** The detacher reaps it. *)
Lemma reap_call base me t th s s0 pd cr ex jn rp :
  linv base (Some me) (mk_lmachine s pd cr ex jn rp) -> pd !! me = None -> running me s ->
  threads s !! t = Some th -> state th = THREAD_DEATH -> magic th = THREAD_MAGIC -> t ∈ cr -> no_joiner t pd ->
  (forall a, rp !! a <> Some t) ->
  exists mc', lfinish me (LReap t) (lexec (LReap t) s) (mk_lmachine s0 pd cr ex jn rp) = Some mc' /\ ltinv base mc'.
Proof.
  intros Hi Hnp Hr Hth Hd Hm Hc Hno Hnr.
  destruct (dead_reapable (rn_kinv _ _ Hr) Hi Hc Hth Hd Hm Hno) as [stk Hrp].
  cbn [lexec]. erewrite bind_done by (by eapply join_dead_ok).
  cbn [mret M_ret lfinish lnote lks lpend created exits joined reaping]. rewrite delete_id by done.
  eexists. split; [done|].
  apply (ltinv_running base me); [|by apply joined_running; [apply resumed_lock|apply reapable_lock]|done].
  pose proof (linv_quiet _ _ _ _ _ _ _ _ _ (quiet_lock s) Hi) as Hil.
  exact (linv_reaped (kinv_lock_state _ _ _ (rn_kinv _ _ Hr)) Hil Hc Hth Hd Hno Hnr (reapable_lock _ _ _ _ Hrp)
    (saved_ints s) eq_refl jn (or_introl eq_refl)).
Qed.

(** ** Joining *)

Lemma join_wait_call base me t th s s0 pd cr ex jn rp :
  linv base (Some me) (mk_lmachine s pd cr ex jn rp) -> pd !! me = None -> running me s ->
  threads s !! t = Some th -> state th <> THREAD_DEATH -> magic th = THREAD_MAGIC ->
  has_flag (flags th) THREAD_FLAG_DETACHED = false -> t ∈ cr -> no_joiner t pd -> t <> me -> me <> _idle_thread ->
  exists mc', lfinish me (LJoin t INFINITE_TIME) (lexec (LJoin t INFINITE_TIME) s) (mk_lmachine s0 pd cr ex jn rp)
    = Some mc' /\ ltinv base mc'.
Proof.
  intros Hi Hnp Hr Hth Hd Hm Hfl Hc Hno Hne Hidle. cbn [lexec].
  destruct (li_ready _ _ _ Hi t) as (q & Hq & Hqm); [by eexists|]. simpl in Hq.
  destruct (running_thread _ _ Hr) as (thm & Hthm & Hst & _).
  pose proof (linv_quiet _ _ _ _ _ _ _ _ _ (quiet_lock s) Hi) as Hil.
  destruct (block_ok me (RetcodeWQ t) (lock_state s) q thm 0 (resumed_lock me s Hr) Hq Hqm Hthm Hidle)
    as (_ & (s1 & Hpk & Hso & Eqt & Eqs & Ets & Hre) & _).
  eapply (lresched_step base me _ (join_resume me t (saved_ints s)) s0 s1).
  - eapply (linv_blocked base me t thm th (lock_state s)); [exact Hil|done..| |exact Hso|exact Ets| |exact Eqs].
    + destruct (proj1 (li_life _ _ _ Hi t th Hc Hth) Hd) as [E|E]; [done|].
      rewrite E, set_detached_flag in Hfl. done.
    + rewrite Eqt. simpl. by rewrite Hq.
  - apply Hpk.
  - unfold mbind at 1, M_bind at 1. rewrite (join_alive_ok t th) by done.
    apply (reschedules_bind me ((th' ← get_thread me; mret (wait_queue_block_ret th')) ≫=
      thread_join_rest t (saved_ints s))).
    exact (reschedules_bind me _ (thread_join_rest t (saved_ints s)) s1 _ Hre).
Qed.

Lemma join_call base me t timeout th s s0 pd cr ex jn rp :
  linv base (Some me) (mk_lmachine s pd cr ex jn rp) -> pd !! me = None -> running me s ->
  threads s !! t = Some th -> magic th = THREAD_MAGIC -> t ∈ cr -> no_joiner t pd -> (forall a, rp !! a <> Some t) -> t <> me ->
  me <> _idle_thread -> timeout = 0 \/ timeout = INFINITE_TIME ->
  exists mc', lfinish me (LJoin t timeout) (lexec (LJoin t timeout) s) (mk_lmachine s0 pd cr ex jn rp) = Some mc' /\
    ltinv base mc'.
Proof.
  intros Hi Hnp Hr Hth Hm Hc Hno Hnr Hne Hidle Hto.
  assert (Hq : quiet s (unlock_state (saved_ints s) (lock_state s))) by (etrans; [apply quiet_lock|apply quiet_unlock]).
  assert (Hr1 : running me (unlock_state (saved_ints s) (lock_state s))) by (by apply unlock_running, resumed_lock).
  destruct (has_flag (flags th) THREAD_FLAG_DETACHED) eqn:Hfl.
  { cbn [lexec]. erewrite bind_done by (by apply (join_detached_ok me t th)). by eapply lquiet_done. }
  destruct (decide (state th = THREAD_DEATH)) as [Hd|Hd].
  - destruct (dead_reapable (rn_kinv _ _ Hr) Hi Hc Hth Hd Hm Hno) as [stk Hrp].
    cbn [lexec]. erewrite bind_done by (by eapply join_dead_ok).
    cbn [mret M_ret lfinish lks lpend created exits joined reaping]. rewrite delete_id by done.
    eexists. split; [done|]. apply (ltinv_running base me);
      [|by apply joined_running; [apply resumed_lock|apply reapable_lock]|done].
    pose proof (linv_quiet _ _ _ _ _ _ _ _ _ (quiet_lock s) Hi) as Hil.
    exact (linv_reaped (kinv_lock_state _ _ _ (rn_kinv _ _ Hr)) Hil Hc Hth Hd Hno Hnr (reapable_lock _ _ _ _ Hrp)
      (saved_ints s) eq_refl _ (or_intror eq_refl)).
  - destruct Hto as [-> | ->]; [|by eapply join_wait_call].
    destruct (li_ready _ _ _ Hi t) as (q & Hwq & Hqm); [by eexists|]. simpl in Hwq.
    assert (Hrun : thread_join t 0 s = Done (ERR_TIMED_OUT, 0) (unlock_state (saved_ints s) (lock_state s))).
    { rewrite (join_alive_ok t th) by done.
      erewrite bind_done by (eapply (block_zero me); [by apply resumed_lock|done|done]). by apply join_rest_err. }
    cbn [lexec]. erewrite bind_done by exact Hrun. by eapply lquiet_done.
Qed.

(** ** Exiting *)

Lemma exited_released me rc th s s1 :
  threads s !! me = Some th -> exited me rc s s1 ->
  (has_flag (flags th) THREAD_FLAG_DETACHED = true -> queue s (WaitQ (RetcodeWQ me)) = []) ->
  exists err th', released err me th' s s1 /\ state th' = THREAD_DEATH /\ retcode th' = rc /\
    stack th' = stack th /\ blocking_wait_queue th' = blocking_wait_queue th /\
    wait_queue_block_ret th' = wait_queue_block_ret th /\
    if has_flag (flags th) THREAD_FLAG_DETACHED then err = ERR_THREAD_DETACHED /\ magic th' = 0
    else err = NO_ERROR /\ th' = th_retcode rc (th_state THREAD_DEATH th).
Proof.
  intros Hth Hex Hdet.
  destruct (ex_me _ _ _ _ Hex th Hth) as (th' & Hth' & Es & Eb & Er & Hm).
  destruct (ex_dead _ _ _ _ Hex) as (th2 & Hth2 & Hd & Hrc). assert (th2 = th') as -> by congruence.
  pose proof (ex_detached _ _ _ _ Hex th Hth) as He. pose proof (ex_others _ _ _ _ Hex th) as Ho.
  exists (if has_flag (flags th) THREAD_FLAG_DETACHED then ERR_THREAD_DETACHED else NO_ERROR), th'.
  split; [|split_and!; try done; by destruct (has_flag (flags th) THREAD_FLAG_DETACHED)].
  constructor; [done|..].
  - intros t Hne. rewrite (Ho t Hth Hne). destruct (has_flag (flags th) THREAD_FLAG_DETACHED); [|done].
    rewrite Hdet by done. by rewrite bool_decide_eq_false_2 by set_solver.
  - destruct (has_flag (flags th) THREAD_FLAG_DETACHED) eqn:Hfl; [|apply He].
    rewrite (ex_queues _ _ _ _ Hex th) by auto. by apply Hdet.
  - intros t Hne. apply (ex_queues _ _ _ _ Hex th); [done|right; congruence].
  - apply (ex_ready _ _ _ _ Hex).
  - apply (ex_allocated _ _ _ _ Hex).
  - apply (ex_next _ _ _ _ Hex).
Qed.

(** Nobody waits for a detached thread. *)
Lemma detached_not_joined base cur mc t th :
  linv base cur mc -> threads (lks mc) !! t = Some th -> has_flag (flags th) THREAD_FLAG_DETACHED = true ->
  queue (lks mc) (WaitQ (RetcodeWQ t)) = [].
Proof.
  intros Hi Hth Hfl. destruct (queue (lks mc) (WaitQ (RetcodeWQ t))) as [|j l] eqn:E; [done|].
  destruct (li_waits _ _ _ Hi j t) as (to & k & Hk); [rewrite E; set_solver|].
  destruct (li_rest _ _ _ Hi _ _ _ Hk) as (_ & _ & _ & _ & [(_ & th' & Hth' & _ & Hf)|(Hn & _)]).
  - destruct created_flag_values as [Hf1 _]. congruence.
  - rewrite E in Hn. set_solver.
Qed.

Lemma exit_call base me rc s s0 pd cr ex jn rp :
  linv base (Some me) (mk_lmachine s pd cr ex jn rp) -> pd !! me = None -> running me s -> me <> _idle_thread ->
  exists mc', lfinish me (LExit rc) (lexec (LExit rc) s) (mk_lmachine s0 pd cr (<[me := rc]> ex) jn rp) = Some mc' /\
    ltinv base mc'.
Proof.
  intros Hi Hnp Hr Hidle. cbn [lexec].
  destruct (running_thread _ _ Hr) as (th & Hth & Hst & _).
  assert (Hw : wq_ready (RetcodeWQ me) s) by (apply (li_ready _ _ _ Hi); by eexists).
  assert (HE : exists s1, exited me rc s s1 /\ reschedules me (fail Panic) s1 (thread_exit rc s)).
  { destruct (has_flag (flags th) THREAD_FLAG_DETACHED) eqn:Hfl;
      [by eapply exit_detached|by eapply exit_joinable]. }
  destruct HE as (s1 & Hex & Hre).
  destruct (exited_released me rc th s s1 Hth Hex) as (err & th' & Hrl & Hd & Hrc & Es & Eb & Er & Hcase);
    [by eapply (detached_not_joined _ _ _ me th Hi)|].
  assert (Hi1 : linv base (Some me) (mk_lmachine s1 pd cr (<[me := rc]> ex) jn rp)).
  { eapply (linv_released (rn_kinv _ _ Hr) Hi Hrl Hth (ex' := <[me := rc]> ex)); [|done|..].
    - constructor; try done; [by rewrite Hst|by left|].
      destruct (has_flag (flags th) THREAD_FLAG_DETACHED); [right; by destruct Hcase|left].
      destruct Hcase as [-> ->]. split_and!; try done.
      apply (ki_magic _ _ _ (rn_kinv _ _ Hr) _ _ Hth). by rewrite Hst.
    - intros t Hne. by rewrite lookup_insert_ne.
    - intros rc'. rewrite lookup_insert_eq. by intros [= <-].
    - intros Hc. split; [done|]. intros _. rewrite lookup_insert_eq, Hrc. split; [done|].
      intros Hm. destruct (has_flag (flags th) THREAD_FLAG_DETACHED) eqn:Hfl.
      { destruct Hcase as [_ Hm0]. by rewrite Hm0 in Hm. }
      destruct Hcase as [_ ->]. simpl.
      destruct (proj1 (li_life _ _ _ Hi me th Hc Hth)) as [E|E]; [by rewrite Hst|done|].
      by rewrite E, set_detached_flag in Hfl. }
  eapply (lresched_step base me _ (fail Panic ≫= fun _ => mret (LStatus 0 0)) s0 s1).
  - apply linv_park; [exact Hi1|done| |done]. intros (th2 & Hth2 & Hl).
    rewrite (rl_thread _ _ _ _ _ Hrl) in Hth2. congruence.
  - apply (ex_parked _ _ _ _ Hex).
  - exact (reschedules_bind me _ (fun _ => mret (LStatus 0 0) : M lres) s1 _ Hre).
Qed.

(** ** Every step *)

Lemma lstep_ltinv base mc r : ltinv base mc -> lstep mc r -> exists mc', r = Some mc' /\ ltinv base mc'.
Proof.
  intros Ht Hs. destruct Hs as [me o [s pd cr ex jn rp] Hc Hnp Hal|me o k mc Hc Hk].
  2: { destruct (lresume_step base mc me o k Ht Hc Hk) as (mc' & ? & ?). by exists mc'. }
  destruct Ht as (me' & Hc' & Hi & Hr). cbn [lks lpend] in *. assert (me' = me) as -> by congruence.
  rewrite Hnp in Hr. destruct (running_thread _ _ Hr) as (th & Hth & _).
  assert (Hstep : exists mc', lfinish me o (lexec o s) (lenter o me (mk_lmachine s pd cr ex jn rp)) = Some mc' /\
    ltinv base mc'); [|destruct Hstep as (mc' & ? & ?); by exists mc'].
  destruct (rp !! me) as [tr|] eqn:Hrpm; unfold lallowed in Hal; cbn [lks lpend created reaping] in Hal; rewrite Hrpm in Hal.
  { destruct o; try done; cbn [lenter lks lpend created exits joined reaping].
    - destruct (thread_preempt_ok me s th Hr Hth) as [(s1 & Hrq & Hth1 & Hre) _]. by eapply requeue_life.
    - subst t. destruct (li_reap _ _ _ Hi me tr Hrpm) as (Hcr & Hno & tht & Htt & Hd & Hm).
      eapply reap_call; [by apply linv_reaps|done..|].
      intros a [Hne Ha]%lookup_delete_Some. by apply Hne, (li_reap_one _ _ _ Hi me a tr). }
  destruct o; cbn [lenter lks lpend created exits joined reaping].
  - done.
  - destruct (thread_yield_ok me s th Hr Hth) as [(s1 & Hrq & Hth1 & Hre) _]. by eapply requeue_life.
  - destruct (thread_preempt_ok me s th Hr Hth) as [(s1 & Hrq & Hth1 & Hre) _]. by eapply requeue_life.
  - destruct (thread_set_priority_ok me s th p Hr Hth) as [(s1 & Hrq & Hth1 & Hre) _]. by eapply requeue_life.
  - by apply create_call.
  - apply resume_call; [done..|]. destruct (threads s !! t) as [tht|] eqn:Htt; [|done].
    exists tht. split; [done|]. intros E. unfold alive, thread_in_state in Hal. simpl in Hal.
    by rewrite bool_decide_eq_true_2 in Hal.
  - destruct Hal as (Hcr & Hm & Hor). destruct (threads s !! t) as [tht|] eqn:Htt; [|done].
    simpl in Hm, Hor. injection Hm as Hm. destruct (decide (state tht = THREAD_DEATH)) as [Hd|Hd];
      [|by eapply detach_alive_call].
    destruct Hor as [E|[Hno Hnr]]; [unfold alive, thread_in_state in E; by rewrite bool_decide_eq_true_2 in E|].
    eapply detach_dead_call; try done. intros a Ha. by apply (Hnr a t).
  - done.
  - destruct Hal as (Hcr & Hm & [Hno Hnr] & Hne & Hidle & Hto). destruct (threads s !! t) as [tht|] eqn:Htt; [|done].
    injection Hm as Hm. eapply join_call; try done. intros a Ha. by apply (Hnr a t).
  - by apply exit_call.
Qed.

Lemma lsteps_ltinv base mc mc' : ltinv base mc -> lsteps mc mc' -> ltinv base mc'.
Proof.
  intros Hi Hs. induction Hs as [mc|a b c Hab _ IH]; [done|].
  destruct (lstep_ltinv base a _ Hi Hab) as (mc' & [= <-] & Hi'). by apply IH.
Qed.
End steps.

(** ** What it means *)

Section promise.
Context `{Config}.

(** The system at start: [me] runs; every thread has been initialised; nobody
    joins anybody. *)
Record life_boot (me : ptr) (s : kstate) : Prop := {
  lb_running : running me s;
  lb_ready : forall t, is_Some (threads s !! t) -> wq_ready (RetcodeWQ t) s;
  lb_blk : forall t th, threads s !! t = Some th -> state th <> THREAD_BLOCKED -> blocking_wait_queue th = None;
  lb_joiners : forall t, queue s (WaitQ (RetcodeWQ t)) = [];
}.

(** What the life of threads promises, [base] the blocks allocated at start. *)
Record life_promise (base : gset ptr) (mc : lmachine) : Prop := {
  (** a join gives the code its thread exited with, and the thread is gone *)
  lp_joined : forall t rc, (t, rc) ∈ joined mc -> exits mc !! t = Some rc /\ threads (lks mc) !! t = None;
  lp_once : NoDup (fst <$> joined mc);
  (** a thread that has exited never has the CPU again, and keeps its code *)
  lp_dead : forall t rc, exits mc !! t = Some rc -> current_thread (lks mc) <> Some t /\
    forall th, threads (lks mc) !! t = Some th -> state th = THREAD_DEATH /\ retcode th = rc;
  (** the memory: what was there, and two blocks for each thread created and
      not joined *)
  lp_memory : forall p, p ∈ allocated (lks mc) <-> p ∈ base \/
    exists t th, t ∈ created mc /\ threads (lks mc) !! t = Some th /\ (p = t \/ stack th = Some p);
  (** no joiner is forgotten *)
  lp_joiners : forall t t' timeout k, lpend mc !! t = Some (LJoin t' timeout, k) -> join_wait (lks mc) t t';
  (** a dead thread somebody is about to reap is there to be reaped *)
  lp_reaping : forall t t', reaping mc !! t = Some t' -> t' ∈ created mc /\
    exists th, threads (lks mc) !! t' = Some th /\ state th = THREAD_DEATH;
}.

Lemma ltinv_promise base mc : ltinv base mc -> life_promise base mc.
Proof.
  intros (me & Hc & Hi & Hr). destruct Hi. constructor; try done.
  - intros t rc Hrc. destruct (li_exits t rc Hrc) as [_ Hd]. split; [|done].
    rewrite Hc. intros [= ->]. assert (Hl : lives (lks mc) t).
    { destruct (lpend mc !! t); [by apply resumed_lives|].
      destruct (running_thread _ _ Hr) as (th & Hth & Hst & _). exists th. by rewrite Hst. }
    destruct Hl as (th & Hth & Hl). by destruct (Hd th Hth).
  - intros t t' to k Hk. by destruct (li_rest _ _ _ Hk) as (_ & _ & _ & _ & ?).
  - intros t t' Hrt. destruct (li_reap t t' Hrt) as (? & _ & th & ? & ? & _). split; [done|by exists th].
Qed.

Lemma lboot_ltinv me s : life_boot me s -> ltinv (allocated s) (lboot me s).
Proof.
  intros [Hr Hrd Hbk Hj]. apply (ltinv_running _ me); [|done|].
  - assert (Hp : forall t o k, lboot_pends me s !! t = Some (o, k) -> o = LStart /\ k = lexec LStart).
    { intros t o k. unfold lboot_pends. rewrite lookup_fmap.
      destruct (delete me (threads s) !! t); simpl; [|done]. by intros [= <- <-]. }
    constructor; cbn [lboot lks lpend created exits joined reaping]; try done.
    + intros t [Ht|[? Ht]]; [set_solver|done].
    + intros t th Hth _ Hne. unfold lboot_pends. rewrite lookup_fmap, lookup_delete_ne, Hth by congruence. by eexists.
    + intros p. split; [by left|]. intros [?|(t & th & Ht & _)]; [done|set_solver].
    + intros t rc Ht. set_solver.
    + constructor.
    + intros t o k Hk. destruct (Hp _ _ _ Hk) as [-> ->]. exists 0. intros s'. by eexists.
    + intros t t'. rewrite Hj. set_solver.
    + intros a b t to_a to_b ka kb Ha. by destruct (Hp _ _ _ Ha).
  - simpl. unfold lboot_pends. by rewrite lookup_fmap, lookup_delete_eq.
Qed.

(** C4: the life of threads, under every interleaving of the critical sections
    of creations (that may run out of memory), resumptions, detachments, joins,
    exits, yields, preemptions and priority changes that keep the rule of use:
    no call fails (no assertion, no access to a freed thread), a step is
    possible, the scheduler invariant holds.  A join that succeeds returns the
    code its thread exited with, and no thread is joined twice; a thread that has
    exited never runs again; a joining thread either waits for a living thread
    that is not detached, or has been woken and told the outcome; and exactly two
    blocks of memory are allocated for each thread created and not joined:
    joining, or detaching a dead thread, frees both, while the exit of a
    detached thread frees neither (what a creation allocates before its critical
    section, and a join frees after it, counts as part of it).  The detachment of
    a dead thread is two critical sections, and any other thread may run between
    them.  The rule of
    use ([lallowed]): only a living thread is resumed; a thread that is joined or
    detached was created by [thread_create] and is not yet joined; nobody joins
    or detaches a dead thread that another thread is joining or, having detached
    it, is about to reap (the code does not see to this: see [detach_race]); a
    join waits for ever or not at all, since there are no kernel timers; and the
    idle thread neither joins nor exits.  At the start every thread is
    initialised and nobody joins ([life_boot]). *)
Theorem life_safe me s mc :
  life_boot me s -> lsteps (lboot me s) mc ->
  ~ lstep mc None /\ (exists r, lstep mc r) /\
  (exists cur, current_thread (lks mc) = Some cur /\ kinv (Some cur) ∅ (lks mc)) /\
  life_promise (allocated s) mc.
Proof.
  intros Hb Hs. pose proof (lsteps_ltinv _ _ _ (lboot_ltinv me s Hb) Hs) as Ht.
  split; [|split; [|split]].
  - intros Hf. by destruct (lstep_ltinv _ mc None Ht Hf) as (? & ? & _).
  - destruct Ht as (cur & Hc & _). destruct (lpend mc !! cur) as [[o k]|] eqn:Hp.
    + eexists. by eapply ls_resume.
    + eexists. by apply (ls_call cur LPreempt); [..|unfold lallowed; destruct (reaping mc !! cur)].
  - destruct Ht as (cur & Hc & _ & Hr). exists cur. split; [done|]. destruct (lpend mc !! cur); apply Hr.
  - by apply ltinv_promise.
Qed.
End promise.

(** ** Witness *)

#[local] Existing Instance debug_config.

(** Thread 2 creates thread 20, resumes it and yields; thread 20 starts and lowers its
    priority; thread 3 starts and joins it; thread 2 exits; thread 20 exits with
    7, and the join of thread 3 returns. *)
Definition demo_life : list life_op :=
  [LCreate [120] 0 0 20 4096; LResume 20; LYield; LYield; LSetPriority 10; LYield; LJoin 20 INFINITE_TIME;
   LYield; LExit 0; LYield; LExit 7; LYield].

Definition demo_lreached : lmachine := default (lboot 2 demo_state) (ldrive demo_life (lboot 2 demo_state)).

Lemma demo_lreached_steps : lsteps (lboot 2 demo_state) demo_lreached.
Proof.
  unfold demo_lreached. destruct (ldrive demo_life (lboot 2 demo_state)) as [mc|] eqn:E;
    [by apply ldrive_steps in E|apply rtc_refl].
Qed.

Lemma demo_life_boot : life_boot 2 demo_state.
Proof.
  constructor; [exact demo_running|..].
  - intros t [th Hth]. unfold demo_state in Hth. simpl threads in Hth.
    repeat (apply lookup_insert_Some in Hth as [[<- _]|[_ Hth]]; [by eexists|]).
    by rewrite lookup_empty in Hth.
  - intros t th Hth _. unfold demo_state in Hth. simpl threads in Hth.
    repeat (apply lookup_insert_Some in Hth as [[_ <-]|[_ Hth]]; [done|]).
    by rewrite lookup_empty in Hth.
  - intros t. destruct (queue demo_state (WaitQ (RetcodeWQ t))) as [|j l] eqn:E; [done|].
    destruct (kinv_queue_thread _ _ _ j (WaitQ (RetcodeWQ t)) demo_kinv) as (th & Hth & Hh); [rewrite E; set_solver|].
    unfold demo_state in Hth. simpl threads in Hth.
    repeat (apply lookup_insert_Some in Hth as [[_ <-]|[_ Hth]]; [done|]).
    by rewrite lookup_empty in Hth.
Qed.

Lemma life_safe_witness :
  joined demo_lreached = [(20%positive, 7)] /\
  ~ lstep demo_lreached None /\ life_promise (allocated demo_state) demo_lreached.
Proof.
  split; [by vm_compute|].
  destruct (life_safe 2 demo_state demo_lreached demo_life_boot demo_lreached_steps) as (H1 & _ & _ & H2).
  by split.
Defined.

(** ** A dead thread that is detached and joined

    Thread 3 goes on: it creates thread 22, which exits with 9, then thread 24,
    and detaches the dead thread 22.  Between the two critical sections of this
    call the timer preempts it, and thread 24 runs. *)
Definition demo_gap : lmachine := default demo_lreached
  (ldrive [LCreate [121] 0 0 20 4096; LResume 22; LYield; LYield; LExit 9; LYield;
           LCreate [122] 0 0 20 4096; LResume 24; LDetach 22; LPreempt; LYield] demo_lreached).

(** If thread 24 now joins thread 22, which nobody joins and which is no longer
    marked detached, it succeeds and frees it; and thread 3, when it goes on
    after thread 24 has exited, finds the freed thread: the assertion on its
    [magic] stops the machine or, without assertions, it goes on with the freed
    memory. *)
Theorem detach_race :
  current_thread (lks demo_gap) = Some 24%positive /\ reaping demo_gap = {[3%positive := 22%positive]} /\
  no_joiner 22 (lpend demo_gap) /\
  match thread_join 22 0 (lks demo_gap), snd <$> lpend demo_gap !! 3%positive with
  | Done r s1, Some k => r = (NO_ERROR, 9) /\
      match thread_exit 0 s1 with
      | Switch s2 _ => current_thread s2 = Some 3%positive /\
          match k s2 with Done _ s3 =>
            thread_join 22 0 s3 = Fail Panic /\ @thread_join {| LK_DEBUGLEVEL := 0; NDEBUG := true |} 22 0 s3 = Fail UB
          | _ => False end
      | _ => False
      end
  | _, _ => False
  end.
Proof.
  split; [by vm_compute|]. split; [by vm_compute|]. split.
  - apply (bool_decide_eq_true_1 (no_joiner 22 (lpend demo_gap))). by vm_compute.
  - by vm_compute.
Qed.
