(* ===== verification/Mutex.v ===== *)
(** * Mutexes ([lk/kernel/mutex.c], [Include/lk/kernel/mutex.h])

    A mutex counts its owner and its waiters.  Releasing it with waiters hands
    it to the thread that has waited longest: the new owner owns the mutex
    from that moment on, before it runs and stores itself in [holder].  The
    specification therefore has the owner as a ghost argument ([mutex_ok]). *)

From S2P Require Import Prelude Kernel KInv Sched WaitQueue Footprint.

Section ops.
Context `{Config}.

Definition get_mutex (m : ptr) : M mutex_t := fun s =>
  match mutexes s !! m with Some mt => Done mt s | None => Fail UB end.
Definition put_mutex (m : ptr) (mt : mutex_t) : M unit := fun s =>
  match mutexes s !! m with
  | Some _ => Done tt (k_mutexes (<[m := mt]> (mutexes s)) s)
  | None => Fail UB
  end.

Definition mutex_assert (m : ptr) : M unit :=
  DEBUG_ASSERT (fun s => match mutexes s !! m with
                         | Some mt => m_magic mt =? MUTEX_MAGIC | None => false end).

(** The checks under [#if LK_DEBUGLEVEL > 0]. *)
Definition debuglevel_check (c : M bool) : M unit :=
  if 0 <? LK_DEBUGLEVEL then bad ← c; when bad (fail Panic) else mret tt.

Definition mutex_init (m : ptr) : M unit :=
  modify (fun s => k_mutexes (<[m := mk_mutex MUTEX_MAGIC None 0]> (mutexes s)) s);;
  wait_queue_init (MutexWQ m).

Definition is_mutex_held (m : ptr) : M bool :=
  mt ← get_mutex m;
  current_thread ← get_current_thread;
  mret (bool_decide (m_holder mt = Some current_thread)).

Definition mutex_destroy (m : ptr) : M unit :=
  mutex_assert m;;
  debuglevel_check
    (mt ← get_mutex m;
     held ← is_mutex_held m;
     mret (negb (bool_decide (m_holder mt = None)) && negb held));;
  st ← THREAD_LOCK;
  mt ← get_mutex m;
  put_mutex m (mk_mutex 0 (m_holder mt) 0);;
  wait_queue_destroy (MutexWQ m) true;;
  THREAD_UNLOCK st.

Definition mutex_acquire_timeout (m : ptr) (timeout : Z) : M Z :=
  mutex_assert m;;
  debuglevel_check (is_mutex_held m);;
  st ← THREAD_LOCK;
  mt ← get_mutex m;
  let count := s32 (m_count mt + 1) in
  put_mutex m (mk_mutex (m_magic mt) (m_holder mt) count);;
  ret ← (if 1 <? count then wait_queue_block (MutexWQ m) timeout else mret NO_ERROR);
  (if ret <? NO_ERROR then
     when (ret =? ERR_TIMED_OUT)
       (mt ← get_mutex m;
        put_mutex m (mk_mutex (m_magic mt) (m_holder mt) (s32 (m_count mt - 1))))
   else
     current_thread ← get_current_thread;
     mt ← get_mutex m;
     put_mutex m (mk_mutex (m_magic mt) (Some current_thread) (m_count mt)));;
  THREAD_UNLOCK st;;
  mret ret.

Definition mutex_acquire (m : ptr) : M Z := mutex_acquire_timeout m INFINITE_TIME.

Definition mutex_release (m : ptr) : M Z :=
  mutex_assert m;;
  debuglevel_check (held ← is_mutex_held m; mret (negb held));;
  st ← THREAD_LOCK;
  mt ← get_mutex m;
  let count := s32 (m_count mt - 1) in
  put_mutex m (mk_mutex (m_magic mt) None count);;
  when (1 <=? count) (wait_queue_wake_one (MutexWQ m) true NO_ERROR;; mret tt);;
  THREAD_UNLOCK st;;
  mret NO_ERROR.

End ops.

(** ** Specification *)

Definition waiters (m : ptr) (s : kstate) : list ptr := queue s (WaitQ (MutexWQ m)).

(** The mutex [m] is initialised and owned by [o]. *)
Record mutex_ok (m : ptr) (o : option ptr) (mt : mutex_t) (s : kstate) : Prop := {
  mo_mt : mutexes s !! m = Some mt;
  mo_magic : m_magic mt = MUTEX_MAGIC;
  mo_wq : wq_ready (MutexWQ m) s;
  mo_owner : match o with
             | None => m_count mt = 0 /\ m_holder mt = None /\ waiters m s = []
             | Some t => m_count mt = 1 + Z.of_nat (length (waiters m s)) /\
                 (m_holder mt = Some t \/ m_holder mt = None) /\ t ∉ waiters m s
             end;
}.

Section proofs.
Context `{Config}.
Implicit Types (s : kstate) (m t me : ptr).

Lemma get_mutex_ok m mt s : mutexes s !! m = Some mt -> get_mutex m s = Done mt s.
Proof. unfold get_mutex. by intros ->. Qed.

Lemma put_mutex_ok m mt mt' s :
  mutexes s !! m = Some mt -> put_mutex m mt' s = Done tt (k_mutexes (<[m := mt']> (mutexes s)) s).
Proof. unfold put_mutex. by intros ->. Qed.

Lemma mutex_assert_ok m mt s :
  mutexes s !! m = Some mt -> m_magic mt = MUTEX_MAGIC -> mutex_assert m s = Done tt s.
Proof. intros Hm Hg. apply DEBUG_ASSERT_ok. rewrite Hm. by apply Z.eqb_eq. Qed.

Lemma debuglevel_check_ok c s : c s = Done false s -> debuglevel_check c s = Done tt s.
Proof. intros Hc. unfold debuglevel_check. destruct (0 <? _); [|done]. by rewrite (bind_done _ _ _ _ _ Hc). Qed.

Lemma is_mutex_held_ok m mt me s :
  mutexes s !! m = Some mt -> current_thread s = Some me ->
  is_mutex_held m s = Done (bool_decide (m_holder mt = Some me)) s.
Proof. intros Hm Hc. unfold is_mutex_held. erewrite bind_done by by apply get_mutex_ok. by kstep. Qed.

Ltac mstep := first
  [ kstep
  | erewrite bind_done; [|eapply get_mutex_ok; simpl; first [eassumption | apply lookup_insert_eq]]
  | erewrite bind_done; [|eapply put_mutex_ok; simpl; first [eassumption | apply lookup_insert_eq]]
  | erewrite bind_done; [|eapply mutex_assert_ok; eassumption] ].

(** The mutex after acquiring and storing the holder. *)
Definition mutex_set (m : ptr) (mt : mutex_t) (s : kstate) : kstate :=
  k_mutexes (<[m := mt]> (mutexes s)) s.

Lemma mutex_set_twice m mt mt' s : mutex_set m mt' (mutex_set m mt s) = mutex_set m mt' s.
Proof. unfold mutex_set. simpl. by rewrite insert_same. Qed.

Lemma mutex_set_resumed me m mt s : resumed me s -> resumed me (mutex_set m mt s).
Proof. intros Hr. by eapply resumed_ext. Qed.

Lemma mutex_ok_same m o mt s s' :
  mutex_ok m o mt s -> mutexes s' !! m = mutexes s !! m -> wq_ready (MutexWQ m) s' ->
  waiters m s' = waiters m s -> mutex_ok m o mt s'.
Proof. intros [] Hmx Hwq Hwt. constructor; [by rewrite Hmx|done|done|by rewrite Hwt]. Qed.

Lemma waiters_unlock m st s : waiters m (unlock_state st s) = waiters m s.
Proof. unfold unlock_state. by destruct has_flag. Qed.

Lemma mutexes_unlock st s : mutexes (unlock_state st s) = mutexes s.
Proof. unfold unlock_state. by destruct has_flag. Qed.

Lemma wq_ready_unlock w st s : wq_ready w s -> wq_ready w (unlock_state st s).
Proof. unfold unlock_state. by destruct has_flag. Qed.

(** The state in which a mutex call returns: [s1] with the lock released. *)
Lemma mutex_ok_unlock m o mt st s : mutex_ok m o mt s -> mutex_ok m o mt (unlock_state st s).
Proof.
  intros Hm. apply (mutex_ok_same m o mt s); [done|by rewrite mutexes_unlock| |apply waiters_unlock].
  apply wq_ready_unlock, (mo_wq _ _ _ _ Hm).
Qed.

Ltac mutex_head Hm :=
  pose proof (mo_mt _ _ _ _ Hm) as Hmt; pose proof (mo_magic _ _ _ _ Hm) as Hmg;
  erewrite bind_done; [|eapply mutex_assert_ok; [exact Hmt|exact Hmg]].

Lemma holder_check m mt me s :
  mutexes s !! m = Some mt -> current_thread s = Some me ->
  (LK_DEBUGLEVEL <= 0 \/ m_holder mt <> Some me) ->
  debuglevel_check (is_mutex_held m) s = Done tt s.
Proof.
  intros Hm Hc [Hl|Hh].
  - unfold debuglevel_check. by rewrite (proj2 (Z.ltb_ge _ _)).
  - apply debuglevel_check_ok. erewrite is_mutex_held_ok by done. by rewrite bool_decide_eq_false_2.
Qed.

Lemma running_unlock me st s : resumed me s -> running me (unlock_state st s).
Proof. apply unlock_running. Qed.

Lemma mutex_set_touched me m mt s : touched (Some (MutexWQ m)) me s (mutex_set m mt (lock_state s)).
Proof. eapply touched_trans; [apply touched_lock|apply touched_mutex]. Qed.

Lemma mutex_end_touched me m mt st s :
  touched (Some (MutexWQ m)) me s (unlock_state st (mutex_set m mt (lock_state s))).
Proof. eapply touched_trans; [apply mutex_set_touched|apply touched_unlock]. Qed.

(** The state after acquiring a free mutex. *)
Definition acquired_state (m me : ptr) (s : kstate) : kstate :=
  unlock_state (saved_ints s) (mutex_set m (mk_mutex MUTEX_MAGIC (Some me) 1) (lock_state s)).

Lemma mutex_acquire_free_ok me m mt timeout s :
  running me s -> mutex_ok m None mt s ->
  mutex_acquire_timeout m timeout s = Done NO_ERROR (acquired_state m me s) /\
  mutex_ok m (Some me) (mk_mutex MUTEX_MAGIC (Some me) 1) (acquired_state m me s) /\
  running me (acquired_state m me s).
Proof.
  intros Hr Hm. destruct (mo_owner _ _ _ _ Hm) as (Hcnt & Hh & Hw).
  set (s1 := mutex_set m (mk_mutex MUTEX_MAGIC (Some me) 1) (lock_state s)).
  assert (Hres : resumed me s1) by (apply mutex_set_resumed, resumed_lock, Hr).
  split; [|split].
  - unfold mutex_acquire_timeout. mutex_head Hm.
    erewrite bind_done; [|eapply holder_check; [exact Hmt|apply Hr|right; by rewrite Hh]].
    mstep. mstep. rewrite Hcnt, Hmg, Hh. cbv zeta. change (s32 (0 + 1)) with 1. mstep.
    change (1 <? 1) with false. cbv iota. kstep. change (NO_ERROR <? NO_ERROR) with false. cbv iota.
    erewrite bind_done; cycle 1.
    { erewrite bind_done; [|apply get_current_thread_ok, Hr]. mstep.
      erewrite put_mutex_ok by (simpl; apply lookup_insert_eq). reflexivity. }
    mstep. simpl. by rewrite insert_same.
  - apply mutex_ok_unlock. constructor; [simpl; by simplify_map_eq|done|apply (mo_wq _ _ _ _ Hm)|].
    assert (Hw1 : waiters m s1 = []) by exact Hw. unfold s1 in Hw1. rewrite Hw1.
    split; [done|]. split; [by left|set_solver].
  - by apply running_unlock.
Qed.

(** Acquiring a free mutex succeeds at once, whatever the timeout: the
    caller becomes owner and holder, nobody is scheduled, the lock is released
    and the interrupts are as before. *)
Theorem mutex_acquire_free me m mt timeout s :
  running me s -> mutex_ok m None mt s ->
  exists s', mutex_acquire_timeout m timeout s = Done NO_ERROR s' /\
    mutex_ok m (Some me) (mk_mutex MUTEX_MAGIC (Some me) 1) s' /\ running me s' /\
    threads s' = threads s /\ run_queue s' = run_queue s /\ ints_enabled s' = ints_enabled s.
Proof.
  intros Hr Hm. destruct (mutex_acquire_free_ok me m mt timeout s Hr Hm) as (Hrun & Hok & Hr').
  exists (acquired_state m me s). split; [exact Hrun|]. do 2 (split; [done|]). unfold acquired_state.
  split; [unfold unlock_state; by destruct has_flag|]. split; [unfold unlock_state; by destruct has_flag|].
  by apply unlock_saved_ints.
Qed.

(** Trying a mutex another thread owns (timeout 0) returns
    [ERR_TIMED_OUT] and leaves the mutex as it was, its count included. *)
Theorem mutex_try_owned me m mt t s :
  running me s -> mutex_ok m (Some t) mt s -> t <> me -> m_count mt < INT_MAX ->
  exists s', mutex_acquire_timeout m 0 s = Done ERR_TIMED_OUT s' /\
    mutex_ok m (Some t) mt s' /\ running me s' /\ threads s' = threads s /\
    ints_enabled s' = ints_enabled s.
Proof.
  intros Hr Hm Hne Hmax. destruct (mo_owner _ _ _ _ Hm) as (Hcnt & Hh & Hw).
  assert (Hh' : m_holder mt <> Some me) by (intros E; rewrite E in Hh; naive_solver).
  set (s1 := mutex_set m (mk_mutex (m_magic mt) (m_holder mt) (m_count mt + 1)) (lock_state s)).
  assert (Hres1 : resumed me s1) by (apply mutex_set_resumed, resumed_lock, Hr).
  destruct (resumed_thread me s1 Hres1) as (th & Hth & Hst & _).
  set (s2 := mutex_set m mt s1).
  assert (Hblk : wait_queue_block (MutexWQ m) 0 s1 = Done ERR_TIMED_OUT s1).
  { destruct (mo_wq _ _ _ _ Hm) as (q & Hq & Hqm). destruct Hres1 as (HI1 & Hc1 & Hl1).
    unfold wait_queue_block. kstep. erewrite wait_magic_assert by done.
    erewrite bind_done; [|eapply thread_assert_ok; [done|by apply bool_decide_eq_true]].
    by rewrite kernel_asserts. }
  exists (unlock_state (saved_ints s) s2). split_and!.
  - unfold mutex_acquire_timeout. mutex_head Hm.
    erewrite bind_done; [|eapply holder_check; [exact Hmt|apply Hr|by right]].
    mstep. mstep. cbv zeta.
    rewrite s32_small by (unfold INT_MIN, INT_MAX in *; lia). mstep.
    rewrite (proj2 (Z.ltb_lt 1 _)) by lia. cbv iota. fold (mutex_set m (mk_mutex (m_magic mt) (m_holder mt) (m_count mt + 1)) (lock_state s)).
    fold s1. erewrite bind_done by exact Hblk.
    change (ERR_TIMED_OUT <? NO_ERROR) with true. change (ERR_TIMED_OUT =? ERR_TIMED_OUT) with true.
    cbv iota. simpl when. erewrite bind_done; cycle 1.
    { mstep. erewrite put_mutex_ok by (simpl; apply lookup_insert_eq). reflexivity. }
    mstep. simpl. rewrite insert_same, s32_small by (unfold INT_MIN, INT_MAX in *; lia).
    replace (m_count mt + 1 - 1) with (m_count mt) by lia.
    unfold s2, mutex_set. simpl. rewrite insert_same. by destruct mt.
  - apply mutex_ok_unlock. constructor; [simpl; by simplify_map_eq|apply Hm|apply (mo_wq _ _ _ _ Hm)|].
    exact (mo_owner _ _ _ _ Hm).
  - apply running_unlock. by apply mutex_set_resumed.
  - unfold unlock_state. by destruct has_flag.
  - by apply unlock_saved_ints.
Qed.

(** What [mutex_acquire_timeout] does after [wait_queue_block]. *)
Definition acquire_tail (m : ptr) (st ret : Z) : M Z :=
  (if ret <? NO_ERROR then
     when (ret =? ERR_TIMED_OUT)
       (mt ← get_mutex m;
        put_mutex m (mk_mutex (m_magic mt) (m_holder mt) (s32 (m_count mt - 1))))
   else
     current_thread ← get_current_thread;
     mt ← get_mutex m;
     put_mutex m (mk_mutex (m_magic mt) (Some current_thread) (m_count mt)));;
  THREAD_UNLOCK st;;
  mret ret.

Definition acquire_resume (me m : ptr) (st : Z) : M Z :=
  ret ← (th' ← get_thread me; mret (wait_queue_block_ret th')); acquire_tail m st ret.

(** The owner resumes: it stores itself in [holder] and returns [NO_ERROR]. *)
Lemma acquire_resume_owner me m st s mt th :
  resumed me s -> threads s !! me = Some th -> wait_queue_block_ret th = NO_ERROR ->
  mutex_ok m (Some me) mt s ->
  exists s', acquire_resume me m st s = Done NO_ERROR s' /\ running me s' /\
    s' = unlock_state st (mutex_set m (mk_mutex (m_magic mt) (Some me) (m_count mt)) s) /\
    mutex_ok m (Some me) (mk_mutex (m_magic mt) (Some me) (m_count mt)) s'.
Proof.
  intros Hr Hth Hret Hm. pose proof (mo_mt _ _ _ _ Hm) as Hmt. pose proof Hr as (HI & Hc & Hl).
  set (s1 := mutex_set m (mk_mutex (m_magic mt) (Some me) (m_count mt)) s).
  exists (unlock_state st s1). split; [|split; [|split; [done|]]].
  - unfold acquire_resume. erewrite bind_done; cycle 1.
    { kstep. reflexivity. }
    rewrite Hret. unfold acquire_tail. change (NO_ERROR <? NO_ERROR) with false. cbv iota.
    erewrite bind_done; cycle 1.
    { kstep. mstep. erewrite put_mutex_ok by (simpl; eassumption). reflexivity. }
    by mstep.
  - apply running_unlock. by apply mutex_set_resumed.
  - apply mutex_ok_unlock. destruct (mo_owner _ _ _ _ Hm) as (Hcnt & _ & Hw).
    constructor; [simpl; by simplify_map_eq|apply Hm|apply (mo_wq _ _ _ _ Hm)|].
    split; [exact Hcnt|]. split; [by left|exact Hw].
Qed.

(** Acquiring an owned mutex: the caller, which the debug check does not take
    for the holder, joins the waiters and reschedules. *)
Lemma mutex_acquire_enqueues me m mt t s :
  running me s -> mutex_ok m (Some t) mt s ->
  (LK_DEBUGLEVEL <= 0 \/ m_holder mt <> Some me) -> me <> _idle_thread -> m_count mt < INT_MAX ->
  exists s1, parked me s1 /\
    mutexes s1 !! m = Some (mk_mutex (m_magic mt) (m_holder mt) (m_count mt + 1)) /\
    waiters m s1 = waiters m s ++ [me] /\ wq_ready (MutexWQ m) s1 /\ touched (Some (MutexWQ m)) me s s1 /\
    (forall t', t' <> me -> threads s1 !! t' = threads s !! t') /\
    reschedules me (acquire_resume me m (saved_ints s)) s1 (mutex_acquire m s).
Proof.
  intros Hr Hm Hh' Hidle Hmax. destruct (mo_owner _ _ _ _ Hm) as (Hcnt & Hh & Hw).
  set (s0 := mutex_set m (mk_mutex (m_magic mt) (m_holder mt) (m_count mt + 1)) (lock_state s)).
  assert (Hres0 : resumed me s0) by (apply mutex_set_resumed, resumed_lock, Hr).
  destruct (resumed_thread me s0 Hres0) as (th & Hth & _).
  destruct (mo_wq _ _ _ _ Hm) as (q & Hq & Hqm).
  assert (Hql : wq_list q = waiters m s) by (unfold waiters, queue; by rewrite Hq).
  destruct (block_ok me (MutexWQ m) s0 q th INFINITE_TIME Hres0 Hq Hqm Hth Hidle)
    as (_ & (s1 & Hpk & Hso & Hw1 & Hqs & Hths & Hre) & _).
  exists s1. split; [done|]. split; [|split; [rewrite <- Hql; exact Hw1|split; [|split; [|split]]]].
  - rewrite (so_mutexes _ _ Hso). simpl. by simplify_map_eq.
  - eapply wq_ready_sched_only; [exact Hso|]. by eexists.
  - eapply touched_trans; [apply mutex_set_touched|].
    eapply enqueued_touched; [exact Hso| |exact Hqs|].
    + rewrite Hw1, Hql. done.
    + intros t' Hne. by rewrite Hths, lookup_insert_ne.
  - intros t' Hne. by rewrite Hths, lookup_insert_ne.
  - unfold mutex_acquire, mutex_acquire_timeout. mutex_head Hm.
    erewrite bind_done; [|eapply holder_check; [exact Hmt|apply Hr|done]].
    mstep. mstep. cbv zeta.
    rewrite s32_small by (unfold INT_MIN, INT_MAX in *; lia). mstep.
    rewrite (proj2 (Z.ltb_lt 1 _)) by lia. cbv iota.
    exact (reschedules_bind me _ (acquire_tail m (saved_ints s)) s1 _ Hre).
Qed.

Lemma mutex_acquire_blocks me m mt t s :
  running me s -> mutex_ok m (Some t) mt s -> t <> me -> me ∉ waiters m s ->
  me <> _idle_thread -> m_count mt < INT_MAX ->
  exists s1, parked me s1 /\
    mutex_ok m (Some t) (mk_mutex (m_magic mt) (m_holder mt) (m_count mt + 1)) s1 /\
    waiters m s1 = waiters m s ++ [me] /\ touched (Some (MutexWQ m)) me s s1 /\
    (forall t', t' <> me -> threads s1 !! t' = threads s !! t') /\
    reschedules me (acquire_resume me m (saved_ints s)) s1 (mutex_acquire m s).
Proof.
  intros Hr Hm Hne Hnw Hidle Hmax. destruct (mo_owner _ _ _ _ Hm) as (Hcnt & Hh & Hw).
  destruct (mutex_acquire_enqueues me m mt t s Hr Hm) as (s1 & Hpk & Hmt & Hws & Hwq & Hmv & Hths & Hre);
    [right; intros E; rewrite E in Hh; naive_solver|done..|].
  exists s1. split; [done|]. split; [|done].
  constructor; [done|apply Hm|done|]. simpl.
  rewrite Hws, length_app. simpl. split; [lia|]. split; [done|]. set_solver.
Qed.

(** C15: acquiring a mutex another thread owns puts the caller behind the other
    waiters and hands the CPU over; whoever runs meanwhile finds the mutex
    still owned by the same thread.  When the caller runs again as the owner,
    it stores itself as the holder, returns [NO_ERROR] with the lock released
    and the interrupts restored. *)
Theorem mutex_acquire_contended me m mt t s :
  running me s -> mutex_ok m (Some t) mt s -> t <> me -> me ∉ waiters m s ->
  me <> _idle_thread -> m_count mt < INT_MAX ->
  exists s1 c, parked me s1 /\
    mutex_ok m (Some t) (mk_mutex (m_magic mt) (m_holder mt) (m_count mt + 1)) s1 /\
    waiters m s1 = waiters m s ++ [me] /\
    reschedules me c s1 (mutex_acquire m s) /\
    forall s2 th2 mt2, resumed me s2 -> threads s2 !! me = Some th2 ->
      wait_queue_block_ret th2 = NO_ERROR -> mutex_ok m (Some me) mt2 s2 ->
      exists s', c s2 = Done NO_ERROR s' /\ running me s' /\ ints_enabled s' = ints_enabled s /\
        mutex_ok m (Some me) (mk_mutex (m_magic mt2) (Some me) (m_count mt2)) s'.
Proof.
  intros Hr Hm Hne Hnw Hidle Hmax.
  destruct (mutex_acquire_blocks me m mt t s Hr Hm Hne Hnw Hidle Hmax) as (s1 & Hpk & Hm1 & Hw1 & _ & _ & Hre).
  exists s1, (acquire_resume me m (saved_ints s)). do 4 (split; [done|]).
  intros s2 th2 mt2 Hr2 Hth2 Hret Hm2.
  destruct (acquire_resume_owner me m (saved_ints s) s2 mt2 th2 Hr2 Hth2 Hret Hm2)
    as (s' & Hc & Hrn & Es & Hm').
  exists s'. do 2 (split; [done|]). split; [|done]. rewrite Es. apply unlock_saved_ints, Hr2.
Qed.

Lemma release_head me m mt s :
  running me s -> mutex_ok m (Some me) mt s -> m_holder mt = Some me -> m_count mt <= INT_MAX ->
  mutex_release m s =
    (when (1 <=? m_count mt - 1) (wait_queue_wake_one (MutexWQ m) true NO_ERROR;; mret tt);;
     THREAD_UNLOCK (saved_ints s);; mret NO_ERROR)
    (mutex_set m (mk_mutex (m_magic mt) None (m_count mt - 1)) (lock_state s)).
Proof.
  intros Hr Hm Hh Hmax. destruct (mo_owner _ _ _ _ Hm) as (Hcnt & _).
  unfold mutex_release. mutex_head Hm.
  erewrite bind_done; cycle 1.
  { apply debuglevel_check_ok. erewrite bind_done; [|eapply is_mutex_held_ok; [done|apply Hr]].
    by rewrite bool_decide_eq_true_2. }
  mstep. mstep. cbv zeta. rewrite s32_small by (unfold INT_MIN, INT_MAX in *; lia). by mstep.
Qed.

(** The state after releasing a mutex nobody waits for. *)
Definition released_state (m : ptr) (mt : mutex_t) (s : kstate) : kstate :=
  unlock_state (saved_ints s) (mutex_set m (mk_mutex (m_magic mt) None 0) (lock_state s)).

Lemma mutex_release_uncontended_ok me m mt s :
  running me s -> mutex_ok m (Some me) mt s -> m_holder mt = Some me -> waiters m s = [] ->
  mutex_release m s = Done NO_ERROR (released_state m mt s) /\ running me (released_state m mt s) /\
  mutex_ok m None (mk_mutex (m_magic mt) None 0) (released_state m mt s).
Proof.
  intros Hr Hm Hh Hw. destruct (mo_owner _ _ _ _ Hm) as (Hcnt & _). rewrite Hw in Hcnt.
  simpl in Hcnt. split; [|split].
  - rewrite (release_head me m mt) by (done || unfold INT_MAX; lia). rewrite Hcnt.
    change (1 <=? 1 - 1) with false. kstep. by kstep.
  - apply running_unlock, mutex_set_resumed, resumed_lock, Hr.
  - apply mutex_ok_unlock.
    constructor; [simpl; by simplify_map_eq|apply Hm|apply (mo_wq _ _ _ _ Hm)|]. by rewrite <- Hw.
Qed.

(** Releasing a mutex nobody waits for makes it free. *)
Theorem mutex_release_uncontended me m mt s :
  running me s -> mutex_ok m (Some me) mt s -> m_holder mt = Some me -> waiters m s = [] ->
  exists s', mutex_release m s = Done NO_ERROR s' /\ running me s' /\
    mutex_ok m None (mk_mutex (m_magic mt) None 0) s' /\
    threads s' = threads s /\ ints_enabled s' = ints_enabled s.
Proof.
  intros Hr Hm Hh Hw. destruct (mutex_release_uncontended_ok me m mt s Hr Hm Hh Hw) as (Hrun & Hr' & Hok).
  exists (released_state m mt s). do 3 (split; [done|]). unfold released_state.
  split; [unfold unlock_state; by destruct has_flag|]. by apply unlock_saved_ints.
Qed.

Lemma mutex_release_wakes me m mt t l s :
  running me s -> mutex_ok m (Some me) mt s -> m_holder mt = Some me ->
  waiters m s = t :: l -> m_count mt <= INT_MAX ->
  exists s1, parked me s1 /\
     mutex_ok m (Some t) (mk_mutex (m_magic mt) None (m_count mt - 1)) s1 /\
     waiters m s1 = l /\ wait_queue_block_ret <$> threads s1 !! t = Some NO_ERROR /\ touched (Some (MutexWQ m)) me s s1 /\
     reschedules me (THREAD_UNLOCK (saved_ints s);; mret NO_ERROR) s1 (mutex_release m s).
Proof.
  intros Hr Hm Hh Hw Hmax. destruct (mo_owner _ _ _ _ Hm) as (Hcnt & _ & Hnw).
  set (s0 := mutex_set m (mk_mutex (m_magic mt) None (m_count mt - 1)) (lock_state s)).
  assert (Hres0 : resumed me s0) by (apply mutex_set_resumed, resumed_lock, Hr).
  destruct (resumed_thread me s0 Hres0) as (th & Hth & _).
  destruct (mo_wq _ _ _ _ Hm) as (q & Hq & Hqm).
  assert (Hql : wq_list q = t :: l) by (rewrite <- Hw; unfold waiters, queue; by rewrite Hq).
  pose proof (wake_one_ok me (MutexWQ m) NO_ERROR s0 q th Hres0 Hq Hqm Hth) as HH.
  rewrite Hql in HH. destruct HH as (_ & s' & s1 & Hrq & Hso & Hwk & Hpk & Hre).
  pose proof (wk_wait _ _ _ _ _ _ Hwk) as Hw1. change (waiters m s1 = l) in Hw1.
  assert (Hso1 : sched_only s0 s1) by (etrans; [exact Hso|apply (wk_frame _ _ _ _ _ _ Hwk)]).
  assert (Hrel : reschedules me (THREAD_UNLOCK (saved_ints s);; mret NO_ERROR) s1 (mutex_release m s)).
  { rewrite (release_head me m mt) by done. fold s0.
    rewrite (proj2 (Z.leb_le 1 _)) by (rewrite Hcnt, Hw; simpl; lia). cbv [when].
    pose proof (reschedules_bind me _ (fun _ : Z => mret tt : M unit) s1 _ Hre) as Hre1.
    exact (reschedules_bind me _
      (fun _ : unit => (THREAD_UNLOCK (saved_ints s);; mret NO_ERROR) : M Z) s1 _ Hre1). }
  exists s1. split; [done|]. split; [|split; [done|split; [|split; [|done]]]].
  - constructor; simpl.
    * rewrite (so_mutexes _ _ Hso1). simpl. by simplify_map_eq.
    * apply Hm.
    * eapply wq_ready_sched_only; [exact Hso1|]. by eexists.
    * rewrite Hw1, Hcnt, Hw. simpl. split; [lia|]. split; [by right|].
        destruct Hr as [HI _ _]. pose proof (ki_nodup _ _ _ HI (WaitQ (MutexWQ m))) as Hnd.
        change (NoDup (waiters m s)) in Hnd. rewrite Hw in Hnd. by apply NoDup_cons in Hnd as [].
  - rewrite (wk_threads _ _ _ _ _ _ Hwk), decide_True by set_solver.
      destruct (waiter_facts (Some me) ∅ s0 (MutexWQ m) q t) as (tht & Htht & _);
        [apply Hres0|exact Hq|rewrite Hql; set_solver|].
      destruct (sched_only_threads_eq s0 s' t tht Hso Htht) as (th' & Hth' & _). by rewrite Hth'.
  - eapply touched_trans; [apply mutex_set_touched|].
    eapply (requeued_woke_touched _ _ _ _ _ [t]); [exact Hres0|exact Hrq|exact Hw|exact Hwk].
Qed.

(** C14: releasing a mutex with waiters hands it to the first of them: when the
    scheduler is entered the mutex is owned by that thread, whose pending
    [wait_queue_block] returns [NO_ERROR]; the others keep waiting in order.
    The releasing thread is ready, and returns [NO_ERROR] with the lock
    released and the interrupts restored. *)
Theorem mutex_release_hands_over me m mt t l s :
  running me s -> mutex_ok m (Some me) mt s -> m_holder mt = Some me ->
  waiters m s = t :: l -> m_count mt <= INT_MAX ->
  (exists s1, parked me s1 /\
     mutex_ok m (Some t) (mk_mutex (m_magic mt) None (m_count mt - 1)) s1 /\
     waiters m s1 = l /\ wait_queue_block_ret <$> threads s1 !! t = Some NO_ERROR /\
     reschedules me (THREAD_UNLOCK (saved_ints s);; mret NO_ERROR) s1 (mutex_release m s)) /\
  op_safe me (ints_enabled s) (fun ret _ => ret = NO_ERROR) (mutex_release m s).
Proof.
  intros Hr Hm Hh Hw Hmax.
  destruct (mutex_release_wakes me m mt t l s Hr Hm Hh Hw Hmax) as (s1 & Hpk & Hok & Hws & Hret & _ & Hrel).
  split; [by exists s1|].
  eapply reschedules_safe; [exact Hrel|]. intros s2 Hs2. kstep. simpl.
  split_and!; [by apply unlock_running|apply unlock_saved_ints, Hs2|done].
Qed.
End proofs.

(** ** Witnesses *)

(** [demo_state] with the mutex owned by [o], and thread 3 waiting for it if
    [w] says so. *)
Definition demo_mutex (o : option ptr) (w : bool) : kstate :=
  let s := if w then demo_waiting (MutexWQ 10) else demo_state in
  k_thread_lock 0 (k_ints_enabled true
    (k_mutexes {[10%positive := mk_mutex MUTEX_MAGIC o
      (match o with Some _ => if w then 2 else 1 | None => 0 end)]} s)).

Lemma demo_mutex_running o w : running 2 (demo_mutex o w).
Proof.
  destruct w; constructor; try done.
  - apply kinv_check_sound. by destruct o; vm_compute.
  - eapply kinv_ext; [apply demo_kinv|done].
Qed.

Lemma demo_mutex_ok o (w : bool) :
  (o = None -> w = false) -> o <> Some 3%positive ->
  mutex_ok 10 o (mk_mutex MUTEX_MAGIC o (match o with Some _ => if w then 2 else 1 | None => 0 end))
    (demo_mutex o w).
Proof.
  intros Ho Hw. assert (Hq : wqs (demo_mutex o w) !! MutexWQ 10 =
    Some (if w then mk_wq WAIT_QUEUE_MAGIC [3%positive] 1 else WAIT_QUEUE_INITIAL_VALUE)) by by destruct w.
  constructor; try done.
  - exists (if w then mk_wq WAIT_QUEUE_MAGIC [3%positive] 1 else WAIT_QUEUE_INITIAL_VALUE).
    by destruct w.
  - unfold waiters, queue. rewrite Hq. destruct o as [t|]; [|by rewrite Ho].
    destruct w; simpl; (split; [done|]); (split; [by left|]); [|set_solver].
    intros ->%list_elem_of_singleton. done.
Qed.

#[local] Existing Instance debug_config.

Lemma mutex_acquire_free_witness :
  exists s', mutex_acquire_timeout 10 7 (demo_mutex None false) = Done NO_ERROR s' /\ running 2 s'.
Proof.
  destruct (mutex_acquire_free 2 10 (mk_mutex MUTEX_MAGIC None 0) 7 (demo_mutex None false))
    as (s' & Hrun & _ & Hr & _).
  - apply demo_mutex_running.
  - by apply (demo_mutex_ok None false).
  - exists s'. split; [exact Hrun|exact Hr].
Defined.

Lemma mutex_try_owned_witness :
  exists s', mutex_acquire_timeout 10 0 (demo_mutex (Some 9%positive) false) = Done ERR_TIMED_OUT s' /\
    running 2 s'.
Proof.
  destruct (mutex_try_owned 2 10 (mk_mutex MUTEX_MAGIC (Some 9%positive) 1) 9
    (demo_mutex (Some 9%positive) false)) as (s' & Hrun & _ & Hr & _).
  - apply demo_mutex_running.
  - by apply (demo_mutex_ok (Some 9%positive) false).
  - lia.
  - simpl. unfold INT_MAX. lia.
  - exists s'. split; [exact Hrun|exact Hr].
Defined.

Lemma mutex_acquire_contended_witness :
  exists s1 c, parked 2 s1 /\ waiters 10 s1 = [3; 2]%positive /\
    reschedules 2 c s1 (mutex_acquire 10 (demo_mutex (Some 9%positive) true)).
Proof.
  destruct (mutex_acquire_contended 2 10 (mk_mutex MUTEX_MAGIC (Some 9%positive) 2) 9
    (demo_mutex (Some 9%positive) true)) as (s1 & c & Hpk & _ & Hw & Hre & _).
  - apply demo_mutex_running.
  - by apply (demo_mutex_ok (Some 9%positive) true).
  - lia.
  - vm_compute. intros H. inversion H as [|? ? ? H']. inversion H'.
  - unfold _idle_thread. lia.
  - simpl. unfold INT_MAX. lia.
  - exists s1, c. split; [exact Hpk|]. split; [exact Hw|exact Hre].
Defined.

Lemma mutex_release_uncontended_witness :
  exists s', mutex_release 10 (demo_mutex (Some 2%positive) false) = Done NO_ERROR s' /\ running 2 s'.
Proof.
  destruct (mutex_release_uncontended 2 10 (mk_mutex MUTEX_MAGIC (Some 2%positive) 1)
    (demo_mutex (Some 2%positive) false)) as (s' & Hrun & Hr & _).
  - apply demo_mutex_running.
  - by apply (demo_mutex_ok (Some 2%positive) false).
  - reflexivity.
  - reflexivity.
  - exists s'. split; [exact Hrun|exact Hr].
Defined.

Lemma mutex_release_hands_over_witness :
  op_safe 2 true (fun ret _ => ret = NO_ERROR) (mutex_release 10 (demo_mutex (Some 2%positive) true)).
Proof.
  refine (proj2 (mutex_release_hands_over 2 10 (mk_mutex MUTEX_MAGIC (Some 2%positive) 2) 3 []
    (demo_mutex (Some 2%positive) true) _ _ _ _ _)).
  - apply demo_mutex_running.
  - by apply (demo_mutex_ok (Some 2%positive) true).
  - reflexivity.
  - reflexivity.
  - simpl. unfold INT_MAX. lia.
Defined.
