(* ===== verification/Semaphore.v ===== *)
(** * Semaphores ([lk/kernel/semaphore.c], [Include/lk/kernel/semaphore.h])

    The count of a semaphore is the number of free resources, or minus the
    number of threads waiting for one.  The theorems keep that equation and
    say how posts pair with waits; [sem_post_overflow] shows where it breaks. *)

From S2P Require Import Prelude Kernel KInv Sched WaitQueue Footprint.

Section ops.
Context `{Config}.

Definition get_sem (m : ptr) : M semaphore_t := fun s =>
  match semaphores s !! m with Some x => Done x s | None => Fail UB end.
Definition put_sem (m : ptr) (x : semaphore_t) : M unit := fun s =>
  match semaphores s !! m with
  | Some _ => Done tt (k_semaphores (<[m := x]> (semaphores s)) s)
  | None => Fail UB
  end.

Definition sem_init (m : ptr) (value : Z) : M unit :=
  modify (fun s => k_semaphores (<[m := mk_sem SEMAPHORE_MAGIC (s32 value)]> (semaphores s)) s);;
  wait_queue_init (SemWQ m).

Definition sem_destroy (m : ptr) : M unit :=
  st ← THREAD_LOCK;
  x ← get_sem m;
  put_sem m (mk_sem (sem_magic x) 0);;
  wait_queue_destroy (SemWQ m) true;;
  THREAD_UNLOCK st.

Definition sem_post (m : ptr) (resched : bool) : M Z :=
  st ← THREAD_LOCK;
  x ← get_sem m;
  let count := s32 (sem_count x + 1) in
  put_sem m (mk_sem (sem_magic x) count);;
  ret ← (if count <=? 0 then wait_queue_wake_one (SemWQ m) resched NO_ERROR else mret 0);
  THREAD_UNLOCK st;;
  mret ret.

Definition sem_wait (m : ptr) : M Z :=
  st ← THREAD_LOCK;
  x ← get_sem m;
  let count := s32 (sem_count x - 1) in
  put_sem m (mk_sem (sem_magic x) count);;
  ret ← (if count <? 0 then wait_queue_block (SemWQ m) INFINITE_TIME else mret NO_ERROR);
  THREAD_UNLOCK st;;
  mret ret.

Definition sem_trywait (m : ptr) : M Z :=
  st ← THREAD_LOCK;
  x ← get_sem m;
  ret ← (if sem_count x <=? 0 then mret ERR_NOT_READY
         else put_sem m (mk_sem (sem_magic x) (s32 (sem_count x - 1)));; mret NO_ERROR);
  THREAD_UNLOCK st;;
  mret ret.

Definition sem_timedwait (m : ptr) (timeout : Z) : M Z :=
  st ← THREAD_LOCK;
  x ← get_sem m;
  let count := s32 (sem_count x - 1) in
  put_sem m (mk_sem (sem_magic x) count);;
  ret ← (if count <? 0 then
           ret ← wait_queue_block (SemWQ m) timeout;
           when ((ret <? NO_ERROR) && (ret =? ERR_TIMED_OUT))
             (x ← get_sem m; put_sem m (mk_sem (sem_magic x) (s32 (sem_count x + 1))));;
           mret ret
         else mret NO_ERROR);
  THREAD_UNLOCK st;;
  mret ret.

End ops.

(** ** Specification *)

Definition sem_waiters (m : ptr) (s : kstate) : list ptr := queue s (WaitQ (SemWQ m)).

(** [n] resources are free ([n < 0]: [-n] threads wait for one). *)
Record sem_ok (m : ptr) (n : Z) (s : kstate) : Prop := {
  so_sem : semaphores s !! m = Some (mk_sem SEMAPHORE_MAGIC n);
  so_range : INT_MIN <= n <= INT_MAX;
  so_wq : wq_ready (SemWQ m) s;
  so_waiters : Z.of_nat (length (sem_waiters m s)) = Z.max 0 (- n);
}.

Section proofs.
Context `{Config}.
Implicit Types (s : kstate) (m t me : ptr).

Lemma get_sem_ok m x s : semaphores s !! m = Some x -> get_sem m s = Done x s.
Proof. unfold get_sem. by intros ->. Qed.

Lemma put_sem_ok m x x' s :
  semaphores s !! m = Some x -> put_sem m x' s = Done tt (k_semaphores (<[m := x']> (semaphores s)) s).
Proof. unfold put_sem. by intros ->. Qed.

Definition sem_set (m : ptr) (n : Z) (s : kstate) : kstate :=
  k_semaphores (<[m := mk_sem SEMAPHORE_MAGIC n]> (semaphores s)) s.

Lemma sem_set_resumed me m n s : running me s -> resumed me (sem_set m n (lock_state s)).
Proof. intros Hr. eapply resumed_ext; [apply resumed_lock, Hr|done|done]. Qed.

Lemma sem_set_touched me m n s : touched (Some (SemWQ m)) me s (sem_set m n (lock_state s)).
Proof. eapply touched_trans; [apply touched_lock|apply touched_semaphore]. Qed.

Lemma sem_end_touched me m n st s :
  touched (Some (SemWQ m)) me s (unlock_state st (sem_set m n (lock_state s))).
Proof. eapply touched_trans; [apply sem_set_touched|apply touched_unlock]. Qed.

Ltac sem_head Hs := kstep;
  (erewrite bind_done; [|apply get_sem_ok; exact (so_sem _ _ _ Hs)]); cbv zeta; cbn [sem_count sem_magic].
Ltac sem_put Hs := rewrite s32_small by (unfold INT_MIN, INT_MAX in *; lia);
  (erewrite bind_done; [|eapply put_sem_ok; exact (so_sem _ _ _ Hs)]).

Lemma sem_ok_unlock m n st s : sem_ok m n s -> sem_ok m n (unlock_state st s).
Proof. intros [Hs Hr Hw Hl]. unfold unlock_state. by destruct has_flag. Qed.

Lemma sem_ok_set m n n' s :
  sem_ok m n s -> INT_MIN <= n' <= INT_MAX ->
  Z.of_nat (length (sem_waiters m s)) = Z.max 0 (- n') ->
  sem_ok m n' (sem_set m n' (lock_state s)).
Proof. intros [Hs Hr Hw Hl] Hr' Hn. constructor; [simpl; by simplify_map_eq|done|done|done]. Qed.

Lemma sem_ok_dispatched me m n s top s' : dispatched me s top s' -> sem_ok m n s -> sem_ok m n s'.
Proof.
  intros Hd [Hs Hr Hw Hl]. pose proof (dp_frame _ _ _ _ Hd) as Hf. constructor; [|done| |].
  - by rewrite (so_semaphores _ _ Hf).
  - by eapply wq_ready_sched_only.
  - unfold sem_waiters in *. by rewrite (dispatched_wait _ _ _ _ _ Hd).
Qed.

Lemma requeued_sem_ok b me m n p s s1 : requeued b me p s s1 -> sem_ok m n s -> sem_ok m n s1.
Proof.
  intros (_ & ((Hwq & _ & _ & Hsem & _) & _) & _ & Hq) [Hs Hr Hw Hl].
  constructor; [by rewrite Hsem|done|unfold wq_ready in *; by rewrite Hwq|].
  unfold sem_waiters in *. by rewrite Hq.
Qed.

(** [sched_only] steps from the state with the new count. *)
Lemma sem_ok_sched m n n' s s1 :
  sem_ok m n s -> INT_MIN <= n' <= INT_MAX -> sched_only (sem_set m n' (lock_state s)) s1 ->
  Z.of_nat (length (sem_waiters m s1)) = Z.max 0 (- n') -> sem_ok m n' s1.
Proof.
  intros [Hs Hr Hw Hl] Hr' Hso Hn. constructor; [|done| |done].
  - rewrite (so_semaphores _ _ Hso). simpl. by simplify_map_eq.
  - by eapply wq_ready_sched_only.
Qed.

Lemma sem_simple_end {A} me s s1 (a : A) :
  running me s -> resumed me s1 ->
  exists s', (THREAD_UNLOCK (saved_ints s);; mret a) s1 = Done a s' /\ running me s' /\
    ints_enabled s' = ints_enabled s /\ s' = unlock_state (saved_ints s) s1.
Proof.
  intros Hr H1. exists (unlock_state (saved_ints s) s1).
  split; [by kstep|]. split; [by apply unlock_running|]. split; [apply unlock_saved_ints, H1|done].
Qed.

Lemma sem_wq m n s : sem_ok m n s ->
  exists q, wqs (sem_set m (n + 1) (lock_state s)) !! SemWQ m = Some q /\ wq_magic q = WAIT_QUEUE_MAGIC /\
    wq_list q = sem_waiters m s.
Proof. intros Hs. apply (wq_ready_queue (SemWQ m) s), Hs. Qed.

Lemma sem_waiters_unlock m st s : sem_waiters m (unlock_state st s) = sem_waiters m s.
Proof. unfold unlock_state. by destruct has_flag. Qed.

(** *** Posting *)

(** With no waiter. *)
Lemma sem_post_free m me n b s :
  running me s -> sem_ok m n s -> n < INT_MAX -> sem_waiters m s = [] ->
  let s' := unlock_state (saved_ints s) (sem_set m (n + 1) (lock_state s)) in
  sem_post m b s = Done 0 s' /\ sem_ok m (n + 1) s' /\ running me s' /\ ints_enabled s' = ints_enabled s.
Proof.
  intros Hr Hs Hmax Hw. pose proof (so_range _ _ _ Hs) as Hrg. unfold INT_MIN, INT_MAX in *.
  pose proof (sem_set_resumed me m (n + 1) s Hr) as Hres.
  destruct (resumed_thread me _ Hres) as (th & Hth & _). destruct (sem_wq m n s Hs) as (q & Hq & Hqm & Hql).
  pose proof (wake_one_ok me (SemWQ m) NO_ERROR _ q th Hres Hq Hqm Hth) as HH. rewrite Hql, Hw in HH.
  destruct (sem_simple_end me s (sem_set m (n + 1) (lock_state s)) 0 Hr Hres) as (s' & Hend & Hrn & Hie & ->).
  split; [|split; [|done]].
  - unfold sem_post. sem_head Hs. sem_put Hs. erewrite bind_done; [exact Hend|].
    destruct (Z.leb_spec (n + 1) 0); [exact (HH b)|done].
  - pose proof (so_waiters _ _ _ Hs) as Hlen. rewrite Hw in Hlen. simpl in Hlen.
    apply sem_ok_unlock. eapply sem_ok_set; [done|unfold INT_MIN, INT_MAX; lia|]. rewrite Hw. simpl. lia.
Qed.

(** With a waiter [t], which is woken; [s1]: the state when the scheduler is
    entered, or when the call is about to return. *)
Lemma sem_post_wakes m me n (b : bool) s t l :
  running me s -> sem_ok m n s -> n < INT_MAX -> sem_waiters m s = t :: l ->
  exists s1, sem_ok m (n + 1) s1 /\ sem_waiters m s1 = l /\ told_ok s1 t /\ touched (Some (SemWQ m)) me s s1 /\
    (forall t', t' <> me -> told_ok s t' -> told_ok s1 t') /\
    if b then parked me s1 /\ reschedules me (THREAD_UNLOCK (saved_ints s);; mret 1) s1 (sem_post m true s)
    else resumed me s1 /\ sem_post m false s = Done 1 (unlock_state (saved_ints s) s1).
Proof.
  intros Hr Hs Hmax Hw. pose proof (so_range _ _ _ Hs) as Hrg. unfold INT_MIN, INT_MAX in *.
  pose proof (so_waiters _ _ _ Hs) as Hlen. rewrite Hw in Hlen. simpl length in Hlen.
  set (s0 := sem_set m (n + 1) (lock_state s)).
  assert (Hres : resumed me s0) by by apply sem_set_resumed.
  destruct (resumed_thread me _ Hres) as (th & Hth & _). destruct (sem_wq m n s Hs) as (q & Hq & Hqm & Hql).
  assert (Hq0 : queue s0 (WaitQ (SemWQ m)) = t :: l) by exact Hw.
  assert (Hle : n + 1 <=? 0 = true) by (apply Z.leb_le; lia).
  assert (Hfin : forall s' s1, sched_only s0 s' -> woke_all (SemWQ m) NO_ERROR [t] l s' s1 ->
    sem_ok m (n + 1) s1 /\ sem_waiters m s1 = l /\ told_ok s1 t).
  { intros s' s1 Hso Hwk. pose proof (wk_wait _ _ _ _ _ _ Hwk) as Hw1. change (sem_waiters m s1 = l) in Hw1.
    split; [|split; [done|]].
    - eapply sem_ok_sched; [done|unfold INT_MIN, INT_MAX; lia|etrans; [exact Hso|apply Hwk]|]. rewrite Hw1. lia.
    - unfold told_ok, told. rewrite (wk_threads _ _ _ _ _ _ Hwk), decide_True by set_solver.
      destruct (waiter_facts (Some me) ∅ s0 (SemWQ m) q t ltac:(apply Hres) Hq) as (tht & Htht & _);
        [rewrite Hql, Hw; set_solver|].
      destruct (sched_only_threads_eq s0 s' t tht Hso Htht) as (th' & Hth' & _). by rewrite Hth'. }
  assert (Hmv0 : touched (Some (SemWQ m)) me s s0) by apply sem_set_touched.
  pose proof (wake_one_ok me (SemWQ m) NO_ERROR s0 q th Hres Hq Hqm Hth) as HH. rewrite Hql, Hw in HH.
  destruct HH as [(s1 & Hrun & Hres1 & Hwk) (s' & s1' & Hrq & Hso & Hwk' & Hpk & Hre)]. destruct b.
  - exists s1'. destruct (Hfin s' s1' Hso Hwk') as (? & ? & ?). split_and!; try done.
    + eapply touched_trans; [exact Hmv0|eapply (requeued_woke_touched _ _ _ _ _ [t]); [exact Hres|exact Hrq|exact Hw|exact Hwk']].
    + intros t' Hne Ht'. eapply woke_told; [exact Hwk'|]. by eapply requeued_told; [apply Hres|..].
    + unfold sem_post. sem_head Hs. sem_put Hs. rewrite Hle.
      exact (reschedules_bind me _ (fun ret => (THREAD_UNLOCK (saved_ints s);; mret ret) : M Z) _ _ Hre).
  - exists s1. destruct (Hfin s0 s1 ltac:(done) Hwk) as (? & ? & ?). split_and!; try done.
    + eapply touched_trans; [exact Hmv0|eapply (woke_touched _ _ _ [t]); [exact Hw|exact Hwk]].
    + intros t' Hne Ht'. by eapply woke_told.
    + unfold sem_post. sem_head Hs. sem_put Hs. rewrite Hle. erewrite bind_done by exact Hrun. by kstep.
Qed.

(** Posting with no thread waiting adds a resource and returns 0; with
    waiters it wakes the first one, whose wait returns [NO_ERROR], and returns
    1 (after a context switch when rescheduling was asked for). *)
Theorem sem_post_spec me m n s :
  running me s -> sem_ok m n s -> n < INT_MAX ->
  match sem_waiters m s with
  | [] => forall b, exists s', sem_post m b s = Done 0 s' /\ sem_ok m (n + 1) s' /\
      running me s' /\ ints_enabled s' = ints_enabled s
  | t :: l =>
      (exists s', sem_post m false s = Done 1 s' /\ sem_ok m (n + 1) s' /\ sem_waiters m s' = l /\
         running me s' /\ ints_enabled s' = ints_enabled s /\
         wait_queue_block_ret <$> threads s' !! t = Some NO_ERROR) /\
      (exists s1, parked me s1 /\ sem_ok m (n + 1) s1 /\ sem_waiters m s1 = l /\
         wait_queue_block_ret <$> threads s1 !! t = Some NO_ERROR /\
         reschedules me (THREAD_UNLOCK (saved_ints s);; mret 1) s1 (sem_post m true s))
  end.
Proof.
  intros Hr Hs Hmax. destruct (sem_waiters m s) as [|t l] eqn:Hw.
  - intros b. eexists. by eapply (sem_post_free m me n b s).
  - split.
    + destruct (sem_post_wakes m me n false s t l Hr Hs Hmax Hw) as (s1 & Hok & Hw1 & Htold & _ & _ & Hres & Hrun).
      eexists. split; [exact Hrun|]. rewrite sem_waiters_unlock. unfold told_ok, told in Htold.
      split_and!; [by apply sem_ok_unlock|done|by apply unlock_running|apply unlock_saved_ints, Hres|].
      unfold unlock_state. by destruct has_flag.
    + destruct (sem_post_wakes m me n true s t l Hr Hs Hmax Hw) as (s1 & ? & ? & ? & _ & _ & ? & ?). by exists s1.
Qed.

(** *** Waiting *)

Lemma sem_wait_free m me n s :
  running me s -> sem_ok m n s -> INT_MIN < n -> 0 < n ->
  let s' := unlock_state (saved_ints s) (sem_set m (n - 1) (lock_state s)) in
  sem_wait m s = Done NO_ERROR s' /\ sem_ok m (n - 1) s' /\ running me s' /\
  threads s' = threads s /\ ints_enabled s' = ints_enabled s.
Proof.
  intros Hr Hs Hmin Hn. pose proof (so_range _ _ _ Hs) as Hrg. unfold INT_MIN, INT_MAX in *.
  pose proof (so_waiters _ _ _ Hs) as Hlen.
  destruct (sem_simple_end me s (sem_set m (n - 1) (lock_state s)) NO_ERROR Hr) as (s' & Hend & Hrn & Hie & ->);
    [by apply sem_set_resumed|].
  split; [|split; [|split; [done|split; [|done]]]].
  - unfold sem_wait. sem_head Hs. sem_put Hs. rewrite (proj2 (Z.ltb_ge _ _)) by lia. by kstep.
  - apply sem_ok_unlock. eapply sem_ok_set; [done|unfold INT_MIN, INT_MAX; lia|lia].
  - unfold unlock_state. by destruct has_flag.
Qed.

Lemma sem_wait_blocks m me n s :
  running me s -> sem_ok m n s -> INT_MIN < n -> n <= 0 -> me <> _idle_thread ->
  exists s1, parked me s1 /\ sem_ok m (n - 1) s1 /\ sem_waiters m s1 = sem_waiters m s ++ [me] /\
    touched (Some (SemWQ m)) me s s1 /\ told_ok s1 me /\ (forall t, t <> me -> threads s1 !! t = threads s !! t) /\
    reschedules me (block_resume me (saved_ints s)) s1 (sem_wait m s).
Proof.
  intros Hr Hs Hmin Hn Hidle. pose proof (so_range _ _ _ Hs) as Hrg. unfold INT_MIN, INT_MAX in *.
  pose proof (so_waiters _ _ _ Hs) as Hlen.
  set (s0 := sem_set m (n - 1) (lock_state s)). assert (Hres : resumed me s0) by by apply sem_set_resumed.
  destruct (resumed_thread me _ Hres) as (th & Hth & _).
  destruct (so_wq _ _ _ Hs) as (q & Hq & Hqm).
  assert (Hql : wq_list q = sem_waiters m s) by (unfold sem_waiters, queue; by rewrite Hq).
  destruct (block_ok me (SemWQ m) s0 q th INFINITE_TIME Hres Hq Hqm Hth Hidle)
    as (_ & (s1 & Hpk & Hso & Hw1 & Hqs & Hths & Hre) & _).
  rewrite Hql in Hw1. exists s1. split_and!; [done| |exact Hw1| | | |].
  - eapply sem_ok_sched; [done|unfold INT_MIN, INT_MAX; lia|exact Hso|].
    change (queue s1 (WaitQ (SemWQ m))) with (sem_waiters m s1) in Hw1. rewrite Hw1, length_app. simpl. lia.
  - eapply touched_trans; [apply sem_set_touched|]. eapply enqueued_touched; [done..|].
    intros t Hne. by rewrite Hths, lookup_insert_ne.
  - unfold told_ok, told. rewrite Hths. by simplify_map_eq.
  - intros t Hne. by rewrite Hths, lookup_insert_ne.
  - unfold sem_wait. sem_head Hs. sem_put Hs. rewrite (proj2 (Z.ltb_lt _ _)) by lia.
    exact (reschedules_bind me _ (fun ret => (THREAD_UNLOCK (saved_ints s);; mret ret) : M Z) _ _ Hre).
Qed.

(** Waiting takes a free resource at once when there is one; otherwise the
    caller becomes the last waiter, the scheduler chooses another thread and
    the call returns what the waking thread stores. *)
Theorem sem_wait_spec me m n s :
  running me s -> sem_ok m n s -> INT_MIN < n -> me <> _idle_thread ->
  (0 < n -> exists s', sem_wait m s = Done NO_ERROR s' /\ sem_ok m (n - 1) s' /\ running me s' /\
     threads s' = threads s /\ ints_enabled s' = ints_enabled s) /\
  (n <= 0 -> exists s1, parked me s1 /\ sem_ok m (n - 1) s1 /\
     sem_waiters m s1 = sem_waiters m s ++ [me] /\
     reschedules me (block_resume me (saved_ints s)) s1 (sem_wait m s)).
Proof.
  intros Hr Hs Hmin Hidle. split; intros Hn.
  - eexists. by eapply (sem_wait_free m me n s).
  - destruct (sem_wait_blocks m me n s Hr Hs Hmin Hn Hidle) as (s1 & ? & ? & ? & _ & _ & _ & ?). by exists s1.
Qed.

(** *** The waits that do not block *)

(** The state they end in: the count is lower by one when it was positive. *)
Definition sem_tried (m : ptr) (n : Z) (s : kstate) : kstate :=
  unlock_state (saved_ints s) (sem_set m (if n <=? 0 then n else n - 1) (lock_state s)).

Lemma sem_tried_ok me m n s :
  running me s -> sem_ok m n s -> INT_MIN < n ->
  sem_ok m (if n <=? 0 then n else n - 1) (sem_tried m n s) /\ running me (sem_tried m n s) /\
  threads (sem_tried m n s) = threads s /\ ints_enabled (sem_tried m n s) = ints_enabled s /\
  sem_waiters m (sem_tried m n s) = sem_waiters m s.
Proof.
  intros Hr Hs Hmin. pose proof (so_waiters _ _ _ Hs) as Hlen. pose proof (so_range _ _ _ Hs) as Hrg.
  unfold INT_MIN, INT_MAX in *. unfold sem_tried.
  pose proof (sem_set_resumed me m (if n <=? 0 then n else n - 1) s Hr) as Hres. split_and!.
  - apply sem_ok_unlock. destruct (Z.leb_spec n 0); (eapply sem_ok_set; [done|unfold INT_MIN, INT_MAX; lia|lia]).
  - by apply unlock_running.
  - unfold unlock_state. by destruct has_flag.
  - apply unlock_saved_ints, Hres.
  - by rewrite sem_waiters_unlock.
Qed.

Lemma sem_set_id m n s : semaphores s !! m = Some (mk_sem SEMAPHORE_MAGIC n) -> sem_set m n s = s.
Proof. intros Hs. unfold sem_set. rewrite insert_id by done. by destruct s. Qed.

Lemma sem_trywait_ok me m n s :
  running me s -> sem_ok m n s -> INT_MIN < n ->
  sem_trywait m s = Done (if n <=? 0 then ERR_NOT_READY else NO_ERROR) (sem_tried m n s).
Proof.
  intros Hr Hs Hmin. pose proof (so_range _ _ _ Hs) as Hrg. unfold INT_MIN, INT_MAX in *.
  unfold sem_trywait, sem_tried. sem_head Hs. destruct (Z.leb_spec n 0).
  - rewrite sem_set_id by apply Hs. kstep. by kstep.
  - erewrite bind_done; [|by sem_put Hs]. by kstep.
Qed.

Lemma sem_poll_ok me m n s :
  running me s -> sem_ok m n s -> INT_MIN < n ->
  sem_timedwait m 0 s = Done (if n <=? 0 then ERR_TIMED_OUT else NO_ERROR) (sem_tried m n s).
Proof.
  intros Hr Hs Hmin. pose proof (so_range _ _ _ Hs) as Hrg. unfold INT_MIN, INT_MAX in *.
  unfold sem_timedwait, sem_tried. sem_head Hs. sem_put Hs. destruct (Z.leb_spec n 0).
  2: { rewrite (proj2 (Z.ltb_ge _ _)) by lia. kstep. by kstep. }
  rewrite (proj2 (Z.ltb_lt _ _)) by lia. pose proof (sem_set_resumed me m (n - 1) s Hr) as Hres.
  destruct (resumed_thread me _ Hres) as (th & Hth & _). destruct (so_wq _ _ _ Hs) as (q & Hq & Hqm).
  erewrite bind_done; [|erewrite bind_done by (eapply block_zero; [exact Hres|exact Hq|exact Hqm])].
  2: { erewrite bind_done; cycle 1.
       { simpl when. erewrite bind_done; [|apply get_sem_ok; simpl; apply lookup_insert_eq].
         erewrite put_sem_ok by (simpl; apply lookup_insert_eq). reflexivity. }
       reflexivity. }
  simpl. rewrite insert_same, s32_small by (unfold INT_MIN, INT_MAX; lia).
  unfold sem_set. simpl. replace (n - 1 + 1) with n by lia. by kstep.
Qed.

(** The waits that do not block: [sem_trywait] and a zero timeout fail
    without changing the semaphore exactly when no resource is free. *)
Theorem sem_nonblocking_spec me m n s :
  running me s -> sem_ok m n s -> INT_MIN < n ->
  (exists s', sem_trywait m s = Done (if n <=? 0 then ERR_NOT_READY else NO_ERROR) s' /\
     sem_ok m (if n <=? 0 then n else n - 1) s' /\ running me s' /\ threads s' = threads s /\
     ints_enabled s' = ints_enabled s) /\
  (exists s', sem_timedwait m 0 s = Done (if n <=? 0 then ERR_TIMED_OUT else NO_ERROR) s' /\
     sem_ok m (if n <=? 0 then n else n - 1) s' /\ running me s' /\ threads s' = threads s /\
     ints_enabled s' = ints_enabled s).
Proof.
  intros Hr Hs Hmin. destruct (sem_tried_ok me m n s Hr Hs Hmin) as (? & ? & ? & ? & _).
  split; eexists; (split; [by eapply sem_trywait_ok || by eapply sem_poll_ok|done]).
Qed.

(** A post at the largest count wraps the count to [INT_MIN] and wakes
    nobody: the equation between count and waiters is lost, and the next waits
    block although [INT_MAX] resources were posted. *)
Theorem sem_post_overflow me m b s :
  running me s -> sem_ok m INT_MAX s ->
  exists s', sem_post m b s = Done 0 s' /\ running me s' /\
    semaphores s' !! m = Some (mk_sem SEMAPHORE_MAGIC INT_MIN) /\ sem_waiters m s' = [].
Proof.
  intros Hr Hs. pose proof (so_waiters _ _ _ Hs) as Hlen. unfold INT_MAX in Hlen.
  assert (Hw : sem_waiters m s = []) by (destruct (sem_waiters m s); [done|simpl in Hlen; lia]).
  pose proof (sem_set_resumed me m INT_MIN s Hr) as Hres.
  destruct (resumed_thread me _ Hres) as (th & Hth & _).
  destruct (so_wq _ _ _ Hs) as (q & Hq & Hqm).
  assert (Hql : wq_list q = []) by (rewrite <- Hw; unfold sem_waiters, queue; by rewrite Hq).
  pose proof (wake_one_ok me (SemWQ m) NO_ERROR _ q th Hres Hq Hqm Hth) as HH. rewrite Hql in HH.
  destruct (sem_simple_end me s (sem_set m INT_MIN (lock_state s)) 0 Hr Hres)
    as (s' & Hend & Hrn & Hie & Es).
  exists s'. split; [|split; [done|split]].
  - unfold sem_post. sem_head Hs. change (s32 (INT_MAX + 1)) with INT_MIN.
    erewrite bind_done; [|eapply put_sem_ok; exact (so_sem _ _ _ Hs)].
    change (INT_MIN <=? 0) with true. cbv iota. by erewrite bind_done by exact (HH b).
  - rewrite Es. unfold unlock_state. destruct has_flag; simpl; by simplify_map_eq.
  - rewrite Es, <- Hw. unfold unlock_state. by destruct has_flag.
Qed.
End proofs.

(** ** Witnesses *)

Definition demo_sem (n : Z) : kstate :=
  k_semaphores {[11%positive := mk_sem SEMAPHORE_MAGIC n]} demo_state.

Lemma demo_sem_running n : running 2 (demo_sem n).
Proof. constructor; [|done|done]. eapply kinv_ext; [apply demo_kinv|done]. Qed.

Lemma demo_sem_ok n : 0 <= n <= INT_MAX -> sem_ok 11 n (demo_sem n).
Proof.
  intros Hn. constructor; [done|unfold INT_MIN; lia| |].
  - eexists; split; reflexivity.
  - change (sem_waiters 11 (demo_sem n)) with (@nil ptr). simpl. lia.
Qed.

#[local] Existing Instance debug_config.

Lemma sem_post_spec_witness :
  exists s', sem_post 11 true (demo_sem 4) = Done 0 s' /\ sem_ok 11 5 s'.
Proof.
  destruct (sem_post_spec 2 11 4 (demo_sem 4) (demo_sem_running 4)
    (demo_sem_ok 4 ltac:(unfold INT_MAX; lia)) ltac:(unfold INT_MAX; lia) true) as (s' & Hr & Hs & _).
  exists s'. split; [exact Hr|exact Hs].
Defined.

Lemma sem_wait_spec_witness :
  exists s', sem_wait 11 (demo_sem 4) = Done NO_ERROR s' /\ sem_ok 11 3 s'.
Proof.
  destruct (proj1 (sem_wait_spec 2 11 4 (demo_sem 4) (demo_sem_running 4)
    (demo_sem_ok 4 ltac:(unfold INT_MAX; lia)) ltac:(unfold INT_MIN; lia)
    ltac:(unfold _idle_thread; lia)) ltac:(lia)) as (s' & Hr & Hs & _).
  exists s'. split; [exact Hr|exact Hs].
Defined.

Lemma sem_nonblocking_spec_witness :
  exists s', sem_timedwait 11 0 (demo_sem 0) = Done ERR_TIMED_OUT s' /\ sem_ok 11 0 s'.
Proof.
  destruct (proj2 (sem_nonblocking_spec 2 11 0 (demo_sem 0) (demo_sem_running 0)
    (demo_sem_ok 0 ltac:(unfold INT_MAX; lia)) ltac:(unfold INT_MIN; lia))) as (s' & Hr & Hs & _).
  exists s'. split; [exact Hr|exact Hs].
Defined.

Lemma sem_post_overflow_witness :
  exists s', sem_post 11 false (demo_sem INT_MAX) = Done 0 s' /\
    semaphores s' !! 11%positive = Some (mk_sem SEMAPHORE_MAGIC INT_MIN).
Proof.
  destruct (sem_post_overflow 2 11 false (demo_sem INT_MAX) (demo_sem_running INT_MAX)
    (demo_sem_ok INT_MAX ltac:(unfold INT_MAX; lia))) as (s' & Hr & _ & Hs & _).
  exists s'. split; [exact Hr|exact Hs].
Defined.
