(* ===== verification/Event.v ===== *)
(** * Events ([lk/kernel/event.c], [Include/lk/kernel/event.h])

    An event is signaled or not; waiting on a signaled event does not block.
    With [EVENT_FLAG_AUTOUNSIGNAL] a signal releases one thread and is consumed
    by it, without it a signal releases all threads and lasts. *)

From S2P Require Import Prelude Kernel KInv Sched WaitQueue Footprint.

Section ops.
Context `{Config}.

Definition get_event (e : ptr) : M event_t := fun s =>
  match events s !! e with Some x => Done x s | None => Fail UB end.
Definition put_event (e : ptr) (x : event_t) : M unit := fun s =>
  match events s !! e with
  | Some _ => Done tt (k_events (<[e := x]> (events s)) s)
  | None => Fail UB
  end.

Definition event_assert (e : ptr) : M unit :=
  DEBUG_ASSERT (fun s => match events s !! e with
                         | Some x => e_magic x =? EVENT_MAGIC | None => false end).

Definition event_initialized (x : event_t) : bool := e_magic x =? EVENT_MAGIC.

Definition event_init (e : ptr) (initial : bool) (flags : Z) : M unit :=
  modify (fun s => k_events (<[e := mk_event EVENT_MAGIC initial flags]> (events s)) s);;
  wait_queue_init (EventWQ e).

Definition event_destroy (e : ptr) : M unit :=
  event_assert e;;
  st ← THREAD_LOCK;
  put_event e (mk_event 0 false 0);;
  wait_queue_destroy (EventWQ e) true;;
  THREAD_UNLOCK st.

Definition event_wait_timeout (e : ptr) (timeout : Z) : M Z :=
  event_assert e;;
  st ← THREAD_LOCK;
  x ← get_event e;
  ret ← (if e_signaled x then
           when (has_flag (e_flags x) EVENT_FLAG_AUTOUNSIGNAL)
             (put_event e (mk_event (e_magic x) false (e_flags x)));;
           mret NO_ERROR
         else wait_queue_block (EventWQ e) timeout);
  THREAD_UNLOCK st;;
  mret ret.

Definition event_wait (e : ptr) : M Z := event_wait_timeout e INFINITE_TIME.

Definition event_signal (e : ptr) (reschedule : bool) : M Z :=
  event_assert e;;
  st ← THREAD_LOCK;
  x ← get_event e;
  (if negb (e_signaled x) then
     if has_flag (e_flags x) EVENT_FLAG_AUTOUNSIGNAL then
       n ← wait_queue_wake_one (EventWQ e) reschedule NO_ERROR;
       when (n <=? 0)
         (x ← get_event e; put_event e (mk_event (e_magic x) true (e_flags x)))
     else
       put_event e (mk_event (e_magic x) true (e_flags x));;
       wait_queue_wake_all (EventWQ e) reschedule NO_ERROR;;
       mret tt
   else mret tt);;
  THREAD_UNLOCK st;;
  mret NO_ERROR.

Definition event_unsignal (e : ptr) : M Z :=
  event_assert e;;
  x ← get_event e;
  put_event e (mk_event (e_magic x) false (e_flags x));;
  mret NO_ERROR.

End ops.

(** ** Specification *)

Definition event_waiters (e : ptr) (s : kstate) : list ptr := queue s (WaitQ (EventWQ e)).

Record event_ok (e : ptr) (signaled : bool) (flags : Z) (s : kstate) : Prop := {
  eo_event : events s !! e = Some (mk_event EVENT_MAGIC signaled flags);
  eo_wq : wq_ready (EventWQ e) s;
}.

Section proofs.
Context `{Config}.
Implicit Types (s : kstate) (e t me : ptr).

Lemma get_event_ok e x s : events s !! e = Some x -> get_event e s = Done x s.
Proof. unfold get_event. by intros ->. Qed.

Lemma put_event_ok e x x' s :
  events s !! e = Some x -> put_event e x' s = Done tt (k_events (<[e := x']> (events s)) s).
Proof. unfold put_event. by intros ->. Qed.

Lemma event_assert_ok e sg fl s : event_ok e sg fl s -> event_assert e s = Done tt s.
Proof. intros [He _]. apply DEBUG_ASSERT_ok. by rewrite He. Qed.

Definition event_set (e : ptr) (sg : bool) (fl : Z) (s : kstate) : kstate :=
  k_events (<[e := mk_event EVENT_MAGIC sg fl]> (events s)) s.

Lemma event_ok_set e sg fl sg' s : event_ok e sg fl s -> event_ok e sg' fl (event_set e sg' fl s).
Proof. intros [He Hw]. constructor; [simpl; by simplify_map_eq|done]. Qed.

Lemma event_ok_unlock e sg fl st s : event_ok e sg fl s -> event_ok e sg fl (unlock_state st s).
Proof. intros [He Hw]. unfold unlock_state. by destruct has_flag. Qed.

Lemma event_ok_sched e sg fl s s1 : event_ok e sg fl s -> sched_only s s1 -> event_ok e sg fl s1.
Proof.
  intros [He Hw] Hso. constructor; [by rewrite (so_events _ _ Hso)|by eapply wq_ready_sched_only].
Qed.

Lemma event_set_resumed me e sg fl s : resumed me s -> resumed me (event_set e sg fl s).
Proof. intros Hr. by eapply resumed_ext. Qed.

Lemma event_set_touched me e sg fl s : touched (Some (EventWQ e)) me s (event_set e sg fl (lock_state s)).
Proof. eapply touched_trans; [apply touched_lock|apply touched_event]. Qed.

Ltac event_head He :=
  (erewrite bind_done; [|eapply event_assert_ok; exact He]); kstep;
  (erewrite bind_done; [|apply get_event_ok; exact (eo_event _ _ _ _ He)]); cbn [e_signaled e_flags e_magic].

Lemma unlock_end {A} me s s1 (a : A) :
  running me s -> resumed me s1 ->
  exists s', (THREAD_UNLOCK (saved_ints s);; mret a) s1 = Done a s' /\ running me s' /\
    ints_enabled s' = ints_enabled s /\ s' = unlock_state (saved_ints s) s1.
Proof.
  intros Hr H1. exists (unlock_state (saved_ints s) s1).
  split; [by kstep|]. split; [by apply unlock_running|]. split; [apply unlock_saved_ints, H1|done].
Qed.

(** The state after taking the signal. *)
Definition taken_state (e : ptr) (fl : Z) (s : kstate) : kstate :=
  unlock_state (saved_ints s)
    (if has_flag fl EVENT_FLAG_AUTOUNSIGNAL then event_set e false fl (lock_state s) else lock_state s).

Lemma event_wait_signaled me e fl timeout s :
  running me s -> event_ok e true fl s ->
  event_wait_timeout e timeout s = Done NO_ERROR (taken_state e fl s) /\
  running me (taken_state e fl s) /\
  event_ok e (negb (has_flag fl EVENT_FLAG_AUTOUNSIGNAL)) fl (taken_state e fl s) /\
  ints_enabled (taken_state e fl s) = ints_enabled s.
Proof.
  intros Hr He. pose proof (resumed_lock me s Hr) as Hres. unfold taken_state.
  set (s1 := if has_flag fl _ then _ else _).
  assert (Hres1 : resumed me s1).
  { unfold s1. destruct has_flag; [by apply event_set_resumed|done]. }
  destruct (unlock_end me s s1 NO_ERROR Hr Hres1) as (s' & Hend & Hrn & Hie & Es).
  rewrite <- Es. split; [|split; [done|split; [|done]]].
  - unfold event_wait_timeout. event_head He. erewrite bind_done; [exact Hend|].
    unfold s1. destruct (has_flag fl EVENT_FLAG_AUTOUNSIGNAL); [|by kstep].
    simpl when. by erewrite bind_done by (eapply put_event_ok; exact (eo_event _ _ _ _ He)).
  - rewrite Es. apply event_ok_unlock. unfold s1. destruct has_flag; simpl; [|by destruct He].
    by apply (event_ok_set e true fl false (lock_state s)); destruct He.
Qed.

Lemma taken_touched me e fl s : touched (Some (EventWQ e)) me s (taken_state e fl s).
Proof.
  eapply touched_trans; [|apply touched_unlock]. destruct has_flag; [apply event_set_touched|apply touched_lock].
Qed.

Lemma event_wait_blocks me e fl s :
  running me s -> event_ok e false fl s -> me <> _idle_thread ->
  exists s1, parked me s1 /\ event_ok e false fl s1 /\ sched_only (lock_state s) s1 /\
    event_waiters e s1 = event_waiters e s ++ [me] /\
    touched (Some (EventWQ e)) me s s1 /\ told_ok s1 me /\
    (forall t, t <> me -> threads s1 !! t = threads s !! t) /\
    reschedules me (block_resume me (saved_ints s)) s1 (event_wait e s).
Proof.
  intros Hr He Hidle. pose proof (resumed_lock me s Hr) as Hres.
  destruct (resumed_thread me _ Hres) as (th & Hth & _).
  destruct (eo_wq _ _ _ _ He) as (q & Hq & Hqm).
  assert (Hql : wq_list q = event_waiters e s) by (unfold event_waiters, queue; by rewrite Hq).
  destruct (block_ok me (EventWQ e) _ q th INFINITE_TIME Hres Hq Hqm Hth Hidle)
    as (_ & (s1 & Hpk & Hso & Hw1 & Hwo & Hths & Hre) & _).
  assert (Hother : forall t, t <> me -> threads s1 !! t = threads s !! t).
  { intros t Hne. by rewrite Hths, lookup_insert_ne. }
  rewrite Hql in Hw1. exists s1. split; [done|split; [|split; [done|split; [exact Hw1|split; [|split; [|split; [done|]]]]]]].
  - eapply event_ok_sched; [|exact Hso]. by destruct He.
  - eapply touched_trans; [apply touched_lock|]. by eapply enqueued_touched.
  - unfold told_ok, told. rewrite Hths. by simplify_map_eq.
  - unfold event_wait, event_wait_timeout. event_head He.
    exact (reschedules_bind me _ (fun ret => (THREAD_UNLOCK (saved_ints s);; mret ret) : M Z) _ _ Hre).
Qed.

Lemma event_poll_unsignaled me e fl s : running me s -> event_ok e false fl s ->
  event_wait_timeout e 0 s = Done ERR_TIMED_OUT (unlock_state (saved_ints s) (lock_state s)).
Proof.
  intros Hr He. pose proof (resumed_lock me s Hr) as Hres. destruct (eo_wq _ _ _ _ He) as (q & Hq & Hqm).
  unfold event_wait_timeout. event_head He.
  erewrite bind_done by exact (block_zero me (EventWQ e) (lock_state s) q Hres Hq Hqm). by kstep.
Qed.

Lemma event_unsignal_ok e sg fl s : event_ok e sg fl s ->
  event_unsignal e s = Done NO_ERROR (event_set e false fl s).
Proof.
  intros He. unfold event_unsignal. erewrite bind_done; [|eapply event_assert_ok; exact He].
  erewrite bind_done by (apply get_event_ok; exact (eo_event _ _ _ _ He)).
  by erewrite bind_done by (eapply put_event_ok; exact (eo_event _ _ _ _ He)).
Qed.

Lemma event_set_running me e sg fl s : running me s -> running me (event_set e sg fl s).
Proof. intros [HI Hc Hl]. constructor; [|done|done]. by eapply kinv_ext. Qed.

(** Waiting on a signaled event returns at once and consumes the signal
    exactly when the event is auto-unsignaling; waiting on an unsignaled event
    queues the caller behind the other waiters and returns what the waking
    thread stores. *)
Theorem event_wait_spec me e sg fl s :
  running me s -> event_ok e sg fl s -> me <> _idle_thread ->
  (sg = true -> forall timeout, exists s', event_wait_timeout e timeout s = Done NO_ERROR s' /\
     event_ok e (negb (has_flag fl EVENT_FLAG_AUTOUNSIGNAL)) fl s' /\ running me s' /\
     threads s' = threads s /\ ints_enabled s' = ints_enabled s) /\
  (sg = false -> exists s1, parked me s1 /\ event_ok e false fl s1 /\
     event_waiters e s1 = event_waiters e s ++ [me] /\
     reschedules me (block_resume me (saved_ints s)) s1 (event_wait e s)).
Proof.
  intros Hr He Hidle. split; intros ->.
  - intros timeout. destruct (event_wait_signaled me e fl timeout s Hr He) as (Hrun & Hr' & He' & Hi').
    exists (taken_state e fl s). do 3 (split; [done|]). split; [|done].
    unfold taken_state, unlock_state. by destruct (has_flag fl _), (has_flag (saved_ints s) _).
  - destruct (event_wait_blocks me e fl s Hr He Hidle) as (s1 & ? & ? & _ & ? & _ & _ & _ & ?). by exists s1.
Qed.

(** The threads a signal releases, of those that wait, and whether the event
    is signaled afterwards. *)
Definition woken_by (sg : bool) (fl : Z) (ws : list ptr) : list ptr :=
  if sg then [] else if has_flag fl EVENT_FLAG_AUTOUNSIGNAL then firstn 1 ws else ws.
Definition signaled_after (sg : bool) (fl : Z) (ws : list ptr) : bool :=
  sg || negb (has_flag fl EVENT_FLAG_AUTOUNSIGNAL) || bool_decide (ws = []).

(** What a signal leaves when the scheduler is entered, or when the call is
    about to return: the threads [woken] were released with [NO_ERROR], the
    threads [left] still wait. *)
Record signal_effect (me e : ptr) (sg : bool) (fl : Z) (left woken : list ptr) (s s1 : kstate) : Prop := {
  se_ok : event_ok e sg fl s1;
  se_left : event_waiters e s1 = left;
  se_woken : forall t, t ∈ woken -> told_ok s1 t;
  se_touched : touched (Some (EventWQ e)) me s s1;
  se_told : forall t, t <> me -> told_ok s t -> told_ok s1 t;
}.

Lemma event_ok_touched o me e sg fl s s1 :
  touched o me s s1 -> o <> Some (EventWQ e) -> event_ok e sg fl s -> event_ok e sg fl s1.
Proof.
  intros Htc Ho [He Hw]. constructor; [by rewrite (tc_events _ _ _ _ Htc)|by apply (tc_ready _ _ _ _ Htc)].
Qed.

(** A wake, from the state [s0] with the new signal. *)
Lemma signal_effect_woke me e sg sg0 fl ws l s s0 s' s1 :
  event_ok e sg0 fl s -> s0 = event_set e sg fl (lock_state s) \/ s0 = lock_state s /\ sg = sg0 ->
  resumed me s0 -> event_waiters e s = ws ++ l -> s' = s0 \/ (exists b p, requeued b me p s0 s') ->
  woke_all (EventWQ e) NO_ERROR ws l s' s1 -> signal_effect me e sg fl l ws s s1.
Proof.
  intros He Hs0 Hres Hw Hs' Hwk. destruct (resumed_thread me _ Hres) as (th & Hth & _).
  assert (H0 : event_ok e sg fl s0 /\ touched (Some (EventWQ e)) me s s0 /\ queue s0 (WaitQ (EventWQ e)) = ws ++ l /\
    threads s0 = threads s).
  { destruct Hs0 as [->|[-> ->]].
    - split; [apply (event_ok_set e sg0); by destruct He|]. split; [apply event_set_touched|]. done.
    - split; [by destruct He|]. split; [apply touched_lock|]. done. }
  destruct H0 as (He0 & Htc0 & Hq0 & Hth0).
  assert (H1 : event_ok e sg fl s' /\ touched (Some (EventWQ e)) me s0 s' /\ queue s' (WaitQ (EventWQ e)) = ws ++ l /\
    (forall t, t <> me -> threads s' !! t = threads s !! t)).
  { destruct Hs' as [->|(b & p & Hrq)]; [rewrite Hth0; by split_and!; [|apply touched_refl|..]|].
    assert (Htc : touched None me s0 s') by (eapply requeued_touched; [apply Hres|by eexists|exact Hrq]).
    split; [by eapply event_ok_touched|]. split; [by apply touched_weaken|].
    split; [by rewrite (tc_queue _ _ _ _ Htc)|].
    intros t Hne. destruct Hrq as (_ & [_ Hths] & _). rewrite Hths, Hth0; [done|].
    rewrite (proj1 (proj2 Hres)). congruence. }
  destruct H1 as (He1 & Htc1 & Hq1 & Hth1).
  constructor.
  - eapply event_ok_sched; [exact He1|apply Hwk].
  - exact (wk_wait _ _ _ _ _ _ Hwk).
  - intros t Ht. assert (Hin : t ∈ queue s0 (WaitQ (EventWQ e))) by (rewrite Hq0; set_solver).
    pose proof Hin as Hin'. apply (ki_home _ _ _ (proj1 Hres)) in Hin' as (_ & tht & Htht & _).
    assert (Hne : t <> me) by (intros ->; by eapply current_not_queued, Hin; apply Hres).
    eapply woke_told_in; [exact Hwk|done|]. rewrite Hth1, <- Hth0 by done. exact Htht.
  - eapply touched_trans; [exact Htc0|]. eapply touched_trans; [exact Htc1|]. by eapply woke_touched.
  - intros t Hne Ht. eapply woke_told; [exact Hwk|]. unfold told_ok, told. by rewrite Hth1.
Qed.

(** How a signal ends, with [woken] released: at once, or through the
    scheduler. *)
Definition signal_end (me e : ptr) (b : bool) (woken : list ptr) (s s1 : kstate) : Prop :=
  if b && negb (bool_decide (woken = []))
  then parked me s1 /\ reschedules me (THREAD_UNLOCK (saved_ints s);; mret NO_ERROR) s1 (event_signal e b s)
  else resumed me s1 /\ event_signal e b s = Done NO_ERROR (unlock_state (saved_ints s) s1).

Lemma signal_signaled me e fl b s :
  running me s -> event_ok e true fl s ->
  signal_effect me e true fl (event_waiters e s) [] s (lock_state s) /\ signal_end me e b [] s (lock_state s).
Proof.
  intros Hr He. pose proof (resumed_lock me s Hr) as Hres. split.
  - constructor; [by destruct He|done|set_solver|apply touched_lock|done].
  - unfold signal_end. rewrite andb_false_r. split; [done|]. unfold event_signal. event_head He. kstep. by kstep.
Qed.

Lemma signal_auto me e fl b s :
  running me s -> event_ok e false fl s -> has_flag fl EVENT_FLAG_AUTOUNSIGNAL = true ->
  exists s1, signal_effect me e (bool_decide (event_waiters e s = [])) fl (skipn 1 (event_waiters e s))
    (firstn 1 (event_waiters e s)) s s1 /\ signal_end me e b (firstn 1 (event_waiters e s)) s s1.
Proof.
  intros Hr He Hfl. pose proof (resumed_lock me s Hr) as Hres.
  destruct (wq_ready_queue _ _ (eo_wq _ _ _ _ He)) as (q & Hq & Hqm & Hql).
  destruct (resumed_thread me _ Hres) as (th & Hth & _).
  pose proof (wake_one_ok me (EventWQ e) NO_ERROR _ q th Hres Hq Hqm Hth) as HH. rewrite Hql in HH.
  change (queue s (WaitQ (EventWQ e))) with (event_waiters e s) in *.
  destruct (event_waiters e s) as [|t l] eqn:Hw.
  - exists (event_set e true fl (lock_state s)). split.
    + constructor; [|done|set_solver|apply event_set_touched|done].
      apply (event_ok_set e false fl true (lock_state s)). by destruct He.
    + unfold signal_end. rewrite andb_false_r. split; [by apply event_set_resumed|].
      unfold event_signal. event_head He. rewrite Hfl. simpl negb. cbv iota.
      erewrite bind_done; cycle 1.
      { erewrite bind_done by exact (HH b). simpl when.
        erewrite bind_done by (apply get_event_ok; exact (eo_event _ _ _ _ He)).
        eapply put_event_ok; exact (eo_event _ _ _ _ He). }
      by kstep.
  - destruct HH as [(s1 & Hrun & Hres1 & Hwk) (s' & s1' & Hrq & _ & Hwk' & Hpk & Hre)].
    rewrite bool_decide_eq_false_2 by done. destruct b.
    + exists s1'. split.
      * eapply (signal_effect_woke me e false false fl [t] l s (lock_state s)); [done|by right|done|done|right; eauto|done].
      * unfold signal_end. simpl. split; [done|].
        unfold event_signal. event_head He. rewrite Hfl. simpl negb. cbv iota.
        pose proof (reschedules_bind me _ (fun n => when (n <=? 0)
          (x ← get_event e; put_event e (mk_event (e_magic x) true (e_flags x))) : M unit) _ _ Hre) as Hre1.
        exact (reschedules_bind me _
          (fun _ : unit => (THREAD_UNLOCK (saved_ints s);; mret NO_ERROR) : M Z) _ _ Hre1).
    + exists s1. split.
      * by eapply (signal_effect_woke me e false false fl [t] l s (lock_state s)); [|right|..|left|].
      * split; [done|]. unfold event_signal. event_head He. rewrite Hfl. simpl negb. cbv iota.
        erewrite bind_done; cycle 1.
        { erewrite bind_done by exact Hrun. reflexivity. }
        by kstep.
Qed.

Lemma signal_all me e fl b s :
  running me s -> event_ok e false fl s -> has_flag fl EVENT_FLAG_AUTOUNSIGNAL = false ->
  exists s1, signal_effect me e true fl [] (event_waiters e s) s s1 /\
    signal_end me e b (event_waiters e s) s s1.
Proof.
  intros Hr He Hfl. pose proof (event_set_resumed me e true fl _ (resumed_lock me s Hr)) as Hres0.
  destruct (wq_ready_queue _ _ (eo_wq _ _ _ _ He)) as (q & Hq & Hqm & Hql).
  change (queue s (WaitQ (EventWQ e))) with (event_waiters e s) in Hql.
  destruct (resumed_thread me _ Hres0) as (th & Hth & _).
  assert (Hws : event_waiters e s = event_waiters e s ++ []) by by rewrite app_nil_r.
  destruct (decide (b = true /\ event_waiters e s <> [])) as [[-> Hne]|Hnb].
  - destruct (wake_all_resched_ok me (EventWQ e) NO_ERROR _ q th Hres0 Hq Hqm Hth) as [_ Hwake].
    rewrite Hql in Hwake. destruct (Hwake Hne) as (s' & s1 & Hrq & Hwk & Hpk & Hre). exists s1. split.
    + eapply (signal_effect_woke me e true false fl); [done|by left|done|exact Hws|right; eauto|exact Hwk].
    + unfold signal_end. rewrite bool_decide_eq_false_2 by done. simpl. split; [done|].
      unfold event_signal. event_head He. rewrite Hfl. simpl negb. cbv iota.
      pose proof (reschedules_bind me _ (fun _ => mret tt : M unit) _ _ Hre) as Hre1.
      pose proof (reschedules_bind me _
        (fun _ : unit => (THREAD_UNLOCK (saved_ints s);; mret NO_ERROR) : M Z) _ _ Hre1) as Hre2.
      match goal with |- reschedules _ _ _ ((?m ≫= ?f) ?s0) => change ((m ≫= f) s0) with (bind_run f (m s0)) end.
      rewrite (bind_done _ _ _ _ _ (put_event_ok e _ (mk_event EVENT_MAGIC true fl) (lock_state s)
        (eo_event _ _ _ _ He))). exact Hre2.
  - assert (Hend : exists s1, wait_queue_wake_all (EventWQ e) b NO_ERROR (event_set e true fl (lock_state s)) =
        Done (Z.of_nat (length (event_waiters e s))) s1 /\ resumed me s1 /\
        woke_all (EventWQ e) NO_ERROR (event_waiters e s) [] (event_set e true fl (lock_state s)) s1).
    { destruct (wake_all_ok me (EventWQ e) NO_ERROR _ q Hres0 Hq Hqm) as (s1 & Hrun & Hres1 & Hwk).
      rewrite Hql in Hrun, Hwk. destruct b; [|by exists s1].
      assert (Hnil : event_waiters e s = []) by (destruct (decide (event_waiters e s = [])); [done|tauto]).
      pose proof (wake_all_none me (EventWQ e) false NO_ERROR _ q Hres0 Hq Hqm ltac:(by rewrite Hql)) as Hf.
      rewrite Hf in Hrun. injection Hrun as _ <-. exists (event_set e true fl (lock_state s)).
      rewrite Hnil in *. split; [|done]. by eapply wake_all_none. }
    destruct Hend as (s1 & Hrun & Hres1 & Hwk). exists s1. split.
    + by eapply (signal_effect_woke me e true false fl); [|left|..|exact Hws|left|exact Hwk].
    + unfold signal_end. replace (b && negb (bool_decide (event_waiters e s = []))) with false.
      2: { destruct b; [|done]. rewrite bool_decide_eq_true_2; [done|].
           destruct (decide (event_waiters e s = [])); [done|tauto]. }
      split; [done|]. unfold event_signal. event_head He. rewrite Hfl. simpl negb. cbv iota.
      erewrite bind_done; cycle 1.
      { erewrite bind_done by (eapply put_event_ok; exact (eo_event _ _ _ _ He)).
        erewrite bind_done by exact Hrun. reflexivity. }
      by kstep.
Qed.

Lemma event_signal_effect me e sg fl b s :
  running me s -> event_ok e sg fl s ->
  let ws := event_waiters e s in let woken := woken_by sg fl ws in
  exists s1, signal_effect me e (signaled_after sg fl ws) fl (skipn (length woken) ws) woken s s1 /\
    signal_end me e b woken s s1.
Proof.
  intros Hr He ws woken. unfold woken, woken_by, signaled_after. destruct sg.
  - eexists. by apply signal_signaled.
  - destruct (has_flag fl EVENT_FLAG_AUTOUNSIGNAL) eqn:Hfl.
    + destruct (signal_auto me e fl b s Hr He Hfl) as (s1 & Heff & Hend). exists s1. split; [|done].
      unfold ws. by destruct (event_waiters e s).
    + destruct (signal_all me e fl b s Hr He Hfl) as (s1 & Heff & Hend). exists s1. split; [|done].
      by rewrite skipn_all.
Qed.

(** Signaling without rescheduling.  A signaled event stays as it is.  An
    auto-unsignaling event releases its first waiter and stays unsignaled, or
    becomes signaled when nobody waits; any other event becomes signaled and
    releases all waiters.  The released threads' waits return [NO_ERROR]. *)
Theorem event_signal_spec me e sg fl s :
  running me s -> event_ok e sg fl s ->
  exists s', event_signal e false s = Done NO_ERROR s' /\ running me s' /\
    ints_enabled s' = ints_enabled s /\
    let woken := if sg then [] else if has_flag fl EVENT_FLAG_AUTOUNSIGNAL
                 then firstn 1 (event_waiters e s) else event_waiters e s in
    event_ok e (sg || negb (has_flag fl EVENT_FLAG_AUTOUNSIGNAL) ||
                bool_decide (event_waiters e s = [])) fl s' /\
    event_waiters e s' = skipn (length woken) (event_waiters e s) /\
    (forall t, t ∈ woken -> wait_queue_block_ret <$> threads s' !! t = Some NO_ERROR).
Proof.
  intros Hr He. destruct (event_signal_effect me e sg fl false s Hr He) as (s1 & [Hok Hl Hw _ _] & Hres & Hrun).
  exists (unlock_state (saved_ints s) s1). split; [exact Hrun|]. split; [by apply unlock_running|].
  split; [apply unlock_saved_ints, Hres|]. split; [by apply event_ok_unlock|]. split.
  - etrans; [|exact Hl]. unfold unlock_state. by destruct has_flag.
  - intros t Ht. replace (threads (unlock_state _ s1)) with (threads s1); [exact (Hw t Ht)|].
    unfold unlock_state. by destruct (has_flag (saved_ints s) _).
Qed.

(** Signaling an auto-unsignaling event with rescheduling: the first waiter
    goes in front of the caller, the scheduler chooses, and the caller returns
    when it is chosen. *)
Lemma event_signal_resched me e fl s th t l :
  running me s -> event_ok e false fl s -> has_flag fl EVENT_FLAG_AUTOUNSIGNAL = true ->
  event_waiters e s = t :: l -> threads s !! me = Some th ->
  exists s0 s1 c, requeued false me (priority th) (lock_state s) s0 /\ sched_only (lock_state s) s0 /\
    woke_all (EventWQ e) NO_ERROR [t] l s0 s1 /\ parked me s1 /\ event_ok e false fl s1 /\
    reschedules me c s1 (event_signal e true s) /\
    (forall s2, c s2 = Done NO_ERROR (unlock_state (saved_ints s) s2)).
Proof.
  intros Hr He Hfl Hw Hth. pose proof (resumed_lock me s Hr) as Hres.
  destruct (wq_ready_queue _ _ (eo_wq _ _ _ _ He)) as (q & Hq & Hqm & Hql).
  change (queue s (WaitQ (EventWQ e))) with (event_waiters e s) in Hql. rewrite Hw in Hql.
  pose proof (wake_one_ok me (EventWQ e) NO_ERROR _ q th Hres Hq Hqm Hth) as HH. rewrite Hql in HH.
  destruct HH as (_ & s0 & s1 & Hrq & Hso & Hwk & Hpk & Hre).
  exists s0, s1. eexists. split; [done|]. split; [done|]. split; [done|]. split; [done|]. split.
  { eapply event_ok_sched; [|etrans; [exact Hso|apply Hwk]]. by destruct He. }
  split.
  - unfold event_signal. event_head He. rewrite Hfl. simpl negb. cbv iota.
    apply (reschedules_bind me), (reschedules_bind me). exact Hre.
  - intros s2. kstep. by kstep.
Qed.
End proofs.

(** ** Witnesses *)

Definition demo_event (sg : bool) (fl : Z) : kstate :=
  k_events {[12%positive := mk_event EVENT_MAGIC sg fl]} demo_state.

Lemma demo_event_running sg fl : running 2 (demo_event sg fl).
Proof. constructor; [|done|done]. eapply kinv_ext; [apply demo_kinv|done]. Qed.

Lemma demo_event_ok sg fl : event_ok 12 sg fl (demo_event sg fl).
Proof. constructor; [done|]. eexists; split; reflexivity. Qed.

#[local] Existing Instance debug_config.

Lemma event_wait_spec_witness :
  exists s', event_wait_timeout 12 7 (demo_event true 1) = Done NO_ERROR s' /\ event_ok 12 false 1 s'.
Proof.
  destruct (proj1 (event_wait_spec 2 12 true 1 (demo_event true 1) (demo_event_running true 1)
    (demo_event_ok true 1) ltac:(unfold _idle_thread; lia)) eq_refl 7) as (s' & Hr & He & _).
  exists s'. split; [exact Hr|exact He].
Defined.

Lemma event_signal_spec_witness :
  exists s', event_signal 12 false (demo_event false 1) = Done NO_ERROR s' /\ event_ok 12 true 1 s'.
Proof.
  destruct (event_signal_spec 2 12 false 1 (demo_event false 1) (demo_event_running false 1)
    (demo_event_ok false 1)) as (s' & Hr & _ & _ & He & _).
  exists s'. split; [exact Hr|exact He].
Defined.
