(* ===== verification/Interleave.v ===== *)
(** * All threads together

    The coroutine kernel as a whole.  A machine is the kernel state with, for
    every thread that is not executing its own code, the rest of the kernel
    call it is in, and the state of a specification (ghost state).  A step is a
    kernel call of the thread that has the CPU, or the continuation of the call
    of a thread that has got it back; which call a thread makes, and when, is
    arbitrary within a rule of use.  Threads yield, are preempted by the clock,
    change their priority, and make the calls of a [Protocol], such as those of
    one mutex.  A protocol that fulfils its laws keeps its invariant, and the
    scheduler its own, under every interleaving.  Each of the calls is one
    critical section from [THREAD_LOCK] to [THREAD_UNLOCK], with interrupts off;
    a preemption may come between any two steps. *)

From S2P Require Import Prelude Kernel KInv Sched WaitQueue Footprint Thread.

(** The calls every thread may make; [BStart]: a thread that has not run yet
    returns from its first context switch ([initial_thread_func]). *)
Inductive base := BYield | BPreempt | BSetPriority (p : Z) | BStart.

#[export] Instance base_eq_dec : EqDecision base.
Proof. solve_decision. Defined.

(** The rest of the calls in progress. *)
Abbreviation pends Op := (gmap ptr ((base + Op) * (kstate -> run Z))).

(** The calls of a component, the object they are made on, their rule of use,
    and what a specification notes when a call begins and when it returns. *)
Class Protocol (Op G : Type) := {
  p_exec : Op -> M Z;
  p_obj : Op -> wqid;
  p_allowed : Op -> ptr -> kstate -> G -> Prop;
  p_allowed_dec :: forall o me s g, Decision (p_allowed o me s g);
  p_enter : Op -> ptr -> G -> G;
  p_exit : Op -> ptr -> Z -> G -> G;
}.

Section machine.
Context `{Config} {Op G : Type} `{!Protocol Op G}.

Record machine := mk_machine { ks : kstate; pend : pends Op; ghost : G }.

Definition base_exec (b : base) : M Z :=
  match b with
  | BYield => thread_yield;; mret 0
  | BPreempt => thread_preempt;; mret 0
  | BSetPriority p => thread_set_priority p;; mret 0
  | BStart => spin_unlock;; mret 0
  end.

Definition exec (c : base + Op) : M Z := match c with inl b => base_exec b | inr o => p_exec o end.

Definition allowed (c : base + Op) (me : ptr) (mc : machine) : Prop :=
  match c with inl b => b <> BStart | inr o => p_allowed o me (ks mc) (ghost mc) end.

Definition enter (c : base + Op) (me : ptr) (mc : machine) : machine :=
  match c with
  | inl _ => mc
  | inr o => mk_machine (ks mc) (pend mc) (p_enter o me (ghost mc))
  end.

Definition exit_ghost (c : base + Op) (me : ptr) (ret : Z) (g : G) : G :=
  match c with inl _ => g | inr o => p_exit o me ret g end.

(** What becomes of the machine when the call [c] of [me] returns, switches
    to another thread, or fails ([None]). *)
Definition finish (me : ptr) (c : base + Op) (r : run Z) (mc : machine) : option machine :=
  match r with
  | Done ret s' => Some (mk_machine s' (delete me (pend mc)) (exit_ghost c me ret (ghost mc)))
  | Switch s' k => Some (mk_machine s' (<[me := (c, k)]> (pend mc)) (ghost mc))
  | Fail _ => None
  end.

Inductive mstep : machine -> option machine -> Prop :=
| ms_call me c mc :
    current_thread (ks mc) = Some me -> pend mc !! me = None -> allowed c me mc ->
    mstep mc (finish me c (exec c (ks mc)) (enter c me mc))
| ms_resume me c k mc :
    current_thread (ks mc) = Some me -> pend mc !! me = Some (c, k) ->
    mstep mc (finish me c (k (ks mc)) mc).

#[export] Instance allowed_dec c me mc : Decision (allowed c me mc).
Proof. destruct c; unfold allowed; apply _. Defined.

(** A schedule: the calls the threads make, in the order of the CPU. *)
Fixpoint drive (l : list (base + Op)) (mc : machine) : option machine :=
  match l with
  | [] => Some mc
  | c :: l =>
      me ← current_thread (ks mc);
      mc' ← match pend mc !! me with
            | Some (c', k) => finish me c' (k (ks mc)) mc
            | None => if decide (allowed c me mc) then finish me c (exec c (ks mc)) (enter c me mc) else None
            end;
      drive l mc'
  end.

Definition steps : machine -> machine -> Prop := rtc (fun a b => mstep a (Some b)).

(** The system at start: [me] runs, the others have not run yet. *)
Definition boot_pends (me : ptr) (s : kstate) : pends Op :=
  (fun _ => (inl BStart, base_exec BStart)) <$> delete me (threads s).
Definition boot (me : ptr) (s : kstate) (g : G) : machine := mk_machine s (boot_pends me s) g.

Lemma drive_steps l mc mc' : drive l mc = Some mc' -> steps mc mc'.
Proof.
  revert mc. induction l as [|c l IH]; simpl; intros mc Hd; [simplify_eq; apply rtc_refl|].
  destruct (current_thread (ks mc)) as [me|] eqn:Hc; [simpl in Hd|done].
  apply bind_Some in Hd as (mc1 & H1 & Hd). eapply rtc_l; [|by apply IH]. rewrite <- H1.
  destruct (pend mc !! me) as [[c' k]|] eqn:Hp; [by apply ms_resume|].
  case_decide; [by apply ms_call|done].
Qed.

(** For concrete schedules. *)
Lemma drive_default_steps l mc :
  match drive l mc with Some _ => true | None => false end = true -> steps mc (default mc (drive l mc)).
Proof. destruct (drive l mc) as [mc'|] eqn:Hd; [intros _|done]. by eapply drive_steps. Qed.
End machine.
Arguments machine Op G : clear implicits.

(** ** The laws of a protocol *)

Definition few_threads (s : kstate) : Prop := Z.of_nat (size (dom (threads s))) < INT_MAX.

(** A call returns, or gives up the CPU with something left to do; in between
    no other thread has come into a queue.  [inv] holds at the end, of the
    calls in progress then. *)
Definition call_outcome {Op G : Type} `{!Protocol Op G} (inv : kstate -> pends Op -> G -> Prop)
    (me : ptr) (o : Op) (r : run Z) (s : kstate) (pd : pends Op) (g : G) : Prop :=
  (exists ret s', r = Done ret s' /\ running me s' /\ touched (Some (p_obj o)) me s s' /\
     inv s' pd (p_exit o me ret g)) \/
  (exists (c : M Z) s1, reschedules me c s1 r /\ touched (Some (p_obj o)) me s s1 /\ inv s1 (<[me := (inr o, c)]> pd) g).

(** [t] is in no call of the protocol. *)
Definition foreign {Op : Type} (pd : pends Op) (t : ptr) : Prop := forall o k, pd !! t <> Some (inr o, k).

(** [t] is in the call [o]. *)
Definition in_call {Op : Type} (o : Op) (pd : pends Op) (t : ptr) : Prop := exists k, pd !! t = Some (inr o, k).

(** The rest of every call in progress satisfies [R]. *)
Definition each_rest {Op : Type} (R : ptr -> Op -> (kstate -> run Z) -> Prop) (pd : pends Op) : Prop :=
  forall t o k, pd !! t = Some (inr o, k) -> R t o k.

Section in_call.
Context {Op : Type}.
Implicit Types (pd : pends Op) (t me : ptr) (o : Op) (R : ptr -> Op -> (kstate -> run Z) -> Prop).

Lemma in_call_ne o pd t me x : in_call o pd t -> t <> me -> in_call o (<[me := x]> pd) t.
Proof. intros [k Hk] Hne. exists k. by rewrite lookup_insert_ne. Qed.

Lemma in_call_insert o pd t me c k :
  in_call o (<[me := (c, k)]> pd) t <-> (t = me /\ c = inr o) \/ (t <> me /\ in_call o pd t).
Proof.
  unfold in_call. setoid_rewrite lookup_insert_Some. split.
  - intros [k' [[<- [= -> <-]]|[Hne Hk]]]; [by left|right]. split; [done|by exists k'].
  - intros [[-> ->]|[Hne [k' Hk]]]; [exists k; by left|exists k'; by right].
Qed.

Lemma in_call_delete o pd t me : in_call o (delete me pd) t <-> t <> me /\ in_call o pd t.
Proof.
  unfold in_call. setoid_rewrite lookup_delete_Some. split; [intros (k & Hne & Hk)|intros (Hne & k & Hk)].
  - split; [done|by exists k].
  - by exists k.
Qed.

Lemma in_call_not_new o pd t me : in_call o pd t -> pd !! me = None -> t <> me.
Proof. intros [k Hk]. congruence. Qed.

Lemma in_call_insert_new o pd t me c k : pd !! me = None ->
  in_call o (<[me := (c, k)]> pd) t <-> (t = me /\ c = inr o) \/ in_call o pd t.
Proof.
  intros Hnp. rewrite in_call_insert. split; [tauto|]. intros [?|Hc]; [by left|right].
  split; [by eapply in_call_not_new|done].
Qed.

Lemma in_call_foreign o pd pd' me t :
  foreign pd me -> foreign pd' me -> (forall t, t <> me -> pd' !! t = pd !! t) ->
  in_call o pd' t <-> in_call o pd t.
Proof.
  intros Hf Hf' Hpd. destruct (decide (t = me)) as [->|Hne].
  - split; intros [k Hk]; [by apply Hf' in Hk|by apply Hf in Hk].
  - unfold in_call. by rewrite Hpd.
Qed.

Lemma each_rest_insert R me c k pd :
  (forall o, c = inr o -> R me o k) -> each_rest R pd -> each_rest R (<[me := (c, k)]> pd).
Proof. intros Hc Hpd t o k' [[<- [= -> <-]]|[_ Hk]]%lookup_insert_Some; [by apply Hc|by eapply Hpd]. Qed.

Lemma each_rest_delete R me pd : each_rest R pd -> each_rest R (delete me pd).
Proof. intros Hpd t o k [_ Hk]%lookup_delete_Some. by eapply Hpd. Qed.

Lemma each_rest_foreign R pd pd' me :
  foreign pd' me -> (forall t, t <> me -> pd' !! t = pd !! t) -> each_rest R pd -> each_rest R pd'.
Proof.
  intros Hf Hpd Hr t o k Hk. destruct (decide (t = me)) as [->|Hne]; [by apply Hf in Hk|].
  rewrite Hpd in Hk by done. by eapply Hr.
Qed.
End in_call.

(** What a component promises to the system.  Its invariant does not depend on
    scheduling, nor on what a thread outside of its calls does to other
    objects; a call keeps it; so does the rest of a call, which returns; the
    threads that wait for one of its objects are in one of its calls. *)
Class ProtocolLaws `{Config} (Op G : Type) `{!Protocol Op G} := {
  p_inv : kstate -> pends Op -> G -> Prop;
  p_dispatched : forall me s top s' pd g,
    dispatched me s top s' -> p_inv s pd g -> p_inv s' pd g;
  p_stable : forall w me s s1 pd pd' g,
    touched w me s s1 -> (forall o, w <> Some (p_obj o)) ->
    foreign pd me -> foreign pd' me -> (forall t, t <> me -> pd' !! t = pd !! t) ->
    (forall t o k w', w = Some w' -> pd !! t = Some (inr o, k) -> t ∉ queue s (WaitQ w')) ->
    p_inv s pd g -> p_inv s1 pd' g;
  p_called : forall me o s pd g,
    running me s -> pd !! me = None -> few_threads s -> p_allowed o me s g -> p_inv s pd g ->
    call_outcome p_inv me o (p_exec o s) s pd (p_enter o me g);
  p_resumed : forall me o k s pd g,
    resumed me s -> pd !! me = Some (inr o, k) -> p_inv s pd g ->
    exists ret s', k s = Done ret s' /\ running me s' /\ touched (Some (p_obj o)) me s s' /\
      p_inv s' (delete me pd) (p_exit o me ret g);
  p_waits : forall o me s pd g t,
    p_inv s pd g -> p_allowed o me s g \/ (exists k, pd !! me = Some (inr o, k)) ->
    t ∈ queue s (WaitQ (p_obj o)) -> exists o' k, pd !! t = Some (inr o', k);
}.

Section laws.
Context `{Config} {Op G : Type} `{!Protocol Op G} `{!ProtocolLaws Op G}.
Implicit Types (s : kstate) (t me : ptr) (pd : pends Op) (g : G) (mc : machine Op G).

(** ** The invariant of the system *)

(** [cur]: the thread that has the CPU, if any. *)
Record tbody (cur : option ptr) (s : kstate) (pd : pends Op) (g : G) : Prop := {
  tb_inv : p_inv s pd g;
  tb_size : few_threads s;
  tb_base : forall t b k, pd !! t = Some (inl b, k) ->
    exists st, forall s, exists ret, k s = Done ret (unlock_state st s);
  tb_queue : forall t q, t ∈ queue s q -> is_Some (pd !! t);
  tb_idle : cur <> Some _idle_thread -> is_Some (pd !! _idle_thread)
}.

Definition tinv (mc : machine Op G) : Prop :=
  exists me, current_thread (ks mc) = Some me /\
    tbody (Some me) (ks mc) (pend mc) (ghost mc) /\
    match pend mc !! me with Some _ => resumed me (ks mc) | None => running me (ks mc) end.

Lemma tinv_kinv mc me : tinv mc -> current_thread (ks mc) = Some me -> kinv (Some me) ∅ (ks mc).
Proof.
  intros (me' & Hc & _ & Hr) Hc'. assert (me' = me) as -> by congruence.
  destruct (pend mc !! me); apply Hr.
Qed.

Lemma few_moved me s s' : moved me s s' -> few_threads s -> few_threads s'.
Proof. intros Hmv. unfold few_threads. by rewrite (mv_dom _ _ _ Hmv). Qed.

(** *** A call returns *)

Lemma returned me s s' pd g :
  running me s' -> moved me s s' -> p_inv s' (delete me pd) g -> few_threads s ->
  (forall t b k, pd !! t = Some (inl b, k) -> exists st, forall s, exists ret, k s = Done ret (unlock_state st s)) ->
  (forall t q, t ∈ queue s q -> is_Some (pd !! t)) ->
  (Some me <> Some _idle_thread -> is_Some (pd !! _idle_thread)) ->
  tinv (mk_machine s' (delete me pd) g).
Proof.
  intros Hr Hmv Hi Hsz Hb Hq Hid. exists me. cbn [ks pend ghost]. rewrite lookup_delete_eq.
  split; [apply Hr|]. split; [|exact Hr]. constructor; [done|by eapply few_moved|..].
  - intros t b k [_ Hk]%lookup_delete_Some. by eapply Hb.
  - intros t q Ht. assert (Hne : t <> me).
    { intros ->. by eapply current_not_queued, Ht; apply Hr. }
    rewrite lookup_delete_ne by done. destruct (mv_queue _ _ _ Hmv t q Ht) as [|[q' Ht']]; [done|by eapply Hq].
  - intros Hne. rewrite lookup_delete_ne by congruence. by apply Hid.
Qed.

(** *** Handing the CPU over *)

(** [me], whose call goes on with [c], has given the CPU to [top]. *)
Lemma dispatch_tinv me x s1 top s' pd g :
  tbody None s1 (<[me := x]> pd) g -> dispatched me s1 top s' ->
  tinv (mk_machine s' (<[me := x]> pd) g) /\ resumed top s'.
Proof.
  intros [Hi Hsz Hb Hq Hid] Hd.
  assert (Htop : is_Some ((<[me := x]> pd) !! top)).
  { destruct (dp_top _ _ _ _ Hd) as [(p & l & _ & Hp & _)|[-> _]]; [|by apply Hid].
    apply (Hq top (RunQ p)). rewrite Hp. set_solver. }
  assert (Hres : resumed top s') by (split; [apply Hd|split; apply Hd]).
  split; [|done]. exists top. cbn [ks pend ghost]. split; [apply Hd|].
  split; [|destruct Htop as [y ->]; exact Hres].
  pose proof (dispatched_moved me me s1 top s' Hd) as Hmv.
  constructor; [by eapply p_dispatched|by eapply few_moved|done| |intros _; by apply Hid].
  intros t q Ht. destruct (mv_queue _ _ _ Hmv t q Ht) as [->|[q' Ht']];
    [rewrite lookup_insert_eq; by eexists|by eapply Hq].
Qed.

Lemma resume_step mc me c k :
  tinv mc -> current_thread (ks mc) = Some me -> pend mc !! me = Some (c, k) ->
  exists mc', finish me c (k (ks mc)) mc = Some mc' /\ tinv mc'.
Proof.
  intros (me' & Hc' & [Hi Hsz Hb Hq Hid] & Hr) Hc Hk.
  assert (me' = me) as -> by congruence. rewrite Hk in Hr. destruct c as [b|o].
  - destruct (Hb _ _ _ Hk) as [st Hst]. destruct (Hst (ks mc)) as [ret Hret]. rewrite Hret.
    eexists. split; [done|]. eapply (returned me (ks mc)); try done; [by apply unlock_running| |].
    + apply (tc_moved None), touched_unlock.
    + eapply (p_stable None me (ks mc)); [apply touched_unlock|done|..|exact Hi]; try done.
      * intros o k'. congruence.
      * intros o k'. by rewrite lookup_delete_eq.
      * intros t Hne. by rewrite lookup_delete_ne.
  - destruct (p_resumed me o k (ks mc) _ _ Hr Hk Hi) as (ret & s' & Hrun & Hr' & Hmv & Hi').
    rewrite Hrun. eexists. split; [done|]. by eapply (returned me (ks mc)); [|eapply tc_moved|..].
Qed.

(** A call that reschedules: either another thread runs, or the call goes on
    at once. *)
Lemma resched_step me x (c : M Z) s1 r mc :
  tbody None s1 (<[me := (x, c)]> (pend mc)) (ghost mc) -> reschedules me c s1 r ->
  exists mc', finish me x r mc = Some mc' /\ tinv mc'.
Proof.
  intros Hb [s' Hd|top s' Hne Hd].
  - destruct (dispatch_tinv me (x, c) s1 me s' _ _ Hb Hd) as (Hi & Hres).
    destruct (resume_step _ me x c Hi (proj1 (proj2 Hres))) as (mc' & Hf & Hi').
    { cbn [pend]. by rewrite lookup_insert_eq. }
    exists mc'. split; [|done]. rewrite <- Hf. cbn [ks].
    destruct (c s') as [ret s2|s2 k|e]; cbn [finish pend ghost];
      [by rewrite delete_insert_eq|by rewrite insert_insert_eq|done].
  - destruct (dispatch_tinv me (x, c) s1 top s' _ _ Hb Hd) as (Hi & _).
    eexists. split; [done|]. exact Hi.
Qed.

(** The system when [me] has given up the CPU. *)
Lemma given_up me x (c : M Z) s s1 pd g g' :
  tbody (Some me) s pd g -> pd !! me = None -> moved me s s1 -> p_inv s1 (<[me := (x, c)]> pd) g' ->
  (forall b, x = inl b -> exists st, forall s, exists ret, c s = Done ret (unlock_state st s)) ->
  tbody None s1 (<[me := (x, c)]> pd) g'.
Proof.
  intros [Hi Hsz Hb Hq Hid] Hnp Hmv Hi' Hx. constructor; [done|by eapply few_moved|..].
  - intros t b k [[<- [= -> <-]]|[_ Hk]]%lookup_insert_Some; [by eapply Hx|by eapply Hb].
  - intros t q Ht. destruct (decide (t = me)) as [->|Hne]; [rewrite lookup_insert_eq; by eexists|].
    rewrite lookup_insert_ne by done. destruct (mv_queue _ _ _ Hmv t q Ht) as [|[q' Ht']]; [done|by eapply Hq].
  - intros _. destruct (decide (me = _idle_thread)) as [->|Hne]; [rewrite lookup_insert_eq; by eexists|].
    rewrite lookup_insert_ne by done. apply Hid. congruence.
Qed.

(** *** The steps *)

(** Yielding, preemption, a change of priority. *)
Lemma requeue_call b p me a (M0 : M unit) mc s1 :
  tbody (Some me) (ks mc) (pend mc) (ghost mc) -> running me (ks mc) -> pend mc !! me = None ->
  requeued b me p (ks mc) s1 -> reschedules me (THREAD_UNLOCK (saved_ints (ks mc))) s1 (M0 (ks mc)) ->
  exists mc', finish me (inl a) ((M0;; mret 0) (ks mc)) mc = Some mc' /\ tinv mc'.
Proof.
  intros Hb Hr Hnp Hrq Hre. destruct (running_thread me _ Hr) as (th & Hth & _).
  eapply (resched_step me (inl a) (THREAD_UNLOCK (saved_ints (ks mc));; mret 0)).
  - eapply given_up; [exact Hb|done| | |].
    + eapply requeued_moved; [apply Hr|by eexists|exact Hrq].
    + eapply (p_stable None me (ks mc)); [|done|..|apply Hb]; try done.
      * eapply requeued_touched; [apply Hr|by eexists|exact Hrq].
      * intros o k'. congruence.
      * intros o k'. by rewrite lookup_insert_eq.
      * intros t Hne. by rewrite lookup_insert_ne.
    + intros b' _. exists (saved_ints (ks mc)). intros s. exists 0.
      erewrite bind_done by apply THREAD_UNLOCK_ok. done.
  - exact (reschedules_bind me _ (fun _ => mret 0 : M Z) s1 _ Hre).
Qed.

(** One step from a state of the invariant does not fail and stays in it. *)
Lemma mstep_tinv mc r : tinv mc -> mstep mc r -> exists mc', r = Some mc' /\ tinv mc'.
Proof.
  intros Hi Hs. destruct Hs as [me c mc Hc Hnp Hal|me c k mc Hc Hk].
  2: { destruct (resume_step mc me c k Hi Hc Hk) as (mc' & ? & ?). by exists mc'. }
  destruct Hi as (me' & Hc' & Hb & Hr). assert (me' = me) as -> by congruence. rewrite Hnp in Hr.
  destruct (running_thread me _ Hr) as (th & Hth & _). destruct c as [b|o].
  - assert (Hstep : exists b' p s1 M0, base_exec b = (M0;; mret 0) /\ requeued b' me p (ks mc) s1 /\
      reschedules me (THREAD_UNLOCK (saved_ints (ks mc))) s1 (M0 (ks mc))).
    { destruct b as [| |p|]; [| | |done].
      - destruct (thread_yield_ok me _ th Hr Hth) as [(s1 & Hrq & _ & Hre) _]. by do 4 eexists.
      - destruct (thread_preempt_ok me _ th Hr Hth) as [(s1 & Hrq & _ & Hre) _]. by do 4 eexists.
      - destruct (thread_set_priority_ok me _ th p Hr Hth) as [(s1 & Hrq & _ & Hre) _]. by do 4 eexists. }
    destruct Hstep as (b' & p & s1 & M0 & E & Hrq & Hre).
    destruct (requeue_call b' p me b M0 mc s1 Hb Hr Hnp Hrq Hre) as (mc' & Hf & Hi').
    exists mc'. split; [|done]. cbn [exec enter]. by rewrite E.
  - cbn [exec enter]. destruct (p_called me o (ks mc) (pend mc) (ghost mc) Hr Hnp (tb_size _ _ _ _ Hb) Hal
      (tb_inv _ _ _ _ Hb)) as [(ret & s' & -> & Hr' & Hmv & Hi')|(c & s1 & Hre & Hmv & Hi')].
    + eexists. split; [done|]. cbn [finish pend ghost exit_ghost].
      assert (Hd : delete me (pend mc) = pend mc) by by apply delete_id.
      eapply (returned me (ks mc)); [done|by eapply tc_moved|by rewrite Hd|apply Hb..].
    + destruct (resched_step me (inr o) c s1 (p_exec o (ks mc))
        (mk_machine (ks mc) (pend mc) (p_enter o me (ghost mc)))) as (mc' & Hf & Hi2); [|done|].
      { cbn [pend ghost]. eapply given_up; [exact Hb|done|by eapply tc_moved|done|done]. }
      by exists mc'.
Qed.

Lemma boot_pends_base me s t c k : boot_pends (Op := Op) me s !! t = Some (c, k) ->
  c = inl BStart /\ k = base_exec BStart /\ t <> me.
Proof.
  unfold boot_pends. rewrite lookup_fmap. destruct (decide (t = me)) as [->|Hne];
    [by rewrite lookup_delete_eq|].
  rewrite lookup_delete_ne by done. destruct (threads s !! t); simpl; [|done]. by intros [= <- <-].
Qed.

Lemma boot_no_call o me s t : ~ in_call o (boot_pends (Op := Op) me s) t.
Proof. by intros [k (? & _)%boot_pends_base]. Qed.

Lemma boot_tinv me s g :
  running me s -> few_threads s -> p_inv s (boot_pends me s) g -> tinv (boot me s g).
Proof.
  intros Hr Hsz Hi. assert (Hself : boot_pends (Op := Op) me s !! me = None).
  { unfold boot_pends. by rewrite lookup_fmap, lookup_delete_eq. }
  exists me. cbn [boot ks pend ghost]. rewrite Hself. split; [apply Hr|]. split; [|exact Hr].
  assert (Hp : forall t, t <> me -> is_Some (threads s !! t) -> is_Some (boot_pends (Op := Op) me s !! t)).
  { intros t Hne [th Hth]. unfold boot_pends. rewrite lookup_fmap, lookup_delete_ne, Hth by done. by eexists. }
  constructor; [done|done|..].
  - intros t b k (_ & -> & _)%boot_pends_base. exists 0. intros s'. by exists 0.
  - intros t q Ht. apply Hp.
    + intros ->. by eapply current_not_queued, Ht; apply Hr.
    + apply (ki_home _ _ _ (rn_kinv _ _ Hr)) in Ht as (_ & th & Hth & _). by eexists.
  - intros Hne. apply Hp; [congruence|].
    destruct (ki_idle _ _ _ (rn_kinv _ _ Hr)) as (th & Hth & _). by eexists.
Qed.

Lemma steps_tinv mc mc' : tinv mc -> steps mc mc' -> tinv mc'.
Proof.
  intros Hi Hs. induction Hs as [mc|a b c Hab _ IH]; [done|].
  destruct (mstep_tinv a _ Hi Hab) as (mc' & [= <-] & Hi'). by apply IH.
Qed.

(** Whatever is reached from the start: no call fails, a step is possible, the
    invariants of the scheduler and of the protocol hold. *)
Lemma interleaving_safe me s g mc :
  running me s -> few_threads s -> p_inv s (boot_pends me s) g -> steps (boot me s g) mc ->
  ~ mstep mc None /\ (exists r, mstep mc r) /\
  (exists cur, current_thread (ks mc) = Some cur /\ kinv (Some cur) ∅ (ks mc)) /\
  p_inv (ks mc) (pend mc) (ghost mc).
Proof.
  intros Hr Hsz Hi Hs. pose proof (steps_tinv _ _ (boot_tinv me s g Hr Hsz Hi) Hs) as Ht.
  split; [|split; [|split]].
  - intros Hf. by destruct (mstep_tinv mc None Ht Hf) as (? & ? & _).
  - destruct Ht as (cur & Hc & _). destruct (pend mc !! cur) as [[c k]|] eqn:Hp.
    + eexists. by eapply ms_resume.
    + eexists. by apply (ms_call cur (inl BYield)).
  - pose proof Ht as (cur & Hc & _). exists cur. split; [done|by apply tinv_kinv].
  - by destruct Ht as (cur & _ & [] & _).
Qed.
End laws.
