(* ===== verification/Machine.v ===== *)
(** * Mutual exclusion under every interleaving

    The threads of the machine of Interleave.v take and release one mutex of
    [lk/kernel/mutex.c]: a [Protocol] and the proof of its laws.  Besides they
    yield, are preempted and change their priority, at any time. *)

From S2P Require Import Prelude Kernel KInv Sched WaitQueue Footprint Thread Mutex Interleave.

Inductive mop := OpAcquire | OpRelease.

#[export] Instance mop_eq_dec : EqDecision mop.
Proof. solve_decision. Defined.

Section machine.
Context `{Config}.
Variable m : ptr.

Definition mop_exec (o : mop) : M Z :=
  match o with OpAcquire => mutex_acquire m | OpRelease => mutex_release m end.

(** The rule of use, over the threads between a successful acquisition and the
    release: only a thread outside of the critical section acquires, and only
    the one inside releases; the idle thread does not block. *)
Definition mop_allowed (o : mop) (me : ptr) (_ : kstate) (crit : gset ptr) : Prop :=
  match o with OpAcquire => me ∉ crit /\ me <> _idle_thread | OpRelease => me ∈ crit end.

(** The critical section ends where the release is called, and begins where
    the acquisition returns success. *)
Definition mop_enter (o : mop) (me : ptr) (crit : gset ptr) : gset ptr :=
  match o with OpAcquire => crit | OpRelease => crit ∖ {[me]} end.

Definition mop_exit (o : mop) (me : ptr) (ret : Z) (crit : gset ptr) : gset ptr :=
  match o with
  | OpAcquire => if ret =? NO_ERROR then {[me]} ∪ crit else crit
  | OpRelease => crit
  end.

#[export] Instance mop_allowed_dec o me s crit : Decision (mop_allowed o me s crit).
Proof. destruct o; unfold mop_allowed; apply _. Defined.

Definition mutex_protocol : Protocol mop (gset ptr) := {|
  p_exec := mop_exec; p_obj := fun _ => MutexWQ m; p_allowed := mop_allowed; p_allowed_dec := mop_allowed_dec;
  p_enter := mop_enter; p_exit := mop_exit |}.
#[local] Existing Instance mutex_protocol.

(** ** The invariant *)

(** The rest of a call: the owner-to-be of the mutex is in [acquire_resume];
    a release only gives back the scheduler lock and returns. *)
Definition pend_ok (t : ptr) (o : mop) (k : kstate -> run Z) : Prop :=
  exists st, match o with
             | OpAcquire => forall s, k s = acquire_resume t m st s
             | OpRelease => forall s, exists ret, k s = Done ret (unlock_state st s)
             end.

Abbreviation acquiring := (in_call OpAcquire).

(** [o]: the owner of the mutex. *)
Record mutex_inv (o : option ptr) (s : kstate) (pd : pends mop) (cr : gset ptr) : Prop := {
  mi_mutex : exists mt, mutex_ok m o mt s /\ (forall t, t ∈ cr -> m_holder mt = Some t);
  mi_crit : forall t, t ∈ cr -> o = Some t;
  mi_owner : forall t, o = Some t -> t ∉ cr -> acquiring pd t;
  mi_acq : forall t, acquiring pd t ->
    t ∈ waiters m s \/ (o = Some t /\ t ∉ cr /\ wait_queue_block_ret <$> threads s !! t = Some NO_ERROR);
  mi_wait : forall t, t ∈ waiters m s -> acquiring pd t;
  mi_pend : each_rest pend_ok pd
}.

Implicit Types (s : kstate) (t me : ptr) (pd : pends mop) (cr : gset ptr).

(** *** Frames *)

Lemma mutex_ok_dispatched me o mt s top s' : dispatched me s top s' -> mutex_ok m o mt s -> mutex_ok m o mt s'.
Proof.
  intros Hd Hm. apply (mutex_ok_same m o mt s); [done| | |].
  - by rewrite (so_mutexes _ _ (dp_frame _ _ _ _ Hd)).
  - eapply wq_ready_sched_only; [apply Hd|apply Hm].
  - apply (dispatched_wait _ _ _ _ _ Hd).
Qed.

Lemma queue_unlock st s q : queue (unlock_state st s) q = queue s q.
Proof. unfold unlock_state. by destruct has_flag, q. Qed.

Lemma threads_unlock st s : threads (unlock_state st s) = threads s.
Proof. unfold unlock_state. by destruct has_flag. Qed.

Lemma current_unlock st s : current_thread (unlock_state st s) = current_thread s.
Proof. unfold unlock_state. by destruct has_flag. Qed.

(** The count of an owned mutex is at most the number of threads. *)
Lemma count_bound o mt t s me run F : kinv run F s -> mutex_ok m o mt s -> o = Some t ->
  is_Some (threads s !! me) -> me ∉ waiters m s ->
  m_count mt <= Z.of_nat (size (dom (threads s))).
Proof.
  intros HI Hm -> Hme Hnw. destruct (mo_owner _ _ _ _ Hm) as (-> & _ & _).
  pose proof (ki_nodup _ _ _ HI (WaitQ (MutexWQ m))) as Hnd. change (NoDup (waiters m s)) in Hnd.
  assert (Hsub : list_to_set (me :: waiters m s) ⊆ dom (threads s)).
  { intros t'. rewrite elem_of_list_to_set, elem_of_cons, elem_of_dom. intros [->|Ht']; [done|].
    change (t' ∈ queue s (WaitQ (MutexWQ m))) in Ht'. apply (ki_home _ _ _ HI) in Ht' as (_ & th & Hth & _).
    by eexists. }
  apply subseteq_size in Hsub. rewrite size_list_to_set in Hsub by by apply NoDup_cons.
  simpl in Hsub. lia.
Qed.

(** *** The laws *)

Lemma inv_dispatched o me s top s' pd cr :
  dispatched me s top s' -> mutex_inv o s pd cr -> mutex_inv o s' pd cr.
Proof.
  intros Hd [(mt & Hm & Hh) Hcr Hown Hacq Hw Hpd].
  assert (Hws : waiters m s' = waiters m s) by apply (dispatched_wait _ _ _ _ _ Hd).
  constructor; rewrite ?Hws; try done.
  - exists mt. split; [by eapply mutex_ok_dispatched|done].
  - intros t Ht. rewrite (dp_ret _ _ _ _ Hd). by apply Hacq.
Qed.

Lemma inv_stable o w me s s1 pd pd' cr :
  touched w me s s1 -> w <> Some (MutexWQ m) -> foreign pd me -> foreign pd' me ->
  (forall t, t <> me -> pd' !! t = pd !! t) ->
  (forall t o k w', w = Some w' -> pd !! t = Some (inr o, k) -> t ∉ queue s (WaitQ w')) ->
  mutex_inv o s pd cr -> mutex_inv o s1 pd' cr.
Proof.
  intros Htc Hw0 Hf Hf' Hpd' Hwt [(mt & Hm & Hh) Hcr Hown Hacq Hw Hpd].
  assert (Hws : waiters m s1 = waiters m s) by by apply (tc_queue _ _ _ _ Htc).
  pose proof (fun t => in_call_foreign OpAcquire pd pd' me t Hf Hf' Hpd') as Ha.
  constructor; rewrite ?Hws; [|done| | | |]; [|intros *; rewrite ?Ha..|].
  - exists mt. split; [|done]. apply (mutex_ok_same m o mt s); [done| | |done].
    + by apply (tc_mutexes _ _ _ _ Htc).
    + apply (tc_ready _ _ _ _ Htc), Hm.
  - apply Hown.
  - intros [k Hk]. destruct (Hacq t) as [|(Ho & Hc & Hret)]; [by exists k|by left|]. right.
    do 2 (split; [done|]). etrans; [|exact Hret]. apply (tc_told _ _ _ _ Htc); [|by eauto].
    intros ->. by apply Hf in Hk.
  - apply Hw.
  - by apply (each_rest_foreign _ pd _ me).
Qed.

(** The lock is given back by a call that holds no part of the mutex. *)
Lemma inv_unlocked o me s st pd cr :
  ~ acquiring pd me -> mutex_inv o s pd cr -> mutex_inv o (unlock_state st s) (delete me pd) cr.
Proof.
  intros Hna [(mt & Hm & Hh) Hcr Hown Hacq Hw Hpd].
  assert (Hdel : forall t, acquiring pd t -> acquiring (delete me pd) t)
    by (intros t Ht; apply in_call_delete; split; [congruence|done]).
  constructor; rewrite ?waiters_unlock, ?threads_unlock.
  - exists mt. split; [by apply mutex_ok_unlock|done].
  - done.
  - intros t Ho Ht. by apply Hdel, Hown.
  - intros t [_ Ht]%in_call_delete. by apply Hacq.
  - intros t Ht. by apply Hdel, Hw.
  - by apply each_rest_delete.
Qed.

(** The waiter that was handed the mutex returns from its acquisition. *)
Lemma inv_acquired o me s k pd cr :
  resumed me s -> pd !! me = Some (inr OpAcquire, k) -> mutex_inv o s pd cr ->
  exists s', k s = Done NO_ERROR s' /\ running me s' /\ touched (Some (MutexWQ m)) me s s' /\
    mutex_inv o s' (delete me pd) ({[me]} ∪ cr).
Proof.
  intros Hr Hk [(mt & Hm & Hh) Hcr Hown Hacq Hw Hpd].
  assert (Hnw : me ∉ waiters m s) by (apply (current_not_queued me); apply Hr).
  destruct (Hacq me) as [|(-> & Hncr & Hret)]; [by exists k|done|].
  destruct (Hpd _ _ _ Hk) as [st Hst].
  destruct (resumed_thread me _ Hr) as (th & Hth & _). rewrite Hth in Hret. injection Hret as Hret.
  destruct (acquire_resume_owner me m st s mt th Hr Hth Hret Hm) as (s' & Hrun & Hrn & Es & Hm').
  assert (Hqs : forall q, queue s' q = queue s q) by (intros q; rewrite Es, queue_unlock; by destruct q).
  assert (Hths : threads s' = threads s) by (by rewrite Es, threads_unlock).
  assert (Hws : waiters m s' = waiters m s) by apply Hqs.
  exists s'. split; [by rewrite Hst|]. split; [done|].
  split; [rewrite Es; eapply touched_trans; [apply touched_mutex|apply touched_unlock]|].
  constructor; rewrite ?Hws, ?Hths.
  - eexists. split; [exact Hm'|]. intros t [->%elem_of_singleton|Ht]%elem_of_union; [done|].
    apply Hcr in Ht. by simplify_eq.
  - intros t [->%elem_of_singleton|Ht]%elem_of_union; [done|by apply Hcr].
  - intros t [= ->] Hnt. set_solver.
  - intros t [Hne Ht]%in_call_delete. destruct (Hacq t Ht) as [|(E & _)]; [by left|congruence].
  - intros t Ht. apply in_call_delete. split; [congruence|by apply Hw].
  - by apply each_rest_delete.
Qed.

(** *** Acquiring *)

Definition called (o : mop) (me : ptr) (s : kstate) (pd : pends mop) (cr : gset ptr) : Prop :=
  call_outcome (fun s pd cr => exists o, mutex_inv o s pd cr) me o (mop_exec o s) s pd (mop_enter o me cr).

Lemma called_acquire_contended t me s pd cr :
  running me s -> pd !! me = None -> few_threads s -> mop_allowed OpAcquire me s cr ->
  mutex_inv (Some t) s pd cr -> called OpAcquire me s pd cr.
Proof.
  intros Hr Hnp Hsz [Hncr Hni] [(mt & Hm & Hh) Hcr Hown Hacq Hw Hpd].
  assert (Hnw : me ∉ waiters m s) by apply (current_not_queued me), Hr.
  assert (Hne : t <> me).
  { intros ->. by eapply in_call_not_new; [by apply Hown|..]. }
  destruct (running_thread me _ Hr) as (th & Hth & _).
  pose proof (count_bound (Some t) mt t s me _ _ (rn_kinv _ _ Hr) Hm eq_refl ltac:(by eexists) Hnw) as Hcnt.
  destruct (mutex_acquire_blocks me m mt t s Hr Hm Hne Hnw Hni ltac:(unfold few_threads in Hsz; lia))
    as (s1 & Hpk & Hm1 & Hws & Hmv & Hths & Hre).
  right. do 2 eexists. split; [exact Hre|]. split; [done|]. exists (Some t).
  constructor; rewrite ?Hws.
  - eexists. split; [exact Hm1|]. exact Hh.
  - done.
  - intros t' Ho Ht'. pose proof (Hown t' Ho Ht'). apply in_call_ne; [done|by eapply in_call_not_new].
  - intros t' [[-> _]|[Hnt Ht']]%in_call_insert; [left; set_solver|].
    destruct (Hacq t' Ht') as [|(Ho & Hc & Hret)]; [left; set_solver|]. right. do 2 (split; [done|]).
    by rewrite Hths.
  - intros t' [Ht'%Hw|Ht'%list_elem_of_singleton]%elem_of_app.
    + apply in_call_ne; [done|by eapply in_call_not_new].
    + subst t'. eexists. by rewrite lookup_insert_eq.
  - apply each_rest_insert; [|done]. intros o' [= <-]. by eexists.
Qed.

Lemma called_acquire_free me s pd cr :
  running me s -> pd !! me = None -> mutex_inv None s pd cr -> called OpAcquire me s pd cr.
Proof.
  intros Hr Hnp [(mt & Hm & Hh) Hcr Hown Hacq Hw Hpd].
  destruct (mutex_acquire_free_ok me m mt INFINITE_TIME s Hr Hm) as (Hrun & Hok & Hr').
  assert (Hqs : forall q, queue (acquired_state m me s) q = queue s q).
  { intros q. unfold acquired_state. rewrite queue_unlock. by destruct q. }
  assert (Hths : threads (acquired_state m me s) = threads s) by (unfold acquired_state; by rewrite threads_unlock).
  assert (Hws : waiters m (acquired_state m me s) = waiters m s) by apply Hqs.
  left. exists NO_ERROR, (acquired_state m me s). split; [exact Hrun|]. split; [done|].
  split; [apply mutex_end_touched|]. exists (Some me). simpl.
  constructor; rewrite ?Hws, ?Hths; [| | | |done|done].
  - eexists. split; [exact Hok|]. intros t [->%elem_of_singleton|Ht]%elem_of_union; [done|].
    by apply Hcr in Ht.
  - intros t [->%elem_of_singleton|Ht]%elem_of_union; [done|]. by apply Hcr in Ht.
  - intros t [= ->] Ht. set_solver.
  - intros t Ht. destruct (Hacq t Ht) as [|(? & _)]; [by left|done].
Qed.

(** *** Releasing: the first waiter, if any, is the owner-to-be *)

Lemma crit_me me o s pd cr : mutex_inv o s pd cr -> me ∈ cr -> o = Some me /\ forall t, t ∉ cr ∖ {[me]}.
Proof.
  intros Hi Hme. pose proof (mi_crit _ _ _ _ Hi me Hme) as ->. split; [done|].
  intros t [Ht Hne]%elem_of_difference. apply (mi_crit _ _ _ _ Hi) in Ht. set_solver.
Qed.

Lemma called_release_free me o s pd cr :
  running me s -> mop_allowed OpRelease me s cr -> mutex_inv o s pd cr -> waiters m s = [] ->
  called OpRelease me s pd cr.
Proof.
  intros Hr Hin Hi Hws. destruct (crit_me me o s pd cr Hi Hin) as [-> Hempty].
  destruct Hi as [(mt & Hm & Hh) Hcr Hown Hacq Hw Hpd]. rewrite Hws in Hacq, Hw. specialize (Hh _ Hin).
  destruct (mutex_release_uncontended_ok me m mt s Hr Hm Hh Hws) as (Hrun & Hr' & Hok).
  assert (Hqs : forall q, queue (released_state m mt s) q = queue s q).
  { intros q. unfold released_state. rewrite queue_unlock. by destruct q. }
  assert (Hths : threads (released_state m mt s) = threads s) by (unfold released_state; by rewrite threads_unlock).
  assert (Hws' : waiters m (released_state m mt s) = []) by (rewrite <- Hws; apply Hqs).
  left. do 2 eexists. split; [exact Hrun|]. split; [done|]. split; [apply mutex_end_touched|].
  exists None. constructor; rewrite ?Hws', ?Hths; [| |done| |done|done].
  - eexists. split; [exact Hok|]. intros t Ht. by apply Hempty in Ht.
  - intros t Ht. by apply Hempty in Ht.
  - intros t Ht. destruct (Hacq t Ht) as [|([= <-] & ? & _)]; [by left|done].
Qed.

Lemma called_release_contended me o s pd cr t l :
  running me s -> pd !! me = None -> few_threads s -> mop_allowed OpRelease me s cr ->
  mutex_inv o s pd cr -> waiters m s = t :: l -> called OpRelease me s pd cr.
Proof.
  intros Hr Hnp Hsz Hin Hi Hws. destruct (crit_me me o s pd cr Hi Hin) as [-> Hempty].
  destruct Hi as [(mt & Hm & Hh) Hcr Hown Hacq Hw Hpd]. rewrite Hws in Hacq, Hw. specialize (Hh _ Hin).
  assert (Hnew : forall t' x, acquiring pd t' -> acquiring (<[me := x]> pd) t').
  { intros t' x Ht'. apply in_call_ne; [done|by eapply in_call_not_new]. }
  destruct (running_thread me _ Hr) as (th & Hth & _).
  assert (Hnw : me ∉ waiters m s) by apply (current_not_queued me), Hr.
  pose proof (count_bound (Some me) mt me s me _ _ (rn_kinv _ _ Hr) Hm eq_refl ltac:(by eexists) Hnw) as Hcnt.
  destruct (mutex_release_wakes me m mt t l s Hr Hm Hh Hws ltac:(unfold few_threads in Hsz; lia))
    as (s1 & _ & Hok & Hws1 & Hret & Hmv & Hre).
  right. do 2 eexists. split; [exact Hre|]. split; [done|]. exists (Some t).
  constructor; rewrite ?Hws1.
  - eexists. split; [exact Hok|]. intros t' Ht'. by apply Hempty in Ht'.
  - intros t' Ht'. by apply Hempty in Ht'.
  - intros t' [= <-] _. apply Hnew, Hw. set_solver.
  - intros t' [[_ [= ]]|[_ Ht']]%in_call_insert.
    destruct (Hacq t' Ht') as [[->|Hl]%elem_of_cons|([= <-] & ? & _)]; [|by left|done].
    right. split_and!; [done|apply Hempty|done].
  - intros t' Ht'. apply Hnew, Hw. set_solver.
  - apply each_rest_insert; [|done]. intros o' [= <-]. exists (saved_ints s). intros s'. exists NO_ERROR.
    erewrite bind_done by apply THREAD_UNLOCK_ok. done.
Qed.

Lemma mop_called me o s pd cr :
  running me s -> pd !! me = None -> few_threads s -> mop_allowed o me s cr ->
  (exists ow, mutex_inv ow s pd cr) -> called o me s pd cr.
Proof.
  intros Hr Hnp Hsz Hal [ow Hi]. destruct o.
  - destruct ow as [t|]; [by eapply called_acquire_contended|by eapply called_acquire_free].
  - destruct (waiters m s) as [|t l] eqn:Hws; [by eapply called_release_free|by eapply called_release_contended].
Qed.

Lemma mop_resumed me o k s pd cr :
  resumed me s -> pd !! me = Some (inr o, k) -> (exists ow, mutex_inv ow s pd cr) ->
  exists ret s', k s = Done ret s' /\ running me s' /\ touched (Some (MutexWQ m)) me s s' /\
    (exists ow, mutex_inv ow s' (delete me pd) (mop_exit o me ret cr)).
Proof.
  intros Hr Hk [ow Hi]. destruct o.
  - destruct (inv_acquired ow me s k pd cr Hr Hk Hi) as (s' & Hrun & Hrn & Hmv & Hi').
    exists NO_ERROR, s'. split_and!; [done..|]. by exists ow.
  - destruct (mi_pend _ _ _ _ Hi _ _ _ Hk) as [st Hst]. destruct (Hst s) as [ret Hret].
    exists ret, (unlock_state st s). split_and!; [done|by apply unlock_running| |].
    + apply touched_unlock.
    + exists ow. apply inv_unlocked; [|done]. intros [k' Hk']. congruence.
Qed.

#[local] Instance mutex_laws : ProtocolLaws mop (gset ptr).
Proof.
  refine {| p_inv := fun s pd cr => exists o, mutex_inv o s pd cr |}.
  - intros me s top s' pd cr Hd [o Hi]. exists o. by eapply inv_dispatched.
  - intros w me s s1 pd pd' cr Htc Hw Hf Hf' Hpd Hq [o Hi]. exists o.
    eapply inv_stable; [exact Htc|exact (Hw OpAcquire)|exact Hf|exact Hf'|exact Hpd|exact Hq|exact Hi].
  - intros me o s pd cr. apply mop_called.
  - intros me o k s pd cr. apply mop_resumed.
  - intros op me s pd cr t [o Hi] _ Ht. destruct (mi_wait _ _ _ _ Hi t Ht) as [k Hk]. by exists OpAcquire, k.
Defined.

Lemma boot_mutex_inv me mt s : mutex_ok m None mt s -> mutex_inv None s (boot_pends me s) ∅.
Proof.
  intros Hm. assert (Hws : waiters m s = []) by apply (mo_owner _ _ _ _ Hm).
  constructor; rewrite ?Hws; [|set_solver|done| |set_solver|].
  - exists mt. split; [done|set_solver].
  - intros t [k [[= ] _]%boot_pends_base].
  - intros t o k [[= ] _]%boot_pends_base.
Qed.

(** What a mutex promises, [acq] the threads in an acquisition and [cr] those
    in the critical section: they are at most one, and it is the recorded
    holder; no wake-up is lost: while threads wait, some other thread is in the
    critical section, or has been handed the mutex. *)
Definition mutex_promise (s : kstate) (acq : ptr -> Prop) (cr : gset ptr) : Prop :=
  (forall t1 t2, t1 ∈ cr -> t2 ∈ cr -> t1 = t2) /\
  (forall t, t ∈ cr -> m_holder <$> mutexes s !! m = Some (Some t)) /\
  (forall t, acq t -> exists t', t' ∉ waiters m s /\
     (t' ∈ cr \/ t' ∉ cr /\ acq t' /\ wait_queue_block_ret <$> threads s !! t' = Some NO_ERROR)).

Lemma mutex_inv_promise o s pd cr : mutex_inv o s pd cr -> mutex_promise s (acquiring pd) cr.
Proof.
  intros [(mt' & Hm' & Hh) Hcr Hown Hacq Hw _]. split; [|split].
  - intros t1 t2 E1%Hcr E2%Hcr. congruence.
  - intros t Ht. rewrite (mo_mt _ _ _ _ Hm'). simpl. by rewrite (Hh _ Ht).
  - intros t Ht. pose proof (mo_owner _ _ _ _ Hm') as Ho. destruct o as [t'|].
    + exists t'. split; [apply Ho|]. destruct (decide (t' ∈ cr)) as [|Hnc]; [by left|right].
      pose proof (Hown t' eq_refl Hnc) as Ha. do 2 (split; [done|]).
      destruct (Hacq t' Ha) as [Hin|(_ & _ & ?)]; [|done]. by destruct Ho as (_ & _ & ?).
    + destruct (Hacq t Ht) as [Hin|(? & _)]; [|done]. destruct Ho as (_ & _ & Ho). rewrite Ho in Hin. set_solver.
Qed.

(** C2: mutual exclusion, under every interleaving of yields, preemptions,
    priority changes, acquisitions and releases of threads that release only
    what they hold: whatever is reached from the start, no call fails (no
    assertion, no invalid access), a step is possible, the scheduler invariant
    holds, at most one thread is between its acquisition and its release, and
    it is the recorded holder.  No wake-up is lost: while threads wait, some
    other thread is in the critical section, or has been handed the mutex. *)
Theorem mutex_mutual_exclusion me mt s mc :
  running me s -> mutex_ok m None mt s -> Z.of_nat (size (dom (threads s))) < INT_MAX -> steps (boot me s ∅) mc ->
  ~ mstep mc None /\ (exists r, mstep mc r) /\
  (exists cur, current_thread (ks mc) = Some cur /\ kinv (Some cur) ∅ (ks mc)) /\
  mutex_promise (ks mc) (acquiring (pend mc)) (ghost mc).
Proof.
  intros Hr Hm Hsz Hs. destruct (interleaving_safe me s ∅ mc Hr Hsz) as (H1 & H2 & H3 & o & Hi); [|done|].
  { exists None. by eapply boot_mutex_inv. }
  do 3 (split; [done|]). by eapply mutex_inv_promise.
Qed.
End machine.

(** ** Witness *)

#[local] Existing Instance debug_config.
#[local] Instance demo_protocol : Protocol mop (gset ptr) := mutex_protocol 10.

(** Thread 2 acquires and is preempted at the end of its quantum; thread 3
    starts and blocks on the mutex. *)
Definition demo_schedule : list (base + mop) :=
  [inr OpAcquire; inl BYield; inl BYield; inr OpAcquire; inl BYield].

Definition demo_boot : machine mop (gset ptr) := boot 2 (demo_mutex None false) ∅.

Definition demo_reached : machine mop (gset ptr) := default demo_boot (drive demo_schedule demo_boot).

Lemma demo_reached_steps : steps demo_boot demo_reached.
Proof. apply drive_default_steps. by vm_compute. Qed.

Lemma mutex_mutual_exclusion_witness :
  (bool_decide (ghost demo_reached = {[2%positive]}) && bool_decide (waiters 10 (ks demo_reached) = [3%positive])) = true /\
  ~ mstep demo_reached None /\ exists r, mstep demo_reached r.
Proof.
  split; [by vm_compute|].
  pose proof (mutex_mutual_exclusion 10 2 _ _ demo_reached (demo_mutex_running None false)
    (demo_mutex_ok None false ltac:(done) ltac:(done)) ltac:(vm_compute; done) demo_reached_steps)
    as (H1 & H2 & _).
  by split.
Defined.
