(* ===== verification/SemMachine.v ===== *)
(** * The resources of a semaphore under every interleaving

    The threads of the machine of Interleave.v share one semaphore of
    [lk/kernel/semaphore.c]: they wait, try, poll and post, besides yielding,
    being preempted and changing their priority, at any time.  The ghost state
    counts the posts and the successful waits.  Used as LKL uses the semaphore
    of a non-recursive mutex ([UefiHost.c]: [mutex_alloc], [mutex_lock],
    [mutex_unlock]) it bounds the number of threads that hold a unit. *)

From S2P Require Import Prelude Kernel KInv Sched WaitQueue Footprint Thread Semaphore Interleave.

(** [SPoll]: [sem_timedwait] with a zero timeout. *)
Inductive sop := SWait | STry | SPoll | SPost (resched : bool).

#[export] Instance sop_eq_dec : EqDecision sop.
Proof. solve_decision. Defined.

(** [posted], [taken]: the posts, and the waits that returned success;
    [inside]: the threads in a call of [sem_wait]; [holders]: the threads that
    took a unit since their last post. *)
Record usage := mk_usage { posted : Z; taken : Z; inside : gset ptr; holders : gset ptr }.

Section machine.
Context `{Config}.
(** [disc]: only a thread without a unit waits, only one with a unit posts. *)
Variables (m : ptr) (init : Z) (disc : bool).

Definition sop_exec (o : sop) : M Z :=
  match o with
  | SWait => sem_wait m
  | STry => sem_trywait m
  | SPoll => sem_timedwait m 0
  | SPost b => sem_post m b
  end.

(** The rule of use: the idle thread does not block, and the units in
    circulation fit the count. *)
Definition sop_allowed (o : sop) (me : ptr) (_ : kstate) (g : usage) : Prop :=
  match o with
  | SWait => me <> _idle_thread /\ (if disc then me ∉ holders g else True)
  | STry | SPoll => if disc then me ∉ holders g else True
  | SPost _ => init + posted g - taken g < INT_MAX /\ (if disc then me ∈ holders g else True)
  end.

Definition sop_enter (o : sop) (me : ptr) (g : usage) : usage :=
  match o with
  | SWait => mk_usage (posted g) (taken g) ({[me]} ∪ inside g) (holders g)
  | STry | SPoll => g
  | SPost _ => mk_usage (posted g + 1) (taken g) (inside g) (holders g ∖ {[me]})
  end.

Definition took (me : ptr) (ret : Z) (ins : gset ptr) (g : usage) : usage :=
  if ret =? NO_ERROR then mk_usage (posted g) (taken g + 1) ins ({[me]} ∪ holders g)
  else mk_usage (posted g) (taken g) ins (holders g).

Definition sop_exit (o : sop) (me : ptr) (ret : Z) (g : usage) : usage :=
  match o with
  | SWait => took me ret (inside g ∖ {[me]}) g
  | STry | SPoll => took me ret (inside g) g
  | SPost _ => g
  end.

#[export] Instance sop_allowed_dec o me s g : Decision (sop_allowed o me s g).
Proof. destruct o; unfold sop_allowed; destruct disc; apply _. Defined.

Definition sem_protocol : Protocol sop usage := {|
  p_exec := sop_exec; p_obj := fun _ => SemWQ m; p_allowed := sop_allowed; p_allowed_dec := sop_allowed_dec;
  p_enter := sop_enter; p_exit := sop_exit |}.
#[local] Existing Instance sem_protocol.

(** ** The invariant *)

Abbreviation waiting_call := (in_call SWait).

(** The rest of a call; the waits that do not block have none. *)
Definition rest_ok (t : ptr) (o : sop) (k : kstate -> run Z) : Prop :=
  match o with
  | SWait => exists st, k = block_resume t st
  | STry | SPoll => False
  | SPost _ => exists st, forall s, exists ret, k s = Done ret (unlock_state st s)
  end.

(** The count: what is in circulation, less what the pending waits claimed. *)
Definition count (g : usage) : Z := init + posted g - taken g - Z.of_nat (size (inside g)).

Record sem_inv (s : kstate) (pd : pends sop) (g : usage) : Prop := {
  si_sem : sem_ok m (count g) s;
  si_inside : forall t, t ∈ inside g <-> waiting_call pd t;
  si_waiters : forall t, t ∈ sem_waiters m s -> t ∈ inside g;
  si_told : forall t, t ∈ inside g -> told_ok s t;
  si_rest : each_rest rest_ok pd;
  si_hold : disc = true -> Z.of_nat (size (holders g)) = taken g - posted g /\ inside g ## holders g
}.

Implicit Types (s : kstate) (t me : ptr) (pd : pends sop) (g : usage).

(** *** Counting *)

Lemma nodup_waiters run F s : kinv run F s -> NoDup (sem_waiters m s).
Proof. intros HI. exact (ki_nodup _ _ _ HI (WaitQ (SemWQ m))). Qed.

(** The pending waits are as many as the waiting threads, or more. *)
Lemma waiters_inside run F s pd g : kinv run F s -> sem_inv s pd g ->
  (length (sem_waiters m s) <= size (inside g))%nat.
Proof.
  intros HI Hi. rewrite <- (size_list_to_set (C := gset ptr)) by by eapply nodup_waiters.
  apply subseteq_size. intros t Ht%elem_of_list_to_set. by eapply si_waiters.
Qed.

Lemma inside_threads s pd g : sem_inv s pd g -> (size (inside g) <= size (dom (threads s)))%nat.
Proof.
  intros Hi. apply subseteq_size. intros t Ht%(si_told _ _ _ Hi). apply elem_of_dom.
  unfold told_ok, told in Ht. destruct (threads s !! t); [by eexists|done].
Qed.

Lemma count_low run F s pd g : kinv run F s -> sem_inv s pd g ->
  0 <= init + posted g - taken g /\ (few_threads s -> INT_MIN < count g).
Proof.
  intros HI Hi. pose proof (waiters_inside _ _ _ _ _ HI Hi). pose proof (inside_threads _ _ _ Hi).
  pose proof (so_waiters _ _ _ (si_sem _ _ _ Hi)). unfold few_threads, count, INT_MIN, INT_MAX in *. lia.
Qed.

Lemma not_inside me s pd g : sem_inv s pd g -> pd !! me = None -> me ∉ inside g.
Proof. intros Hi Hnp [k Hk]%(si_inside _ _ _ Hi). congruence. Qed.

(** *** Frames *)

Lemma sem_inv_state s s1 pd g :
  sem_inv s pd g -> sem_ok m (count g) s1 -> (forall t, t ∈ sem_waiters m s1 -> t ∈ sem_waiters m s) ->
  (forall t, t ∈ inside g -> told_ok s t -> told_ok s1 t) -> sem_inv s1 pd g.
Proof.
  intros [Hs Hin Hw Ht Hrest Hh] Hs1 Hw1 Ht1. constructor; [done|done| | |done|done].
  - intros t Hq%Hw1. by apply Hw.
  - intros t Hi. by apply Ht1, Ht.
Qed.

Lemma sem_inv_insert s me c k pd g :
  sem_inv s pd g -> pd !! me = None -> c <> inr SWait -> (forall o, c = inr o -> rest_ok me o k) ->
  sem_inv s (<[me := (c, k)]> pd) g.
Proof.
  intros [Hs Hin Hw Ht Hrest Hh] Hnp Hne Hk. constructor; [done| |done|done|by apply each_rest_insert|done].
  intros t. rewrite Hin, in_call_insert_new by done. tauto.
Qed.

Lemma sem_inv_unlocked me s st pd g :
  ~ waiting_call pd me -> sem_inv s pd g -> sem_inv (unlock_state st s) (delete me pd) g.
Proof.
  intros Hna [Hs Hin Hw Ht Hrest Hh]. constructor; [by apply sem_ok_unlock| | | | |done].
  - intros t. rewrite Hin, in_call_delete. split; [|tauto]. intros Hc. split; [congruence|done].
  - intros t. rewrite sem_waiters_unlock. apply Hw.
  - intros t Hi. unfold told_ok, told, unlock_state. destruct has_flag; by apply Ht.
  - by apply each_rest_delete.
Qed.

Lemma sem_inv_stable w me s s1 pd pd' g :
  touched w me s s1 -> w <> Some (SemWQ m) -> foreign pd me -> foreign pd' me ->
  (forall t, t <> me -> pd' !! t = pd !! t) ->
  (forall t o k w', w = Some w' -> pd !! t = Some (inr o, k) -> t ∉ queue s (WaitQ w')) ->
  sem_inv s pd g -> sem_inv s1 pd' g.
Proof.
  intros Htc Hw0 Hf Hf' Hpd' Hwt [[Hs Hr Hwq Hl] Hin Hw Ht Hrest Hh].
  assert (Hws : sem_waiters m s1 = sem_waiters m s) by by apply (tc_queue _ _ _ _ Htc).
  assert (Hne : forall t o k, pd !! t = Some (inr o, k) -> t <> me).
  { intros t o k Hk ->. by apply Hf in Hk. }
  constructor; [constructor| | | | |done].
  - by rewrite (tc_semaphores _ _ _ _ Htc).
  - done.
  - by apply (tc_ready _ _ _ _ Htc).
  - by rewrite Hws.
  - intros t. by rewrite Hin, (in_call_foreign SWait pd pd' me t).
  - by rewrite Hws.
  - intros t Hi. pose proof Hi as [k Hk]%Hin. unfold told_ok.
    rewrite (tc_told _ _ _ _ Htc); [by apply Ht|by eapply Hne|by eauto].
  - by apply (each_rest_foreign _ pd _ me).
Qed.

(** A unit is taken by a thread that has none. *)
Lemma hold_add me (ins : gset ptr) g : (disc = true -> me ∉ holders g) -> me ∉ ins ->
  (disc = true -> Z.of_nat (size (holders g)) = taken g - posted g /\ ins ## holders g) ->
  disc = true -> Z.of_nat (size ({[me]} ∪ holders g)) = taken g + 1 - posted g /\ ins ## {[me]} ∪ holders g.
Proof.
  intros Hne Hni Hh Hd. destruct (Hh Hd) as [Hsz Hdj]. specialize (Hne Hd).
  rewrite size_union, size_singleton by set_solver. split; [lia|set_solver].
Qed.

Lemma disc_holds (P : Prop) : (if disc then P else True) -> disc = true -> P.
Proof. by intros ? ->. Qed.

(** *** The calls *)

Definition called (o : sop) (me : ptr) (s : kstate) (pd : pends sop) (g : usage) : Prop :=
  call_outcome sem_inv me o (sop_exec o s) s pd (sop_enter o me g).

Lemma sem_inv_took me s s' pd g :
  sem_inv s pd g -> pd !! me = None -> (disc = true -> me ∉ holders g) ->
  sem_ok m (count g - 1) s' -> threads s' = threads s -> sem_waiters m s' = sem_waiters m s ->
  sem_inv s' pd (mk_usage (posted g) (taken g + 1) (inside g) ({[me]} ∪ holders g)).
Proof.
  intros Hi Hnp Hd Hs' Hths Hws. pose proof (not_inside me s pd g Hi Hnp) as Hni.
  destruct Hi as [Hs Hin Hw Ht Hrest Hh]. constructor; [|done| | |done|].
  - replace (count _) with (count g - 1) by (unfold count; simpl; lia). exact Hs'.
  - by rewrite Hws.
  - unfold told_ok, told. by rewrite Hths.
  - simpl. by apply hold_add.
Qed.

Lemma called_try o me s pd g :
  o = STry \/ o = SPoll ->
  running me s -> pd !! me = None -> few_threads s -> sop_allowed o me s g -> sem_inv s pd g ->
  called o me s pd g.
Proof.
  intros Ho Hr Hnp Hsz Hal Hi. destruct (count_low _ _ s pd g (rn_kinv _ _ Hr) Hi) as [_ Hlow].
  specialize (Hlow Hsz). pose proof (si_sem _ _ _ Hi) as Hs.
  destruct (sem_tried_ok me m _ s Hr Hs Hlow) as (Hok & Hr' & Hths & _ & Hws).
  assert (Hd : disc = true -> me ∉ holders g) by (destruct Ho as [-> | ->]; by apply disc_holds).
  assert (Hrun : exists e, e <> NO_ERROR /\
    sop_exec o s = Done (if count g <=? 0 then e else NO_ERROR) (sem_tried m (count g) s)).
  { destruct Ho as [-> | ->]; eexists; (split; [|by apply (sem_trywait_ok me) || by apply (sem_poll_ok me)]); done. }
  destruct Hrun as (e & He & Hrun). left. do 2 eexists. split; [exact Hrun|]. split; [done|].
  split; [apply sem_end_touched|].
  assert (E : sop_exit o me (if count g <=? 0 then e else NO_ERROR) (sop_enter o me g) =
    if count g <=? 0 then g else mk_usage (posted g) (taken g + 1) (inside g) ({[me]} ∪ holders g)).
  { destruct Ho as [-> | ->]; simpl; unfold took; (destruct (count g <=? 0); [|done]);
      rewrite (proj2 (Z.eqb_neq _ _)) by done; by destruct g. }
  cbn [p_exit sem_protocol]. rewrite E. destruct (count g <=? 0).
  - eapply sem_inv_state; [exact Hi|exact Hok|by rewrite Hws|]. unfold told_ok, told. by rewrite Hths.
  - by eapply sem_inv_took.
Qed.

Lemma called_sem_wait me s pd g :
  running me s -> pd !! me = None -> few_threads s -> sop_allowed SWait me s g -> sem_inv s pd g ->
  called SWait me s pd g.
Proof.
  intros Hr Hnp Hsz [Hidle Hd] Hi. pose proof (disc_holds _ Hd) as Hd'. clear Hd.
  destruct (count_low _ _ s pd g (rn_kinv _ _ Hr) Hi) as [_ Hlow]. specialize (Hlow Hsz).
  pose proof (not_inside me s pd g Hi Hnp) as Hni. pose proof (si_sem _ _ _ Hi) as Hs.
  destruct (Z.ltb_spec 0 (count g)) as [Hpos|Hneg].
  - destruct (sem_wait_free m me _ s Hr Hs Hlow Hpos) as (Hrun & Hok & Hr' & Hths & _).
    left. do 2 eexists. split; [exact Hrun|]. split; [done|]. split; [apply sem_end_touched|].
    simpl. unfold took. simpl. replace (({[me]} ∪ inside g) ∖ {[me]}) with (inside g) by set_solver.
    eapply sem_inv_took; [exact Hi|done|done|exact Hok|exact Hths|by rewrite sem_waiters_unlock].
  - destruct (sem_wait_blocks m me _ s Hr Hs Hlow Hneg Hidle) as (s1 & _ & Hok & Hws & Hmv & Htold & Hths & Hre).
    right. do 2 eexists. split; [exact Hre|]. split; [done|].
    destruct Hi as [_ Hin Hw Ht Hrest Hh]. constructor; simpl.
    + replace (count _) with (count g - 1); [exact Hok|]. unfold count. simpl.
      rewrite size_union, size_singleton by set_solver. lia.
    + intros t. rewrite elem_of_union, elem_of_singleton, Hin, in_call_insert_new by done. tauto.
    + intros t. rewrite Hws, elem_of_app, list_elem_of_singleton. set_solver.
    + intros t [->%elem_of_singleton|Hit]%elem_of_union; [done|]. unfold told_ok, told. rewrite Hths by set_solver.
      by apply Ht.
    + apply each_rest_insert; [|done]. intros o [= <-]. by eexists.
    + intros Hdd. destruct (Hh Hdd) as [? ?]. specialize (Hd' Hdd). split; [done|set_solver].
Qed.

(** The ghost state after a post. *)
Lemma hold_remove me (ins : gset ptr) g : (disc = true -> me ∈ holders g) ->
  (disc = true -> Z.of_nat (size (holders g)) = taken g - posted g /\ ins ## holders g) ->
  disc = true -> Z.of_nat (size (holders g ∖ {[me]})) = taken g - (posted g + 1) /\ ins ## holders g ∖ {[me]}.
Proof.
  intros Hm Hh Hd. destruct (Hh Hd) as [Hsz Hdj]. specialize (Hm Hd).
  rewrite size_difference, size_singleton by set_solver.
  assert (size (holders g) <> 0%nat) by (rewrite size_non_empty_iff; set_solver). split; [lia|set_solver].
Qed.

Lemma sem_inv_posted me b s s1 pd g :
  sem_inv s pd g -> pd !! me = None -> (disc = true -> me ∈ holders g) -> sem_ok m (count g + 1) s1 ->
  (forall t, t ∈ sem_waiters m s1 -> t ∈ sem_waiters m s) ->
  (forall t, t <> me -> told_ok s t -> told_ok s1 t) -> sem_inv s1 pd (sop_enter (SPost b) me g).
Proof.
  intros Hi Hnp Hd Hok Hws Htold. pose proof (not_inside me s pd g Hi Hnp) as Hni.
  destruct Hi as [_ Hin Hw Ht Hrest Hh]. constructor; simpl; [|done| | |done|].
  - replace (count _) with (count g + 1) by (unfold count; simpl; lia). exact Hok.
  - intros t Hq%Hws. by apply Hw.
  - intros t Hit. apply Htold; [set_solver|by apply Ht].
  - by apply hold_remove.
Qed.

Lemma called_post me b s pd g :
  running me s -> pd !! me = None -> sop_allowed (SPost b) me s g -> sem_inv s pd g ->
  called (SPost b) me s pd g.
Proof.
  intros Hr Hnp [Hmax Hd] Hi. pose proof (disc_holds _ Hd) as Hd'. clear Hd.
  pose proof (si_sem _ _ _ Hi) as Hs. assert (Hlt : count g < INT_MAX) by (unfold count; lia).
  destruct (sem_waiters m s) as [|t l] eqn:Hw.
  - destruct (sem_post_free m me _ b s Hr Hs Hlt Hw) as (Hrun & Hok & Hr' & _).
    left. do 2 eexists. split; [exact Hrun|]. split; [done|]. split; [apply sem_end_touched|].
    eapply sem_inv_posted; [exact Hi|done|done|exact Hok|by rewrite sem_waiters_unlock|].
    intros t' _. unfold told_ok, told, unlock_state. by destruct has_flag.
  - destruct (sem_post_wakes m me _ b s t l Hr Hs Hlt Hw) as (s1 & Hok & Hw1 & _ & Hmv & Htold & Hb).
    assert (Hi1 : sem_inv s1 pd (sop_enter (SPost b) me g)).
    { eapply sem_inv_posted; [exact Hi|done..| |done]. intros t'. rewrite Hw1, Hw. set_solver. }
    destruct b; destruct Hb as [Hres Hrun].
    + right. do 2 eexists. split; [exact Hrun|]. split; [done|]. apply sem_inv_insert; [done..|].
      intros o [= <-]. exists (saved_ints s). intros s'. exists 1. by erewrite bind_done by apply THREAD_UNLOCK_ok.
    + left. do 2 eexists. split; [exact Hrun|]. split; [by apply unlock_running|]. split.
      * eapply touched_trans; [exact Hmv|apply touched_unlock].
      * assert (Hdel : delete me pd = pd) by by apply delete_id. rewrite <- Hdel.
        apply sem_inv_unlocked; [|done]. intros [k Hk]. congruence.
Qed.

Lemma sop_called me o s pd g :
  running me s -> pd !! me = None -> few_threads s -> sop_allowed o me s g -> sem_inv s pd g ->
  called o me s pd g.
Proof.
  destruct o; intros; [by apply called_sem_wait|apply called_try; auto|apply called_try; auto|by apply called_post].
Qed.

(** A thread that was given a unit returns from its wait. *)
Lemma sop_resumed me o k s pd g :
  resumed me s -> pd !! me = Some (inr o, k) -> sem_inv s pd g ->
  exists ret s', k s = Done ret s' /\ running me s' /\ touched (Some (SemWQ m)) me s s' /\
    sem_inv s' (delete me pd) (sop_exit o me ret g).
Proof.
  intros Hr Hk Hi. pose proof (si_rest _ _ _ Hi _ _ _ Hk) as Hrest0.
  pose proof (fun st => touched_unlock (Some (SemWQ m)) me st s) as Htc.
  destruct o as [| | |b]; [|done|done|]; destruct Hrest0 as [st Hst].
  - assert (Hin : me ∈ inside g) by (apply (si_inside _ _ _ Hi); by exists k).
    rewrite Hst, block_resume_told by (done || by apply (si_told _ _ _ Hi)).
    do 2 eexists. split; [done|]. split; [by apply unlock_running|]. split; [done|]. simpl. unfold took. simpl.
    assert (Hnw : me ∉ sem_waiters m s) by (apply (current_not_queued me (WaitQ (SemWQ m))), Hr).
    destruct Hi as [Hs Hii Hw Ht Hrest Hh]. constructor; simpl.
    + replace (count _) with (count g); [by apply sem_ok_unlock|]. unfold count. simpl.
      rewrite size_difference, size_singleton by set_solver.
      assert (size (inside g) <> 0%nat) by (rewrite size_non_empty_iff; set_solver). lia.
    + intros t. rewrite elem_of_difference, elem_of_singleton, in_call_delete, Hii. tauto.
    + intros t. rewrite sem_waiters_unlock. intros Hq. pose proof (Hw t Hq). set_solver.
    + intros t [Hit _]%elem_of_difference. unfold told_ok, told, unlock_state. destruct has_flag; by apply Ht.
    + by apply each_rest_delete.
    + apply hold_add; [|set_solver|]; intros Hdd; destruct (Hh Hdd); [set_solver|split; [done|set_solver]].
  - destruct (Hst s) as [ret Hret]. exists ret, (unlock_state st s). split; [done|].
    split; [by apply unlock_running|]. split; [done|].
    apply sem_inv_unlocked; [|done]. intros [k' Hk']. congruence.
Qed.

#[local] Instance sem_laws : ProtocolLaws sop usage.
Proof.
  refine {| p_inv := sem_inv |}.
  - intros me s top s' pd g Hd Hi.
    assert (Hws : sem_waiters m s' = sem_waiters m s) by apply (dispatched_wait _ _ _ _ _ Hd).
    eapply sem_inv_state; [exact Hi|by eapply sem_ok_dispatched, Hi|by rewrite Hws|].
    intros t _. unfold told_ok, told. by rewrite (dp_ret _ _ _ _ Hd).
  - intros w me s s1 pd pd' g Htc Hw. eapply sem_inv_stable; [exact Htc|exact (Hw STry)].
  - intros me o s pd g. apply sop_called.
  - intros me o k s pd g. apply sop_resumed.
  - intros o me s pd g t Hi _ Ht. apply (si_waiters _ _ _ Hi) in Ht.
    apply (si_inside _ _ _ Hi) in Ht as [k Hk]. by exists SWait, k.
Defined.

Definition no_usage : usage := mk_usage 0 0 ∅ ∅.

Lemma boot_sem_inv me s : 0 <= init -> sem_ok m init s -> sem_inv s (boot_pends me s) no_usage.
Proof.
  intros Hn Hs. pose proof (so_waiters _ _ _ Hs) as Hlen.
  assert (Hws : sem_waiters m s = []) by (destruct (sem_waiters m s); [done|simpl in Hlen; lia]).
  constructor; cbn [no_usage posted taken inside holders].
  - replace (count _) with init; [done|]. unfold count, no_usage. cbn [posted taken inside]. rewrite size_empty. lia.
  - intros t. split; [set_solver|]. by intros [k (? & _)%boot_pends_base].
  - rewrite Hws. set_solver.
  - set_solver.
  - intros t o k (? & _)%boot_pends_base. done.
  - intros _. rewrite ?size_empty. split; [lia|set_solver].
Qed.

(** What a semaphore promises; [usage] says how it was used. *)
Definition sem_promise (s : kstate) (g : usage) : Prop :=
  let w := sem_waiters m s in
  semaphores s !! m = Some (mk_sem SEMAPHORE_MAGIC (count g)) /\
  taken g <= init + posted g /\
  (w <> [] -> taken g + (Z.of_nat (size (inside g)) - Z.of_nat (length w)) = init + posted g) /\
  (forall t, t ∈ w -> t ∈ inside g) /\ (forall t, t ∈ inside g -> t ∉ w -> told_ok s t) /\
  (disc = true -> Z.of_nat (size (holders g)) <= init).

Lemma sem_inv_promise run F s pd g : kinv run F s -> sem_inv s pd g -> sem_promise s g.
Proof.
  intros HI Hi. unfold sem_promise. cbv zeta. set (w := sem_waiters m s).
  destruct (count_low _ _ _ _ _ HI Hi) as [Hle _]. destruct Hi as [Hok Hin Hw Ht _ Hh]. fold w in Hw.
  pose proof (so_waiters _ _ _ Hok) as Hlen. fold w in Hlen. unfold count in Hlen.
  split_and!; [apply Hok|lia| |done|by auto|].
  - intros Hne. assert (length w <> 0%nat) by by destruct w. lia.
  - intros Hd. destruct (Hh Hd). lia.
Qed.

(** C3: the units of a semaphore are conserved, under every interleaving of
    waits, tries, polls and posts with yields, preemptions and priority
    changes: whatever is reached from the start, no call fails, a step is
    possible and the scheduler invariant holds; the count is what was posted
    less what was taken and what the pending waits claim; no more units are
    taken than there were, and no wake-up is lost: while a thread waits in the
    queue, every unit has been taken or given to a thread whose wait is about
    to return success.  When only threads without a unit take one and only
    threads with a unit post, at most [init] threads hold one: a semaphore of
    one unit, LKL's non-recursive mutex, excludes all threads but one. *)
Theorem sem_units_conserved me s mc :
  0 <= init -> running me s -> sem_ok m init s -> Z.of_nat (size (dom (threads s))) < INT_MAX ->
  steps (boot me s no_usage) mc ->
  ~ mstep mc None /\ (exists r, mstep mc r) /\
  (exists cur, current_thread (ks mc) = Some cur /\ kinv (Some cur) ∅ (ks mc)) /\
  sem_promise (ks mc) (ghost mc).
Proof.
  intros Hn Hr Hs Hsz Hst.
  destruct (interleaving_safe me s no_usage mc Hr Hsz) as (H1 & H2 & (cur & Hcur & HI) & Hi);
    [by apply boot_sem_inv|done|].
  split; [done|]. split; [done|]. split; [by exists cur|]. by eapply sem_inv_promise.
Qed.
End machine.

(** ** Witness *)

#[local] Existing Instance debug_config.
#[local] Instance sem_demo_protocol : Protocol sop usage := sem_protocol 11 1 true.

(** A semaphore of one unit: thread 2 takes it and yields, thread 3 starts and
    waits, thread 2 posts, and thread 3 holds the unit. *)
Definition sem_demo_schedule : list (base + sop) :=
  [inr SWait; inl BYield; inl BYield; inr SWait; inl BYield; inr (SPost true); inl BYield; inl BYield].

Definition sem_demo_boot : machine sop usage := boot 2 (demo_sem 1) no_usage.
Definition sem_demo_reached : machine sop usage := default sem_demo_boot (drive sem_demo_schedule sem_demo_boot).

Lemma sem_demo_reached_steps : steps sem_demo_boot sem_demo_reached.
Proof. apply drive_default_steps. by vm_compute. Qed.

Lemma sem_units_conserved_witness :
  (bool_decide (holders (ghost sem_demo_reached) = {[3%positive]}) && (posted (ghost sem_demo_reached) =? 1) &&
   (taken (ghost sem_demo_reached) =? 2)) = true /\
  ~ mstep sem_demo_reached None /\ exists r, mstep sem_demo_reached r.
Proof.
  split; [by vm_compute|].
  pose proof (sem_units_conserved 11 1 true 2 (demo_sem 1) sem_demo_reached ltac:(lia) (demo_sem_running 1)
    (demo_sem_ok 1 ltac:(unfold INT_MAX; lia)) ltac:(vm_compute; done) sem_demo_reached_steps) as (H1 & H2 & _).
  by split.
Defined.
