(* ===== verification/EventMachine.v ===== *)
(** * The signals of an event under every interleaving

    The threads of the machine of Interleave.v share one event of
    [lk/kernel/event.c]: they wait, poll, signal and unsignal, besides yielding,
    being preempted and changing their priority, at any time.  The ghost state
    is an event without threads and queues: a latch, and the number of waits
    that were granted.  The kernel's event refines it. *)

From S2P Require Import Prelude Kernel KInv Sched WaitQueue Footprint Thread Event Interleave.

(** [EPoll]: [event_wait_timeout] with a zero timeout. *)
Inductive eop := EWait | EPoll | ESignal (resched : bool) | EUnsignal.

#[export] Instance eop_eq_dec : EqDecision eop.
Proof. solve_decision. Defined.

(** [callers]: the threads in a call of [event_wait]; [granted]: those of them
    that will return success; [signals]: the signals of an event that was not
    signaled; [ended]: the waits that returned success; [cleared]: the signals
    taken back. *)
Record latch := mk_latch {
  latched : bool; granted : Z; callers : gset ptr; signals : Z; ended : Z; cleared : Z }.

Section machine.
Context `{Config}.
(** [init]: whether the event is signaled at first. *)
Variables (e : ptr) (fl : Z) (init : bool).

Definition auto : bool := has_flag fl EVENT_FLAG_AUTOUNSIGNAL.

Definition eop_exec (o : eop) : M Z :=
  match o with
  | EWait => event_wait e
  | EPoll => event_wait_timeout e 0
  | ESignal b => event_signal e b
  | EUnsignal => event_unsignal e
  end.

(** The rule of use: the idle thread does not block. *)
Definition eop_allowed (o : eop) (me : ptr) (_ : kstate) (_ : latch) : Prop :=
  match o with EWait => me <> _idle_thread | _ => True end.

(** A wait takes the latch, or is counted among those to be granted. *)
Definition latch_wait (g : latch) (cs : gset ptr) : latch :=
  if latched g then mk_latch (negb auto) (granted g + 1) cs (signals g) (ended g) (cleared g)
  else mk_latch false (granted g) cs (signals g) (ended g) (cleared g).

(** A signal grants one wait, or all of them, or sets the latch. *)
Definition latch_signal (g : latch) : latch :=
  let waiting := Z.of_nat (size (callers g)) - granted g in
  if latched g then g
  else if auto then
    if 0 <? waiting then mk_latch false (granted g + 1) (callers g) (signals g + 1) (ended g) (cleared g)
    else mk_latch true (granted g) (callers g) (signals g + 1) (ended g) (cleared g)
  else mk_latch true (granted g + waiting) (callers g) (signals g + 1) (ended g) (cleared g).

Definition latch_clear (g : latch) : latch :=
  mk_latch false (granted g) (callers g) (signals g) (ended g) (cleared g + Z.b2z (latched g)).

Definition latch_end (g : latch) (cs : gset ptr) (ret : Z) : latch :=
  if ret =? NO_ERROR then mk_latch (latched g) (granted g - 1) cs (signals g) (ended g + 1) (cleared g)
  else mk_latch (latched g) (granted g) cs (signals g) (ended g) (cleared g).

Definition eop_enter (o : eop) (me : ptr) (g : latch) : latch :=
  match o with
  | EWait => latch_wait g ({[me]} ∪ callers g)
  | EPoll => latch_wait g (callers g)
  | ESignal _ => latch_signal g
  | EUnsignal => latch_clear g
  end.

Definition eop_exit (o : eop) (me : ptr) (ret : Z) (g : latch) : latch :=
  match o with
  | EWait => latch_end g (callers g ∖ {[me]}) ret
  | EPoll => latch_end g (callers g) ret
  | ESignal _ | EUnsignal => g
  end.

#[export] Instance eop_allowed_dec o me s g : Decision (eop_allowed o me s g).
Proof. destruct o; unfold eop_allowed; apply _. Defined.

Definition event_protocol : Protocol eop latch := {|
  p_exec := eop_exec; p_obj := fun _ => EventWQ e; p_allowed := eop_allowed; p_allowed_dec := eop_allowed_dec;
  p_enter := eop_enter; p_exit := eop_exit |}.
#[local] Existing Instance event_protocol.

(** ** The invariant *)

(** The rest of a call; the calls that do not block have none. *)
Definition event_rest_ok (t : ptr) (o : eop) (k : kstate -> run Z) : Prop :=
  match o with
  | EWait => exists st, k = block_resume t st
  | EPoll | EUnsignal => False
  | ESignal _ => exists st, forall s, k s = Done NO_ERROR (unlock_state st s)
  end.

Record event_inv (s : kstate) (pd : pends eop) (g : latch) : Prop := {
  ei_event : event_ok e (latched g) fl s;
  ei_callers : forall t, t ∈ callers g <-> in_call EWait pd t;
  ei_waiters : forall t, t ∈ event_waiters e s -> t ∈ callers g;
  ei_count : Z.of_nat (size (callers g)) = Z.of_nat (length (event_waiters e s)) + granted g;
  ei_latched : latched g = true -> event_waiters e s = [];
  ei_told : forall t, t ∈ callers g -> told_ok s t;
  ei_rest : each_rest event_rest_ok pd;
  ei_sum : auto = true -> Z.b2z init + signals g = ended g + granted g + Z.b2z (latched g) + cleared g
}.

Implicit Types (s : kstate) (t me : ptr) (pd : pends eop) (g : latch).

Lemma not_caller me s pd g : event_inv s pd g -> pd !! me = None -> me ∉ callers g.
Proof. intros Hi Hnp [k Hk]%(ei_callers _ _ _ Hi). congruence. Qed.

(** *** Frames *)

Lemma event_waiters_unlock st s : event_waiters e (unlock_state st s) = event_waiters e s.
Proof. unfold unlock_state. by destruct has_flag. Qed.

Lemma event_inv_stable w me s s1 pd pd' g :
  touched w me s s1 -> w <> Some (EventWQ e) -> foreign pd me -> foreign pd' me ->
  (forall t, t <> me -> pd' !! t = pd !! t) ->
  (forall t o k w', w = Some w' -> pd !! t = Some (inr o, k) -> t ∉ queue s (WaitQ w')) ->
  event_inv s pd g -> event_inv s1 pd' g.
Proof.
  intros Htc Hw0 Hf Hf' Hpd' Hwt [He Hc Hw Hn Hl Ht Hrest Hs].
  assert (Hws : event_waiters e s1 = event_waiters e s) by by apply (tc_queue _ _ _ _ Htc).
  constructor; rewrite ?Hws; try done.
  - by eapply event_ok_touched.
  - intros t. by rewrite Hc, (in_call_foreign EWait pd pd' me t).
  - intros t Hi. pose proof Hi as [k Hk]%Hc. unfold told_ok.
    rewrite (tc_told _ _ _ _ Htc); [by apply Ht| |by eauto]. intros ->. by apply Hf in Hk.
  - by apply (each_rest_foreign _ pd _ me).
Qed.

Lemma event_inv_dispatched me s top s' pd g : dispatched me s top s' -> event_inv s pd g -> event_inv s' pd g.
Proof.
  intros Hd [He Hc Hw Hn Hl Ht Hrest Hs].
  assert (Hws : event_waiters e s' = event_waiters e s) by apply (dispatched_wait _ _ _ _ _ Hd).
  constructor; rewrite ?Hws; try done.
  - eapply event_ok_sched; [done|apply Hd].
  - intros t Hi. unfold told_ok. rewrite (dispatched_told _ _ _ _ _ Hd). by apply Ht.
Qed.

(** The lock is given back, and a call ends that is no wait. *)
Lemma event_inv_unlocked me s st pd g :
  ~ in_call EWait pd me -> event_inv s pd g -> event_inv (unlock_state st s) (delete me pd) g.
Proof.
  intros Hna [He Hc Hw Hn Hl Ht Hrest Hs].
  constructor; rewrite ?event_waiters_unlock; try done; [by apply event_ok_unlock| | |by apply each_rest_delete].
  - intros t. rewrite Hc, in_call_delete. split; [|tauto]. intros Hk. split; [congruence|done].
  - intros t Hi. unfold told_ok, told, unlock_state. destruct has_flag; by apply Ht.
Qed.

(** *** Waiting *)

Definition called (o : eop) (me : ptr) (s : kstate) (pd : pends eop) (g : latch) : Prop :=
  call_outcome event_inv me o (eop_exec o s) s pd (eop_enter o me g).

Lemma event_inv_taken s pd g : event_inv s pd g -> latched g = true ->
  event_ok e (negb auto) fl (taken_state e fl s) ->
  event_inv (taken_state e fl s) pd
    (mk_latch (negb auto) (granted g) (callers g) (signals g) (ended g + 1) (cleared g)).
Proof.
  intros [He Hc Hw Hn Hl Ht Hrest Hs] Hlat Hok.
  assert (Hws : event_waiters e (taken_state e fl s) = event_waiters e s).
  { unfold taken_state. rewrite event_waiters_unlock. by destruct has_flag. }
  constructor; rewrite ?Hws; cbn [latched granted callers signals ended cleared]; try done.
  - intros _. by apply Hl.
  - intros t Hi. unfold told_ok, told, taken_state, unlock_state.
    destruct (has_flag fl _), (has_flag (saved_ints s) _); by apply Ht.
  - intros Ha. rewrite Ha. specialize (Hs Ha). rewrite Hlat in Hs. simpl in *. lia.
Qed.

Lemma called_wait me s pd g :
  running me s -> pd !! me = None -> eop_allowed EWait me s g -> event_inv s pd g -> called EWait me s pd g.
Proof.
  intros Hr Hnp Hidle Hi. pose proof (not_caller me s pd g Hi Hnp) as Hni.
  pose proof (ei_event _ _ _ Hi) as He. unfold called. cbn [eop_enter eop_exec]. unfold latch_wait.
  destruct (latched g) eqn:Hlat.
  - destruct (event_wait_signaled me e fl INFINITE_TIME s Hr He) as (Hrun & Hr' & He' & _).
    left. do 2 eexists. split; [exact Hrun|]. split; [done|]. split; [apply taken_touched|].
    cbn [p_exit event_protocol eop_exit]. unfold latch_end. cbn [latched granted callers signals ended cleared].
    replace (NO_ERROR =? NO_ERROR) with true by done.
    replace (granted g + 1 - 1) with (granted g) by lia.
    replace (({[me]} ∪ callers g) ∖ {[me]}) with (callers g) by set_solver. by apply event_inv_taken.
  - destruct (event_wait_blocks me e fl s Hr He Hidle) as (s1 & _ & Hok & _ & Hws & Htc & Htold & Hths & Hre).
    right. do 2 eexists. split; [exact Hre|]. split; [done|].
    destruct Hi as [_ Hc Hw Hn Hl Ht Hrest Hs].
    constructor; cbn [latched granted callers signals ended cleared]; [done|..].
    + intros t. rewrite elem_of_union, elem_of_singleton, Hc, in_call_insert_new by done. tauto.
    + intros t. rewrite Hws, elem_of_app, list_elem_of_singleton. set_solver.
    + rewrite Hws, length_app, size_union, size_singleton by set_solver. simpl. lia.
    + done.
    + intros t [->%elem_of_singleton|Hit]%elem_of_union; [done|]. unfold told_ok, told.
      rewrite Hths by set_solver. by apply Ht.
    + apply each_rest_insert; [|done]. intros o [= <-]. by eexists.
    + intros Ha. rewrite (Hs Ha), Hlat. done.
Qed.

Lemma called_poll me s pd g :
  running me s -> event_inv s pd g -> called EPoll me s pd g.
Proof.
  intros Hr Hi. pose proof (ei_event _ _ _ Hi) as He. unfold called. cbn [eop_enter eop_exec]. unfold latch_wait.
  destruct (latched g) eqn:Hlat; left; do 2 eexists.
  - destruct (event_wait_signaled me e fl 0 s Hr He) as (Hrun & Hr' & He' & _).
    split; [exact Hrun|]. split; [done|]. split; [apply taken_touched|].
    cbn [p_exit event_protocol eop_exit]. unfold latch_end. cbn [latched granted callers signals ended cleared].
    replace (NO_ERROR =? NO_ERROR) with true by done.
    replace (granted g + 1 - 1) with (granted g) by lia. by apply event_inv_taken.
  - split; [by eapply event_poll_unsignaled|]. split; [apply unlock_running, resumed_lock, Hr|].
    split; [eapply touched_trans; [apply touched_lock|apply touched_unlock]|].
    cbn [p_exit event_protocol eop_exit]. unfold latch_end. cbn [latched granted callers signals ended cleared].
    replace (ERR_TIMED_OUT =? NO_ERROR) with false by done.
    replace (mk_latch _ _ _ _ _ _) with g by (destruct g; simpl in *; congruence).
    destruct Hi as [_ Hc Hw Hn Hl Ht Hrest Hs].
    constructor; rewrite ?event_waiters_unlock, ?Hlat; try done.
    + apply event_ok_unlock. by destruct He.
    + intros t Hit. unfold told_ok, told, unlock_state. destruct has_flag; by apply Ht.
    + intros Ha. by rewrite (Hs Ha), Hlat.
Qed.

(** *** Signaling *)

Lemma latch_signal_eq s pd g : event_inv s pd g ->
  let ws := event_waiters e s in
  latch_signal g = mk_latch (signaled_after (latched g) fl ws)
    (granted g + Z.of_nat (length (woken_by (latched g) fl ws))) (callers g)
    (signals g + Z.b2z (negb (latched g))) (ended g) (cleared g).
Proof.
  intros Hi ws. unfold latch_signal, signaled_after, woken_by, auto. pose proof (ei_count _ _ _ Hi) as Hn.
  replace (Z.of_nat (size (callers g)) - granted g) with (Z.of_nat (length ws)) by (unfold ws; lia).
  destruct g as [[] gr cs si en cl]; simpl in *; [f_equal; lia|].
  destruct (has_flag fl EVENT_FLAG_AUTOUNSIGNAL); [|done].
  destruct ws as [|t l]; simpl; [f_equal; lia|done].
Qed.

Lemma called_signal me b s pd g :
  running me s -> pd !! me = None -> event_inv s pd g -> called (ESignal b) me s pd g.
Proof.
  intros Hr Hnp Hi. unfold called. cbn [eop_enter eop_exec]. rewrite (latch_signal_eq s pd g Hi). cbv zeta.
  set (ws := event_waiters e s). set (wk := woken_by (latched g) fl ws).
  destruct (event_signal_effect me e (latched g) fl b s Hr (ei_event _ _ _ Hi)) as (s1 & [Hok Hleft Hwk Htc Htold] & Hend).
  fold ws wk in Hok, Hleft, Hwk, Hend.
  pose proof (not_caller me s pd g Hi Hnp) as Hni.
  set (g' := mk_latch _ _ _ _ _ _).
  assert (Hi1 : event_inv s1 pd g').
  { destruct Hi as [_ Hc Hw Hn Hl Ht Hrest Hs].
    assert (Hpre : ws = wk ++ skipn (length wk) ws).
    { unfold wk, woken_by. destruct (latched g); [done|]. destruct has_flag; [by destruct ws|].
      by rewrite skipn_all, app_nil_r. }
    assert (Hlen : length ws = (length wk + length (skipn (length wk) ws))%nat) by (rewrite Hpre at 1; apply length_app).
    constructor; rewrite ?Hleft; cbn [g' latched granted callers signals ended cleared]; [done|done|..|done|].
    - intros t Hit. apply Hw. fold ws. rewrite Hpre. set_solver.
    - fold ws in Hn. lia.
    - unfold signaled_after, wk, woken_by. intros Hsg. destruct (latched g) eqn:Hlat; [by apply Hl|].
      unfold ws in *. destruct has_flag; simpl in *; [|by rewrite skipn_all].
      apply bool_decide_eq_true in Hsg. by rewrite Hsg.
    - intros t Hit. apply Htold; [set_solver|by apply Ht].
    - intros Ha. specialize (Hs Ha). unfold wk, woken_by, signaled_after. unfold auto in Ha. rewrite Ha.
      destruct (latched g) eqn:Hlat; simpl in *; [lia|]. destruct ws as [|t l]; simpl; [lia|].
      lia. }
  unfold signal_end in Hend. destruct (b && negb (bool_decide (wk = []))) eqn:Eb; destruct Hend as [Hres Hrun].
  - right. do 2 eexists. split; [exact Hrun|]. split; [done|].
    destruct Hi1 as [He1 Hc1 Hw1 Hn1 Hl1 Ht1 Hrest1 Hs1]. constructor; try done.
    + intros t. rewrite Hc1, in_call_insert_new by done. split; [by right|]. by intros [[_ [= ]]|].
    + apply each_rest_insert; [|done]. intros o [= <-]. exists (saved_ints s). intros s'.
      by erewrite bind_done by apply THREAD_UNLOCK_ok.
  - left. do 2 eexists. split; [exact Hrun|]. split; [by apply unlock_running|].
    split; [eapply touched_trans; [exact Htc|apply touched_unlock]|].
    assert (Hdel : delete me pd = pd) by by apply delete_id. rewrite <- Hdel.
    apply event_inv_unlocked; [|done]. intros [k Hk]. congruence.
Qed.

Lemma called_unsignal me s pd g : running me s -> event_inv s pd g -> called EUnsignal me s pd g.
Proof.
  intros Hr Hi. pose proof (ei_event _ _ _ Hi) as He. left. do 2 eexists.
  split; [by eapply event_unsignal_ok|]. split; [by apply event_set_running|]. split; [apply touched_event|].
  cbn [p_exit event_protocol eop_exit eop_enter]. unfold latch_clear.
  destruct Hi as [_ Hc Hw Hn Hl Ht Hrest Hs]. constructor; cbn [latched granted callers signals ended cleared]; try done.
  - by eapply event_ok_set.
  - intros Ha. specialize (Hs Ha). simpl. lia.
Qed.

Lemma eop_called me o s pd g :
  running me s -> pd !! me = None -> few_threads s -> eop_allowed o me s g -> event_inv s pd g ->
  called o me s pd g.
Proof.
  destruct o; intros; [by apply called_wait|by apply called_poll|by apply called_signal|by apply called_unsignal].
Qed.

(** A wait that was granted returns success. *)
Lemma eop_resumed me o k s pd g :
  resumed me s -> pd !! me = Some (inr o, k) -> event_inv s pd g ->
  exists ret s', k s = Done ret s' /\ running me s' /\ touched (Some (EventWQ e)) me s s' /\
    event_inv s' (delete me pd) (eop_exit o me ret g).
Proof.
  intros Hr Hk Hi. pose proof (ei_rest _ _ _ Hi _ _ _ Hk) as Hrest0.
  pose proof (fun st => touched_unlock (Some (EventWQ e)) me st s) as Htc.
  destruct o as [| |b|]; [|done| |done]; destruct Hrest0 as [st Hst].
  - assert (Hin : me ∈ callers g) by (apply (ei_callers _ _ _ Hi); by exists k).
    rewrite Hst, block_resume_told by (done || by apply (ei_told _ _ _ Hi)).
    do 2 eexists. split; [done|]. split; [by apply unlock_running|]. split; [done|].
    cbn [eop_exit]. unfold latch_end. replace (NO_ERROR =? NO_ERROR) with true by done.
    assert (Hnw : me ∉ event_waiters e s) by (apply (current_not_queued me (WaitQ (EventWQ e))), Hr).
    destruct Hi as [He Hc Hw Hn Hl Ht Hrest Hs].
    constructor; rewrite ?event_waiters_unlock; cbn [latched granted callers signals ended cleared]; try done.
    + by apply event_ok_unlock.
    + intros t. rewrite elem_of_difference, elem_of_singleton, in_call_delete, Hc. tauto.
    + intros t Hq. pose proof (Hw t Hq). set_solver.
    + rewrite size_difference, size_singleton by set_solver.
      assert (size (callers g) <> 0%nat) by (rewrite size_non_empty_iff; set_solver). lia.
    + intros t [Hit _]%elem_of_difference. unfold told_ok, told, unlock_state. destruct has_flag; by apply Ht.
    + by apply each_rest_delete.
    + intros Ha. specialize (Hs Ha). lia.
  - rewrite Hst. do 2 eexists. split; [done|]. split; [by apply unlock_running|]. split; [done|].
    apply event_inv_unlocked; [|done]. intros [k' Hk']. congruence.
Qed.

#[local] Instance event_laws : ProtocolLaws eop latch.
Proof.
  refine {| p_inv := event_inv |}.
  - intros me s top s' pd g. apply event_inv_dispatched.
  - intros w me s s1 pd pd' g Htc Hw. eapply event_inv_stable; [exact Htc|exact (Hw EWait)].
  - intros me o s pd g. apply eop_called.
  - intros me o k s pd g. apply eop_resumed.
  - intros o me s pd g t Hi _ Ht. apply (ei_waiters _ _ _ Hi) in Ht.
    apply (ei_callers _ _ _ Hi) in Ht as [k Hk]. by exists EWait, k.
Defined.

Definition new_latch : latch := mk_latch init 0 ∅ 0 0 0.

Lemma boot_event_inv me s : event_ok e init fl s -> event_waiters e s = [] ->
  event_inv s (boot_pends me s) new_latch.
Proof.
  intros He Hws. constructor; rewrite ?Hws; cbn [new_latch latched granted callers signals ended cleared];
    try done; try set_solver.
  - intros t. split; [set_solver|]. by intros ?%boot_no_call.
  - intros t o k (? & _)%boot_pends_base. done.
Qed.

(** What an event promises: it behaves as the latch. *)
Definition event_promise (s : kstate) (g : latch) : Prop :=
  let w := event_waiters e s in
  events s !! e = Some (mk_event EVENT_MAGIC (latched g) fl) /\
  (latched g = true -> w = []) /\
  Z.of_nat (size (callers g)) = Z.of_nat (length w) + granted g /\
  (forall t, t ∈ callers g -> t ∉ w -> told_ok s t) /\
  (auto = true -> Z.b2z init + signals g = ended g + granted g + Z.b2z (latched g) + cleared g).

Lemma event_inv_promise s pd g : event_inv s pd g -> event_promise s g.
Proof. intros [Hok Hc Hw Hn Hl Ht _ Hs]. split_and!; [apply Hok|done|done|by auto|done]. Qed.

(** C25: no signal is lost, under every interleaving of waits, polls, signals
    and unsignals with yields, preemptions and priority changes: whatever is
    reached from the start, no call fails, a step is possible, the scheduler
    invariant holds, and the event behaves as the [latch]: it is signaled
    exactly when the latch is set, and then nobody waits; the waits in progress
    are those queued and those granted, which return success.  With
    auto-unsignaling every signal that found the event unsignaled ended one
    wait, is about to end one, is still there, or was taken back. *)
Theorem event_signals_kept me s mc :
  running me s -> event_ok e init fl s -> event_waiters e s = [] ->
  Z.of_nat (size (dom (threads s))) < INT_MAX -> steps (boot me s new_latch) mc ->
  ~ mstep mc None /\ (exists r, mstep mc r) /\
  (exists cur, current_thread (ks mc) = Some cur /\ kinv (Some cur) ∅ (ks mc)) /\
  event_promise (ks mc) (ghost mc).
Proof.
  intros Hr He Hws Hsz Hst.
  destruct (interleaving_safe me s new_latch mc Hr Hsz) as (H1 & H2 & H3 & Hi);
    [by apply boot_event_inv|done|].
  do 3 (split; [done|]). by eapply event_inv_promise.
Qed.
End machine.

(** ** Witness *)

#[local] Existing Instance debug_config.
#[local] Instance event_demo_protocol : Protocol eop latch := event_protocol 12 EVENT_FLAG_AUTOUNSIGNAL.

(** Thread 2 signals twice and waits; thread 3 starts and waits, thread 2
    signals again: thread 3's wait ends. *)
Definition event_demo_schedule : list (base + eop) :=
  [inr (ESignal true); inr (ESignal false); inr EWait; inl BYield; inl BYield; inr EWait; inl BYield;
   inr (ESignal true); inl BYield; inl BYield].

Definition event_demo_boot : machine eop latch := boot 2 (demo_event false EVENT_FLAG_AUTOUNSIGNAL) (new_latch false).
Definition event_demo_reached : machine eop latch := default event_demo_boot (drive event_demo_schedule event_demo_boot).

Lemma event_demo_reached_steps : steps event_demo_boot event_demo_reached.
Proof. apply drive_default_steps. by vm_compute. Qed.

Lemma event_signals_kept_witness :
  ((signals (ghost event_demo_reached) =? 2) && (ended (ghost event_demo_reached) =? 2)) = true /\
  ~ mstep event_demo_reached None /\ exists r, mstep event_demo_reached r.
Proof.
  split; [by vm_compute|].
  pose proof (event_signals_kept 12 EVENT_FLAG_AUTOUNSIGNAL false 2 (demo_event false EVENT_FLAG_AUTOUNSIGNAL)
    event_demo_reached (demo_event_running _ _) (demo_event_ok _ _) ltac:(by vm_compute)
    ltac:(vm_compute; done) event_demo_reached_steps) as (H1 & H2 & _).
  by split.
Defined.
