(* ===== verification/Compose.v ===== *)
(** * Several components side by side

    Protocols over the machine of Interleave.v compose: two protocols
    ([sum_protocol]), and a family of protocols of one kind, one for every
    object ([family_protocol]).  A component sees the calls of the others as
    calls that do not concern it ([view]); as they touch other objects, its
    invariant is stable under them. *)

From S2P Require Import Prelude Kernel KInv Sched WaitQueue Footprint Thread Interleave.

(** ** What a component sees *)

Section view.
Context {Op' Op : Type} (pi : Op' -> option Op).

Definition view_call (c : base + Op') : base + Op :=
  match c with
  | inl b => inl b
  | inr o' => match pi o' with Some o => inr o | None => inl BYield end
  end.

Definition view (pd : pends Op') : pends Op := prod_map view_call id <$> pd.

Implicit Types (pd : pends Op') (t me : ptr).

Lemma view_insert pd t c k : view (<[t := (c, k)]> pd) = <[t := (view_call c, k)]> (view pd).
Proof. unfold view. by rewrite fmap_insert. Qed.

Lemma view_delete pd t : view (delete t pd) = delete t (view pd).
Proof. unfold view. by rewrite fmap_delete. Qed.

Lemma view_none pd t : pd !! t = None -> view pd !! t = None.
Proof. unfold view. rewrite lookup_fmap. by intros ->. Qed.

Lemma view_own pd t o' o k : pd !! t = Some (inr o', k) -> pi o' = Some o -> view pd !! t = Some (inr o, k).
Proof. unfold view. rewrite lookup_fmap. intros -> E. simpl. by rewrite E. Qed.

Lemma view_inr pd t o k : view pd !! t = Some (inr o, k) -> exists o', pd !! t = Some (inr o', k) /\ pi o' = Some o.
Proof.
  unfold view. rewrite lookup_fmap. destruct (pd !! t) as [[[b|o'] k']|]; simpl; [done| |done].
  destruct (pi o') as [o0|] eqn:E; simpl; [|done]. intros [= -> ->]. by exists o'.
Qed.

(** A thread in another component's call, or in none, is foreign. *)
Lemma view_foreign pd t : (forall o' k, pd !! t = Some (inr o', k) -> pi o' = None) -> foreign (view pd) t.
Proof. intros Hf o k (o' & Hk & E)%view_inr. apply Hf in Hk. congruence. Qed.

Lemma view_foreign_any pd t : foreign pd t -> foreign (view pd) t.
Proof. intros Hf. apply view_foreign. intros o k Hk. by apply Hf in Hk. Qed.

Lemma view_foreign_none pd t : pd !! t = None -> foreign (view pd) t.
Proof. intros Hn. apply view_foreign. congruence. Qed.

Lemma view_foreign_in pd t o' k : pi o' = None -> foreign (view (<[t := (inr o', k)]> pd)) t.
Proof. intros Hn. apply view_foreign. intros o k'. rewrite lookup_insert_eq. by intros [= <- _]. Qed.

Lemma view_foreign_at pd t o' k : pd !! t = Some (inr o', k) -> pi o' = None -> foreign (view pd) t.
Proof. intros Hk Hn. apply view_foreign. intros o k' Hk'. congruence. Qed.

Lemma view_foreign_delete pd t : foreign (view (delete t pd)) t.
Proof. apply view_foreign_none, lookup_delete_eq. Qed.

Lemma view_others pd pd' me :
  (forall t, t <> me -> pd' !! t = pd !! t) -> forall t, t <> me -> view pd' !! t = view pd !! t.
Proof. intros Hpd t Hne. unfold view. by rewrite !lookup_fmap, Hpd. Qed.

Lemma view_boot `{Config} me s : view (boot_pends me s) = boot_pends me s.
Proof. unfold view, boot_pends. rewrite <- map_fmap_compose. done. Qed.
End view.

Lemma insert_others {Op} (pd : pends Op) me x t : t <> me -> <[me := x]> pd !! t = pd !! t.
Proof. intros Hne. by rewrite lookup_insert_ne. Qed.

Lemma delete_others {Op} (pd : pends Op) me t : t <> me -> delete me pd !! t = pd !! t.
Proof. intros Hne. by rewrite lookup_delete_ne. Qed.

(** ** A component and its neighbour *)

(** A call of the first protocol leaves the invariant of the second. *)
Lemma bystander `{Config} {Op' Op1 G1 Op2 G2} (P1 : Protocol Op1 G1) (P2 : Protocol Op2 G2)
    (L1 : ProtocolLaws Op1 G1) (L2 : ProtocolLaws Op2 G2)
    (pi1 : Op' -> option Op1) (pi2 : Op' -> option Op2) o me s s1 (pd pd' : pends Op') g1 g2 :
  (forall o', pi1 o' = None \/ pi2 o' = None) -> (forall o2, p_obj o <> p_obj o2) ->
  touched (Some (p_obj o)) me s s1 ->
  p_inv s (view pi1 pd) g1 -> p_allowed o me s g1 \/ (exists k, view pi1 pd !! me = Some (inr o, k)) ->
  foreign (view pi2 pd) me -> foreign (view pi2 pd') me -> (forall t, t <> me -> pd' !! t = pd !! t) ->
  p_inv s (view pi2 pd) g2 -> p_inv s1 (view pi2 pd') g2.
Proof.
  intros Hpi Hobj Htc H1 Hal Hf Hf' Hpd H2.
  eapply p_stable; [exact Htc| |exact Hf|exact Hf'|by apply view_others| |exact H2].
  - intros o2 [= E]. by apply (Hobj o2).
  - intros t o2 k w' [= <-] Hk Hq. destruct (p_waits o me s _ g1 t H1 Hal Hq) as (o1 & k1 & Hk1).
    apply view_inr in Hk as (o' & Hk & E2). apply view_inr in Hk1 as (o'' & Hk1 & E1).
    assert (o' = o'') as -> by congruence. destruct (Hpi o''); congruence.
Qed.

(** The calls of a component in the system's machine. *)
Lemma call_outcome_view `{Config} {Op' Op G'} {G} (P : Protocol Op G) (P' : Protocol Op' G')
    (inv : kstate -> pends Op -> G -> Prop) (inv' : kstate -> pends Op' -> G' -> Prop)
    (pi : Op' -> option Op) (o' : Op') o me r s pd g g' :
  pi o' = Some o -> p_obj o' = p_obj o ->
  call_outcome inv me o r s (view pi pd) g ->
  (forall ret s1, touched (Some (p_obj o)) me s s1 ->
     inv s1 (view pi pd) (p_exit o me ret g) -> inv' s1 pd (p_exit o' me ret g')) ->
  (forall c s1, touched (Some (p_obj o)) me s s1 ->
     inv s1 (view pi (<[me := (inr o', c)]> pd)) g -> inv' s1 (<[me := (inr o', c)]> pd) g') ->
  call_outcome inv' me o' r s pd g'.
Proof.
  intros Hpi Hobj [(ret & s1 & -> & Hr & Htc & Hi)|(c & s1 & Hre & Htc & Hi)] Hdone Hsw.
  - left. exists ret, s1. split; [done|]. split; [done|]. split; [by rewrite Hobj|by apply Hdone].
  - right. exists c, s1. split; [done|]. split; [by rewrite Hobj|]. apply Hsw; [done|].
    rewrite view_insert. simpl. by rewrite Hpi.
Qed.

(** ** Two protocols *)

Section sum.
Context `{Config} {Op1 G1 Op2 G2 : Type} `{P1 : !Protocol Op1 G1, P2 : !Protocol Op2 G2}.

#[export] Instance sum_protocol : Protocol (Op1 + Op2) (G1 * G2) := {|
  p_exec := fun o : Op1 + Op2 => match o with inl o => p_exec (Op := Op1) o | inr o => p_exec (Op := Op2) o end;
  p_obj := fun o : Op1 + Op2 => match o with inl o => p_obj (Op := Op1) o | inr o => p_obj (Op := Op2) o end;
  p_allowed := fun (o : Op1 + Op2) me s (g : G1 * G2) =>
    match o with inl o => p_allowed o me s g.1 | inr o => p_allowed o me s g.2 end;
  p_allowed_dec := fun o me s g =>
    match o with inl o => p_allowed_dec o me s g.1 | inr o => p_allowed_dec o me s g.2 end;
  p_enter := fun (o : Op1 + Op2) me (g : G1 * G2) =>
    match o with inl o => (p_enter o me g.1, g.2) | inr o => (g.1, p_enter o me g.2) end;
  p_exit := fun (o : Op1 + Op2) me ret (g : G1 * G2) =>
    match o with inl o => (p_exit o me ret g.1, g.2) | inr o => (g.1, p_exit o me ret g.2) end
|}.

Definition pi_l (o : Op1 + Op2) : option Op1 := match o with inl o => Some o | inr _ => None end.
Definition pi_r (o : Op1 + Op2) : option Op2 := match o with inl _ => None | inr o => Some o end.

Lemma pi_lr o : pi_l o = None \/ pi_r o = None.
Proof. destruct o; auto. Qed.
Lemma pi_rl o : pi_r o = None \/ pi_l o = None.
Proof. destruct o; auto. Qed.

Context `{L1 : !ProtocolLaws Op1 G1, L2 : !ProtocolLaws Op2 G2}.
Hypothesis Hobj : forall (o1 : Op1) (o2 : Op2), p_obj o1 <> p_obj o2.

Definition sum_inv (s : kstate) (pd : pends (Op1 + Op2)) (g : G1 * G2) : Prop :=
  p_inv s (view pi_l pd) g.1 /\ p_inv s (view pi_r pd) g.2.

Lemma sum_called me o s pd g :
  running me s -> pd !! me = None -> few_threads s -> p_allowed o me s g -> sum_inv s pd g ->
  call_outcome sum_inv me o (p_exec o s) s pd (p_enter o me g).
Proof.
  intros Hr Hnp Hsz Hal [I1 I2]. destruct o as [o|o]; simpl in Hal |- *.
  - pose proof (p_called me o s (view pi_l pd) g.1 Hr (view_none _ _ _ Hnp) Hsz Hal I1) as Hout.
    eapply (call_outcome_view P1 sum_protocol _ _ pi_l (inl o) o); [done|done|exact Hout|..].
    + intros ret s1 Htc Hi. split; [exact Hi|].
      by eapply (bystander P1 P2 L1 L2 pi_l pi_r o me s s1 pd pd); eauto using pi_lr, view_foreign_none.
    + intros c s1 Htc Hi. split; [exact Hi|].
      by eapply (bystander P1 P2 L1 L2 pi_l pi_r o me s s1 pd);
        eauto using pi_lr, view_foreign_none, view_foreign_in, insert_others.
  - pose proof (p_called me o s (view pi_r pd) g.2 Hr (view_none _ _ _ Hnp) Hsz Hal I2) as Hout.
    eapply (call_outcome_view P2 sum_protocol _ _ pi_r (inr o) o); [done|done|exact Hout|..].
    + intros ret s1 Htc Hi. split; [|exact Hi].
      by eapply (bystander P2 P1 L2 L1 pi_r pi_l o me s s1 pd pd); eauto using pi_rl, view_foreign_none.
    + intros c s1 Htc Hi. split; [|exact Hi].
      by eapply (bystander P2 P1 L2 L1 pi_r pi_l o me s s1 pd);
        eauto using pi_rl, view_foreign_none, view_foreign_in, insert_others.
Qed.

Lemma sum_resumed me o k s pd g :
  resumed me s -> pd !! me = Some (inr o, k) -> sum_inv s pd g ->
  exists ret s', k s = Done ret s' /\ running me s' /\ touched (Some (p_obj o)) me s s' /\
    sum_inv s' (delete me pd) (p_exit o me ret g).
Proof.
  intros Hr Hk [I1 I2]. destruct o as [o|o]; simpl.
  - destruct (p_resumed me o k s (view pi_l pd) g.1 Hr) as (ret & s' & Hrun & Hr' & Htc & Hi);
      [by eapply view_own|done|].
    exists ret, s'. do 3 (split; [done|]). split; [cbn; by rewrite view_delete|].
    eapply (bystander P1 P2 L1 L2 pi_l pi_r o me s s' pd);
      eauto using pi_lr, view_foreign_at, view_foreign_delete, delete_others, view_own.
  - destruct (p_resumed me o k s (view pi_r pd) g.2 Hr) as (ret & s' & Hrun & Hr' & Htc & Hi);
      [by eapply view_own|done|].
    exists ret, s'. do 3 (split; [done|]). split; [|cbn; by rewrite view_delete].
    eapply (bystander P2 P1 L2 L1 pi_r pi_l o me s s' pd);
      eauto using pi_rl, view_foreign_at, view_foreign_delete, delete_others, view_own.
Qed.

Lemma sum_laws : ProtocolLaws (Op1 + Op2) (G1 * G2).
Proof.
  refine {| p_inv := sum_inv |}.
  - intros me s top s' pd g Hd [I1 I2]. split; by eapply p_dispatched.
  - intros w me s s1 pd pd' g Htc Hw Hf Hf' Hpd Hq [I1 I2]. split.
    + apply (p_stable w me s s1 (view pi_l pd) (view pi_l pd')); [exact Htc|intros o; apply (Hw (inl o))|by apply view_foreign_any|
        by apply view_foreign_any|by apply view_others| |exact I1].
      intros t o k w' Ew (o' & Hk & _)%view_inr. by eapply Hq.
    + apply (p_stable w me s s1 (view pi_r pd) (view pi_r pd')); [exact Htc|intros o; apply (Hw (inr o))|by apply view_foreign_any|
        by apply view_foreign_any|by apply view_others| |exact I2].
      intros t o k w' Ew (o' & Hk & _)%view_inr. by eapply Hq.
  - intros me o s pd g. apply sum_called.
  - intros me o k s pd g. apply sum_resumed.
  - intros [o|o] me s pd g t [I1 I2] Hal Ht.
    + destruct (p_waits o me s _ _ t I1) as (o' & k & Hk); [|done|].
      { destruct Hal as [|[k Hk]]; [by left|right]. exists k. by eapply view_own. }
      apply view_inr in Hk as (o'' & Hk & _). by exists o'', k.
    + destruct (p_waits o me s _ _ t I2) as (o' & k & Hk); [|done|].
      { destruct Hal as [|[k Hk]]; [by left|right]. exists k. by eapply view_own. }
      apply view_inr in Hk as (o'' & Hk & _). by exists o'', k.
Defined.
End sum.

(** ** A family of protocols *)

Section family.
Context `{Config} {I Op G : Type} `{EqDecision I}.
(** [own i]: the object [i] is one of the system's. *)
Context (P : I -> Protocol Op G) (own : I -> Prop) `{forall i, Decision (own i)}.

Definition upd (i : I) (x : G) (g : I -> G) : I -> G := fun j => if decide (j = i) then x else g j.

Definition family_protocol : Protocol (I * Op) (I -> G) := {|
  p_exec := fun o => @p_exec _ _ (P o.1) o.2;
  p_obj := fun o => @p_obj _ _ (P o.1) o.2;
  p_allowed := fun o me s g => own o.1 /\ @p_allowed _ _ (P o.1) o.2 me s (g o.1);
  p_allowed_dec := fun o me s g => and_dec (decide (own o.1)) (@p_allowed_dec _ _ (P o.1) o.2 me s (g o.1));
  p_enter := fun o me g => upd o.1 (@p_enter _ _ (P o.1) o.2 me (g o.1)) g;
  p_exit := fun o me ret g => upd o.1 (@p_exit _ _ (P o.1) o.2 me ret (g o.1)) g
|}.
#[local] Existing Instance family_protocol.

Definition pi_at (i : I) (o : I * Op) : option Op := if decide (o.1 = i) then Some o.2 else None.

Lemma pi_at_own i o : pi_at i (i, o) = Some o.
Proof. unfold pi_at. simpl. by rewrite decide_True. Qed.

Lemma pi_at_ne i j o : j <> i -> pi_at i (j, o) = None.
Proof. intros Hne. unfold pi_at. simpl. by rewrite decide_False. Qed.

Lemma pi_at_inv i j o o' : pi_at i (j, o) = Some o' -> j = i /\ o = o'.
Proof. unfold pi_at. simpl. case_decide; [|done]. by intros [= ->]. Qed.

Lemma pi_at_disjoint i j : i <> j -> forall o, pi_at i o = None \/ pi_at j o = None.
Proof.
  intros Hne [k o]. destruct (decide (k = i)) as [->|]; [right|left]; by apply pi_at_ne.
Qed.

Lemma upd_at i x g : upd i x g i = x.
Proof. unfold upd. by rewrite decide_True. Qed.

Lemma upd_ne i j x g : j <> i -> upd i x g j = g j.
Proof. intros Hne. unfold upd. by rewrite decide_False. Qed.

Context (L : forall i, @ProtocolLaws _ Op G (P i)).
Hypothesis Hobj : forall i j o o', i <> j -> @p_obj _ _ (P i) o <> @p_obj _ _ (P j) o'.

Notation inv_at i := (@p_inv _ _ _ _ (L i)).

Definition family_inv (s : kstate) (pd : pends (I * Op)) (g : I -> G) : Prop :=
  (forall i, own i -> inv_at i s (view (pi_at i) pd) (g i)) /\
  (forall t i o k, pd !! t = Some (inr (i, o), k) -> own i).

(** The components other than [i] after a call on [i]. *)
Lemma family_others i o me s s1 pd pd' g j :
  family_inv s pd g -> own i -> own j -> j <> i -> touched (Some (@p_obj _ _ (P i) o)) me s s1 ->
  @p_allowed _ _ (P i) o me s (g i) \/ (exists k, pd !! me = Some (inr (i, o), k)) ->
  pd !! me = None \/ (exists k, pd !! me = Some (inr (i, o), k)) ->
  pd' !! me = None \/ (exists k, pd' !! me = Some (inr (i, o), k)) ->
  (forall t, t <> me -> pd' !! t = pd !! t) -> inv_at j s1 (view (pi_at j) pd') (g j).
Proof.
  intros [Hi _] Howni Hownj Hne Htc Hal Hpd Hpd' Hoth.
  assert (Hfor : forall pd0 : pends (I * Op),
    pd0 !! me = None \/ (exists k, pd0 !! me = Some (inr (i, o), k)) -> foreign (view (pi_at j) pd0) me).
  { intros pd0 [Hn|[k Hk]]; [by apply view_foreign_none|]. eapply view_foreign_at; [exact Hk|by apply pi_at_ne]. }
  eapply (bystander (P i) (P j) (L i) (L j) (pi_at i) (pi_at j) o me s s1 pd pd');
    [by apply pi_at_disjoint|by intros o2; apply Hobj|exact Htc|by apply Hi| |by apply Hfor|by apply Hfor|done|by apply Hi].
  destruct Hal as [|[k Hk]]; [by left|right]. exists k. eapply view_own; [exact Hk|apply pi_at_own].
Qed.

Lemma family_called me o s pd g :
  running me s -> pd !! me = None -> few_threads s -> p_allowed o me s g -> family_inv s pd g ->
  call_outcome family_inv me o (p_exec o s) s pd (p_enter o me g).
Proof.
  destruct o as [i o]. intros Hr Hnp Hsz [Hown Hal] HI. simpl in Hown, Hal.
  pose proof (@p_called _ _ _ _ (L i) me o s (view (pi_at i) pd) (g i) Hr (view_none _ _ _ Hnp) Hsz Hal
    (proj1 HI i Hown)) as Hout.
  eapply (call_outcome_view (P i) family_protocol _ _ (pi_at i) (i, o) o);
    [apply pi_at_own|done|exact Hout|..].
  - intros ret s1 Htc Hi. split; [|apply HI]. intros j Hj. simpl.
    destruct (decide (j = i)) as [->|Hne]; [by rewrite !upd_at|]. rewrite !upd_ne by done.
    apply (family_others i o me s s1 pd pd g j); auto.
  - intros c s1 Htc Hi. split.
    + intros j Hj. simpl. destruct (decide (j = i)) as [->|Hne]; [by rewrite upd_at|]. rewrite upd_ne by done.
      apply (family_others i o me s s1 pd _ g j); auto using insert_others. right. exists c. apply lookup_insert_eq.
    + intros t j o' k [[<- [= <- <- <-]]|[_ Hk]]%lookup_insert_Some; [done|by eapply (proj2 HI)].
Qed.

Lemma family_resumed me o k s pd g :
  resumed me s -> pd !! me = Some (inr o, k) -> family_inv s pd g ->
  exists ret s', k s = Done ret s' /\ running me s' /\ touched (Some (p_obj o)) me s s' /\
    family_inv s' (delete me pd) (p_exit o me ret g).
Proof.
  destruct o as [i o]. intros Hr Hk HI. pose proof (proj2 HI _ _ _ _ Hk) as Hown.
  destruct (@p_resumed _ _ _ _ (L i) me o k s (view (pi_at i) pd) (g i) Hr) as (ret & s' & Hrun & Hr' & Htc & Hi);
    [eapply view_own; [exact Hk|apply pi_at_own]|by apply HI|].
  exists ret, s'. do 3 (split; [done|]). split.
  - intros j Hj. simpl. destruct (decide (j = i)) as [->|Hne]; [by rewrite upd_at, view_delete|].
    rewrite upd_ne by done. apply (family_others i o me s s' pd _ g j); eauto using delete_others. left. apply lookup_delete_eq.
  - intros t j o' k' [_ Hk']%lookup_delete_Some. by eapply (proj2 HI).
Qed.

Lemma family_laws : ProtocolLaws (I * Op) (I -> G).
Proof.
  refine {| p_inv := family_inv |}.
  - intros me s top s' pd g Hd [Hi Ho]. split; [|done]. intros i Hown. eapply p_dispatched; [exact Hd|by apply Hi].
  - intros w me s s1 pd pd' g Htc Hw Hf Hf' Hpd Hq [Hi Ho]. split.
    + intros i Hown. apply (@p_stable _ _ _ _ (L i) w me s s1 (view (pi_at i) pd) (view (pi_at i) pd'));
        [exact Htc|intros o; apply (Hw (i, o))|by apply view_foreign_any|by apply view_foreign_any|
         by apply view_others| |by apply Hi].
      intros t o k w' Ew (o' & Hk & _)%view_inr. by eapply Hq.
    + intros t i o k Hk. destruct (decide (t = me)) as [->|Hne]; [by apply Hf' in Hk|].
      rewrite Hpd in Hk by done. by eapply Ho.
  - intros me o s pd g. apply family_called.
  - intros me o k s pd g. apply family_resumed.
  - intros [i o] me s pd g t [Hi Ho] Hal Ht. simpl in Ht.
    assert (Hown : own i) by (destruct Hal as [[? _]|[k Hk]]; [done|by eapply Ho]).
    destruct (@p_waits _ _ _ _ (L i) o me s (view (pi_at i) pd) (g i) t) as (o' & k & Hk); [by apply Hi| |done|].
    { destruct Hal as [[_ ?]|[k Hk]]; [by left|right]. exists k. eapply view_own; [exact Hk|apply pi_at_own]. }
    apply view_inr in Hk as (o'' & Hk & _). by exists o'', k.
Defined.
End family.
