(* ===== verification/System.v ===== *)
(** * The kernel's objects together

    Any number of mutexes, semaphores and events, used by any number of threads:
    the composition of the protocols of [Machine.v], [SemMachine.v] and
    [EventMachine.v].  A thread may hold several mutexes, wait for a semaphore
    inside a critical section, signal from anywhere; under every interleaving
    each object keeps what its own theorem promises. *)

From S2P Require Import Prelude Kernel KInv Sched WaitQueue Footprint Thread Mutex Semaphore Event.
From S2P Require Import Interleave Machine SemMachine EventMachine Compose.

Section system.
Context `{Config}.
(** The mutexes; the semaphores, with their first count and whether they are
    used like a mutex; the events, with their first signal and flags. *)
Variables (Ms : gset ptr) (Ss : gmap ptr (Z * bool)) (Es : gmap ptr (bool * Z)).

Definition sem_conf (x : ptr) : Z * bool := default (0, false) (Ss !! x).
Definition event_conf (e : ptr) : bool * Z := default (false, 0) (Es !! e).

Definition mutex_family : Protocol (ptr * mop) (ptr -> gset ptr) := family_protocol mutex_protocol (.∈ Ms).

Definition sem_family : Protocol (ptr * sop) (ptr -> usage) :=
  family_protocol (fun x => sem_protocol x (sem_conf x).1 (sem_conf x).2) (.∈ dom Ss).

Definition event_family : Protocol (ptr * eop) (ptr -> latch) :=
  family_protocol (fun e => event_protocol e (event_conf e).2) (.∈ dom Es).

Definition sysop : Type := (ptr * mop) + ((ptr * sop) + (ptr * eop)).
Definition sysghost : Type := (ptr -> gset ptr) * ((ptr -> usage) * (ptr -> latch)).

Definition waits_protocol : Protocol ((ptr * sop) + (ptr * eop)) ((ptr -> usage) * (ptr -> latch)) :=
  @sum_protocol _ _ _ _ sem_family event_family.

Definition sys_protocol : Protocol sysop sysghost := @sum_protocol _ _ _ _ mutex_family waits_protocol.
#[local] Existing Instance sys_protocol.

Definition crit (g : sysghost) (m : ptr) : gset ptr := g.1 m.
Definition sem_usage (g : sysghost) (x : ptr) : usage := g.2.1 x.
Definition event_latch (g : sysghost) (e : ptr) : latch := g.2.2 e.

(** ** The laws *)

Lemma mutex_family_laws : @ProtocolLaws _ _ _ mutex_family.
Proof. apply family_laws; [apply mutex_laws|]. intros i j o o' Hne. simpl. congruence. Defined.

Lemma sem_family_laws : @ProtocolLaws _ _ _ sem_family.
Proof. apply family_laws; [intros x; apply sem_laws|]. intros i j o o' Hne. simpl. congruence. Defined.

Lemma event_family_laws : @ProtocolLaws _ _ _ event_family.
Proof.
  apply family_laws; [intros e; apply (event_laws e (event_conf e).2 (event_conf e).1)|].
  intros i j o o' Hne. simpl. congruence.
Defined.

#[local] Existing Instances mutex_family_laws sem_family_laws event_family_laws.

#[local] Instance waits_laws : @ProtocolLaws _ _ _ waits_protocol.
Proof.
  apply (@sum_laws _ _ _ _ _ sem_family event_family sem_family_laws event_family_laws).
  intros [x o] [e o']. done.
Defined.

#[local] Instance sys_laws : ProtocolLaws sysop sysghost.
Proof.
  apply (@sum_laws _ _ _ _ _ mutex_family waits_protocol mutex_family_laws waits_laws).
  intros [m o] [[x o']|[e o']]; done.
Defined.

(** ** The start, and what is promised *)

(** Every object is fresh: the mutexes free, the events without waiters. *)
Record fresh (s : kstate) : Prop := {
  fr_mutex : forall m, m ∈ Ms -> exists mt, mutex_ok m None mt s;
  fr_sem : forall x, x ∈ dom Ss -> 0 <= (sem_conf x).1 /\ sem_ok x (sem_conf x).1 s;
  fr_event : forall e, e ∈ dom Es ->
    event_ok e (event_conf e).1 (event_conf e).2 s /\ event_waiters e s = []
}.

Definition fresh_ghost : sysghost :=
  (fun _ => ∅, (fun _ => no_usage, fun e => new_latch (event_conf e).1)).

Lemma boot_family_inv {I Op G} `{EqDecision I} (P : I -> Protocol Op G) own
    (L : forall i, @ProtocolLaws _ Op G (P i)) (pd : pends (I * Op)) s g :
  (forall t c k, pd !! t = Some (c, k) -> c = inl BStart) ->
  (forall i, own i -> @p_inv _ _ _ _ (L i) s (view (pi_at i) pd) (g i)) -> family_inv P own L s pd g.
Proof. intros Hb Hi. split; [done|]. intros t i o k Hk. by apply Hb in Hk. Qed.

Lemma boot_sys_inv me s : fresh s -> p_inv s (boot_pends me s) fresh_ghost.
Proof.
  intros [Hm Hx He]. split; [|split]; cbn [fst snd fresh_ghost]; rewrite ?view_boot;
    (apply boot_family_inv; [intros t c k Hk; apply boot_pends_base in Hk as [? _]; done|]);
    intros i Hi; rewrite view_boot.
  - destruct (Hm i Hi) as [mt Hok]. exists None. by eapply boot_mutex_inv.
  - destruct (Hx i Hi). by apply boot_sem_inv.
  - destruct (He i Hi). by apply boot_event_inv.
Qed.

(** [t] is in an acquisition of [m]. *)
Definition in_acquire (pd : pends sysop) (m t : ptr) : Prop := in_call (inl (m, OpAcquire)) pd t.

Lemma view_acquire pd m t :
  in_call OpAcquire (view (pi_at m) (view pi_l pd)) t <-> in_acquire pd m t.
Proof.
  unfold in_acquire. split; intros [k Hk].
  - apply view_inr in Hk as ([m' o] & Hk & [-> ->]%pi_at_inv). apply view_inr in Hk as ([o'|o'] & Hk & [= ->]).
    by exists k.
  - exists k. eapply view_own; [by eapply view_own|apply pi_at_own].
Qed.

(** C1: the kernel's objects are safe together.  Threads use any number of
    mutexes, semaphores and events, under every interleaving of their calls
    with yields, preemptions and priority changes, each object by its own rule
    of use: whatever is reached from the start, no call fails, a step is
    possible, the scheduler invariant holds, and each object keeps its promise:
    each mutex excludes all threads but one and loses no wake-up, each
    semaphore conserves its units, each event behaves as its latch. *)
Theorem system_safe me s mc :
  running me s -> fresh s -> Z.of_nat (size (dom (threads s))) < INT_MAX -> steps (boot me s fresh_ghost) mc ->
  ~ mstep mc None /\ (exists r, mstep mc r) /\
  (exists cur, current_thread (ks mc) = Some cur /\ kinv (Some cur) ∅ (ks mc)) /\
  (forall m, m ∈ Ms -> mutex_promise m (ks mc) (in_acquire (pend mc) m) (crit (ghost mc) m)) /\
  (forall x init disc, Ss !! x = Some (init, disc) -> sem_promise x init disc (ks mc) (sem_usage (ghost mc) x)) /\
  (forall e init fl, Es !! e = Some (init, fl) -> event_promise e fl init (ks mc) (event_latch (ghost mc) e)).
Proof.
  intros Hr Hf Hsz Hst.
  destruct (interleaving_safe me s fresh_ghost mc Hr Hsz) as (H1 & H2 & (cur & Hcur & HI) & Im & Ix & Ie);
    [by apply boot_sys_inv|done|].
  split; [done|]. split; [done|]. split; [by exists cur|]. split_and!.
  - intros m Hm. destruct (proj1 Im m Hm) as [o Hi]. apply mutex_inv_promise in Hi.
    unfold mutex_promise in Hi. setoid_rewrite view_acquire in Hi. exact Hi.
  - intros x init disc Hx. assert (E : sem_conf x = (init, disc)) by (unfold sem_conf; by rewrite Hx).
    pose proof (proj1 Ix x ltac:(by eapply elem_of_dom_2)) as Hi. eapply sem_inv_promise in Hi; [|exact HI].
    rewrite E in Hi. exact Hi.
  - intros e init fl He. assert (E : event_conf e = (init, fl)) by (unfold event_conf; by rewrite He).
    pose proof (proj1 Ie e ltac:(by eapply elem_of_dom_2)) as Hi. apply event_inv_promise in Hi.
    rewrite E in Hi. exact Hi.
Qed.
End system.

(** ** Witness *)

#[local] Existing Instance debug_config.

Definition demo_Ms : gset ptr := {[10%positive]}.
Definition demo_Ss : gmap ptr (Z * bool) := {[11%positive := (0, false)]}.
Definition demo_Es : gmap ptr (bool * Z) := {[12%positive := (false, 0)]}.

#[local] Instance sys_demo_protocol : Protocol sysop sysghost := sys_protocol demo_Ms demo_Ss demo_Es.

(** Thread 2 waits for the semaphore inside the critical section; thread 3
    signals the event, posts, and blocks on the mutex; thread 2 comes back,
    releases the mutex and waits for the event, which is signaled. *)
Definition sys_schedule : list (base + sysop) :=
  [inr (inl (10%positive, OpAcquire)); inr (inr (inl (11%positive, SWait))); inl BYield;
   inr (inr (inr (12%positive, ESignal false))); inr (inr (inl (11%positive, SPost false)));
   inr (inl (10%positive, OpAcquire)); inl BYield;
   inr (inl (10%positive, OpRelease)); inl BYield; inr (inr (inr (12%positive, EWait)))].

Definition sys_boot : machine sysop sysghost := boot 2 (demo_mutex None false) (fresh_ghost demo_Es).
Definition sys_reached : machine sysop sysghost := default sys_boot (drive sys_schedule sys_boot).

Lemma sys_reached_steps : steps sys_boot sys_reached.
Proof. apply drive_default_steps. by vm_compute. Qed.

Lemma demo_fresh : fresh demo_Ms demo_Ss demo_Es (demo_mutex None false).
Proof.
  constructor.
  - intros m ->%elem_of_singleton. by eexists; apply (demo_mutex_ok None false).
  - intros x. unfold demo_Ss. rewrite dom_singleton, elem_of_singleton. intros ->. split; [done|].
    constructor; [done|done|by eexists; split; reflexivity|done].
  - intros e. unfold demo_Es. rewrite dom_singleton, elem_of_singleton. intros ->. split; [|done].
    constructor; [done|by eexists; split; reflexivity].
Qed.

Lemma system_safe_witness :
  (bool_decide (crit (ghost sys_reached) 10 = {[3%positive]}) &&
   (taken (sem_usage (ghost sys_reached) 11) =? 1) && (ended (event_latch (ghost sys_reached) 12) =? 1)) = true /\
  ~ mstep sys_reached None /\ exists r, mstep sys_reached r.
Proof.
  split; [by vm_compute|].
  pose proof (system_safe demo_Ms demo_Ss demo_Es 2 (demo_mutex None false) sys_reached
    (demo_mutex_running None false) demo_fresh ltac:(vm_compute; done) sys_reached_steps) as (H1 & H2 & _).
  by split.
Defined.
