(* ===== verification/Efi.v ===== *)
(** * EFI status codes and conventions

    The status codes of the UEFI specification on a 32-bit machine ([UINTN] is
    32 bits wide, an error has the top bit set), and the results of code that
    an assertion or a bad memory access can stop. *)

From S2P Require Import Prelude.

Definition MAX_UINTN : Z := UINT32_MAX.
Definition ENCODE_ERROR (code : Z) : Z := Z.lor (2 ^ 31) code.

Definition EFI_SUCCESS : Z := 0.
Definition EFI_LOAD_ERROR : Z := ENCODE_ERROR 1.
Definition EFI_INVALID_PARAMETER : Z := ENCODE_ERROR 2.
Definition EFI_UNSUPPORTED : Z := ENCODE_ERROR 3.
Definition EFI_BAD_BUFFER_SIZE : Z := ENCODE_ERROR 4.
Definition EFI_BUFFER_TOO_SMALL : Z := ENCODE_ERROR 5.
Definition EFI_NOT_READY : Z := ENCODE_ERROR 6.
Definition EFI_DEVICE_ERROR : Z := ENCODE_ERROR 7.
Definition EFI_WRITE_PROTECTED : Z := ENCODE_ERROR 8.
Definition EFI_OUT_OF_RESOURCES : Z := ENCODE_ERROR 9.
Definition EFI_VOLUME_CORRUPTED : Z := ENCODE_ERROR 10.
Definition EFI_VOLUME_FULL : Z := ENCODE_ERROR 11.
Definition EFI_NO_MEDIA : Z := ENCODE_ERROR 12.
Definition EFI_MEDIA_CHANGED : Z := ENCODE_ERROR 13.
Definition EFI_NOT_FOUND : Z := ENCODE_ERROR 14.
Definition EFI_ACCESS_DENIED : Z := ENCODE_ERROR 15.
Definition EFI_TIMEOUT : Z := ENCODE_ERROR 18.
Definition EFI_ABORTED : Z := ENCODE_ERROR 21.
Definition EFI_PROTOCOL_ERROR : Z := ENCODE_ERROR 24.

(** A warning of the specification: not an error. *)
Definition EFI_WARN_DELETE_FAILURE : Z := 2.

Definition EFI_ERROR (st : Z) : bool := s32 st <? 0.

(** The EDK2 library's [ASSERT] is compiled in unless [MDEPKG_NDEBUG] is
    defined. *)
Class EdkConfig := { MDEPKG_NDEBUG : bool }.
