(* ===== verification/Host.v ===== *)
(** * LKL's host operations ([UefiHost.c])

    LKL's semaphores and mutexes over the kernel objects, its threads, the
    clock, the start of the scheduler, and the block device over the Disk I/O
    protocol.  [AllocatePool] is the allocator of [Kernel]. *)

From S2P Require Import Prelude Kernel KInv Sched WaitQueue Footprint Thread Mutex Semaphore Event Efi.

Definition AllocatePool : M (option ptr) := malloc.

(** Freeing a pool block takes the kernel objects in it along. *)
Definition FreePool (p : ptr) : M unit := fun s =>
  if decide (p ∈ allocated s) then
    Done tt (k_allocated (allocated s ∖ {[p]})
      (k_mutexes (delete p (mutexes s)) (k_semaphores (delete p (semaphores s))
        (k_events (delete p (events s)) (k_ltimers (delete p (ltimers s))
        (k_wqs (delete (MutexWQ p) (delete (SemWQ p) (delete (EventWQ p) (wqs s)))) s))))))
  else Fail UB.

(** ** The firmware's event services

    The results are the firmware's, given the calls made so far with the one it
    answers last; every call is recorded.  The services do not touch the
    memory of the kernel but for the handle [CreateEvent] stores, which is the
    second part of its result. *)
Class EventServices := {
  CreateEvent_result : list fw_call -> Z * option ptr;
  SetTimer_result : list fw_call -> Z;
  CloseEvent_result : list fw_call -> Z;
}.

Definition fw_issue (c : fw_call) (s : kstate) : kstate := k_fw_log (fw_log s ++ [c]) s.

Definition firmware {A} (c : fw_call) (result : list fw_call -> A) : M A := fun s =>
  let s' := fw_issue c s in Done (result (fw_log s')) s'.

Definition CreateEvent `{EventServices} (Type_ NotifyTpl : Z) (NotifyFunction : notify_function)
    (NotifyContext : option ptr) : M (Z * option ptr) :=
  firmware (FwCreateEvent Type_ NotifyTpl NotifyFunction NotifyContext) CreateEvent_result.
Definition SetTimer `{EventServices} (Event : option ptr) (Type_ TriggerTime : Z) : M Z :=
  firmware (FwSetTimer Event Type_ TriggerTime) SetTimer_result.
Definition CloseEvent `{EventServices} (Event : option ptr) : M Z :=
  firmware (FwCloseEvent Event) CloseEvent_result.

Lemma firmware_ok {A} c (result : list fw_call -> A) r s :
  result (fw_log s ++ [c]) = r -> firmware c result s = Done r (fw_issue c s).
Proof. by intros <-. Qed.

(** Constants of the UEFI specification. *)
Definition EVT_TIMER : Z := 2 ^ 31.
Definition EVT_NOTIFY_SIGNAL : Z := 512.
Definition TPL_CALLBACK : Z := 8.
Definition TimerPeriodic : Z := 1.
Definition TimerRelative : Z := 2.

(** ** Semaphores and mutexes *)

(** [struct lkl_mutex]: [recursive] is written once, before the pointer is
    handed out, and travels with the address of the two kernel objects. *)
Record lkl_mutex := mk_lkl_mutex { recursive : bool; lm_addr : ptr }.

Section ops.
Context `{Config}.

Definition sem_alloc (count : Z) : M (option ptr) :=
  sem ← AllocatePool;
  match sem with
  | None => mret None
  | Some sem => sem_init sem (u32 count);; mret (Some sem)
  end.

Definition sem_free (sem : ptr) : M unit := sem_destroy sem;; FreePool sem.

Definition sem_up (sem : ptr) : M unit := sem_post sem true;; mret tt.

(** The loop tries again as long as the wait fails. *)
Fixpoint sem_down (fuel : nat) (sem : ptr) : M unit :=
  match fuel with
  | O => fail Fuel
  | S fuel' =>
      thread_yield;;
      err ← sem_wait sem;
      if err <? 0 then sem_down fuel' sem else mret tt
  end.

Definition mutex_alloc (recursive : bool) : M (option lkl_mutex) :=
  mutex ← AllocatePool;
  match mutex with
  | None => mret None
  | Some mutex =>
      (if recursive then mutex_init mutex else sem_init mutex 1);;
      mret (Some (mk_lkl_mutex recursive mutex))
  end.

Definition mutex_lock (fuel : nat) (mutex : lkl_mutex) : M unit :=
  if recursive mutex then mutex_acquire (lm_addr mutex);; mret tt
  else sem_down fuel (lm_addr mutex).

Definition mutex_unlock (mutex : lkl_mutex) : M unit :=
  if recursive mutex then mutex_release (lm_addr mutex);; mret tt
  else sem_post (lm_addr mutex) true;; mret tt.

Definition mutex_free (mutex : lkl_mutex) : M unit :=
  (if recursive mutex then mutex_destroy (lm_addr mutex) else sem_destroy (lm_addr mutex));;
  FreePool (lm_addr mutex).

(** ** Clock *)

(** The firmware calls it every 10 ms; [ticks] is a 32-bit [lk_time_t]. *)
Definition TimerCallback : M unit :=
  modify (fun s => k_ticks (u32 (ticks s + 10)) s);;
  r ← thread_timer_tick;
  match r with INT_RESCHEDULE => thread_preempt | INT_NO_RESCHEDULE => mret tt end.

Definition current_time : M Z := get ticks.
Definition current_time_hires : M Z := get (fun s => u64 (ticks s * 1000)).
Definition time_ns : M Z := t ← current_time; mret (u64 (t * 1000000)).

(** The callback of LKL's own timers, [cond] being the timer's event. *)
Definition LTimerCallback (cond : ptr) : M unit := event_signal cond true;; mret tt.

(** ** Threads *)

(** "lkl" *)
Definition lkl_name : list Z := [108; 107; 108].

(** The thread id 0 is [None]. *)
Definition lkl_thread_create (fn arg : Z) : M (option ptr) :=
  thread ← thread_create lkl_name fn arg DEFAULT_PRIORITY (2 * 1024 * 1024);
  match thread with
  | None => mret None
  | Some t => thread_resume t;; mret (Some t)
  end.

Definition lkl_thread_detach : M unit :=
  t ← get_current_thread; thread_detach t;; mret tt.

Definition lkl_thread_exit : M unit := thread_exit 0.

Definition lkl_thread_join (tid : ptr) : M Z :=
  r ← thread_join tid INFINITE_TIME;
  mret (if fst r =? 0 then 0 else -1).

Definition thread_self : M ptr := get_current_thread.
Definition thread_equal (a b : ptr) : bool := bool_decide (a = b).
Definition _gettid : M ptr := get_current_thread.

(** EDK2's [ASSERT_EFI_ERROR]. *)
Definition ASSERT_EFI_ERROR `{EdkConfig} (Status : Z) : M unit :=
  if MDEPKG_NDEBUG then mret tt else when (EFI_ERROR Status) (fail Panic).

Lemma ASSERT_EFI_ERROR_ok `{EdkConfig} Status s :
  Status = EFI_SUCCESS -> ASSERT_EFI_ERROR Status s = Done tt s.
Proof.
  intros ->. unfold ASSERT_EFI_ERROR. change (EFI_ERROR EFI_SUCCESS) with false. by destruct MDEPKG_NDEBUG.
Qed.

Definition lkl_panic `{EdkConfig} : M unit := if MDEPKG_NDEBUG then mret tt else fail Panic.

(** Periods are in units of 100 ns. *)
Definition MS2100N (x : Z) : Z := x * (1000000 / 100).

(** [mTimerEvent] is used nowhere else, so its value is a local one here. *)
Definition lkl_thread_init `{EdkConfig} `{EventServices} : M unit :=
  thread_init_early;;
  thread_init;;
  thread_create_idle;;
  thread_set_priority DEFAULT_PRIORITY;;
  r ← CreateEvent (Z.lor EVT_TIMER EVT_NOTIFY_SIGNAL) TPL_CALLBACK fn_TimerCallback None;
  let mTimerEvent := snd r in
  ASSERT_EFI_ERROR (fst r);;
  Status ← SetTimer mTimerEvent TimerPeriodic (MS2100N 10);
  ASSERT_EFI_ERROR Status.

End ops.

(** ** Specification *)

(** The run [r] of the loop of [sem_down] from [s], round by round: the thread
    [me] goes to the end of its run queue; when it is switched back to ([s2],
    [n] the count of the semaphore by then) it takes a free unit and returns,
    or is counted and queued as the last waiter; switched back to again ([s4])
    it returns or goes round, as the thread that woke it said ([err]). *)
Fixpoint takes_a_unit (fuel : nat) (me m : ptr) (s : kstate) (r : run unit) : Prop :=
  match fuel with
  | O => r = Fail Fuel
  | S fuel' => exists p c s1, requeued true me p s s1 /\ reschedules me c s1 r /\
      forall s2 n, resumed me s2 -> sem_ok m n s2 -> INT_MIN < n ->
        if 0 <? n then exists s3, c s2 = Done tt s3 /\ running me s3 /\ sem_ok m (n - 1) s3 /\
          ints_enabled s3 = ints_enabled s
        else exists c' s3, parked me s3 /\ sem_ok m (n - 1) s3 /\
          sem_waiters m s3 = sem_waiters m s2 ++ [me] /\ reschedules me c' s3 (c s2) /\
          forall s4 err, resumed me s4 -> told s4 me = Some err ->
            exists s5, running me s5 /\ ints_enabled s5 = ints_enabled s /\ same_objects s4 s5 /\
              if err <? 0 then takes_a_unit fuel' me m s5 (c' s4) else c' s4 = Done tt s5
  end.

Section proofs.
Context `{Config}.
Implicit Types (s : kstate) (m t me : ptr).

(** The end of a wait, whatever its result. *)
Lemma block_resume_ret me st s err :
  resumed me s -> told s me = Some err -> block_resume me st s = Done err (unlock_state st s).
Proof.
  intros Hr Ht. destruct (resumed_thread me s Hr) as (th & Hth & _).
  unfold told in Ht. rewrite Hth in Ht. injection Ht as Ht.
  unfold block_resume. erewrite bind_done; [|by kstep]. rewrite Ht. by kstep.
Qed.

Lemma same_objects_unlock st s : same_objects s (unlock_state st s).
Proof. unfold unlock_state. by destruct has_flag. Qed.

(** C36: taking an LKL semaphore, and locking a non-recursive LKL mutex, as the
    loop does it.  Each round first yields: the thread is put at the end of its
    run queue and the scheduler is entered.  Switched back to, it takes a unit
    and returns when the count is positive, without waiting again; otherwise
    the count goes down by one, the thread becomes the last waiter and the
    scheduler is entered.  Switched back to with a result that is no error it
    returns, the unit of the post that woke it being its own; with an error it
    goes round again.  It returns running, with the lock released and the
    interrupts as they were.  Nothing is assumed of what the other threads do
    in between, but that the scheduler's state is consistent at each switch
    back and that the semaphore is still one, its count above [INT_MIN], when
    the thread comes to wait.  The thread is not the idle thread.  How many
    rounds there are is up to the other threads, so the statement is about any
    number ([fuel]) of them. *)
Theorem sem_down_spec me m fuel s :
  running me s -> me <> _idle_thread ->
  takes_a_unit fuel me m s (sem_down fuel m s) /\
  mutex_lock fuel (mk_lkl_mutex false m) s = sem_down fuel m s.
Proof.
  intros Hr Hidle. split; [|done]. revert s Hr. induction fuel as [|fuel IH]; intros s Hr; [done|].
  destruct (running_thread me s Hr) as (th & Hth & _).
  destruct (thread_yield_ok me s th Hr Hth) as [(s1 & Hrq & _ & Hre) _].
  exists (priority th). eexists. exists s1. split; [done|].
  split; [exact (reschedules_bind me _ (fun _ => err ← sem_wait m; if err <? 0 then sem_down fuel m else mret tt)
    _ _ Hre)|].
  intros s2 n Hres Hs Hn. set (s2' := unlock_state (saved_ints s) s2).
  assert (Hr2 : running me s2') by by apply unlock_running.
  assert (Hs2 : sem_ok m n s2') by by apply sem_ok_unlock.
  assert (Hi2 : ints_enabled s2' = ints_enabled s) by apply unlock_saved_ints, Hres.
  rewrite !(bind_done _ _ _ _ _ (THREAD_UNLOCK_ok (saved_ints s) s2)). fold s2'.
  destruct (Z.ltb_spec 0 n) as [Hpos|Hneg].
  - destruct (sem_wait_free m me n s2' Hr2 Hs2 Hn Hpos) as (Hw & Hok & Hr3 & _ & Hi3).
    eexists. split; [by rewrite (bind_done _ _ _ _ _ Hw)|]. split; [done|]. split; [done|]. by rewrite Hi3.
  - destruct (sem_wait_blocks m me n s2' Hr2 Hs2 Hn Hneg Hidle) as (s3 & Hpk & Hok & Hws & _ & _ & _ & Hre3).
    eexists. exists s3. split; [done|]. split; [done|]. split; [by rewrite Hws; unfold s2'; rewrite sem_waiters_unlock|].
    split; [exact (reschedules_bind me _ (fun err => (if err <? 0 then sem_down fuel m else mret tt) : M unit) _ _ Hre3)|].
    intros s4 err Hres4 Ht. exists (unlock_state (saved_ints s2') s4).
    assert (Hr5 : running me (unlock_state (saved_ints s2') s4)) by by apply unlock_running.
    split; [done|]. split; [rewrite <- Hi2; apply unlock_saved_ints, Hres4|]. split; [apply same_objects_unlock|].
    rewrite !(bind_done _ _ _ _ _ (block_resume_ret _ _ _ _ Hres4 Ht)).
    destruct (err <? 0); [by apply IH|done].
Qed.

(** C37: LKL asks for recursive mutexes and gets the non-recursive [mutex_t].
    A thread that locks one it holds already panics when debugging is on
    ([LK_DEBUGLEVEL > 0]); otherwise it becomes a waiter of the mutex it holds
    and gives up the CPU, so that no thread is left that may release it. *)
Theorem recursive_lock_deadlocks me m mt fuel s :
  running me s -> mutex_ok m (Some me) mt s -> m_holder mt = Some me ->
  me <> _idle_thread -> m_count mt < INT_MAX ->
  if 0 <? LK_DEBUGLEVEL then mutex_lock fuel (mk_lkl_mutex true m) s = Fail Panic
  else exists s1 c, parked me s1 /\ me ∈ waiters m s1 /\
    m_holder <$> mutexes s1 !! m = Some (Some me) /\
    reschedules me c s1 (mutex_lock fuel (mk_lkl_mutex true m) s).
Proof.
  intros Hr Hm Hh Hidle Hmax. destruct (Z.ltb_spec 0 LK_DEBUGLEVEL) as [Hl|Hl].
  - unfold mutex_lock, mutex_acquire, mutex_acquire_timeout. cbn [recursive lm_addr].
    unfold mbind at 1, M_bind at 1. erewrite bind_done; [|by eapply mutex_assert_ok; apply Hm].
    unfold debuglevel_check. rewrite (proj2 (Z.ltb_lt _ _)) by done.
    unfold mbind, M_bind. rewrite (is_mutex_held_ok m mt me s) by (apply Hm || apply Hr). simpl.
    by rewrite Hh, bool_decide_eq_true_2.
  - destruct (mutex_acquire_enqueues me m mt me s Hr Hm (or_introl Hl) Hidle Hmax)
      as (s1 & Hpk & Hmt & Hw & _ & _ & _ & Hre).
    exists s1. eexists. split; [done|]. split; [rewrite Hw; set_solver|].
    split; [by rewrite Hmt; simpl; rewrite Hh|].
    exact (reschedules_bind me _ (fun _ => mret tt : M unit) _ _ Hre).
Qed.

Lemma tick_running me s th q :
  running me s -> threads s !! me = Some th ->
  running me (k_threads (<[me := th_remaining_quantum q th]> (threads s))
    (k_ticks (u32 (ticks s + 10)) s)).
Proof.
  intros Hr Hth. destruct (running_facts me s th Hr Hth) as (Hst & _ & _ & Hp).
  constructor; [|apply Hr|apply Hr].
  assert (HI : kinv (Some me) ∅ (k_ticks (u32 (ticks s + 10)) s)).
  { eapply kinv_ext; [apply (rn_kinv _ _ Hr)|done]. }
  exact (kinv_upd_same (Some me) ∅ _ me th (th_remaining_quantum q th) HI Hth eq_refl eq_refl eq_refl eq_refl eq_refl).
Qed.

(** The clock interrupt advances the 32-bit millisecond clock by 10 (it
    wraps after 49 days) and takes one unit off the quantum of the running
    thread, real-time threads excepted; when the quantum is used up the thread
    goes to the tail of its run queue and the next thread is dispatched,
    otherwise the thread continues.  The clock LKL sees is the one in
    milliseconds times 1000000, without overflow. *)
Theorem TimerCallback_spec me s th :
  running me s -> threads s !! me = Some th -> INT_MIN < remaining_quantum th <= INT_MAX ->
  let rt := thread_is_real_time_or_idle th in
  let s1 := k_ticks (u32 (ticks s + 10)) s in
  let th' := th_remaining_quantum (remaining_quantum th - 1) th in
  (rt = true -> TimerCallback s = Done tt s1) /\
  (rt = false -> 1 < remaining_quantum th ->
     TimerCallback s = Done tt (k_threads (<[me := th']> (threads s)) s1)) /\
  (rt = false -> remaining_quantum th <= 1 -> exists s2,
     requeued true me (priority th) (k_threads (<[me := th']> (threads s)) s1) s2 /\
     reschedules me (THREAD_UNLOCK (saved_ints s)) s2 (TimerCallback s)) /\
  time_ns s1 = Done (u32 (ticks s + 10) * 1000000) s1.
Proof.
  intros Hr Hth Hq rt s1 th'. split_and!.
  - intros Hrt. unfold TimerCallback, thread_timer_tick. kstep.
    erewrite bind_done; cycle 1.
    { erewrite bind_done; [|apply get_current_thread_ok, Hr].
      kstep. subst rt. rewrite Hrt. reflexivity. }
    done.
  - intros Hrt H1. unfold TimerCallback, thread_timer_tick. kstep.
    erewrite bind_done; cycle 1.
    { erewrite bind_done; [|apply get_current_thread_ok, Hr].
      kstep. subst rt. rewrite Hrt. kstep. kstep. simpl.
      rewrite s32_small by (unfold INT_MIN, INT_MAX in *; lia).
      rewrite (proj2 (Z.leb_gt _ _)) by lia. reflexivity. }
    done.
  - intros Hrt H1. set (s0 := k_threads (<[me := th']> (threads s)) s1).
    assert (Hr0 : running me s0) by (by apply tick_running).
    assert (Hth0 : threads s0 !! me = Some th') by apply lookup_insert_eq.
    destruct (thread_preempt_ok me s0 th' Hr0 Hth0) as [(s2 & Hrq & _ & Hre) _].
    exists s2. split.
    { rewrite (proj2 (Z.leb_le _ _)) in Hrq by (simpl; lia). exact Hrq. }
    unfold TimerCallback, thread_timer_tick. kstep. erewrite bind_done; cycle 1.
    { erewrite bind_done; [|apply get_current_thread_ok, Hr].
      kstep. subst rt. rewrite Hrt. kstep. kstep. simpl.
      rewrite s32_small by (unfold INT_MIN, INT_MAX in *; lia).
      rewrite (proj2 (Z.leb_le _ _)) by lia. reflexivity. }
    exact Hre.
  - unfold time_ns, current_time. kstep. pose proof (u32_range (ticks s + 10)).
    simpl. by rewrite u64_small by lia.
Qed.
End proofs.

(** ** Boot *)

(** The kernel's memory when the driver is loaded: the static variables are
    zero, the idle thread's structure is static. *)
Definition boot_state (ie : bool) (fs : list bool) : kstate :=
  mk_kstate {[_idle_thread := zero_thread]} [] [] 0 ∅ None 0 ie false 0 ∅ ∅ ∅ 0 fs 2 ∅ ∅ ∅ [].

(** The calls that program the clock: a timer event on which the firmware calls
    [TimerCallback], and its period, in units of 100 ns. *)
Definition clock_event : fw_call :=
  FwCreateEvent (Z.lor EVT_TIMER EVT_NOTIFY_SIGNAL) TPL_CALLBACK fn_TimerCallback None.
Definition clock_calls (ev : option ptr) : list fw_call :=
  [clock_event; FwSetTimer ev TimerPeriodic 100000].

(** C38: when its two allocations and the two calls of the firmware succeed,
    [lkl_thread_init] turns the loaded image's zeroed memory into a consistent
    scheduler state: the caller runs as the bootstrap thread at the default
    priority, the idle thread is suspended and detached, no thread is ready and
    the interrupts are as before.  The firmware has been asked for one event
    that calls [TimerCallback], and for a period of 100000 times 100 ns (10 ms)
    on that event, and for nothing else. *)
Theorem lkl_thread_init_boots `{Config} `{EdkConfig} `{EventServices} ev ie fs :
  CreateEvent_result [clock_event] = (EFI_SUCCESS, ev) ->
  SetTimer_result (clock_calls ev) = EFI_SUCCESS ->
  exists s', lkl_thread_init (boot_state ie (false :: false :: fs)) = Done tt s' /\
    running 2 s' /\ ints_enabled s' = ie /\ thread_list s' = [1; 2]%positive /\
    run_queue s' = replicate 32 [] /\
    (fun th => (priority th, name th)) <$> threads s' !! 2%positive
      = Some (DEFAULT_PRIORITY, bootstrap_name) /\
    (fun th => (state th, name th, has_flag (flags th) THREAD_FLAG_DETACHED)) <$> threads s' !! _idle_thread
      = Some (THREAD_SUSPENDED, idle_name, true) /\
    fw_log s' = clock_calls ev.
Proof.
  intros Hce Hst.
  assert (Hpre : exists s', (thread_init_early;; thread_init;; thread_create_idle;;
      thread_set_priority DEFAULT_PRIORITY) (boot_state ie (false :: false :: fs)) = Done tt s' /\
    kinv_check (Some 2%positive) s' = true /\ current_thread s' = Some 2%positive /\ thread_lock s' = 0 /\
    fw_log s' = [] /\
    ints_enabled s' = ie /\ thread_list s' = [1; 2]%positive /\
    run_queue s' = replicate 32 [] /\
    (fun th => (priority th, name th)) <$> threads s' !! 2%positive
      = Some (DEFAULT_PRIORITY, bootstrap_name) /\
    (fun th => (state th, name th, has_flag (flags th) THREAD_FLAG_DETACHED)) <$> threads s' !! _idle_thread
      = Some (THREAD_SUSPENDED, idle_name, true)).
  { clear. destruct H as [[|[p|p|]|p] nd], ie; (eexists; split; [vm_compute; reflexivity|by vm_compute]). }
  destruct Hpre as (s1 & Hrun & Hchk & Hc & Hl & Hlog & Hie & Htl & Hrq & Hth & Hid).
  exists (fw_issue (FwSetTimer ev TimerPeriodic 100000) (fw_issue clock_event s1)).
  split; [|split_and!; try done; [|simpl; by rewrite Hlog]].
  - do 3 (apply bind_done_inv in Hrun as ([] & ? & ? & Hrun)).
    unfold lkl_thread_init. do 4 (erewrite bind_done by eassumption).
    erewrite bind_done by (apply firmware_ok; rewrite Hlog; exact Hce). cbv zeta. cbn [fst snd].
    erewrite bind_done by by apply ASSERT_EFI_ERROR_ok.
    erewrite bind_done by (apply firmware_ok; simpl; rewrite Hlog; exact Hst). by apply ASSERT_EFI_ERROR_ok.
  - constructor; [|done|done]. eapply kinv_ext; [by apply kinv_check_sound|done].
Qed.

(** ** The block device *)

(** One element of a request's buffer vector ([struct iovec]). *)
Record iovec := mk_iovec { iov_base : Z; iov_len : Z }.

Inductive blk_type :=
| LKL_DEV_BLK_TYPE_READ | LKL_DEV_BLK_TYPE_WRITE
| LKL_DEV_BLK_TYPE_FLUSH | LKL_DEV_BLK_TYPE_FLUSH_OUT
| blk_type_other.
Inductive blk_status := LKL_DEV_BLK_STATUS_OK | LKL_DEV_BLK_STATUS_IOERR | LKL_DEV_BLK_STATUS_UNSUP.

(** [struct lkl_blk_req] *)
Record lkl_blk_req := mk_req { req_type : blk_type; sector : Z; req_buf : list iovec; req_count : Z }.

(** The media fields read by the driver. *)
Record EFI_BLOCK_IO_MEDIA := mk_media { LastBlock : Z; BlockSize : Z }.

Definition uefi_blk_get_capacity (Media : EFI_BLOCK_IO_MEDIA) : Z :=
  u64 (u64 (LastBlock Media + 1) * BlockSize Media).


Section disk.
(** The firmware: [D] is the state of the disk and of the memory the buffers
    lie in.  [EFI_DISK_READ] and [EFI_DISK_WRITE] take the media id, the byte
    offset, the size and the buffer. *)
Context {D : Type}.
Definition EFI_DISK_READ : Type := Z -> Z -> Z -> Z -> D -> Z * D.

(** The loop of [do_rw] from element [i] on; [None]: the vector is shorter
    than the count says (or [fuel] is not more than the elements left). *)
Fixpoint do_rw_loop (fuel : nat) (fn : EFI_DISK_READ) (MediaId : Z) (req : lkl_blk_req)
    (i off : Z) (d : D) : option (Z * D) :=
  match fuel with
  | O => None
  | S fuel' =>
      if i <? req_count req then
        v ← req_buf req !! Z.to_nat i;
        let addr := iov_base v in
        let len := s32 (iov_len v) in
        let (Status, d') := fn MediaId (u64 off) (u32 len) addr d in
        if EFI_ERROR Status then Some (-1, d')
        else do_rw_loop fuel' fn MediaId req (i + 1) (s64 (off + len)) d'
      else Some (0, d)
  end.

Definition do_rw (fn : EFI_DISK_READ) (MediaId : Z) (req : lkl_blk_req) (d : D) : option (Z * D) :=
  let off := s64 (u64 (sector req * 512)) in
  do_rw_loop (S (Z.to_nat (req_count req))) fn MediaId req 0 off d.

Definition uefi_blk_request (ReadDisk WriteDisk : EFI_DISK_READ) (FlushBlocks : D -> Z * D)
    (MediaId : Z) (req : lkl_blk_req) (d : D) : option (blk_status * D) :=
  match req_type req with
  | blk_type_other => Some (LKL_DEV_BLK_STATUS_UNSUP, d)
  | ty =>
      r ← (match ty with
           | LKL_DEV_BLK_TYPE_READ => do_rw ReadDisk MediaId req d
           | LKL_DEV_BLK_TYPE_WRITE => do_rw WriteDisk MediaId req d
           | _ => Some (0, snd (FlushBlocks d))
           end);
      Some (if fst r <? 0 then LKL_DEV_BLK_STATUS_IOERR else LKL_DEV_BLK_STATUS_OK, snd r)
  end.

(** *** Specification *)

(** The calls of a transfer: consecutive extents, one per element. *)
Fixpoint extents (off : Z) (vs : list iovec) : list (Z * iovec) :=
  match vs with
  | [] => []
  | v :: vs' => (off, v) :: extents (off + iov_len v) vs'
  end.

(** Issuing calls up to the first one that fails. *)
Fixpoint issue (fn : EFI_DISK_READ) (MediaId : Z) (es : list (Z * iovec)) (d : D) : Z * D :=
  match es with
  | [] => (0, d)
  | (off, v) :: es' =>
      let (Status, d') := fn MediaId off (iov_len v) (iov_base v) d in
      if EFI_ERROR Status then (-1, d') else issue fn MediaId es' d'
  end.

Definition total_len (vs : list iovec) : Z := foldr (fun v n => iov_len v + n) 0 vs.


Definition wf_iovec (v : iovec) : Prop := 0 <= iov_len v < 2 ^ 31.

Lemma total_len_nonneg vs : Forall wf_iovec vs -> 0 <= total_len vs.
Proof. unfold wf_iovec. induction 1; simpl; lia. Qed.

Lemma do_rw_loop_ok fn MediaId req :
  Forall wf_iovec (req_buf req) -> req_count req = Z.of_nat (length (req_buf req)) ->
  forall vs done off d fuel,
  req_buf req = done ++ vs -> 0 <= off -> off + total_len vs < 2 ^ 63 -> (length vs < fuel)%nat ->
  do_rw_loop fuel fn MediaId req (Z.of_nat (length done)) off d =
    Some (issue fn MediaId (extents off vs) d).
Proof.
  intros Hwf Hcnt. induction vs as [|v vs IH]; intros done off d fuel Hbuf Hoff Htot Hf;
    (destruct fuel as [|fuel]; [simpl in Hf; lia|]); simpl.
  - rewrite Hcnt, Hbuf, length_app, (proj2 (Z.ltb_ge _ _)) by (simpl; lia). done.
  - rewrite Hcnt, Hbuf, length_app, (proj2 (Z.ltb_lt _ _)) by (simpl; lia).
    rewrite Nat2Z.id, lookup_app_r, Nat.sub_diag by lia. simpl.
    rewrite Hbuf in Hwf. apply Forall_app in Hwf as [_ Hwf]. apply Forall_cons in Hwf as [Hv Hvs].
    pose proof (total_len_nonneg vs Hvs) as Hn. unfold wf_iovec in Hv. simpl in Htot.
    rewrite (s32_small (iov_len v)) by (unfold INT_MIN, INT_MAX; lia).
    rewrite u64_small, u32_small by lia. destruct (fn MediaId off (iov_len v) (iov_base v) d) as [st d'].
    destruct (EFI_ERROR st); [done|]. rewrite s64_small by lia.
    specialize (IH (done ++ [v]) (off + iov_len v) d' fuel).
    rewrite length_app in IH. simpl in IH.
    replace (Z.of_nat (length done) + 1) with (Z.of_nat (length done + 1)) by lia.
    apply IH; [by rewrite Hbuf, <- app_assoc|simpl in *; lia..].
Qed.

Lemma do_rw_ok fn MediaId req d :
  Forall wf_iovec (req_buf req) -> req_count req = Z.of_nat (length (req_buf req)) ->
  0 <= sector req -> sector req * 512 + total_len (req_buf req) < 2 ^ 63 ->
  do_rw fn MediaId req d = Some (issue fn MediaId (extents (sector req * 512) (req_buf req)) d).
Proof.
  intros Hwf Hcnt Hs Htot. pose proof (total_len_nonneg _ Hwf). unfold do_rw.
  rewrite u64_small, s64_small by lia.
  apply (do_rw_loop_ok fn MediaId req Hwf Hcnt (req_buf req) []); [done|lia..].
Qed.

(** C35: a block request whose elements are shorter than 2 GB and which ends
    below 2^63 transfers exactly the consecutive extents that start at its
    sector, one call per element, in order, through the read or the write
    entry, and stops at the first call that fails; the status is OK exactly
    when no call failed.  A flush flushes once, whatever the firmware answers,
    and any other request is refused without touching the disk. *)
Theorem uefi_blk_request_spec ReadDisk WriteDisk FlushBlocks MediaId req d :
  Forall wf_iovec (req_buf req) -> req_count req = Z.of_nat (length (req_buf req)) ->
  0 <= sector req -> sector req * 512 + total_len (req_buf req) < 2 ^ 63 ->
  let status r := if r <? 0 then LKL_DEV_BLK_STATUS_IOERR else LKL_DEV_BLK_STATUS_OK in
  let es := extents (sector req * 512) (req_buf req) in
  uefi_blk_request ReadDisk WriteDisk FlushBlocks MediaId req d = Some
    match req_type req with
    | LKL_DEV_BLK_TYPE_READ => let r := issue ReadDisk MediaId es d in (status (fst r), snd r)
    | LKL_DEV_BLK_TYPE_WRITE => let r := issue WriteDisk MediaId es d in (status (fst r), snd r)
    | LKL_DEV_BLK_TYPE_FLUSH | LKL_DEV_BLK_TYPE_FLUSH_OUT =>
        (LKL_DEV_BLK_STATUS_OK, snd (FlushBlocks d))
    | blk_type_other => (LKL_DEV_BLK_STATUS_UNSUP, d)
    end.
Proof.
  intros Hwf Hcnt Hs Htot status es. unfold uefi_blk_request.
  destruct (req_type req); try rewrite do_rw_ok by done; done.
Qed.
End disk.

(** ** Witnesses *)

#[local] Existing Instance debug_config.
#[local] Instance demo_edk : EdkConfig := {| MDEPKG_NDEBUG := false |}.

Lemma sem_down_spec_witness :
  takes_a_unit 1 2 11 (demo_sem 1) (sem_down 1 11 (demo_sem 1)) /\ sem_ok 11 1 (demo_sem 1).
Proof.
  split; [|apply demo_sem_ok; unfold INT_MAX; lia].
  exact (proj1 (sem_down_spec 2 11 1 (demo_sem 1) (demo_sem_running 1) ltac:(unfold _idle_thread; lia))).
Defined.

Lemma recursive_lock_deadlocks_witness :
  mutex_lock 1 (mk_lkl_mutex true 10) (demo_mutex (Some 2%positive) false) = Fail Panic.
Proof.
  exact (recursive_lock_deadlocks 2 10 (mk_mutex MUTEX_MAGIC (Some 2%positive) 1) 1
    (demo_mutex (Some 2%positive) false) (demo_mutex_running _ _)
    (demo_mutex_ok (Some 2%positive) false ltac:(done) ltac:(done)) eq_refl
    ltac:(unfold _idle_thread; lia) ltac:(unfold INT_MAX; simpl; lia)).
Defined.

Lemma TimerCallback_spec_witness :
  TimerCallback (k_threads (<[2%positive := th_remaining_quantum 5 (demo_thread 16 THREAD_RUNNING)]>
      (threads demo_state)) demo_state)
  = Done tt (k_threads (<[2%positive := th_remaining_quantum 4 (demo_thread 16 THREAD_RUNNING)]>
      (threads demo_state)) (k_ticks 10 demo_state)).
Proof.
  assert (Hr : running 2 (k_threads (<[2%positive := th_remaining_quantum 5 (demo_thread 16 THREAD_RUNNING)]>
      (threads demo_state)) demo_state)).
  { constructor; [apply kinv_check_sound; by vm_compute|done|done]. }
  etrans; [apply (proj1 (proj2 (TimerCallback_spec 2 _ _ Hr (lookup_insert_eq _ _ _)
    ltac:(unfold INT_MIN, INT_MAX; simpl; lia)))); [done|simpl; lia]|].
  by vm_compute.
Defined.

(** Boot services that succeed; the only event is 99. *)
#[local] Instance demo_events : EventServices := {|
  CreateEvent_result := fun _ => (EFI_SUCCESS, Some 99%positive);
  SetTimer_result := fun _ => EFI_SUCCESS; CloseEvent_result := fun _ => EFI_SUCCESS |}.

Lemma lkl_thread_init_boots_witness :
  exists s', lkl_thread_init (boot_state false [false; false]) = Done tt s' /\
    fw_log s' = clock_calls (Some 99%positive).
Proof.
  destruct (@lkl_thread_init_boots debug_config demo_edk demo_events (Some 99%positive) false [] eq_refl eq_refl)
    as (s' & Hr & _ & _ & _ & _ & _ & _ & Hlog).
  exists s'. split; [exact Hr|exact Hlog].
Defined.

(** A disk that only records the calls it gets, the third of which fails. *)
Definition recording_disk : @EFI_DISK_READ (list (Z * Z * Z)) := fun MediaId off len addr log =>
  (if (length log =? 2)%nat then EFI_DEVICE_ERROR else EFI_SUCCESS, log ++ [(off, len, addr)]).

Lemma uefi_blk_request_spec_witness :
  uefi_blk_request recording_disk recording_disk (fun d => (0, d)) 0
    (mk_req LKL_DEV_BLK_TYPE_READ 8 [mk_iovec 100 512; mk_iovec 900 1024] 2) [] =
  Some (LKL_DEV_BLK_STATUS_OK, [(4096, 512, 100); (4608, 1024, 900)]).
Proof.
  rewrite uefi_blk_request_spec; [by vm_compute| |done|simpl; lia|simpl; lia].
  repeat constructor; simpl; lia.
Defined.
