(* ===== verification/Timer.v ===== *)
(** * LKL's timers ([UefiHost.c])

    A timer is a firmware timer event, a kernel event and a detached thread:
    the firmware's notification signals the kernel event, on which the thread
    waits to call LKL's function.  [timer_free] asks the thread to stop; the
    thread frees the timer. *)

From S2P Require Import Prelude Kernel KInv Sched WaitQueue Thread Event Efi Host.

(** "timer" *)
Definition timer_name : list Z := [116; 105; 109; 101; 114].

(** The address of [timer_thread]. *)
Definition timer_thread_entry : Z := 1.

Definition lt_set_event (v : option ptr) (l : ltimer_t) : ltimer_t :=
  mk_ltimer v (lt_fn l) (lt_arg l) (lt_thread l) (request_stop l).
Definition lt_set_thread (v : option ptr) (l : ltimer_t) : ltimer_t :=
  mk_ltimer (lt_event l) (lt_fn l) (lt_arg l) v (request_stop l).
Definition lt_stop (l : ltimer_t) : ltimer_t :=
  mk_ltimer (lt_event l) (lt_fn l) (lt_arg l) (lt_thread l) true.

Section ops.
Context `{Config} `{EdkConfig} `{EventServices}.

Definition get_timer (t : ptr) : M ltimer_t := fun s =>
  match ltimers s !! t with Some l => Done l s | None => Fail UB end.
Definition upd_timer (t : ptr) (f : ltimer_t -> ltimer_t) : M unit := fun s =>
  match ltimers s !! t with
  | Some l => Done tt (k_ltimers (<[t := f l]> (ltimers s)) s)
  | None => Fail UB
  end.

(** The loop of [timer_thread]; [call] runs LKL's function. *)
Fixpoint timer_loop (fuel : nat) (call : Z -> Z -> M unit) (timer : ptr) : M unit :=
  match fuel with
  | O => fail Fuel
  | S fuel' =>
      l ← get_timer timer;
      if request_stop l then mret tt
      else
        event_wait timer;;
        l ← get_timer timer;
        if request_stop l then mret tt
        else call (lt_fn l) (lt_arg l);; timer_loop fuel' call timer
  end.

Definition timer_thread (fuel : nat) (call : Z -> Z -> M unit) (timer : ptr) : M Z :=
  timer_loop fuel call timer;;
  event_destroy timer;;
  FreePool timer;;
  mret 0.

Definition timer_alloc (fn arg : Z) : M ptr :=
  timer ← AllocatePool;
  match timer with
  | None => if MDEPKG_NDEBUG then fail UB else fail Panic
  | Some timer =>
      modify (fun s => k_ltimers (<[timer := mk_ltimer None fn arg None false]> (ltimers s)) s);;
      event_init timer false EVENT_FLAG_AUTOUNSIGNAL;;
      r ← CreateEvent (Z.lor EVT_TIMER EVT_NOTIFY_SIGNAL) TPL_CALLBACK fn_LTimerCallback (Some timer);
      upd_timer timer (lt_set_event (snd r));;
      ASSERT_EFI_ERROR (fst r);;
      thread ← thread_create timer_name timer_thread_entry (Zpos timer) DEFAULT_PRIORITY (1 * 1024 * 1024);
      upd_timer timer (lt_set_thread thread);;
      match thread with
      | None => fail UB
      | Some th => thread_detach_and_resume th;; mret timer
      end
  end.

(** The event handle of a timer; an unset one is not a handle. *)
Definition timer_event (timer : ptr) : M ptr :=
  l ← get_timer timer;
  match lt_event l with Some e => mret e | None => fail UB end.

(** [timer_set_oneshot] of the timers; the name belongs to the kernel timers
    of [Kernel] here. *)
Definition ltimer_set_oneshot (timer : ptr) (ns : Z) : M Z :=
  e ← timer_event timer;
  Status ← SetTimer (Some e) TimerRelative (u32 ns / 100);
  ASSERT_EFI_ERROR Status;;
  mret 0.

Definition timer_free (timer : ptr) : M unit :=
  e ← timer_event timer;
  Status ← CloseEvent (Some e);
  ASSERT_EFI_ERROR Status;;
  upd_timer timer lt_stop;;
  event_signal timer true;;
  mret tt.

Definition lkl_mem_alloc (size : Z) : M (option ptr) := AllocatePool.
Definition lkl_mem_free (p : option ptr) : M unit :=
  match p with Some p => FreePool p | None => mret tt end.

End ops.

(** ** Specification *)

(** The timer [t] is allocated and not freed, its condition being alive. *)
Record timer_live (t : ptr) (l : ltimer_t) (signaled : bool) (s : kstate) : Prop := {
  tl_timer : ltimers s !! t = Some l;
  tl_cond : event_ok t signaled EVENT_FLAG_AUTOUNSIGNAL s;
  tl_alloc : t ∈ allocated s;
}.

(** Nothing waits in the objects that may lie in the block [p]. *)
Definition no_waiters (p : ptr) (s : kstate) : Prop :=
  queue s (WaitQ (MutexWQ p)) = [] /\ queue s (WaitQ (SemWQ p)) = [] /\
  queue s (WaitQ (EventWQ p)) = [].

(** The timer [t] is gone: its block, its condition and its record. *)
Definition timer_gone (t : ptr) (s s' : kstate) : Prop :=
  allocated s' = allocated s ∖ {[t]} /\ ltimers s' = delete t (ltimers s) /\
  events s' = delete t (events s) /\ wqs s' !! EventWQ t = None.

Section proofs.
Context `{Config} `{EdkConfig} `{EventServices}.
Implicit Types (s : kstate) (t me : ptr) (l : ltimer_t).

(** *** Wait queues that end *)

Lemma queue_delete_wq s w x :
  queue s (WaitQ w) = [] -> queue (k_wqs (delete w (wqs s)) s) x = queue s x.
Proof.
  intros Hq. destruct x as [p|w']; [done|]. simpl in *. rewrite lookup_delete.
  case_decide; [by subst|done].
Qed.

Lemma kinv_delete_wq run F s w :
  kinv run F s -> queue s (WaitQ w) = [] -> kinv run F (k_wqs (delete w (wqs s)) s).
Proof.
  intros HI Hw. assert (Hq : forall q, queue (k_wqs (delete w (wqs s)) s) q = queue s q).
  { intros q. by apply queue_delete_wq. }
  destruct HI. constructor; intros *; rewrite ?Hq; eauto.
  - simpl. rewrite lookup_delete. case_decide; [done|apply ki_count].
  - simpl. rewrite lookup_delete. case_decide; [by intros []|apply ki_retcode].
Qed.

Lemma kinv_wq_magic run F s w q m :
  kinv run F s -> wqs s !! w = Some q ->
  kinv run F (k_wqs (<[w := mk_wq m (wq_list q) (wq_count q)]> (wqs s)) s).
Proof.
  intros HI Hw.
  assert (Hq : forall x, queue (k_wqs (<[w := mk_wq m (wq_list q) (wq_count q)]> (wqs s)) s) x = queue s x).
  { intros [p|w']; [done|]. simpl. rewrite lookup_insert. case_decide; [subst; by rewrite Hw|done]. }
  destruct HI. constructor; intros *; rewrite ?Hq; eauto.
  - simpl. rewrite lookup_insert. case_decide; [|apply ki_count]. intros [= <-]. simpl. subst. by eapply ki_count.
  - simpl. rewrite lookup_insert. case_decide; [subst; intros _; apply ki_retcode; by eexists|apply ki_retcode].
Qed.

Lemma FreePool_ok me p s :
  running me s -> p ∈ allocated s -> no_waiters p s ->
  exists s', FreePool p s = Done tt s' /\ running me s' /\ ints_enabled s' = ints_enabled s /\
  allocated s' = allocated s ∖ {[p]} /\ ltimers s' = delete p (ltimers s) /\
  events s' = delete p (events s) /\ wqs s' !! EventWQ p = None /\ threads s' = threads s.
Proof.
  intros [HI Hc Hl] Hp (Hm & Hs & He). unfold FreePool. rewrite decide_True by done.
  eexists. split; [done|]. split; [|simpl; split_and!; try done].
  - constructor; [|done|done].
    pose proof (kinv_delete_wq _ _ _ _ HI He) as I1.
    pose proof (kinv_delete_wq _ _ _ (SemWQ p) I1) as I2.
    rewrite queue_delete_wq in I2 by done. specialize (I2 Hs).
    pose proof (kinv_delete_wq _ _ _ (MutexWQ p) I2) as I3.
    rewrite !queue_delete_wq in I3 by (rewrite ?queue_delete_wq; done). specialize (I3 Hm).
    eapply kinv_queues; [exact I3|done..| | | |done].
    + simpl. intros t Ht. apply (ki_fresh _ _ _ HI). right. set_solver.
    + simpl. lia.
    + simpl. pose proof (ki_idle_static _ _ _ HI). set_solver.
  - rewrite !lookup_delete_ne by done. by simplify_map_eq.
Qed.

Lemma unlock_fields st s :
  let s' := unlock_state st s in
  threads s' = threads s /\ wqs s' = wqs s /\ events s' = events s /\ ltimers s' = ltimers s /\
  allocated s' = allocated s /\ run_queue s' = run_queue s.
Proof. unfold unlock_state. by destruct has_flag. Qed.

(** Destroying an event nobody waits for. *)
Lemma event_destroy_ok me e sg fl s :
  running me s -> event_ok e sg fl s -> event_waiters e s = [] ->
  exists s', event_destroy e s = Done tt s' /\ running me s' /\ ints_enabled s' = ints_enabled s /\
    (forall w, queue s' (WaitQ w) = queue s (WaitQ w)) /\ threads s' = threads s /\
    events s' = <[e := mk_event 0 false 0]> (events s) /\ ltimers s' = ltimers s /\
    allocated s' = allocated s.
Proof.
  intros Hr He Hw. pose proof (resumed_lock me s Hr) as Hres.
  set (s1 := k_events (<[e := mk_event 0 false 0]> (events s)) (lock_state s)).
  assert (Hres1 : resumed me s1) by (by eapply resumed_ext).
  destruct (wq_ready_queue _ _ (eo_wq _ _ _ _ He)) as (q & Hq & Hm & Hql).
  destruct (resumed_thread me s1 Hres1) as (th & Hth & _).
  destruct (wake_all_resched_ok me (EventWQ e) ERR_OBJECT_DESTROYED s1 q th Hres1 Hq Hm Hth) as [Hwake _].
  rewrite Hql in Hwake. specialize (Hwake Hw).
  set (s2 := k_wqs (<[EventWQ e := mk_wq 0 (wq_list q) (wq_count q)]> (wqs s1)) s1).
  assert (Hres2 : resumed me s2).
  { destruct Hres1 as (HI & Hc & Hl). split; [by apply kinv_wq_magic|by split]. }
  exists (unlock_state (saved_ints s) s2).
  destruct (unlock_fields (saved_ints s) s2) as (E1 & E2 & E3 & E4 & E5 & _).
  split; [|split; [by apply unlock_running|split; [apply unlock_saved_ints, Hres2|]]].
  - unfold event_destroy. erewrite bind_done by (by eapply event_assert_ok). kstep.
    erewrite bind_done by (eapply put_event_ok; exact (eo_event _ _ _ _ He)). fold s1.
    erewrite bind_done; [apply THREAD_UNLOCK_ok|]. unfold wait_queue_destroy.
    erewrite wait_magic_assert, kernel_asserts by (done || apply Hres1).
    erewrite bind_done by exact Hwake. kstep. by erewrite put_wq_ok by done.
  - rewrite E1, E3, E4, E5. split; [|done]. intros w. simpl. rewrite E2. simpl.
    rewrite lookup_insert. case_decide; [subst; by rewrite Hq|done].
Qed.

(** What the timer's thread does once it has left its loop. *)
Definition timer_end (t : ptr) : M Z := event_destroy t;; FreePool t;; mret 0.

Lemma timer_end_ok me t l sg s :
  running me s -> timer_live t l sg s -> no_waiters t s ->
  exists s', timer_end t s = Done 0 s' /\ running me s' /\ ints_enabled s' = ints_enabled s /\
    threads s' = threads s /\ timer_gone t s s'.
Proof.
  intros Hr [Hl He Ha] (Hm & Hs & Hev).
  destruct (event_destroy_ok me t sg _ s Hr He Hev) as (s1 & Hrun & Hr1 & Hi1 & Hq1 & Ht1 & He1 & Hl1 & Ha1).
  destruct (FreePool_ok me t s1 Hr1) as (s2 & Hrun2 & Hr2 & Hi2 & Ha2 & Hl2 & He2 & Hw2 & Ht2).
  { by rewrite Ha1. }
  { unfold no_waiters. by rewrite !Hq1. }
  exists s2. split_and!; [|done|congruence|congruence|].
  - unfold timer_end. by erewrite !bind_done by done.
  - unfold timer_gone. rewrite Ha2, Hl2, He2, Ha1, Hl1, He1. split_and!; try done.
    by rewrite delete_insert_eq.
Qed.

(** *** The thread *)

(** What is left of a round of the loop after the wait. *)
Definition timer_body (fuel : nat) (call : Z -> Z -> M unit) (t : ptr) : M unit :=
  l ← get_timer t;
  if request_stop l then mret tt
  else call (lt_fn l) (lt_arg l);; timer_loop fuel call t.

(** The timer's thread [me] after it was woken in the wait of its loop, [st]
    being the interrupt state it saved. *)
Definition timer_woken (fuel : nat) (call : Z -> Z -> M unit) (me : ptr) (st : Z) (t : ptr) : M Z :=
  ((ret ← (th ← get_thread me; mret (wait_queue_block_ret th)); THREAD_UNLOCK st;; mret ret);;
   timer_body fuel call t);;
  timer_end t.

Lemma get_timer_ok t l s : ltimers s !! t = Some l -> get_timer t s = Done l s.
Proof. unfold get_timer. by intros ->. Qed.

Lemma upd_timer_ok t f l s :
  ltimers s !! t = Some l -> upd_timer t f s = Done tt (k_ltimers (<[t := f l]> (ltimers s)) s).
Proof. unfold upd_timer. by intros ->. Qed.

Lemma timer_live_unlock t l sg st s : timer_live t l sg s -> timer_live t l sg (unlock_state st s).
Proof.
  intros [Hl He Ha]. destruct (unlock_fields st s) as (_ & _ & _ & E1 & E2 & _).
  constructor; [by rewrite E1|by apply event_ok_unlock|by rewrite E2].
Qed.

Lemma no_waiters_unlock t st s : no_waiters t s -> no_waiters t (unlock_state st s).
Proof. unfold unlock_state. by destruct has_flag. Qed.

Lemma timer_live_sched t l sg s s' : timer_live t l sg s -> sched_only s s' -> timer_live t l sg s'.
Proof.
  intros [Hl He Ha] Hso. constructor; [by rewrite (so_ltimers _ _ Hso)|by eapply event_ok_sched|].
  by rewrite (so_allocated _ _ Hso).
Qed.

Lemma no_waiters_dispatched t me s top s' : dispatched me s top s' -> no_waiters t s -> no_waiters t s'.
Proof. intros Hd. unfold no_waiters. by rewrite !(dispatched_wait _ _ _ _ _ Hd). Qed.

(** A woken timer thread ends when it was asked to stop, and calls the
    function once otherwise. *)
Lemma timer_woken_ok fuel call me st t l sg s :
  resumed me s -> timer_live t l sg s -> no_waiters t s ->
  let s0 := unlock_state st s in
  running me s0 /\ timer_live t l sg s0 /\
  if request_stop l then
    exists s', timer_woken fuel call me st t s = Done 0 s' /\ running me s' /\ timer_gone t s0 s'
  else timer_woken fuel call me st t s =
    ((call (lt_fn l) (lt_arg l);; timer_loop fuel call t);; timer_end t) s0.
Proof.
  intros Hr Hl Hn s0. assert (Hr0 : running me s0) by by apply unlock_running.
  assert (Hl0 : timer_live t l sg s0) by by apply timer_live_unlock.
  split; [done|]. split; [done|].
  destruct (resumed_thread me s Hr) as (th & Hth & _).
  assert (Hwait : (ret ← (th ← get_thread me; mret (wait_queue_block_ret th));
      THREAD_UNLOCK st;; mret ret) s = Done (wait_queue_block_ret th) s0).
  { erewrite bind_done; [|by kstep]. by kstep. }
  assert (Hrun : timer_woken fuel call me st t s =
      bind_run (fun _ => timer_end t) (timer_body fuel call t s0)).
  { unfold timer_woken. unfold mbind at 1, M_bind at 1. by erewrite bind_done by exact Hwait. }
  rewrite !Hrun. unfold timer_body. rewrite (bind_done _ _ _ _ _ (get_timer_ok t l s0 (tl_timer _ _ _ _ Hl0))).
  destruct (request_stop l); [|done].
  destruct (timer_end_ok me t l sg s0 Hr0 Hl0) as (s' & Hend & Hr' & _ & _ & Hg); [by apply no_waiters_unlock|].
  by exists s'.
Qed.

(** One round of a timer's thread, on a live timer nobody else waits for.
    Asked to stop, it destroys the condition, frees the timer and returns 0.
    With a signal pending it takes the signal and calls LKL's function with its
    argument.  Otherwise it waits on the condition, as its only waiter; woken
    with the timer in whatever state, it calls the function once, or, when the
    stop request came in between, frees the timer and returns without calling. *)
Theorem timer_thread_round me t l sg fuel call s :
  running me s -> timer_live t l sg s -> no_waiters t s -> me <> _idle_thread ->
  let run := timer_thread (S fuel) call t in
  (request_stop l = true ->
     exists s', run s = Done 0 s' /\ running me s' /\ timer_gone t s s') /\
  (request_stop l = false -> sg = true ->
     exists s', run s = ((call (lt_fn l) (lt_arg l);; timer_loop fuel call t);; timer_end t) s' /\
       running me s' /\ timer_live t l false s') /\
  (request_stop l = false -> sg = false ->
     exists s1, parked me s1 /\ timer_live t l false s1 /\ event_waiters t s1 = [me] /\
       reschedules me (timer_woken fuel call me (saved_ints s) t) s1 (run s) /\
       forall s2 l' sg', resumed me s2 -> timer_live t l' sg' s2 -> no_waiters t s2 ->
         let s0 := unlock_state (saved_ints s) s2 in
         running me s0 /\ timer_live t l' sg' s0 /\
         if request_stop l' then
           exists s', timer_woken fuel call me (saved_ints s) t s2 = Done 0 s' /\ running me s' /\
             timer_gone t s0 s'
         else timer_woken fuel call me (saved_ints s) t s2 =
           ((call (lt_fn l') (lt_arg l');; timer_loop fuel call t);; timer_end t) s0).
Proof.
  intros Hr Hlv Hn Hidle run. pose proof Hlv as [Hl He Ha].
  assert (Hhead : run s = bind_run (fun _ => timer_end t)
     ((if request_stop l then mret tt else event_wait t;; timer_body fuel call t) s)).
  { unfold run, timer_thread. unfold mbind at 1, M_bind at 1. cbn [timer_loop].
    by rewrite (bind_done _ _ _ _ _ (get_timer_ok t l s Hl)). }
  split_and!; intros Hst; rewrite Hhead, Hst.
  - destruct (timer_end_ok me t l sg s Hr Hlv Hn) as (s' & Hend & Hr' & _ & _ & Hg). by exists s'.
  - intros ->. destruct (event_wait_signaled me t _ INFINITE_TIME s Hr He) as (Hw & Hr' & He' & _).
    set (s' := taken_state t EVENT_FLAG_AUTOUNSIGNAL s) in *.
    assert (Hlv' : timer_live t l false s').
    { constructor; [|done|]; unfold s', taken_state, unlock_state; by destruct (has_flag (saved_ints s) _). }
    exists s'. split; [|done]. unfold event_wait. erewrite bind_done by exact Hw.
    unfold timer_body, mbind, M_bind. rewrite (get_timer_ok t l) by apply Hlv'. simpl. by rewrite Hst.
  - intros ->. destruct (event_wait_blocks me t _ s Hr He Hidle) as (s1 & Hpk & He1 & Hso & Hw1 & _ & _ & _ & Hre).
    exists s1. split; [done|]. split.
    { apply (timer_live_sched t l false (lock_state s)); [|done]. constructor; [exact Hl|by destruct He|exact Ha]. }
    split; [rewrite Hw1; unfold event_waiters; by destruct Hn as (_ & _ & ->)|]. split.
    { exact (reschedules_bind me _ (fun _ => timer_end t) _ _
        (reschedules_bind me _ (fun _ => timer_body fuel call t) _ _ Hre)). }
    intros s2 l' sg'. by apply timer_woken_ok.
Qed.

(** *** Signals *)

(** [w], the timer's thread, waits on the condition of [t], and nothing else
    lies in the block. *)
Definition timer_waiting (t w : ptr) (s : kstate) : Prop :=
  event_waiters t s = [w] /\ queue s (WaitQ (MutexWQ t)) = [] /\ queue s (WaitQ (SemWQ t)) = [].

(** [w] was woken: it is in front of a run queue, its wait will return
    [NO_ERROR], and nobody waits for the timer [t] any more. *)
Definition timer_signaled (t w : ptr) (l : ltimer_t) (s : kstate) : Prop :=
  timer_live t l false s /\ no_waiters t s /\
  (exists p rest, queue s (RunQ p) = w :: rest) /\
  wait_queue_block_ret <$> threads s !! w = Some NO_ERROR.

Lemma timer_signal_ok me t w l s :
  running me s -> timer_live t l false s -> timer_waiting t w s ->
  exists s1 c, parked me s1 /\ timer_signaled t w l s1 /\ fw_log s1 = fw_log s /\
    reschedules me c s1 (event_signal t true s) /\
    (forall s2, c s2 = Done NO_ERROR (unlock_state (saved_ints s) s2)).
Proof.
  intros Hr Hlv (Hw & Hm & Hs). pose proof Hr as [HI _ _].
  destruct (running_thread me s Hr) as (th & Hth & _).
  destruct (event_signal_resched me t _ s th w [] Hr (tl_cond _ _ _ _ Hlv) eq_refl Hw Hth)
    as (s0 & s1 & c & (_ & _ & _ & Hqo) & Hso & Hwk & Hpk & _ & Hre & Hc).
  assert (Hwt : exists tw, threads s !! w = Some tw).
  { assert (Hin : w ∈ queue s (WaitQ (EventWQ t))) by (change (w ∈ event_waiters t s); rewrite Hw; set_solver).
    apply (ki_home _ _ _ HI) in Hin as (_ & tw & Htw & _). by exists tw. }
  destruct Hwt as (tw & Htw).
  destruct (sched_only_threads_eq _ s0 w tw Hso Htw) as (t0 & Ht0 & _).
  exists s1, c. split; [done|]. split; [|split; [|done]].
  2: { by rewrite (so_fw_log _ _ (wk_frame _ _ _ _ _ _ Hwk)), (so_fw_log _ _ Hso). }
  split; [|split; [|split]].
  - apply (timer_live_sched t l false (lock_state s)); [|etrans; [exact Hso|apply Hwk]].
    destruct Hlv as [? [] ?]. constructor; [done|by constructor|done].
  - unfold no_waiters. rewrite !(wk_other _ _ _ _ _ _ Hwk), (wk_wait _ _ _ _ _ _ Hwk) by done.
    by rewrite !Hqo.
  - exists (Z.to_nat (priority t0)). eexists. rewrite (wk_run _ _ _ _ _ _ Hwk), filter_cons, filter_nil, Ht0.
    simpl. by rewrite decide_True.
  - rewrite (wk_threads _ _ _ _ _ _ Hwk), decide_True, Ht0 by set_solver. done.
Qed.

(** The thread [w] gets the CPU. *)
Lemma timer_dispatched me t w l s1 s2 :
  timer_signaled t w l s1 -> dispatched me s1 w s2 ->
  resumed w s2 /\ timer_live t l false s2 /\ no_waiters t s2.
Proof.
  intros (Hlv & Hn & _) Hd. split; [by destruct Hd|].
  split; [eapply timer_live_sched; [done|apply Hd]|by eapply no_waiters_dispatched].
Qed.

(** C28: signals reach the thread of a timer that waits for one.  When the
    firmware's timer event fires, the callback puts the thread in front of the
    run queue of its priority, and as soon as the scheduler picks it, it calls
    LKL's function with its argument, once; the firmware is not called.
    [timer_free] asks the firmware to close the timer's event, which is its
    only call, and when that succeeds wakes the thread likewise, which then ends
    without calling the function; it leaves nothing of the timer behind:
    neither the block nor the kernel event. *)
Theorem timer_signal_spec me t w l ev fuel call st s :
  running me s -> timer_live t l false s -> timer_waiting t w s -> request_stop l = false ->
  lt_event l = Some ev -> CloseEvent_result (fw_log s ++ [FwCloseEvent (Some ev)]) = EFI_SUCCESS ->
  (exists s1 c, parked me s1 /\ timer_signaled t w l s1 /\ fw_log s1 = fw_log s /\
     reschedules me c s1 (LTimerCallback t s) /\
     forall s2, dispatched me s1 w s2 ->
       running w (unlock_state st s2) /\
       timer_woken fuel call w st t s2 =
         ((call (lt_fn l) (lt_arg l);; timer_loop fuel call t);; timer_end t) (unlock_state st s2)) /\
  (exists s1 c, parked me s1 /\ timer_signaled t w (lt_stop l) s1 /\
     fw_log s1 = fw_log s ++ [FwCloseEvent (Some ev)] /\
     reschedules me c s1 (timer_free t s) /\
     forall s2, dispatched me s1 w s2 ->
       exists s', timer_woken fuel call w st t s2 = Done 0 s' /\ running w s' /\
         timer_gone t (unlock_state st s2) s').
Proof.
  intros Hr Hlv Hw Hst Hev Hclose. split.
  - destruct (timer_signal_ok me t w l s Hr Hlv Hw) as (s1 & c & Hpk & Hsg & Hfw & Hre & _).
    exists s1. eexists. split; [done|]. split; [done|]. split; [exact Hfw|]. split.
    { exact (reschedules_bind me _ (fun _ => mret tt : M unit) _ _ Hre). }
    intros s2 Hd. destruct (timer_dispatched _ _ _ _ _ _ Hsg Hd) as (Hr2 & Hl2 & Hn2).
    destruct (timer_woken_ok fuel call w st t l false s2 Hr2 Hl2 Hn2) as (Hr3 & _ & HH).
    rewrite Hst in HH. by split.
  - set (sf := fw_issue (FwCloseEvent (Some ev)) s). set (sc := k_ltimers (<[t := lt_stop l]> (ltimers sf)) sf).
    assert (Hrc : running me sc) by (destruct Hr as [HI ? ?]; constructor; [by eapply kinv_ext|done|done]).
    assert (Hlc : timer_live t (lt_stop l) false sc).
    { destruct Hlv as [? [] ?]. constructor; [apply lookup_insert_eq|by constructor|done]. }
    destruct (timer_signal_ok me t w (lt_stop l) sc Hrc Hlc Hw) as (s1 & c & Hpk & Hsg & Hfw & Hre & _).
    exists s1. eexists. split; [done|]. split; [done|]. split; [exact Hfw|]. split.
    { unfold timer_free, timer_event. erewrite bind_done; cycle 1.
      { erewrite bind_done by (apply get_timer_ok, Hlv). by rewrite Hev. }
      erewrite bind_done by (apply firmware_ok, Hclose).
      erewrite bind_done by by apply ASSERT_EFI_ERROR_ok. fold sf.
      erewrite bind_done by (apply upd_timer_ok, Hlv). fold sc.
      exact (reschedules_bind me _ (fun _ => mret tt : M unit) _ _ Hre). }
    intros s2 Hd. destruct (timer_dispatched _ _ _ _ _ _ Hsg Hd) as (Hr2 & Hl2 & Hn2).
    by destruct (timer_woken_ok fuel call w st t (lt_stop l) false s2 Hr2 Hl2 Hn2) as (_ & _ & HH).
Qed.

(** *** Allocation *)

Lemma kinv_init_event run F s e :
  kinv run F s -> queue s (WaitQ (EventWQ e)) = [] ->
  kinv run F (k_wqs (<[EventWQ e := WAIT_QUEUE_INITIAL_VALUE]> (wqs s)) s).
Proof.
  intros HI He.
  assert (Hq : forall x,
    queue (k_wqs (<[EventWQ e := WAIT_QUEUE_INITIAL_VALUE]> (wqs s)) s) x = queue s x).
  { intros [p|w]; [done|]. simpl in *. rewrite lookup_insert. case_decide; [|done]. by subst. }
  destruct HI. constructor; intros *; rewrite ?Hq; eauto.
  - simpl. rewrite lookup_insert. case_decide; [by intros [= <-]|apply ki_count].
  - simpl. rewrite lookup_insert_ne by done. apply ki_retcode.
Qed.

(** The timer as [timer_alloc] leaves it. *)
Definition new_timer (ev : ptr) (fn arg : Z) (th : ptr) : ltimer_t :=
  mk_ltimer (Some ev) fn arg (Some th) false.

(** Its thread, ready and detached. *)
Definition new_timer_thread (t stk : ptr) : thread_t :=
  let th := new_thread timer_name timer_thread_entry (Zpos t) DEFAULT_PRIORITY stk
              (created_size (1 * 1024 * 1024)) created_flags in
  th_state THREAD_READY (th_flags (Z.lor created_flags THREAD_FLAG_DETACHED) th).

(** The call that makes the firmware's event of the timer [t]. *)
Definition timer_event_call (t : ptr) : fw_call :=
  FwCreateEvent (Z.lor EVT_TIMER EVT_NOTIFY_SIGNAL) TPL_CALLBACK fn_LTimerCallback (Some t).

(** The state in which [timer_alloc] creates the thread of the timer [t]. *)
Definition timer_made (t ev : ptr) (fn arg : Z) (s : kstate) : kstate :=
  let s1 := malloc_state t (tail (malloc_fails s)) s in
  let s2 := k_events (<[t := mk_event EVENT_MAGIC false EVENT_FLAG_AUTOUNSIGNAL]> (events s1)) s1 in
  let s3 := k_wqs (<[EventWQ t := WAIT_QUEUE_INITIAL_VALUE]> (wqs s2)) s2 in
  fw_issue (timer_event_call t) (k_ltimers (<[t := mk_ltimer (Some ev) fn arg None false]> (ltimers s3)) s3).

Lemma timer_made_ok me t ev fn arg s :
  running me s -> t = next_ptr s -> no_waiters t s ->
  let s' := timer_made t ev fn arg s in
  running me s' /\ timer_live t (mk_ltimer (Some ev) fn arg None false) false s' /\
  threads s' = threads s /\ thread_list s' = thread_list s /\ run_queue s' = run_queue s /\
  ints_enabled s' = ints_enabled s /\ no_waiters t s'.
Proof.
  intros [HI Hc Hl] -> Hn s'. split; [|split; [|do 4 (split; [done|])]].
  - constructor; [|done|done].
    refine (kinv_ext _ _ _ _ (kinv_init_event _ _ (malloc_state (next_ptr s) (tail (malloc_fails s)) s)
      (next_ptr s) _ (proj2 (proj2 Hn))) _); [by apply kinv_malloc|done].
  - constructor; [apply lookup_insert_eq| |simpl; set_solver].
    constructor; [apply lookup_insert_eq|]. eexists. split; [apply lookup_insert_eq|done].
  - unfold s', timer_made, no_waiters in *. simpl in *. rewrite !lookup_insert_ne by done.
    rewrite lookup_insert_eq. naive_solver.
Qed.

Lemma timer_alloc_start fn arg ev s th s2 :
  let t := next_ptr s in
  malloc_fails s = [] ->
  CreateEvent_result (fw_log s ++ [timer_event_call t]) = (EFI_SUCCESS, Some ev) ->
  thread_create timer_name timer_thread_entry (Zpos t) DEFAULT_PRIORITY (1 * 1024 * 1024)
    (timer_made t ev fn arg s) = Done (Some th) s2 ->
  ltimers s2 !! t = Some (mk_ltimer (Some ev) fn arg None false) ->
  timer_alloc fn arg s =
    (thread_detach_and_resume th;; mret t) (k_ltimers (<[t := new_timer ev fn arg th]> (ltimers s2)) s2).
Proof.
  intros t Hmf Hce Hcr Hl2. unfold timer_alloc, AllocatePool.
  erewrite bind_done by (apply malloc_ok; by rewrite Hmf).
  cbv iota. fold t. erewrite bind_done by reflexivity.
  erewrite bind_done by reflexivity. erewrite bind_done by (apply firmware_ok, Hce).
  erewrite bind_done by (apply upd_timer_ok; apply lookup_insert_eq).
  erewrite bind_done by by apply ASSERT_EFI_ERROR_ok.
  match goal with |- (_ ≫= _) ?x = _ => assert (x = timer_made t ev fn arg s) as -> end.
  { apply kstate_ext; try done. simpl. by rewrite insert_insert_eq. }
  erewrite bind_done by exact Hcr.
  by erewrite bind_done by (apply upd_timer_ok; exact Hl2).
Qed.

(** When memory for the timer, its thread and the thread's stack is there
    and the firmware makes its event, [timer_alloc] returns a live timer that is
    not signaled nor asked to stop, holds LKL's function and argument, the
    firmware's event and its thread; the thread is fresh, detached, ready in
    front of the run queue of the default priority, and starts in
    [timer_thread] with the timer as argument.  The call yields to it when
    interrupts were enabled. *)
Theorem timer_alloc_spec me fn arg ev s :
  running me s -> malloc_fails s = [] -> no_waiters (next_ptr s) s ->
  CreateEvent_result (fw_log s ++ [timer_event_call (next_ptr s)]) = (EFI_SUCCESS, Some ev) ->
  exists t th stk s0,
    timer_alloc fn arg s =
      (((if ints_enabled s then thread_yield else mret tt);; mret NO_ERROR);; mret t) s0 /\
    running me s0 /\ ints_enabled s0 = ints_enabled s /\
    t ∉ allocated s /\ th ∉ allocated s /\ stk ∉ allocated s /\ threads s !! th = None /\
    timer_live t (new_timer ev fn arg th) false s0 /\ event_waiters t s0 = [] /\
    threads s0 = <[th := new_timer_thread t stk]> (threads s) /\
    queue s0 (RunQ (Z.to_nat DEFAULT_PRIORITY)) =
      th :: queue s (RunQ (Z.to_nat DEFAULT_PRIORITY)).
Proof.
  intros Hr Hmf Hn Hce. set (t := next_ptr s).
  destruct (timer_made_ok me t ev fn arg s Hr eq_refl Hn) as (Hr1 & Hlv1 & Ht1 & Htl1 & Hq1 & Hi1 & Hn1).
  set (s1 := timer_made t ev fn arg s) in *.
  assert (Hmf1 : malloc_fails s1 = []) by (simpl; by rewrite Hmf).
  destruct (create_success me timer_name timer_thread_entry (Zpos t) DEFAULT_PRIORITY (1 * 1024 * 1024) s1 Hr1)
    as (th & stk & s2 & Hcr & Hr2 & Hth2 & Hal2 & Hsa2 & Hths2 & Ha2 & Htl2 & Hi2 & Hw2 & Hq2 & He2 & Hl2 & _);
    [done|by rewrite Hmf1|by rewrite Hmf1|].
  set (s3 := k_ltimers (<[t := new_timer ev fn arg th]> (ltimers s2)) s2).
  set (nt := new_thread _ _ _ _ _ _ _) in *.
  assert (Hr3 : running me s3) by (destruct Hr2 as [HI2 ? ?]; constructor; [by eapply kinv_ext|done|done]).
  destruct (detach_and_resume_ok me th nt s3 Hr3) as (s4 & Hrun & Hr4 & Hi4 & Hths4 & Hq4 & Hl4 & He4 & Hw4 & Ha4).
  { simpl. by rewrite Hths2, lookup_insert_eq. } { done. }
  { eexists. simpl. rewrite Hw2. split; [apply lookup_insert_eq|done]. }
  { simpl. by rewrite Hw2, lookup_insert_eq. }
  exists t, th, stk, s4. split.
  { rewrite (timer_alloc_start fn arg ev s th s2 Hmf Hce Hcr) by (rewrite Hl2; apply lookup_insert_eq).
    transitivity (bind_run (fun _ : Z => mret t : M ptr) (thread_detach_and_resume th s3)); [done|].
    rewrite Hrun. simpl ints_enabled. by rewrite Hi2, Hi1. }
  simpl in Hi4, Hths4, Hq4, Hl4, He4, Hw4, Ha4.
  split; [done|]. split; [by rewrite Hi4, Hi2|].
  split; [by eapply fresh_not_allocated; apply Hr|]. split; [set_solver|]. split; [set_solver|].
  split; [by rewrite Ht1 in Hth2|]. split; [|split; [|split]].
  - destruct Hlv1 as [_ [Hev (q & Hwq & Hqm)] Hal].
    constructor; [rewrite Hl4; apply lookup_insert_eq| |rewrite Ha4, Ha2; set_solver].
    constructor; [by rewrite He4, He2|]. exists q. by rewrite Hw4, Hw2, lookup_insert_ne.
  - unfold event_waiters, queue. rewrite Hw4, Hw2, lookup_insert_ne by done. apply Hn1.
  - by rewrite Hths4, Hths2, Ht1, insert_insert_eq.
  - etrans; [exact Hq4|]. f_equal. by rewrite Hq2.
Qed.
End proofs.

(** ** Witnesses *)

#[local] Existing Instance debug_config.
#[local] Existing Instance demo_edk.

#[local] Existing Instance demo_events.

Definition demo_timer (stop : bool) : ltimer_t := mk_ltimer (Some 99%positive) 5 6 (Some 3%positive) stop.

(** A timer at 12 in [s]. *)
Definition with_timer (stop : bool) (s : kstate) : kstate :=
  k_events {[12%positive := mk_event EVENT_MAGIC false EVENT_FLAG_AUTOUNSIGNAL]}
    (k_ltimers {[12%positive := demo_timer stop]} (k_allocated {[2; 3; 12]}%positive s)).

Lemma with_timer_live stop s q :
  wqs s !! EventWQ 12 = Some q -> wq_magic q = WAIT_QUEUE_MAGIC ->
  timer_live 12 (demo_timer stop) false (with_timer stop s).
Proof. intros Hq Hm. constructor; [done| |simpl; set_solver]. constructor; [done|]. by exists q. Qed.

(** A callback that records its argument in the clock. *)
Definition demo_call (fn arg : Z) : M unit := modify (k_ticks arg).

Lemma timer_alloc_spec_witness :
  exists t th s0, timer_live t (new_timer 99 5 6 th) false s0 /\
    (exists r, timer_alloc 5 6 demo_state = r) /\ running 2 s0.
Proof.
  destruct (@timer_alloc_spec debug_config demo_edk demo_events 2 5 6 99 demo_state demo_running eq_refl (conj eq_refl (conj eq_refl eq_refl))
    eq_refl) as (t & th & stk & s0 & Hrun & Hr & _ & _ & _ & _ & _ & Hlv & _).
  exists t, th, s0. split; [exact Hlv|]. split; [eexists; reflexivity|exact Hr].
Defined.

Lemma timer_thread_round_witness :
  exists s', timer_thread 1 demo_call 12 (with_timer true demo_state) = Done 0 s' /\
    12%positive ∉ allocated s'.
Proof.
  assert (Hr : running 2 (with_timer true demo_state)).
  { constructor; [apply kinv_check_sound; by vm_compute|done|done]. }
  destruct (proj1 (timer_thread_round 2 12 (demo_timer true) false 0 demo_call
    (with_timer true demo_state) Hr (with_timer_live true demo_state _ eq_refl eq_refl)
    (conj eq_refl (conj eq_refl eq_refl)) ltac:(unfold _idle_thread; lia)) eq_refl)
    as (s' & Hrun & _ & Ha & _).
  exists s'. split; [exact Hrun|]. rewrite Ha. set_solver.
Defined.

(** Thread 3 waits for the timer. *)
Definition demo_timer_waiting : kstate := k_thread_lock 0 (with_timer false (demo_waiting (EventWQ 12))).

Lemma timer_signal_spec_witness :
  exists s1 c, timer_signaled 12 3 (lt_stop (demo_timer false)) s1 /\
    fw_log s1 = [FwCloseEvent (Some 99%positive)] /\
    reschedules 2 c s1 (timer_free 12 demo_timer_waiting).
Proof.
  assert (Hr : running 2 demo_timer_waiting).
  { constructor; [apply kinv_check_sound; by vm_compute|done|done]. }
  destruct (proj2 (@timer_signal_spec debug_config demo_edk demo_events 2 12 3 (demo_timer false) 99 0 demo_call 0 demo_timer_waiting Hr
    ltac:(constructor; [reflexivity|constructor; [reflexivity|eexists; split; reflexivity]|simpl; set_solver])
    (conj eq_refl (conj eq_refl eq_refl)) eq_refl eq_refl eq_refl)) as (s1 & c & _ & Hsg & Hfw & Hre & _).
  exists s1, c. split; [exact Hsg|]. split; [exact Hfw|exact Hre].
Defined.
