(* ===== verification/Context.v ===== *)
(** * Preparing a context ([Arm/makecontext.c])

    [makecontext] of the C library's ARM port: the registers and the stack with
    which [setcontext] and [swapcontext] (assembly) later start a function.
    Every new thread starts this way ([arch_thread_initialize] of [Thread]
    records the stack and the link it passes). *)

From S2P Require Import Prelude.

(** [struct sigcontext] of [Arm/Include/sys/ucontext.h]; [arm_r] are [arm_r0]
    to [arm_r10]. *)
Record mcontext_t := mk_mcontext {
  trap_no : Z; error_code : Z; oldmask : Z;
  arm_r : list Z;
  arm_fp : Z; arm_ip : Z; arm_sp : Z; arm_lr : Z; arm_pc : Z; arm_cpsr : Z;
  fault_address : Z }.

(** The members of [ucontext_t] that [makecontext] uses, its stack being
    [uc_ss_sp] and [uc_ss_size]. *)
Record ucontext_t := mk_uc {
  uc_link : Z; uc_ss_sp : Z; uc_ss_size : Z; uc_mcontext : mcontext_t }.

(** Number of arguments that go in registers. *)
Definition NREG_ARGS : Z := 4.

(** Memory, by the addresses of its words. *)
Abbreviation memory := (gmap Z Z) (only parsing).

(** A store through an [unsigned long *]: to a mapped, aligned word. *)
Definition store (a v : Z) (m : memory) : option memory :=
  match m !! a with
  | Some _ => if a `mod` 4 =? 0 then Some (<[a := v]> m) else None
  | None => None
  end.

(** The loop over the arguments in registers.  [reg] is unsigned, so [argc] is
    converted; [ap] are the variable arguments that are left, and reading one
    more than there are is undefined ([None]). *)
Fixpoint reg_args (argc reg : Z) (r : list Z) (ap : list Z) : option (Z * list Z * list Z) :=
  if (reg <? u32 argc) && (reg <? NREG_ARGS) then
    match ap with
    | [] => None
    | a :: ap' => reg_args argc (reg + 1) (<[Z.to_nat reg := a]> r) ap'
    end
  else Some (reg, r, ap).

(** The loop over the arguments on the stack. *)
Fixpoint stack_args (argc reg funcstack : Z) (m : memory) (ap : list Z) : option memory :=
  if reg <? u32 argc then
    match ap with
    | [] => None
    | a :: ap' => m' ← store funcstack a m; stack_args argc (u32 (reg + 1)) (u32 (funcstack + 4)) m' ap'
    end
  else Some m.

(** The stack pointer: the top of the stack, less what aligns it and makes room
    for the arguments that do not fit in registers. *)
Definition context_stack (ucp : ucontext_t) (argc : Z) : Z :=
  let funcstack := u32 (uc_ss_sp ucp + uc_ss_size ucp) in
  let misaligned := negb (Z.land funcstack 4 =? 0) in
  let misaligned := if (NREG_ARGS <? argc) && negb (Z.land argc 1 =? 0) then negb misaligned
                    else misaligned in
  let funcstack := if misaligned then u32 (funcstack - 4) else funcstack in
  if NREG_ARGS <? argc then u32 (funcstack - 4 * (argc - NREG_ARGS)) else funcstack.

(** [startcontext] is the address of [__startcontext]. *)
Definition makecontext (startcontext : Z) (ucp : ucontext_t) (func argc : Z) (ap : list Z)
    (m : memory) : option (ucontext_t * memory) :=
  let funcstack := context_stack ucp argc in
  let mc := uc_mcontext ucp in
  let r := <[4%nat := uc_link ucp]> (arm_r mc) in
  '(reg, r, ap) ← reg_args argc 0 r ap;
  m' ← stack_args argc reg funcstack m ap;
  Some (mk_uc (uc_link ucp) (uc_ss_sp ucp) (uc_ss_size ucp)
    (mk_mcontext (trap_no mc) (error_code mc) (oldmask mc) r (arm_fp mc) (arm_ip mc)
       funcstack startcontext func (arm_cpsr mc) (fault_address mc)), m').

(** ** Specification *)

(** The number of arguments on the stack. *)
Definition on_stack (argc : Z) : Z := Z.max 0 (argc - NREG_ARGS).

(** The context's stack is memory, its end aligned to words, and has room for
    the arguments. *)
Record stack_ready (ucp : ucontext_t) (argc : Z) (m : memory) : Prop := {
  sr_base : 0 <= uc_ss_sp ucp;
  sr_top : uc_ss_sp ucp + uc_ss_size ucp < 2 ^ 32;
  sr_aligned : (uc_ss_sp ucp + uc_ss_size ucp) `mod` 4 = 0;
  sr_room : 4 * on_stack argc + 4 <= uc_ss_size ucp;
  sr_mapped : forall a, uc_ss_sp ucp <= a < uc_ss_sp ucp + uc_ss_size ucp -> a `mod` 4 = 0 ->
    is_Some (m !! a);
}.

(** ** Lemmas *)

Lemma land4_mod x : 0 <= x -> x `mod` 4 = 0 -> (Z.land x 4 =? 0) = (x `mod` 8 =? 0).
Proof.
  intros Hx Hm. apply Z.mod_divide in Hm as [k ->]; [|lia].
  assert (E : Z.land (k * 4) 4 = 4 * (k `mod` 2)).
  { replace (k * 4) with (Z.shiftl k 2) by (rewrite Z.shiftl_mul_pow2; lia).
    change 4 with (Z.shiftl 1 2) at 1. rewrite <- Z.shiftl_land, Z.shiftl_mul_pow2 by lia.
    change 1 with (Z.ones 1) at 1. rewrite Z.land_ones by lia. change (2 ^ 1) with 2. lia. }
  rewrite E. pose proof (Z.mod_pos_bound k 2). bool_cases; try done; exfalso;
    Z.div_mod_to_equations; lia.
Qed.

Lemma land1_odd x : 0 <= x -> (Z.land x 1 =? 0) = (x `mod` 2 =? 0).
Proof. intros Hx. change 1 with (Z.ones 1). by rewrite Z.land_ones by lia. Qed.

(** The stack pointer is aligned to 8 bytes and at most one word of the
    stack is lost for it. *)
Lemma context_stack_ok ucp argc m :
  stack_ready ucp argc m -> 0 <= argc < 2 ^ 31 ->
  let sp := context_stack ucp argc in
  sp `mod` 8 = 0 /\ uc_ss_sp ucp <= sp /\
  sp + 4 * on_stack argc <= uc_ss_sp ucp + uc_ss_size ucp <= sp + 4 * on_stack argc + 4.
Proof.
  intros [Hb Ht Ha Hr _] Hc sp. unfold sp, context_stack, on_stack, NREG_ARGS in *.
  set (top := uc_ss_sp ucp + uc_ss_size ucp) in *.
  assert (Hsz : 0 <= uc_ss_size ucp) by lia.
  rewrite (u32_small top) by lia. rewrite land4_mod, land1_odd by lia.
  destruct (Z.ltb_spec 4 argc); simpl;
    repeat match goal with |- context [Z.eqb ?a ?b] => destruct (Z.eqb_spec a b); simpl end;
    rewrite ?(u32_small (top - 4)) by lia; rewrite ?u32_small by lia;
    (split; [Z.div_mod_to_equations; lia|lia]).
Qed.

Lemma reg_args_ok argc : 0 <= argc < 2 ^ 31 -> forall ap reg r,
  0 <= reg <= NREG_ARGS -> reg <= argc -> Z.of_nat (length ap) = argc - reg -> (4 < length r)%nat ->
  exists r', reg_args argc reg r ap =
      Some (Z.min argc NREG_ARGS, r', drop (Z.to_nat (Z.min argc NREG_ARGS - reg)) ap) /\
    length r' = length r /\
    (forall i, (Z.to_nat reg <= i)%nat -> (Z.of_nat i < Z.min argc NREG_ARGS) ->
       r' !! i = ap !! (i - Z.to_nat reg)%nat) /\
    (forall i, (i < Z.to_nat reg)%nat \/ Z.min argc NREG_ARGS <= Z.of_nat i -> r' !! i = r !! i).
Proof.
  intros Hc. unfold NREG_ARGS. induction ap as [|a ap IH]; intros reg r Hreg Hle Hlen Hr; cbn [reg_args];
    rewrite u32_small by lia; unfold NREG_ARGS; simpl in Hlen.
  - rewrite (proj2 (Z.ltb_ge reg argc)) by lia. simpl. exists r.
    replace (Z.min argc 4) with reg by lia. rewrite drop_nil. split; [done|]. split; [done|].
    split; [intros i; lia|done].
  - rewrite (proj2 (Z.ltb_lt reg argc)) by lia. destruct (Z.ltb_spec reg 4); simpl.
    + destruct (IH (reg + 1) (<[Z.to_nat reg := a]> r)) as (r' & -> & Hl & Hin & Hout);
        [lia|lia|lia|by rewrite length_insert|].
      exists r'. split.
      { do 2 f_equal. replace (Z.to_nat (Z.min argc 4 - reg)) with (S (Z.to_nat (Z.min argc 4 - (reg + 1)))) by lia.
        done. }
      split; [by rewrite Hl, length_insert|]. split.
      * intros i H1 H2. destruct (decide (i = Z.to_nat reg)) as [->|Hne].
        -- rewrite Hout by lia. rewrite Nat.sub_diag. apply list_lookup_insert_eq. lia.
        -- rewrite Hin by lia. replace (i - Z.to_nat reg)%nat with (S (i - Z.to_nat (reg + 1))) by lia. done.
      * intros i Hi. rewrite Hout by lia. apply list_lookup_insert_ne. lia.
    + assert (reg = 4) as -> by lia. exists r. replace (Z.min argc 4) with 4 by lia.
      split; [done|]. split; [done|]. split; [intros i; lia|done].
Qed.

Lemma reg_args_length argc ap : forall reg r reg' r' ap',
  reg_args argc reg r ap = Some (reg', r', ap') -> length r' = length r.
Proof.
  induction ap as [|a ap IH]; intros reg r reg' r' ap'; cbn [reg_args]; (destruct (_ && _); [|by intros [= _ <- _]]);
    [done|]. intros Ht. apply IH in Ht. by rewrite Ht, length_insert.
Qed.

(** What [makecontext] leaves of the structure. *)
Lemma makecontext_same startcontext ucp func argc ap m ucp' m' :
  makecontext startcontext ucp func argc ap m = Some (ucp', m') ->
  length (arm_r (uc_mcontext ucp')) = length (arm_r (uc_mcontext ucp)) /\
  uc_ss_sp ucp' = uc_ss_sp ucp /\ uc_ss_size ucp' = uc_ss_size ucp /\ uc_link ucp' = uc_link ucp.
Proof.
  unfold makecontext. destruct (reg_args _ _ _ _) as [[[reg r'] ap']|] eqn:E; [simpl|done].
  destruct (stack_args _ _ _ _ _); [simpl|done]. intros [= <- _]. simpl.
  apply reg_args_length in E. by rewrite E, length_insert.
Qed.

Lemma stack_args_ok argc : 0 <= argc < 2 ^ 31 -> forall ap reg sp m,
  0 <= reg <= argc -> Z.of_nat (length ap) = argc - reg ->
  0 <= sp -> sp `mod` 4 = 0 -> sp + 4 * (argc - reg) < 2 ^ 32 ->
  (forall a, sp <= a < sp + 4 * (argc - reg) -> a `mod` 4 = 0 -> is_Some (m !! a)) ->
  exists m', stack_args argc reg sp m ap = Some m' /\
    (forall i, (i < length ap)%nat -> m' !! (sp + 4 * Z.of_nat i) = ap !! i) /\
    (forall a, a < sp \/ sp + 4 * (argc - reg) <= a -> m' !! a = m !! a).
Proof.
  intros Hc. induction ap as [|v ap IH]; intros reg sp m Hreg Hlen Hsp Hal Htop Hmap; cbn [stack_args];
    rewrite (u32_small argc) by lia; simpl in Hlen.
  - rewrite (proj2 (Z.ltb_ge reg argc)) by lia. exists m. split; [done|]. split; [simpl; lia|done].
  - rewrite (proj2 (Z.ltb_lt reg argc)) by lia. unfold store.
    destruct (Hmap sp) as [w Hw]; [lia|done|]. rewrite Hw, (proj2 (Z.eqb_eq _ _)) by done. simpl.
    rewrite (u32_small (reg + 1)), (u32_small (sp + 4)) by lia.
    destruct (IH (reg + 1) (sp + 4) (<[sp := v]> m)) as (m' & -> & Hin & Hout);
      [lia|lia|lia|Z.div_mod_to_equations; lia|lia| |].
    { intros a Ha Hm. rewrite lookup_insert_ne by lia. apply Hmap; [lia|done]. }
    exists m'. split; [done|]. split.
    + intros [|i] Hi; simpl.
      * rewrite Z.add_0_r, Hout by lia. apply lookup_insert_eq.
      * simpl in Hi. rewrite <- Hin by lia. f_equal. lia.
    + intros a Ha. rewrite Hout by lia. apply lookup_insert_ne. lia.
Qed.

(** [makecontext] with as many arguments as it is told, on a stack that has
    room for them: the context starts at [func], returns to [__startcontext]
    with the next context in r4, has a stack pointer aligned to 8 bytes inside of
    its stack, its first four arguments in r0 to r3 and the others at the stack
    pointer in order.  All other registers and all memory outside of those
    arguments are as before. *)
Theorem makecontext_spec startcontext ucp func argc ap m :
  stack_ready ucp argc m -> 0 <= argc < 2 ^ 31 -> Z.of_nat (length ap) = argc ->
  length (arm_r (uc_mcontext ucp)) = 11%nat ->
  exists ucp' m', makecontext startcontext ucp func argc ap m = Some (ucp', m') /\
    let mc := uc_mcontext ucp in
    let mc' := uc_mcontext ucp' in
    let sp := arm_sp mc' in
    arm_pc mc' = func /\ arm_lr mc' = startcontext /\ arm_r mc' !! 4%nat = Some (uc_link ucp) /\
    sp `mod` 8 = 0 /\ uc_ss_sp ucp <= sp /\
    sp + 4 * on_stack argc <= uc_ss_sp ucp + uc_ss_size ucp <= sp + 4 * on_stack argc + 4 /\
    (forall i, (i < length ap)%nat ->
       if (i <? 4)%nat then arm_r mc' !! i = ap !! i
       else m' !! (sp + 4 * (Z.of_nat i - NREG_ARGS)) = ap !! i) /\
    (forall i, (i <> 4)%nat -> (length ap <= i \/ 4 <= i)%nat -> arm_r mc' !! i = arm_r mc !! i) /\
    (forall a, a < sp \/ sp + 4 * on_stack argc <= a -> m' !! a = m !! a).
Proof.
  intros Hs Hc Hap Hr. destruct (context_stack_ok ucp argc m Hs Hc) as (Hal & Hlo & Hhi).
  unfold makecontext. set (sp := context_stack ucp argc) in *.
  set (r0 := <[4%nat := uc_link ucp]> (arm_r (uc_mcontext ucp))).
  assert (Hr0 : length r0 = 11%nat) by (unfold r0; by rewrite length_insert).
  destruct (reg_args_ok argc Hc ap 0 r0) as (r' & Hreg & Hlen & Hin & Hout);
    [unfold NREG_ARGS; lia|lia|lia|lia|].
  rewrite Z.sub_0_r in Hreg. unfold on_stack, NREG_ARGS in *.
  destruct (stack_args_ok argc Hc (drop (Z.to_nat (Z.min argc 4)) ap) (Z.min argc 4) sp m)
    as (m' & Hst & Hsin & Hsout).
  { lia. } { rewrite length_drop. lia. } { destruct Hs. lia. } { Z.div_mod_to_equations; lia. }
  { destruct Hs. lia. } { intros a Ha Hm. apply (sr_mapped _ _ _ Hs); [lia|done]. }
  do 2 eexists. split; [rewrite Hreg; simpl; by rewrite Hst|]. simpl.
  split; [done|]. split; [done|]. split.
  { rewrite Hout by lia. apply list_lookup_insert_eq. lia. }
  split; [done|]. split; [done|]. split; [done|]. split; [|split].
  - intros i Hi. destruct (Nat.ltb_spec i 4).
    + rewrite Hin by lia. f_equal. lia.
    + specialize (Hsin (i - 4)%nat). rewrite length_drop, lookup_drop in Hsin.
      replace (Z.of_nat (i - 4)) with (Z.of_nat i - 4) in Hsin by lia.
      rewrite Hsin by lia. f_equal. lia.
  - intros i H4 Hi. rewrite Hout by lia. apply list_lookup_insert_ne. lia.
  - intros a Ha. apply Hsout. lia.
Qed.

(** ** Witnesses *)

(** 64 bytes of stack at 4096. *)
Definition demo_memory : memory :=
  list_to_map ((fun i : nat => (4096 + 4 * Z.of_nat i, 0)) <$> seq 0 16).
Definition demo_context : ucontext_t :=
  mk_uc 77 4096 64 (mk_mcontext 0 0 0 (replicate 11 0) 0 0 0 0 0 0 0).

Lemma demo_stack_ready : stack_ready demo_context 5 demo_memory.
Proof.
  constructor; try (simpl; unfold on_stack, NREG_ARGS; lia); [done|].
  simpl. intros a Ha Hm. apply Z.mod_divide in Hm as [k ->]; [|lia].
  assert (exists i : nat, (i < 16)%nat /\ k * 4 = 4096 + 4 * Z.of_nat i) as (i & Hi & ->).
  { exists (Z.to_nat (k - 1024)). lia. }
  do 16 (destruct i as [|i]; [by vm_compute; eexists|]). lia.
Qed.

Lemma makecontext_spec_witness :
  exists ucp' m', makecontext 9 demo_context 500 5 [1; 2; 3; 4; 5] demo_memory = Some (ucp', m') /\
    arm_sp (uc_mcontext ucp') `mod` 8 = 0 /\
    m' !! (arm_sp (uc_mcontext ucp') + 4 * (4 - NREG_ARGS)) = Some 5.
Proof.
  destruct (makecontext_spec 9 demo_context 500 5 [1; 2; 3; 4; 5] demo_memory demo_stack_ready
    ltac:(lia) eq_refl eq_refl) as (ucp' & m' & Hrun & _ & _ & _ & Hal & _ & _ & Hargs & _).
  exists ucp', m'. split; [exact Hrun|]. split; [exact Hal|]. exact (Hargs 4%nat ltac:(simpl; lia)).
Defined.
