(* ===== verification/Switch.v ===== *)
(** * Switching contexts ([Arm/getcontext.S], [setcontext.S], [swapcontext.S])

    The assembly under [arch_context_switch] and under the start of a thread, on
    a machine with the ARM instructions it uses.  A context that [swapcontext]
    saved is resumed by a later switch as it was; a context that [makecontext]
    prepared starts its function.  This is what lets [Kernel.v] take a context
    switch for a resumption of the thread's continuation. *)

From S2P Require Import Prelude Context.

(** ** The machine *)

(** The symbols, and the labels of the code: [_ret] follows a [bl]. *)
Inductive label :=
| getcontext | Lno_iwmmxt | setcontext | Lno_iwmmxt_sc | __startcontext | swapcontext | swapcontext_ret | exit.

#[export] Instance label_eq_dec : EqDecision label.
Proof. solve_decision. Defined.

Abbreviation SP := 13%nat (only parsing).
Abbreviation LR := 14%nat (only parsing).
Abbreviation PC := 15%nat (only parsing).

(** The instructions used, with their operands in the order of the assembler. *)
Inductive instr :=
| ADD (rd rn : nat) (imm : Z)        (* add rd, rn, #imm *)
| MOVI (rd : nat) (imm : Z)          (* mov rd, #imm *)
| MOV (rd rm : nat)                  (* mov rd, rm *)
| MOVS (rd rm : nat)                 (* movs rd, rm *)
| MOVNE (rd rm : nat)                (* movne rd, rm *)
| CMP (rn : nat) (imm : Z)           (* cmp rn, #imm *)
| STR (rt rn : nat) (off : Z)        (* str rt, [rn, #off] *)
| LDR (rt rn : nat) (off : Z)        (* ldr rt, [rn, #off] *)
| STR_POST (rt rn : nat) (off : Z)   (* str rt, [rn], #off *)
| LDR_POST (rt rn : nat) (off : Z)   (* ldr rt, [rn], #off *)
| STMIA (rn : nat) (rs : list nat)   (* stmia rn, {rs} *)
| LDMIA (rn : nat) (rs : list nat)   (* ldmia rn, {rs} *)
| PUSH (rs : list nat)               (* push {rs} *)
| POP (rs : list nat)                (* pop {rs} *)
| VSTMIA (rn : nat)                  (* vstmia rn!, {d8-d15} *)
| VLDMIA (rn : nat)                  (* vldmia rn!, {d8-d15} *)
| VMRS (rt : nat)                    (* vmrs rt, fpscr *)
| VMSR (rt : nat)                    (* vmsr fpscr, rt *)
| B (l : label)                      (* b l *)
| BNE (l : label)                    (* bne l *)
| BL (l ret : label)                 (* bl l; ret: *)
| BX (rm : nat)                      (* bx rm *)
| BXNE (rm : nat).                   (* bxne rm *)

(** Registers r0 to r15; d8 to d15 as their sixteen words; the Z flag.

    [PC] holds the address the last branch went to with its interworking bit:
    bit 0 is the Thumb bit of the status register, the other bits are the
    address of the instruction.  [bx], [bxne] and a load of [pc] with [ldmia]
    (which interworks from ARMv5T on) take both from the word they are given,
    so that they set [PC] to that word; [b], [bne] and [bl] stay in the
    instruction set of the file, which the value of a label carries. *)
Record cpu := mk_cpu { reg : nat -> Z; vfp : list Z; fpscr : Z; zflag : bool; mem : gmap Z Z }.

Definition put (r : nat) (v : Z) (f : nat -> Z) (j : nat) : Z := if (j =? r)%nat then v else f j.

Definition set_reg (r : nat) (v : Z) (s : cpu) : cpu :=
  let '(mk_cpu f fp scr z m) := s in mk_cpu (put r v f) fp scr z m.
Definition set_vfp (fp : list Z) (s : cpu) : cpu := let '(mk_cpu f _ scr z m) := s in mk_cpu f fp scr z m.
Definition set_fpscr (v : Z) (s : cpu) : cpu := let '(mk_cpu f fp _ z m) := s in mk_cpu f fp v z m.
Definition set_zflag (z : bool) (s : cpu) : cpu := let '(mk_cpu f fp scr _ m) := s in mk_cpu f fp scr z m.
Definition set_mem (m : gmap Z Z) (s : cpu) : cpu := let '(mk_cpu f fp scr z _) := s in mk_cpu f fp scr z m.

(** A load of an aligned, mapped word ([store]: Context.v). *)
Definition load (a : Z) (m : gmap Z Z) : option Z := if a `mod` 4 =? 0 then m !! a else None.

Fixpoint load_words (a : Z) (n : nat) (m : gmap Z Z) : option (list Z) :=
  match n with
  | O => Some []
  | S n => w ← load a m; ws ← load_words (u32 (a + 4)) n m; Some (w :: ws)
  end.

Fixpoint store_words (a : Z) (ws : list Z) (m : gmap Z Z) : option (gmap Z Z) :=
  match ws with
  | [] => Some m
  | w :: ws => m' ← store a w m; store_words (u32 (a + 4)) ws m'
  end.

Fixpoint set_regs (rs : list nat) (ws : list Z) (s : cpu) : cpu :=
  match rs, ws with
  | r :: rs, w :: ws => set_regs rs ws (set_reg r w s)
  | _, _ => s
  end.

Section machine.
(** Where the linker puts the code: the value of a symbol, with bit 0 set when
    its code is assembled for Thumb.  [bl] leaves such a value in [lr]. *)
Variable addr : label -> Z.

(** What an instruction does; true: it has written the program counter. *)
Definition exec (i : instr) (s : cpu) : option (bool * cpu) :=
  match i with
  | ADD rd rn imm => Some (false, set_reg rd (u32 (reg s rn + imm)) s)
  | MOVI rd imm => Some (false, set_reg rd imm s)
  | MOV rd rm => Some (false, set_reg rd (reg s rm) s)
  | MOVS rd rm => Some (false, set_zflag (reg s rm =? 0) (set_reg rd (reg s rm) s))
  | MOVNE rd rm => Some (false, if zflag s then s else set_reg rd (reg s rm) s)
  | CMP rn imm => Some (false, set_zflag (reg s rn =? imm) s)
  | STR rt rn off => m ← store (u32 (reg s rn + off)) (reg s rt) (mem s); Some (false, set_mem m s)
  | LDR rt rn off => w ← load (u32 (reg s rn + off)) (mem s); Some (false, set_reg rt w s)
  | STR_POST rt rn off =>
      m ← store (reg s rn) (reg s rt) (mem s); Some (false, set_reg rn (u32 (reg s rn + off)) (set_mem m s))
  | LDR_POST rt rn off =>
      w ← load (reg s rn) (mem s); Some (false, set_reg rt w (set_reg rn (u32 (reg s rn + off)) s))
  | STMIA rn rs => m ← store_words (reg s rn) (reg s <$> rs) (mem s); Some (false, set_mem m s)
  | LDMIA rn rs =>
      ws ← load_words (reg s rn) (length rs) (mem s); Some (existsb (Nat.eqb PC) rs, set_regs rs ws s)
  | PUSH rs =>
      let sp := u32 (reg s SP - 4 * Z.of_nat (length rs)) in
      m ← store_words sp (reg s <$> rs) (mem s); Some (false, set_reg SP sp (set_mem m s))
  | POP rs =>
      ws ← load_words (reg s SP) (length rs) (mem s);
      Some (existsb (Nat.eqb PC) rs, set_regs rs ws (set_reg SP (u32 (reg s SP + 4 * Z.of_nat (length rs))) s))
  | VSTMIA rn =>
      m ← store_words (reg s rn) (vfp s) (mem s); Some (false, set_reg rn (u32 (reg s rn + 64)) (set_mem m s))
  | VLDMIA rn =>
      ws ← load_words (reg s rn) 16 (mem s); Some (false, set_reg rn (u32 (reg s rn + 64)) (set_vfp ws s))
  | VMRS rt => Some (false, set_reg rt (fpscr s) s)
  | VMSR rt => Some (false, set_fpscr (reg s rt) s)
  | B l => Some (true, set_reg PC (addr l) s)
  | BNE l => Some (if zflag s then (false, s) else (true, set_reg PC (addr l) s))
  | BL l ret => Some (true, set_reg PC (addr l) (set_reg LR (addr ret) s))
  | BX rm => Some (true, set_reg PC (reg s rm) s)
  | BXNE rm => Some (if zflag s then (false, s) else (true, set_reg PC (reg s rm) s))
  end.

(** Straight-line code, up to the first branch taken. *)
Fixpoint run_block (l : list instr) (s : cpu) : option cpu :=
  match l with
  | [] => None
  | i :: l => '(jumped, s') ← exec i s; if (jumped : bool) then Some s' else run_block l s'
  end.
End machine.

(** ** The code *)

(** [ucontext_offsets.h] *)
Definition MCONTEXT_ARM_R0 : Z := 32.
Definition MCONTEXT_ARM_R4 : Z := 48.
Definition MCONTEXT_ARM_SP : Z := 84.
Definition MCONTEXT_ARM_LR : Z := 88.
Definition MCONTEXT_ARM_PC : Z := 92.
Definition UCONTEXT_REGSPACE : Z := 232.

(** [getcontext.S], up to the jump over the iWMMXt registers, which are not
    saved in this configuration ([SETCONTEXT_STORE_IWMMXT] is not defined). *)
Definition getcontext_code : list instr :=
  [ADD 1 0 MCONTEXT_ARM_R4;
   STMIA 1 (seq 4 8);
   STR 13 0 MCONTEXT_ARM_SP;
   STR 14 0 MCONTEXT_ARM_LR;
   STR 14 0 MCONTEXT_ARM_PC;
   MOVI 2 0;
   STR 2 0 MCONTEXT_ARM_R0;
   MOV 4 0;
   ADD 0 4 UCONTEXT_REGSPACE;
   VSTMIA 0;
   VMRS 1;
   STR_POST 1 0 4;
   B Lno_iwmmxt].

Definition getcontext_end : list instr :=
  [LDR 14 4 MCONTEXT_ARM_LR;
   LDR 4 4 MCONTEXT_ARM_R4;
   MOVI 0 0;
   BX 14].

(** [setcontext.S] *)
Definition setcontext_code : list instr :=
  [MOV 4 0;
   ADD 0 0 UCONTEXT_REGSPACE;
   VLDMIA 0;
   LDR_POST 1 0 4;
   VMSR 1;
   B Lno_iwmmxt_sc].

(** The last [ldmia] branches: the word for [pc] is an interworking address, as
    for [bx] at the end of [getcontext]. *)
Definition setcontext_end : list instr :=
  [ADD 14 4 MCONTEXT_ARM_R0;
   LDMIA 14 (seq 0 13);
   LDR 13 14 (MCONTEXT_ARM_SP - MCONTEXT_ARM_R0);
   ADD 14 14 (MCONTEXT_ARM_LR - MCONTEXT_ARM_R0);
   LDMIA 14 [14; 15]%nat].

Definition startcontext_code : list instr := [MOVS 0 4; BNE setcontext; B exit].

(** [swapcontext.S] *)
Definition swapcontext_code : list instr := [PUSH [0; 1; 3; 14]%nat; BL getcontext swapcontext_ret].

Definition swapcontext_end : list instr :=
  [MOV 4 0;
   POP [0; 1; 3; 14]%nat;
   CMP 4 0;
   MOVNE 0 4;
   BXNE 14;
   STR 13 0 MCONTEXT_ARM_SP;
   STR 14 0 MCONTEXT_ARM_LR;
   STR 14 0 MCONTEXT_ARM_PC;
   MOV 0 1;
   B setcontext].

Definition code (l : label) : list instr :=
  match l with
  | getcontext => getcontext_code
  | Lno_iwmmxt => getcontext_end
  | setcontext => setcontext_code
  | Lno_iwmmxt_sc => setcontext_end
  | __startcontext => startcontext_code
  | swapcontext => swapcontext_code
  | swapcontext_ret => swapcontext_end
  | exit => []
  end.

Definition labels : list label :=
  [getcontext; Lno_iwmmxt; setcontext; Lno_iwmmxt_sc; __startcontext; swapcontext; swapcontext_ret; exit].

Section steps.
Variable addr : label -> Z.

Definition label_at (pc : Z) : option label := find (fun l => addr l =? pc) labels.

(** The code at the program counter runs up to its next branch; code that is
    not of these files is the caller's. *)
Definition step (s : cpu) : option cpu := l ← label_at (reg s PC); run_block addr (code l) s.

Fixpoint steps (n : nat) (s : cpu) : option cpu :=
  match n with O => Some s | S n => s' ← step s; steps n s' end.
End steps.

(** ** Memory *)

(** [n] aligned words that are memory, from [a] on. *)
Record region (a : Z) (n : nat) (m : gmap Z Z) : Prop := {
  rg_aligned : a `mod` 4 = 0;
  rg_low : 0 <= a;
  rg_high : a + 4 * Z.of_nat n < 2 ^ 32;
  rg_mapped : forall i, 0 <= i < Z.of_nat n -> is_Some (m !! (a + 4 * i))
}.

Fixpoint write_words (a : Z) (ws : list Z) (m : gmap Z Z) : gmap Z Z :=
  match ws with [] => m | w :: ws => write_words (a + 4) ws (<[a := w]> m) end.

Lemma write_words_out ws a m b :
  b < a \/ a + 4 * Z.of_nat (length ws) <= b -> write_words a ws m !! b = m !! b.
Proof.
  revert a m. induction ws as [|w ws IH]; intros a m Hb; [done|]. simpl in Hb |- *.
  rewrite IH by lia. by rewrite lookup_insert_ne by lia.
Qed.

Lemma write_words_in ws a m (i : nat) : (i < length ws)%nat -> write_words a ws m !! (a + 4 * Z.of_nat i) = ws !! i.
Proof.
  revert a m i. induction ws as [|w ws IH]; intros a m i Hi; [simpl in Hi; lia|]. destruct i as [|i]; simpl in Hi |- *.
  - rewrite write_words_out by lia. replace (a + 4 * Z.of_nat 0) with a by lia. apply lookup_insert_eq.
  - rewrite <- (IH (a + 4) (<[a := w]> m)) by lia. f_equal. lia.
Qed.

Lemma write_words_some ws a m b : is_Some (m !! b) -> is_Some (write_words a ws m !! b).
Proof.
  revert a m. induction ws as [|w ws IH]; intros a m Hb; [done|]. apply IH.
  destruct (decide (b = a)) as [->|Hne]; [rewrite lookup_insert_eq; by eexists|by rewrite lookup_insert_ne].
Qed.

Lemma region_write a n m b ws : region a n m -> region a n (write_words b ws m).
Proof. intros [H1 H2 H3 H4]. constructor; [done..|]. intros i Hi. by apply write_words_some, H4. Qed.

Lemma region_insert a n m b w : region a n m -> region a n (<[b := w]> m).
Proof. apply (region_write a n m b [w]). Qed.

Lemma region_at a n m b : region a n m -> a <= b < a + 4 * Z.of_nat n -> b `mod` 4 = 0 -> is_Some (m !! b).
Proof.
  intros [H1 H2 H3 H4] Hb Hm. replace b with (a + 4 * ((b - a) / 4)) by (Z.div_mod_to_equations; lia).
  apply H4. Z.div_mod_to_equations; lia.
Qed.

Lemma region_sub a n m b k : region a n m -> a <= b -> b `mod` 4 = 0 -> b + 4 * Z.of_nat k <= a + 4 * Z.of_nat n ->
  region b k m.
Proof.
  intros [H1 H2 H3 H4] Hab Hb Hk. constructor; [done|lia|lia|]. intros i Hi.
  replace (b + 4 * i) with (a + 4 * ((b - a) / 4 + i)) by (Z.div_mod_to_equations; lia).
  apply H4. Z.div_mod_to_equations; lia.
Qed.

Lemma store_words_ok ws a m : region a (length ws) m -> store_words a ws m = Some (write_words a ws m).
Proof.
  revert a m. induction ws as [|w ws IH]; intros a m Hr; [done|]. pose proof Hr as [H1 H2 H3 H4]. cbn [store_words length] in *.
  unfold store. destruct (H4 0) as [x Hx]; [lia|]. replace (a + 4 * 0) with a in Hx by lia.
  rewrite Hx, (proj2 (Z.eqb_eq _ _)) by done. cbn. rewrite u32_small by lia. apply IH.
  apply (region_write _ _ _ a [w]). eapply region_sub; [exact Hr|lia|Z.div_mod_to_equations; lia|simpl; lia].
Qed.

(** The words in memory from [a] on. *)
Definition words_at (a : Z) (ws : list Z) (m : gmap Z Z) : Prop :=
  forall i w, ws !! i = Some w -> m !! (a + 4 * Z.of_nat i) = Some w.

Lemma load_words_ok n ws a m :
  length ws = n -> words_at a ws m -> a `mod` 4 = 0 -> 0 <= a -> a + 4 * Z.of_nat n < 2 ^ 32 ->
  load_words a n m = Some ws.
Proof.
  intros <-. revert a. induction ws as [|w ws IH]; intros a Hw Ha Hlo Hhi; [done|]. cbn [load_words length] in *.
  pose proof (Hw 0%nat w eq_refl) as H0. replace (a + 4 * Z.of_nat 0) with a in H0 by lia.
  unfold load. rewrite (proj2 (Z.eqb_eq _ _)), H0 by done. cbn. rewrite u32_small, IH; [done|..]; try lia.
  - intros i x Hi. rewrite <- (Hw (S i) x Hi). f_equal. lia.
  - Z.div_mod_to_equations; lia.
Qed.

Lemma words_at_write ws a m : words_at a ws (write_words a ws m).
Proof. intros i w Hi. rewrite write_words_in; [done|]. by eapply lookup_lt_Some. Qed.

Lemma store_ok a v m : is_Some (m !! a) -> a `mod` 4 = 0 -> store a v m = Some (<[a := v]> m).
Proof. unfold store. intros [x ->] Ha. by rewrite (proj2 (Z.eqb_eq _ _)). Qed.

Lemma load_ok a w m : m !! a = Some w -> a `mod` 4 = 0 -> load a m = Some w.
Proof. unfold load. intros Hw Ha. by rewrite (proj2 (Z.eqb_eq _ _)). Qed.

(** ** Contexts in memory *)

(** [sizeof(ucontext_t)], in words. *)
Definition UC_WORDS : nat := 186.

(** The context at [u] resumes at [pc], with these registers. *)
Record context_at (u : Z) (m : gmap Z Z) (r : nat -> Z) (pc : Z) (fp : list Z) (scr : Z) : Prop := {
  ca_r : forall i, (i <= 12)%nat -> m !! (u + MCONTEXT_ARM_R0 + 4 * Z.of_nat i) = Some (r i);
  ca_sp : m !! (u + MCONTEXT_ARM_SP) = Some (r SP);
  ca_lr : m !! (u + MCONTEXT_ARM_LR) = Some (r LR);
  ca_pc : m !! (u + MCONTEXT_ARM_PC) = Some pc;
  ca_vfp : words_at (u + UCONTEXT_REGSPACE) fp m;
  ca_vfp_len : length fp = 16%nat;
  ca_fpscr : m !! (u + UCONTEXT_REGSPACE + 64) = Some scr
}.

(** What [getcontext] stores at [u]. *)
Definition saved_mem (u : Z) (s : cpu) : gmap Z Z :=
  <[u + UCONTEXT_REGSPACE + 64 := fpscr s]>
  (write_words (u + UCONTEXT_REGSPACE) (vfp s)
   (<[u + MCONTEXT_ARM_R0 := 0]>
   (<[u + MCONTEXT_ARM_PC := reg s LR]>
   (<[u + MCONTEXT_ARM_LR := reg s LR]>
   (<[u + MCONTEXT_ARM_SP := reg s SP]>
   (write_words (u + MCONTEXT_ARM_R4) (reg s <$> seq 4 8) (mem s))))))).

Lemma region_saved a n u s : region a n (mem s) -> region a n (saved_mem u s).
Proof. intros Hr. unfold saved_mem. repeat first [apply region_insert|apply region_write]. exact Hr. Qed.

Section proofs.
Context (addr : label -> Z) (addr_inj : forall l l', addr l = addr l' -> l = l').

Lemma step_at l s : reg s PC = addr l -> step addr s = run_block addr (code l) s.
Proof.
  intros E. unfold step, label_at. rewrite E.
  assert (Hf : find (fun l' => addr l' =? addr l) labels = Some l); [|by rewrite Hf].
  destruct (find _ _) as [l'|] eqn:Hf.
  - apply find_some in Hf as [_ Hf%Z.eqb_eq]. by rewrite (addr_inj _ _ Hf).
  - eapply find_none in Hf; [by apply Z.eqb_neq in Hf|]. destruct l; simpl; tauto.
Qed.

(** [l] runs from [s] to its next branch, in a state of [Q]. *)
Definition wp (l : list instr) (s : cpu) (Q : cpu -> Prop) : Prop := exists s', run_block addr l s = Some s' /\ Q s'.

Lemma wp_next i l s s' Q : exec addr i s = Some (false, s') -> wp l s' Q -> wp (i :: l) s Q.
Proof. intros E (s2 & Hr & HQ). exists s2. split; [|done]. cbn [run_block]. by rewrite E. Qed.

Lemma wp_jump i l s s' Q : exec addr i s = Some (true, s') -> Q s' -> wp (i :: l) s Q.
Proof. intros E HQ. exists s'. split; [|done]. cbn [run_block]. by rewrite E. Qed.

(** [n] branches later, in a state of [Q]. *)
Definition reaches (n : nat) (s : cpu) (Q : cpu -> Prop) : Prop := exists s', steps addr n s = Some s' /\ Q s'.

Lemma reaches_done s Q : Q s -> reaches 0 s Q.
Proof. by exists s. Qed.

Lemma reaches_step l n s Q : reg s PC = addr l -> wp (code l) s (fun s' => reaches n s' Q) -> reaches (S n) s Q.
Proof.
  intros E (s' & Hr & s2 & Hn & HQ). exists s2. split; [|done]. cbn [steps]. by rewrite (step_at l), Hr.
Qed.

(** ** Running the code *)

#[local] Ltac norm :=
  cbn [put Nat.eqb reg vfp fpscr zflag mem set_reg set_vfp set_fpscr set_zflag set_mem fmap list_fmap seq length existsb orb].
#[local] Ltac arith := first [lia | Z.div_mod_to_equations; lia].
#[local] Ltac regions H :=
  match goal with
  | |- region _ _ (<[_ := _]> _) => apply region_insert; regions H
  | |- region _ _ (write_words _ _ _) => apply region_write; regions H
  | |- region _ _ (saved_mem _ _) => apply region_saved; regions H
  | |- _ => exact H
  end.
#[local] Ltac in_region :=
  match goal with
  | H : region _ _ _ |- region _ _ _ => solve [eapply region_sub; [regions H|arith|arith|cbn [length]; arith]]
  | H : region _ _ _ |- is_Some _ => solve [eapply region_at; [regions H|lia|arith]]
  end.
(** The word at an address after some stores. *)
#[local] Ltac lookup_word :=
  repeat first [ rewrite lookup_insert_ne by lia
               | match goal with |- context [<[?b := _]> _ !! ?x] => replace x with b by lia end; rewrite lookup_insert_eq
               | rewrite write_words_out by (cbn [length]; lia) | progress cbn [write_words] ].
#[local] Ltac small := repeat match goal with |- context [u32 ?x] => rewrite (u32_small x) by lia end.
(** Address arithmetic, loads and stores. *)
#[local] Ltac access :=
  cbn [exec]; norm; small;
  repeat first
    [ match goal with H : load_words ?a ?n ?m = Some _ |- context [load_words ?b ?n ?m] =>
        replace b with a by lia; rewrite H end
    | match goal with H : ?m !! ?a = Some _ |- context [load ?b ?m] =>
        replace b with a by lia; rewrite (load_ok _ _ _ H) by arith end
    | rewrite store_words_ok by in_region
    | rewrite store_ok by (first [in_region | arith])
    | erewrite load_ok by (first [arith | lookup_word; first [reflexivity|eassumption]]) ];
  cbn [mbind option_bind set_regs]; reflexivity.
#[local] Ltac arm1 := first [eapply wp_jump; [access|] | eapply wp_next; [access|]]; norm.
#[local] Ltac block l := eapply (reaches_step l); [done|]; cbn [code]; norm.

#[local] Ltac offsets :=
  unfold MCONTEXT_ARM_R4, MCONTEXT_ARM_SP, MCONTEXT_ARM_LR, MCONTEXT_ARM_PC, MCONTEXT_ARM_R0, UCONTEXT_REGSPACE in *.

Lemma getcontext_ok u s n Q :
  reg s PC = addr getcontext -> reg s 0%nat = u -> region u UC_WORDS (mem s) -> length (vfp s) = 16%nat ->
  (forall s', reg s' PC = reg s LR -> reg s' 0%nat = 0 -> (forall i, (4 <= i <= 14)%nat -> reg s' i = reg s i) ->
    vfp s' = vfp s -> fpscr s' = fpscr s -> mem s' = saved_mem u s -> reaches n s' Q) ->
  reaches (2 + n) s Q.
Proof.
  intros Hpc <- Hr Hfp HQ. destruct s as [r fp scr z m]. cbn [reg vfp fpscr mem] in *.
  pose proof (rg_low _ _ _ Hr). pose proof (rg_high _ _ _ Hr). pose proof (rg_aligned _ _ _ Hr).
  unfold UC_WORDS in *. block getcontext. unfold getcontext_code. offsets.
  do 13 arm1. block Lno_iwmmxt. unfold getcontext_end. offsets. do 4 arm1.
  apply HQ; norm; try done. intros i Hi. do 15 (destruct i as [|i]; [try lia; reflexivity|]). lia.
Qed.

Lemma context_loads u m r pc fp scr : region u UC_WORDS m -> context_at u m r pc fp scr ->
  load_words (u + 232) 16 m = Some fp /\
  load_words (u + 32) 13 m = Some (r <$> seq 0 13) /\ load_words (u + 88) 2 m = Some [r LR; pc].
Proof.
  intros [Ha Hlo Hhi _] [Cr Csp Clr Cpc Cfp Clen Cscr]. unfold UC_WORDS in *. offsets. split_and!.
  - apply load_words_ok; [done|done|arith|lia|lia].
  - apply load_words_ok; [done| |arith|lia|lia].
    intros i w Hi. rewrite list_lookup_fmap in Hi. destruct (seq 0 13 !! i) as [j|] eqn:Hj; [|done].
    apply lookup_seq in Hj as [-> Hlt]. injection Hi as <-. apply Cr. simpl. lia.
  - apply load_words_ok; [done| |arith|lia|lia].
    intros [|[|i]] w Hi; [| |done]; injection Hi as <-.
    + rewrite <- Clr. f_equal. lia.
    + rewrite <- Cpc. f_equal. lia.
Qed.

(** [setcontext]: the machine is as the context says. *)
Lemma setcontext_ok u r pc fp scr s n Q :
  reg s PC = addr setcontext -> reg s 0%nat = u -> region u UC_WORDS (mem s) -> context_at u (mem s) r pc fp scr ->
  (forall s', reg s' PC = pc -> (forall i, (i <= 14)%nat -> reg s' i = r i) ->
    vfp s' = fp -> fpscr s' = scr -> mem s' = mem s -> reaches n s' Q) ->
  reaches (2 + n) s Q.
Proof.
  intros Hpc <- Hr Hc HQ. destruct s as [f fp0 scr0 z m]. cbn [reg vfp fpscr mem] in *.
  destruct (context_loads _ _ _ _ _ _ Hr Hc) as (L1 & L2 & L3). cbn [fmap list_fmap seq] in L2. destruct Hc as [Cr Csp Clr Cpc Cfp Clen Cscr].
  destruct Hr as [Ha Hlo Hhi _]. unfold UC_WORDS in *. block setcontext. unfold setcontext_code. offsets.
  do 6 arm1. block Lno_iwmmxt_sc. unfold setcontext_end. offsets. do 5 arm1.
  apply HQ; norm; try done.
  intros i Hi. do 15 (destruct i as [|i]; [reflexivity|]). lia.
Qed.

(** *** [swapcontext] *)

(** The context fields [u] on are as before. *)
Lemma context_at_frame u m m' r pc fp scr :
  (forall x, u <= x < u + 4 * Z.of_nat UC_WORDS -> m' !! x = m !! x) ->
  context_at u m r pc fp scr -> context_at u m' r pc fp scr.
Proof.
  intros Hf [Cr Csp Clr Cpc Cfp Clen Cscr]. unfold UC_WORDS in *. offsets.
  constructor; offsets; try (rewrite Hf by lia); try done.
  - intros i Hi. rewrite Hf by lia. by apply Cr.
  - intros i w Hi. pose proof (lookup_lt_Some _ _ _ Hi). rewrite Hf by lia. by apply Cfp.
Qed.

Lemma saved_mem_out u s x : length (vfp s) = 16%nat -> x < u \/ u + 4 * Z.of_nat UC_WORDS <= x ->
  saved_mem u s !! x = mem s !! x.
Proof.
  intros Hfp Hx. unfold saved_mem, UC_WORDS in *. offsets.
  rewrite lookup_insert_ne, write_words_out by lia. rewrite !lookup_insert_ne by lia.
  rewrite write_words_out; [done|]. cbn [length fmap list_fmap seq]. lia.
Qed.

(** [apart a n b k]: [n] words from [a] and [k] words from [b] are disjoint. *)
Definition apart (a : Z) (n : nat) (b : Z) (k : nat) : Prop :=
  a + 4 * Z.of_nat n <= b \/ b + 4 * Z.of_nat k <= a.

(** [swapcontext(a, b)] is called: there is room for its four words on the
    stack, away from the contexts. *)
Record swap_call (a b : Z) (s : cpu) : Prop := {
  sc_pc : reg s PC = addr swapcontext;
  sc_a : reg s 0%nat = a;
  sc_b : reg s 1%nat = b;
  sc_from : region a UC_WORDS (mem s);
  sc_to : region b UC_WORDS (mem s);
  sc_stack : region (reg s SP - 16) 4 (mem s);
  sc_apart : apart a UC_WORDS b UC_WORDS;
  sc_apart_a : apart a UC_WORDS (reg s SP - 16) 4;
  sc_apart_b : apart b UC_WORDS (reg s SP - 16) 4;
  sc_vfp : length (vfp s) = 16%nat
}.

(** The registers a function preserves for its caller, and the stack pointer. *)
Definition callee_saved (i : nat) : Prop := (4 <= i <= 11 \/ i = SP)%nat.

(** The memory a switch changes: the context saved, and the words below the
    stack pointer. *)
Definition switch_frame (a : Z) (s s' : cpu) : Prop :=
  forall x, x < a \/ a + 4 * Z.of_nat UC_WORDS <= x -> x < reg s SP - 16 \/ reg s SP <= x -> mem s' !! x = mem s !! x.

(** The context at [a] resumes where [s] called. *)
Definition saved_at (a : Z) (s s' : cpu) : Prop :=
  exists r, context_at a (mem s') r (reg s LR) (vfp s) (fpscr s) /\ r 0%nat = 0 /\ forall i, callee_saved i -> r i = reg s i.

Lemma mapped_default (x : option Z) : is_Some x -> x = Some (default 0 x).
Proof. by intros [w ->]. Qed.

(** After [getcontext] and the correction of its stack pointer and return
    address, in [s2]. *)
Lemma swap_saved a s s1 s2 :
  region a UC_WORDS (mem s1) -> length (vfp s) = 16%nat -> vfp s1 = vfp s -> fpscr s1 = fpscr s ->
  (forall i, (4 <= i <= 11)%nat -> reg s1 i = reg s i) ->
  mem s2 = <[a + 92 := reg s LR]> (<[a + 88 := reg s LR]> (<[a + 84 := reg s SP]> (saved_mem a s1))) ->
  saved_at a s s2.
Proof.
  intros Hr Hfp Ev Ef Hi Hm. pose proof (rg_aligned _ _ _ Hr). unfold UC_WORDS in *.
  exists (fun i => if (i =? 0)%nat then 0 else if ((4 <=? i) && (i <=? 11) || (i =? 13) || (i =? 14))%nat then reg s i
                  else default 0 (mem s1 !! (a + 32 + 4 * Z.of_nat i))).
  split; [|split; [done|]].
  - constructor; try (rewrite Hm; unfold saved_mem); offsets; rewrite ?Ev, ?Ef.
    + intros i Hle. do 13 (destruct i as [|i]; [cbn [Nat.eqb Nat.leb andb orb fmap list_fmap seq]; lookup_word;
        first [reflexivity | by rewrite Hi by lia | apply mapped_default; in_region]|]). lia.
    + by lookup_word.
    + by lookup_word.
    + by lookup_word.
    + intros i w Hw. pose proof (lookup_lt_Some _ _ _ Hw). lookup_word. by rewrite write_words_in by lia.
    + done.
    + by lookup_word.
  - intros i [[? ?]| ->]; [|done]. do 12 (destruct i as [|i]; [first [lia|reflexivity]|]). lia.
Qed.

(** The call of [getcontext] from [swapcontext]; [s1] is where it starts. *)
Lemma swapcontext_saves a b s n Q :
  swap_call a b s ->
  (forall s1 s2, vfp s1 = vfp s -> fpscr s1 = fpscr s -> (forall i, (4 <= i <= 11)%nat -> reg s1 i = reg s i) ->
    (forall x, x < reg s SP - 16 \/ reg s SP <= x -> mem s1 !! x = mem s !! x) -> region a UC_WORDS (mem s1) ->
    region b UC_WORDS (mem s1) ->
    reg s2 PC = addr swapcontext_ret -> reg s2 0%nat = 0 -> reg s2 SP = reg s SP - 16 -> mem s2 = saved_mem a s1 ->
    load_words (reg s SP - 16) 4 (mem s2) = Some [a; b; reg s 3%nat; reg s LR] -> reaches n s2 Q) ->
  reaches (3 + n) s Q.
Proof.
  intros [Hpc <- <- Hra Hrb Hrs Hab Hsa Hsb Hfp] HQ. destruct s as [f fp0 scr0 z m].
  cbn [reg vfp fpscr mem] in *. pose proof Hrs as [? ? ? _]. pose proof Hra as [? ? ? _].
  unfold apart in *. block swapcontext. unfold swapcontext_code. do 2 arm1.
  eapply (getcontext_ok (f 0%nat)); norm; [done|done|by apply region_write|done|].
  intros s2 Epc E0 Ei Ev Ef Em. eapply HQ; [..|exact Em|]; cbn [vfp fpscr mem]; try done.
  - intros i Hi. do 12 (destruct i as [|i]; [first [lia|reflexivity]|]). lia.
  - intros x Hx. apply write_words_out. cbn [length]. lia.
  - by apply region_write.
  - by apply region_write.
  - rewrite Ei by lia. norm. lia.
  - rewrite Em. apply load_words_ok; [done| |arith|lia|lia]. intros i w Hi. pose proof (lookup_lt_Some _ _ _ Hi) as Hlt.
    cbn [length] in Hlt. rewrite saved_mem_out; cbn [vfp mem]; [|done|lia].
    replace (f 13%nat - 16) with (f 13%nat - 4 * Z.of_nat 4) by lia. by rewrite write_words_in by (cbn [length]; lia).
Qed.

Lemma swapcontext_ok a b s r pc fp scr n Q :
  swap_call a b s -> context_at b (mem s) r pc fp scr ->
  (forall s', reg s' PC = pc -> (forall i, (i <= 14)%nat -> reg s' i = r i) -> vfp s' = fp -> fpscr s' = scr ->
    saved_at a s s' -> switch_frame a s s' -> reaches n s' Q) ->
  reaches (6 + n) s Q.
Proof.
  intros Hs Hc HQ. apply (swapcontext_saves a b s); [done|].
  intros s1 s2 Ev Ef Er Em Hra Hrb Epc E0 Esp Em2 L. destruct Hs as [_ _ _ [? ? ? _] _ [? ? ? _] Hab Hsa Hsb Hfp].
  unfold apart, UC_WORDS in *. destruct s2 as [f2 fp2 scr2 z2 m2]. cbn [reg vfp fpscr mem] in *. subst m2.
  block swapcontext_ret. unfold swapcontext_end. offsets.
  rewrite <- Esp in L. do 3 arm1. rewrite E0. cbn [Z.eqb]. do 7 arm1.
  set (m3 := <[a + 92 := reg s 14%nat]> _).
  assert (Hm3 : forall x, x < a \/ a + 4 * Z.of_nat UC_WORDS <= x -> m3 !! x = mem s1 !! x).
  { intros x Hx. unfold m3, UC_WORDS in *. rewrite !lookup_insert_ne by lia.
    apply saved_mem_out; [congruence|]. unfold UC_WORDS. lia. }
  eapply (setcontext_ok b r pc fp scr); norm; [done|done| | |].
  - unfold m3. do 3 apply region_insert. by apply region_saved.
  - apply (context_at_frame b (mem s)); [|done]. unfold UC_WORDS in *. intros x Hx. rewrite Hm3, Em by lia. done.
  - intros s' Hpc Hreg Hvfp Hscr Hm. apply HQ; try done.
    + eapply (swap_saved a s s1); try done. rewrite Hm. unfold m3. do 3 f_equal. lia.
    + intros x Hx1 Hx2. rewrite Hm, Hm3, Em by lia. done.
Qed.

(** *** [__startcontext] *)

(** The function of a context has returned: the next context is resumed, the
    program exits when there is none. *)
Lemma startcontext_exits s n Q :
  reg s PC = addr __startcontext -> reg s 4%nat = 0 ->
  (forall s', reg s' PC = addr exit -> mem s' = mem s -> reaches n s' Q) -> reaches (1 + n) s Q.
Proof.
  intros Hpc H4 HQ. destruct s as [f fp scr z m]. cbn [reg mem] in *. block __startcontext. unfold startcontext_code.
  arm1. rewrite H4. cbn [Z.eqb]. do 2 arm1. by apply HQ.
Qed.

Lemma startcontext_links s n Q :
  reg s PC = addr __startcontext -> reg s 4%nat <> 0 ->
  (forall s', reg s' PC = addr setcontext -> reg s' 0%nat = reg s 4%nat -> mem s' = mem s -> reaches n s' Q) ->
  reaches (1 + n) s Q.
Proof.
  intros Hpc H4 HQ. destruct s as [f fp scr z m]. cbn [reg mem] in *. block __startcontext. unfold startcontext_code.
  arm1. rewrite (proj2 (Z.eqb_neq _ _)) by done. arm1. by apply HQ.
Qed.

(** ** The context as the C code sees it *)

(** The words of [struct sigcontext], in the order of its members. *)
Definition mcontext_words (mc : mcontext_t) : list Z :=
  [trap_no mc; error_code mc; oldmask mc] ++ arm_r mc ++
  [arm_fp mc; arm_ip mc; arm_sp mc; arm_lr mc; arm_pc mc; arm_cpsr mc; fault_address mc].

(** [uc_flags], [uc_link] and the three words of [uc_stack] come before. *)
Definition UC_MCONTEXT : Z := 20.

Definition mcontext_reg (mc : mcontext_t) (i : nat) : Z :=
  default 0 ((arm_r mc ++ [arm_fp mc; arm_ip mc; arm_sp mc; arm_lr mc]) !! i).

Lemma mcontext_reg_r mc i w : arm_r mc !! i = Some w -> mcontext_reg mc i = w.
Proof. intros Hi. unfold mcontext_reg. by rewrite lookup_app, Hi. Qed.

Lemma mcontext_reg_sp mc : length (arm_r mc) = 11%nat -> mcontext_reg mc SP = arm_sp mc.
Proof. intros Hl. unfold mcontext_reg. rewrite lookup_app_r by lia. by rewrite Hl. Qed.

Lemma mcontext_reg_lr mc : length (arm_r mc) = 11%nat -> mcontext_reg mc LR = arm_lr mc.
Proof. intros Hl. unfold mcontext_reg. rewrite lookup_app_r by lia. by rewrite Hl. Qed.

(** The offsets of the assembly are those of the structure. *)
Lemma context_at_mcontext u mc fp scr m :
  length (arm_r mc) = 11%nat -> words_at (u + UC_MCONTEXT) (mcontext_words mc) m ->
  words_at (u + UCONTEXT_REGSPACE) fp m -> length fp = 16%nat -> m !! (u + UCONTEXT_REGSPACE + 64) = Some scr ->
  context_at u m (mcontext_reg mc) (arm_pc mc) fp scr.
Proof.
  intros Hr Hw Hfp Hlen Hscr. unfold words_at, UC_MCONTEXT in Hw.
  assert (Hat : forall a i w, mcontext_words mc !! i = Some w -> a = u + 20 + 4 * Z.of_nat i -> m !! a = Some w).
  { intros a i w Hi ->. by apply Hw. }
  unfold mcontext_words, mcontext_reg in *. destruct mc as [t e o l f ip sp lr pc cp fa]. cbn [arm_r] in *.
  do 11 (destruct l as [|? l]; [done|]). destruct l; [|done].
  constructor; try done; offsets.
  - intros i Hi. apply (Hat _ (3 + i)%nat); [|lia]. do 13 (destruct i as [|i]; [reflexivity|]). lia.
  - eapply (Hat _ 16%nat); [reflexivity|lia].
  - eapply (Hat _ 17%nat); [reflexivity|lia].
  - eapply (Hat _ 18%nat); [reflexivity|lia].
Qed.

(** [ucp] is the context in memory at [u], and its stack is not used by the
    switch from [a] in [s]; [m]: the memory of the stack. *)
Record prepared (u : Z) (ucp : ucontext_t) (m : gmap Z Z) (a : Z) (s : cpu) : Prop := {
  pr_mcontext : words_at (u + UC_MCONTEXT) (mcontext_words (uc_mcontext ucp)) (mem s);
  pr_fp : exists fp scr, length fp = 16%nat /\ words_at (u + UCONTEXT_REGSPACE) fp (mem s) /\
            mem s !! (u + UCONTEXT_REGSPACE + 64) = Some scr;
  pr_stack : forall x, uc_ss_sp ucp <= x < uc_ss_sp ucp + uc_ss_size ucp ->
    mem s !! x = m !! x /\ (x < a \/ a + 4 * Z.of_nat UC_WORDS <= x) /\ (x < reg s SP - 16 \/ reg s SP <= x)
}.

(** The context after this one, if any, has the machine. *)
Definition next_context (link : Z) (s : cpu) : Prop :=
  if link =? 0 then exists s', steps addr 1 s = Some s' /\ reg s' PC = addr exit
  else forall r pc fp scr, region link UC_WORDS (mem s) -> context_at link (mem s) r pc fp scr ->
    exists s', steps addr 3 s = Some s' /\ reg s' PC = pc /\ (forall i, (i <= 14)%nat -> reg s' i = r i) /\
      vfp s' = fp /\ fpscr s' = scr.

Lemma startcontext_next s : reg s PC = addr __startcontext -> next_context (reg s 4%nat) s.
Proof.
  intros Hpc. unfold next_context. destruct (Z.eqb_spec (reg s 4%nat) 0) as [H4|H4].
  - apply (startcontext_exits s 0); [done..|]. intros s' Hs' _. by apply reaches_done.
  - intros r pc fp scr Hr Hc. apply (startcontext_links s 2); [done..|]. intros s1 H1 H0 Hm.
    eapply (setcontext_ok _ r pc fp scr s1 0); [done|done|by rewrite Hm|by rewrite Hm|].
    intros s2 ? ? ? ? _. by apply reaches_done.
Qed.

(** C24: a prepared context starts its function.  After [makecontext(ucp, func,
    argc, ap)] the first switch to the context is at [func], with its arguments
    in r0 to r3 and on its own stack, whose pointer is aligned to 8 bytes; all
    [argc] of them, where the comment of [ucontext.h] says [argc - 1]; when
    [func] returns, with r4 preserved, the machine goes to the context
    [uc_link], and exits the program if there is none. *)
Theorem context_starts ucp func argc ap m :
  stack_ready ucp argc m -> 0 <= argc < 2 ^ 31 -> Z.of_nat (length ap) = argc ->
  length (arm_r (uc_mcontext ucp)) = 11%nat ->
  exists ucp' m', makecontext (addr __startcontext) ucp func argc ap m = Some (ucp', m') /\
    forall a u s, swap_call a u s -> prepared u ucp' m' a s ->
      exists s1, steps addr 6 s = Some s1 /\ switch_frame a s s1 /\ saved_at a s s1 /\
        reg s1 PC = func /\ reg s1 SP `mod` 8 = 0 /\
        uc_ss_sp ucp <= reg s1 SP <= uc_ss_sp ucp + uc_ss_size ucp - 4 * on_stack argc /\
        (forall i, (i < length ap)%nat ->
           if (i <? 4)%nat then ap !! i = Some (reg s1 i)
           else mem s1 !! (reg s1 SP + 4 * (Z.of_nat i - NREG_ARGS)) = ap !! i) /\
        forall s2, reg s2 PC = reg s1 LR -> reg s2 4%nat = reg s1 4%nat -> next_context (uc_link ucp) s2.
Proof.
  intros Hst Hc Hap Hr.
  destruct (makecontext_spec (addr __startcontext) ucp func argc ap m Hst Hc Hap Hr) as
    (ucp' & m' & Hrun & Hpc & Hlr & H4 & Hal & Hlo & Hhi & Hargs & Hregs & Hmem).
  exists ucp', m'. split; [done|]. intros a u s Hs [Hmc (fp & scr & Hlen & Hfp & Hscr) Hstk].
  destruct (makecontext_same _ _ _ _ _ _ _ _ Hrun) as (Elen & Esp & Esz & _). rewrite Hr in Elen.
  eapply (swapcontext_ok a u s _ _ fp scr 0); [done|by eapply context_at_mcontext|].
  intros s1 E1 E2 _ _ Hsv Hfr. apply reaches_done.
  assert (Es1 : reg s1 SP = arm_sp (uc_mcontext ucp')) by (rewrite E2 by lia; by apply mcontext_reg_sp).
  assert (El1 : reg s1 LR = addr __startcontext) by (rewrite E2, mcontext_reg_lr by (done || lia); done).
  assert (Er1 : forall i w, (i <= 14)%nat -> arm_r (uc_mcontext ucp') !! i = Some w -> reg s1 i = w).
  { intros i w Hi Hw. rewrite E2 by done. by apply mcontext_reg_r. }
  rewrite Es1. unfold on_stack, NREG_ARGS in *. do 2 (split; [done|]). split; [congruence|]. split; [done|].
  split; [lia|]. split.
  - intros i Hi. specialize (Hargs i Hi). destruct (Nat.ltb_spec i 4).
    + destruct (lookup_lt_is_Some_2 ap i Hi) as [w Hw]. rewrite Hw in Hargs. rewrite Hw.
      by rewrite (Er1 i w) by (done || lia).
    + rewrite <- Hargs. rewrite Esp, Esz in Hstk. pose proof (Hstk (arm_sp (uc_mcontext ucp') + 4 * (Z.of_nat i - 4))) as Hx.
      destruct Hx as (<- & Hx1 & Hx2); [lia|]. by apply Hfr.
  - intros s2 Hs2 H42. rewrite El1 in Hs2. rewrite (Er1 4%nat (uc_link ucp)) in H42 by (done || lia).
    rewrite <- H42. by apply startcontext_next.
Qed.

(** C31: a switch comes back.  [swapcontext(a, b)] puts the machine in the state
    of the context [b], and whenever a later [swapcontext(c, a)] finds the
    context [a] as it was left, the machine is again where the first one was
    called: at its return address, in the instruction set that bit 0 of the
    address names, with result 0, the callee-saved registers, the stack pointer
    and the floating-point registers as they were.  Between, each switch changes
    only the context it saves and the four words below its stack pointer. *)
Theorem swapcontext_comes_back a b s r pc fp scr :
  swap_call a b s -> context_at b (mem s) r pc fp scr ->
  exists s1, steps addr 6 s = Some s1 /\
    reg s1 PC = pc /\ (forall i, (i <= 14)%nat -> reg s1 i = r i) /\ vfp s1 = fp /\ fpscr s1 = scr /\
    switch_frame a s s1 /\
    forall c s2, swap_call c a s2 ->
      (forall x, a <= x < a + 4 * Z.of_nat UC_WORDS -> mem s2 !! x = mem s1 !! x) ->
      exists s3, steps addr 6 s2 = Some s3 /\
        reg s3 PC = reg s LR /\ reg s3 0%nat = 0 /\ (forall i, callee_saved i -> reg s3 i = reg s i) /\
        vfp s3 = vfp s /\ fpscr s3 = fpscr s /\ switch_frame c s2 s3.
Proof.
  intros Hs Hc. eapply (swapcontext_ok a b s r pc fp scr 0); [done|done|].
  intros s1 H1 H2 H3 H4 (r' & Hsaved & H0 & Hcs) Hfr. apply reaches_done. do 5 (split; [done|]).
  intros c s2 Hs2 Hm. eapply (swapcontext_ok c a s2 r' _ _ _ 0); [done|eapply context_at_frame; [exact Hm|done]|].
  intros s3 E1 E2 E3 E4 _ Hfr'. apply reaches_done. split; [done|]. split; [by rewrite E2 by lia|].
  split; [|done]. intros i Hi. rewrite E2; [by apply Hcs|]. destruct Hi as [?| ->]; lia.
Qed.
End proofs.

(** ** Witnesses *)

Definition demo_addr (l : label) : Z :=
  match l with
  | getcontext => 16 | Lno_iwmmxt => 32 | setcontext => 48 | Lno_iwmmxt_sc => 64 | __startcontext => 80
  | swapcontext => 96 | swapcontext_ret => 112 | exit => 128
  end.

Lemma demo_addr_inj l l' : demo_addr l = demo_addr l' -> l = l'.
Proof. by destruct l, l'. Qed.

(** Memory from 4096 to 8191: contexts at 4096, 5120 and 6144, a stack from
    7168 to 7231, and the stack of the caller below 8128. *)
Definition demo_words : gmap Z Z := list_to_map ((fun i : nat => (4 * Z.of_nat i, 0)) <$> seq 1024 1024).
#[local] Opaque demo_words.

Lemma demo_words_at x : 4096 <= x < 8192 -> x `mod` 4 = 0 -> demo_words !! x = Some 0.
Proof.
  intros Hx Hm. assert (Hall : forallb (fun i : nat => bool_decide (demo_words !! (4 * Z.of_nat i) = Some 0)) (seq 1024 1024) = true)
    by by vm_compute.
  rewrite forallb_forall in Hall. specialize (Hall (Z.to_nat (x / 4))). rewrite in_seq in Hall.
  replace x with (4 * Z.of_nat (Z.to_nat (x / 4))) by (Z.div_mod_to_equations; lia).
  apply bool_decide_eq_true in Hall; [done|]. Z.div_mod_to_equations; lia.
Qed.

(** [swapcontext(a, b)], called from 99. *)
Definition demo_cpu (a b : Z) (m : gmap Z Z) : cpu :=
  mk_cpu (put 0 a (put 1 b (put 13 8128 (put 14 99 (put 15 (demo_addr swapcontext) Z.of_nat))))) (replicate 16 7) 3 false m.

Lemma demo_region a n : a `mod` 4 = 0 -> 4096 <= a -> a + 4 * Z.of_nat n <= 8192 -> region a n demo_words.
Proof.
  intros Ha Hlo Hhi. constructor; [done|lia|lia|]. intros i Hi. rewrite demo_words_at; [by eexists|lia|].
  Z.div_mod_to_equations; lia.
Qed.

Lemma demo_swap_call a b m : m = demo_words -> a = 4096 -> b = 5120 -> swap_call demo_addr a b (demo_cpu a b m).
Proof.
  intros -> -> ->. constructor; try reflexivity; try (left; by vm_compute).
  - apply demo_region; unfold UC_WORDS; [reflexivity|lia|lia].
  - apply demo_region; unfold UC_WORDS; [reflexivity|lia|lia].
  - apply (demo_region 8112 4); [reflexivity|lia|lia].
Qed.

Lemma demo_context_at : context_at 5120 demo_words (fun _ => 0) 0 (replicate 16 0) 0.
Proof.
  constructor; try (apply demo_words_at; [|reflexivity]; done); [| |reflexivity].
  - intros i Hi. unfold MCONTEXT_ARM_R0. apply demo_words_at; [lia|Z.div_mod_to_equations; lia].
  - intros i w [-> Hi]%lookup_replicate. unfold UCONTEXT_REGSPACE.
    apply demo_words_at; [lia|Z.div_mod_to_equations; lia].
Qed.

(** There and back again: r5, the stack pointer and the return address. *)
Definition demo_back : option (Z * Z * Z) :=
  s1 ← steps demo_addr 6 (demo_cpu 4096 5120 demo_words);
  s3 ← steps demo_addr 6 (set_vfp (replicate 16 0) (demo_cpu 6144 4096 (mem s1)));
  Some (reg s3 5%nat, reg s3 SP, reg s3 PC).

Lemma swapcontext_comes_back_witness :
  bool_decide (demo_back = Some (5, 8128, 99)) = true /\
  exists s1, steps demo_addr 6 (demo_cpu 4096 5120 demo_words) = Some s1 /\ reg s1 PC = 0.
Proof.
  split; [by vm_compute|].
  destruct (swapcontext_comes_back demo_addr demo_addr_inj 4096 5120 (demo_cpu 4096 5120 demo_words)
    (fun _ => 0) 0 (replicate 16 0) 0 (demo_swap_call _ _ _ eq_refl eq_refl eq_refl) demo_context_at)
    as (s1 & Hrun & Hpc & _).
  exists s1. split; [exact Hrun|exact Hpc].
Defined.

(** A context with its stack from 7168 to 7231, prepared to call 500 with three
    arguments. *)
Definition demo_uc : ucontext_t := mk_uc 0 7168 64 (mk_mcontext 0 0 0 (replicate 11 0) 0 0 0 0 0 0 0).

(** [prepared], with the structure written to memory at 5120. *)
Definition demo_started : option (list Z) :=
  '(ucp', m) ← makecontext (demo_addr __startcontext) demo_uc 500 3 [1; 2; 3] demo_words;
  s1 ← steps demo_addr 6 (demo_cpu 4096 5120 (write_words (5120 + UC_MCONTEXT) (mcontext_words (uc_mcontext ucp')) m));
  Some (reg s1 PC :: reg s1 SP :: (reg s1 <$> seq 0 3)).

Lemma demo_uc_ready : stack_ready demo_uc 3 demo_words.
Proof.
  constructor; try (simpl; unfold on_stack, NREG_ARGS; lia); [done|].
  simpl. intros a Ha Hm. rewrite demo_words_at by (done || lia). by eexists.
Qed.

Lemma context_starts_witness :
  bool_decide (demo_started = Some [500; 7232; 1; 2; 3]) = true /\
  exists ucp' m', makecontext (demo_addr __startcontext) demo_uc 500 3 [1; 2; 3] demo_words = Some (ucp', m').
Proof.
  split; [by vm_compute|].
  destruct (context_starts demo_addr demo_addr_inj demo_uc 500 3 [1; 2; 3] demo_words demo_uc_ready ltac:(lia) eq_refl eq_refl)
    as (ucp' & m' & Hrun & _).
  exists ucp', m'. exact Hrun.
Defined.
