(* ===== verification/Time.v ===== *)
(** * EFI times and Linux times ([Misc.c])

    Conversion between the seconds since 1970 that Linux keeps and the calendar
    time of EFI, in the 32-bit unsigned arithmetic of the code, and the validity
    check of calendar times. *)

From S2P Require Import Prelude Efi.

(** [EFI_TIME] of the UEFI specification, with its two bytes of padding. *)
Record EFI_TIME := mk_time {
  Year : Z; Month : Z; Day : Z; Hour : Z; Minute : Z; Second : Z; Pad1 : Z;
  Nanosecond : Z; TimeZone : Z; Daylight : Z; Pad2 : Z }.

(** Every field in the range of its C type (but the padding, whose values have
    no influence on the functions of this file). *)
Definition time_wf (t : EFI_TIME) : Prop :=
  0 <= Year t < 2 ^ 16 /\ 0 <= Month t < 2 ^ 8 /\ 0 <= Day t < 2 ^ 8 /\ 0 <= Hour t < 2 ^ 8 /\
  0 <= Minute t < 2 ^ 8 /\ 0 <= Second t < 2 ^ 8 /\ 0 <= Nanosecond t < 2 ^ 32 /\
  - 2 ^ 15 <= TimeZone t < 2 ^ 15 /\ 0 <= Daylight t < 2 ^ 8.

Definition EFI_UNSPECIFIED_TIMEZONE : Z := 2047.
Definition EFI_TIME_ADJUST_DAYLIGHT : Z := 1.
Definition EFI_TIME_IN_DAYLIGHT : Z := 2.

Definition EPOCH_JULIAN_DATE : Z := 2440588.
Definition SEC_PER_MIN : Z := 60.
Definition SEC_PER_HOUR : Z := 3600.
Definition SEC_PER_DAY : Z := 86400.

(** The fields not written keep the value they have in [Time]. *)
Definition EpochToEfiTime (EpochSeconds : Z) (Time : EFI_TIME) : EFI_TIME :=
  let J := u32 (EpochSeconds / 86400 + 2440588) in
  let j := u32 (J + 32044) in
  let g := j / 146097 in
  let dg := j `mod` 146097 in
  let c := u32 (u32 (dg / 36524 + 1) * 3) / 4 in
  let dc := u32 (dg - u32 (c * 36524)) in
  let b := dc / 1461 in
  let db := dc `mod` 1461 in
  let a := u32 (u32 (db / 365 + 1) * 3) / 4 in
  let da := u32 (db - u32 (a * 365)) in
  let y := u32 (u32 (u32 (u32 (g * 400) + u32 (c * 100)) + u32 (b * 4)) + a) in
  let m := u32 (u32 (u32 (da * 5) + 308) / 153 - 2) in
  let d := u32 (u32 (da - u32 (u32 (m + 4) * 153) / 5) + 122) in
  let ss := EpochSeconds `mod` 60 in
  let a' := u32 (EpochSeconds - ss) / 60 in
  let mm := a' `mod` 60 in
  let b' := u32 (a' - mm) / 60 in
  let hh := b' `mod` 24 in
  mk_time (u16 (u32 (u32 (y - 4800) + u32 (m + 2) / 12))) (u8 (u32 (u32 (m + 2) `mod` 12 + 1)))
    (u8 (u32 (d + 1))) (u8 hh) (u8 mm) (u8 ss) (Pad1 Time) 0 (TimeZone Time) (Daylight Time) (Pad2 Time).

(** [None]: the assertion that the date is not before 1970 failed. *)
Definition EfiTimeToEpoch `{EdkConfig} (Time : EFI_TIME) : option Z :=
  let a := u32 ((14 - Month Time) ÷ 12) in
  let y := u32 (u32 (Year Time + 4800) - a) in
  let m := u32 (u32 (Month Time + u32 (12 * a)) - 3) in
  let JulianDate :=
    u32 (u32 (u32 (u32 (u32 (u32 (Day Time + u32 (u32 (153 * m) + 2) / 5) + u32 (365 * y)) + y / 4)
      - y / 100) + y / 400) - 32045) in
  if negb MDEPKG_NDEBUG && (JulianDate <? EPOCH_JULIAN_DATE) then None
  else
    let EpochDays := u32 (JulianDate - EPOCH_JULIAN_DATE) in
    Some (u32 (u32 (u32 (u32 (EpochDays * SEC_PER_DAY) + u32 (Hour Time * SEC_PER_HOUR))
      + u32 (Minute Time * SEC_PER_MIN)) + Second Time)).

Definition IsLeapYear (Time : EFI_TIME) : bool :=
  if Year Time `mod` 4 =? 0 then
    if Year Time `mod` 100 =? 0 then
      if Year Time `mod` 400 =? 0 then true else false
    else true
  else false.

Definition DayOfMonth : list Z := [31; 29; 31; 30; 31; 30; 31; 31; 30; 31; 30; 31].

(** [None]: the access to the table is out of bounds. *)
Definition DayValid (Time : EFI_TIME) : option bool :=
  if Day Time <? 1 then Some false
  else if Month Time - 1 <? 0 then None
  else
    dom ← DayOfMonth !! Z.to_nat (Month Time - 1);
    Some (negb ((dom <? Day Time) ||
      (Month Time =? 2) && (negb (IsLeapYear Time) && (28 <? Day Time)))).

Definition EfiTimeIsValid (Time : EFI_TIME) : option bool :=
  if (Year Time <? 1900) || (9999 <? Year Time) || (Month Time <? 1) || (12 <? Month Time)
  then Some false
  else
    dv ← DayValid Time;
    Some (negb (negb dv || (23 <? Hour Time) || (59 <? Minute Time) || (59 <? Second Time)
      || (999999999 <? Nanosecond Time)
      || negb ((TimeZone Time =? EFI_UNSPECIFIED_TIMEZONE) ||
               (-1440 <=? TimeZone Time) && (TimeZone Time <=? 1440))
      || negb (Z.land (Daylight Time)
                 (Z.lnot (Z.lor EFI_TIME_ADJUST_DAYLIGHT EFI_TIME_IN_DAYLIGHT)) =? 0))).

(** ** The calendar *)

(** Reference: the Gregorian calendar, day by day. *)
Definition leap (y : Z) : bool :=
  (y `mod` 4 =? 0) && (negb (y `mod` 100 =? 0) || (y `mod` 400 =? 0)).
Definition month_days (y m : Z) : Z :=
  if m =? 2 then (if leap y then 29 else 28)
  else if (m =? 4) || (m =? 6) || (m =? 9) || (m =? 11) then 30 else 31.

Definition date : Type := Z * Z * Z.
Definition next_day (x : date) : date :=
  let '(y, m, d) := x in
  if d <? month_days y m then (y, m, d + 1)
  else if m <? 12 then (y, m + 1, 1) else (y + 1, 1, 1).

Definition date_of (t : EFI_TIME) : date := (Year t, Month t, Day t).

(** The date [n] days after 1 January 1970. *)
Fixpoint calendar (n : nat) : date :=
  match n with O => (1970, 1, 1) | S n' => next_day (calendar n') end.

Definition valid_date (y m d : Z) : bool :=
  (1 <=? m) && (m <=? 12) && (1 <=? d) && (d <=? month_days y m).

(** ** The arithmetic without wrap-around *)

(** The date computed for day [n] after 1 January 1970. *)
Definition date_pure (n : Z) : date :=
  let j := n + 2440588 + 32044 in
  let g := j / 146097 in
  let dg := j `mod` 146097 in
  let c := (dg / 36524 + 1) * 3 / 4 in
  let dc := dg - c * 36524 in
  let b := dc / 1461 in
  let db := dc `mod` 1461 in
  let a := (db / 365 + 1) * 3 / 4 in
  let da := db - a * 365 in
  let y := g * 400 + c * 100 + b * 4 + a in
  let m := (da * 5 + 308) / 153 - 2 in
  let d := da - (m + 4) * 153 / 5 + 122 in
  (y - 4800 + (m + 2) / 12, (m + 2) `mod` 12 + 1, d + 1).

(** The Julian day of a date. *)
Definition julian_pure (y m d : Z) : Z :=
  let a := (14 - m) / 12 in
  let y' := y + 4800 - a in
  let m' := m + 12 * a - 3 in
  d + (153 * m' + 2) / 5 + 365 * y' + y' / 4 - y' / 100 + y' / 400 - 32045.

Lemma u32_add_wrap z k : 0 <= z + k < 2 ^ 32 -> u32 (u32 z + k) = z + k.
Proof. intros Hz. unfold u32. rewrite Zplus_mod_idemp_l. by apply Z.mod_small. Qed.

Ltac u32s := rewrite !u32_small by lia.

(** A cycle of three periods of [len] days and a longer one: the number of the
    period of day [x], and the day in it. *)
Lemma period_pure x len : 0 < len < 40000 -> 0 <= x <= 4 * len ->
  let c := (x / len + 1) * 3 / 4 in
  u32 (u32 (x / len + 1) * 3) / 4 = c /\ 0 <= c <= 3 /\ u32 (c * len) = c * len /\
  0 <= x - c * len <= len /\ u32 (x - c * len) = x - c * len.
Proof.
  intros Hlen Hx c. set (k := x / len) in *.
  assert (Hk : k * len <= x < (k + 1) * len) by (subst k; Z.to_euclidean_division_equations; nia).
  assert (Hk4 : 0 <= k <= 4) by nia.
  assert (Hc : 0 <= c <= 3 /\ c <= k /\ k <= c + 1 /\ (k <= 3 -> c = k))
    by (subst c; Z.to_euclidean_division_equations; lia).
  assert (Hd : 0 <= x - c * len <= len).
  { destruct (decide (k <= 3)); [assert (c = k) as -> by lia; lia|]. assert (c = 3) as -> by lia. nia. }
  rewrite (u32_small (k + 1)), (u32_small ((k + 1) * 3)) by lia.
  split; [done|]. split; [lia|]. split; [apply u32_small; nia|]. split; [done|]. apply u32_small. lia.
Qed.

(** The clock: what is left after the seconds, and after the minutes. *)
Lemma clock_pure e : 0 <= e < 2 ^ 32 ->
  u32 (e - e `mod` 60) / 60 = e / 60 /\ u32 (e / 60 - (e / 60) `mod` 60) / 60 = e / 3600.
Proof.
  intros He. rewrite !u32_small by (Z.to_euclidean_division_equations; lia).
  split; Z.to_euclidean_division_equations; lia.
Qed.

Lemma u8_clock x k : 0 < k <= 256 -> u8 (x `mod` k) = x `mod` k.
Proof. intros Hk. apply Z.mod_small. pose proof (Z.mod_pos_bound x k). lia. Qed.

Lemma EpochToEfiTime_pure e t : 0 <= e < 2 ^ 32 ->
  EpochToEfiTime e t =
  let '(y, m, d) := date_pure (e / 86400) in
  mk_time (u16 y) (u8 m) (u8 d) ((e / 3600) `mod` 24) ((e / 60) `mod` 60) (e `mod` 60) (Pad1 t) 0
    (TimeZone t) (Daylight t) (Pad2 t).
Proof.
  intros He. unfold EpochToEfiTime, date_pure. cbv zeta.
  destruct (clock_pure e He) as [-> ->]. rewrite !u8_clock by lia.
  set (n := e / 86400). assert (Hn : 0 <= n <= 49710) by (subst n; Z.to_euclidean_division_equations; lia).
  rewrite (u32_small (n + 2440588)) by lia. rewrite (u32_small (n + 2440588 + 32044)) by lia.
  set (j := n + 2440588 + 32044). set (g := j / 146097). set (dg := j `mod` 146097).
  assert (Hg : 16 <= g <= 17) by (subst g j; Z.to_euclidean_division_equations; lia).
  assert (Hdg : 0 <= dg < 146097) by (apply Z.mod_pos_bound; lia).
  destruct (period_pure dg 36524) as (-> & Hc & -> & Hdc & ->); [lia..|]. set (c := (dg / 36524 + 1) * 3 / 4) in *.
  set (dc := dg - c * 36524) in *. set (b := dc / 1461). set (db := dc `mod` 1461).
  assert (Hb : 0 <= b <= 49) by (subst b; Z.to_euclidean_division_equations; lia).
  assert (Hdb : 0 <= db < 1461) by (apply Z.mod_pos_bound; lia).
  destruct (period_pure db 365) as (-> & Ha & -> & Hda & ->); [lia..|]. set (a := (db / 365 + 1) * 3 / 4) in *.
  set (da := db - a * 365) in *.
  rewrite (u32_small (da * 5)), (u32_small (da * 5 + 308)) by lia. set (q := (da * 5 + 308) / 153).
  assert (Hq : 2 <= q <= 25 /\ 153 * q <= da * 5 + 308 < 153 * q + 153)
    by (subst q; Z.to_euclidean_division_equations; lia).
  rewrite (u32_small (q - 2)) by lia. set (m := q - 2).
  rewrite (u32_small (m + 4)), (u32_small ((m + 4) * 153)) by lia. set (r := (m + 4) * 153 / 5).
  assert (Hr : 5 * r <= (m + 4) * 153 < 5 * r + 5) by (subst r; Z.to_euclidean_division_equations; lia).
  rewrite (u32_add_wrap (da - r) 122) by lia.
  rewrite (u32_small (m + 2)), (u32_small (g * 400)), (u32_small (c * 100)), (u32_small (b * 4)) by lia.
  rewrite (u32_small (g * 400 + c * 100)), (u32_small (g * 400 + c * 100 + b * 4)),
    (u32_small (g * 400 + c * 100 + b * 4 + a)) by lia.
  rewrite (u32_small (da - r + 122 + 1)), (u32_small (g * 400 + c * 100 + b * 4 + a - 4800)) by lia.
  assert (Hm12 : 0 <= (m + 2) / 12 <= 3) by (Z.to_euclidean_division_equations; lia).
  assert (Hmm : 0 <= (m + 2) `mod` 12 < 12) by (apply Z.mod_pos_bound; lia).
  rewrite (u32_small (_ + (m + 2) / 12)), (u32_small ((m + 2) `mod` 12 + 1)) by lia. done.
Qed.

(** ** The inverse conversions *)

(** Splitting a day count into cycles of 400, 100, 4 and 1 years that start in
    March: a year has 366 days only when a leap day ends it. *)
Lemma date_pure_split g c b a da n :
  n + 2440588 + 32044 = 146097 * g + 36524 * c + 1461 * b + 365 * a + da ->
  0 <= c <= 3 -> 0 <= b <= 24 -> 0 <= a <= 3 -> 0 <= da <= 365 ->
  (da = 365 -> a = 3 /\ (b <> 24 \/ c = 3)) ->
  let y := g * 400 + c * 100 + b * 4 + a in
  let m := (da * 5 + 308) / 153 - 2 in
  date_pure n =
    (y - 4800 + (m + 2) / 12, (m + 2) `mod` 12 + 1, da - (m + 4) * 153 / 5 + 122 + 1).
Proof.
  intros Hj Hc Hb Ha Hda Hleap. unfold date_pure. rewrite Hj. cbv zeta.
  set (dg := 36524 * c + 1461 * b + 365 * a + da).
  assert (Hdg : 0 <= dg < 146097) by (subst dg; lia).
  replace (146097 * g + 36524 * c + 1461 * b + 365 * a + da) with (dg + g * 146097) by (subst dg; lia).
  rewrite Z.div_add, Z_mod_plus_full, (Z.div_small dg), (Z.mod_small dg) by lia. rewrite Z.add_0_l.
  assert (E1 : (dg / 36524 + 1) * 3 / 4 = c).
  { assert (Hk : dg / 36524 = c \/ dg / 36524 = c + 1 /\ c = 3)
      by (subst dg; Z.to_euclidean_division_equations; lia).
    destruct Hk as [->|[-> ->]]; [|done]. Z.to_euclidean_division_equations; lia. }
  rewrite E1. replace (dg - c * 36524) with (1461 * b + 365 * a + da) by (subst dg; lia).
  set (db := 365 * a + da). assert (Hdb : 0 <= db < 1461) by (subst db; lia).
  replace (1461 * b + 365 * a + da) with (db + b * 1461) by (subst db; lia).
  rewrite Z.div_add, Z_mod_plus_full, (Z.div_small db), (Z.mod_small db) by lia. rewrite Z.add_0_l.
  assert (E2 : (db / 365 + 1) * 3 / 4 = a).
  { assert (Hk : db / 365 = a \/ db / 365 = a + 1 /\ a = 3)
      by (subst db; Z.to_euclidean_division_equations; lia).
    destruct Hk as [->|[-> ->]]; [|done]. Z.to_euclidean_division_equations; lia. }
  rewrite E2. replace (db - a * 365) with da by (subst db; lia). done.
Qed.

Lemma valid_date_range y m d : valid_date y m d = true -> 1 <= m <= 12 /\ 1 <= d <= 31.
Proof.
  unfold valid_date, month_days. rewrite !andb_true_iff, !Z.leb_le.
  intros [[[? ?] ?] Hd]. repeat case_match; lia.
Qed.

(** The years of the cycles. *)
Lemma year_split y : exists g c b a, y = 400 * g + 100 * c + 4 * b + a /\
  0 <= c <= 3 /\ 0 <= b <= 24 /\ 0 <= a <= 3 /\
  y / 4 = 100 * g + 25 * c + b /\ y / 100 = 4 * g + c /\ y / 400 = g /\
  (leap (y + 1) = true -> a = 3 /\ (b <> 24 \/ c = 3)).
Proof.
  exists (y / 400), ((y `mod` 400) / 100), ((y `mod` 100) / 4), (y `mod` 4).
  assert (Hl : leap (y + 1) = true -> y `mod` 4 = 3 /\ ((y `mod` 100) / 4 <> 24 \/ (y `mod` 400) / 100 = 3)).
  { unfold leap. rewrite andb_true_iff, orb_true_iff, negb_true_iff, !Z.eqb_eq, Z.eqb_neq.
    intros [H4 H]. split; [Z.to_euclidean_division_equations; lia|].
    destruct H as [H|H]; [left|right]; Z.to_euclidean_division_equations; lia. }
  split_and!; try exact Hl; Z.to_euclidean_division_equations; lia.
Qed.

Lemma month_cases (P : Z -> Prop) m :
  1 <= m <= 12 -> P 1 -> P 2 -> P 3 -> P 4 -> P 5 -> P 6 -> P 7 -> P 8 -> P 9 -> P 10 -> P 11 -> P 12 -> P m.
Proof.
  intros Hm **. assert (Hc : m = 1 \/ m = 2 \/ m = 3 \/ m = 4 \/ m = 5 \/ m = 6 \/ m = 7 \/ m = 8 \/
    m = 9 \/ m = 10 \/ m = 11 \/ m = 12) by lia.
  by repeat (destruct Hc as [->|Hc]; [done|]); subst.
Qed.

(** Within a year that starts in March, the month and the day of a month are
    the quotient and the rest of the day number. *)
Lemma date_pure_month y m d y' m' :
  valid_date y m d = true ->
  y' = y + 4800 - (14 - m) / 12 -> m' = m + 12 * ((14 - m) / 12) - 3 ->
  let da := (153 * m' + 2) / 5 + d - 1 in
  0 <= da <= 365 /\ (da = 365 -> m = 2 /\ leap y = true) /\
  (da * 5 + 308) / 153 - 2 = m' /\ da - (m' + 4) * 153 / 5 + 122 + 1 = d /\
  y' - 4800 + (m' + 2) / 12 = y /\ (m' + 2) `mod` 12 + 1 = m.
Proof.
  intros Hv -> ->. destruct (valid_date_range y m d Hv) as [Hm Hd].
  unfold valid_date in Hv. rewrite !andb_true_iff, !Z.leb_le in Hv. destruct Hv as [_ Hv].
  revert Hv. pattern m. apply month_cases; [done|..];
    cbv [month_days Z.eqb Pos.eqb orb];
    match goal with |- context [(14 - ?k) / 12] =>
      let v := eval vm_compute in ((14 - k) / 12) in change ((14 - k) / 12) with v end;
    match goal with |- context [153 * ?k] =>
      let v := eval vm_compute in k in change k with v end;
    match goal with |- context [(153 * ?k + 2) / 5] =>
      let v := eval vm_compute in ((153 * k + 2) / 5) in change ((153 * k + 2) / 5) with v end;
    cbv zeta; intros Hv; try (destruct (leap y) eqn:?);
    (split_and!; [lia|lia|..]); try done; try lia; try (intros; lia);
    Z.to_euclidean_division_equations; lia.
Qed.

Lemma leap_4800 y : leap (y + 4800) = leap y.
Proof.
  unfold leap. replace (y + 4800) with (y + 1200 * 4) at 1 by lia. rewrite Z_mod_plus_full.
  replace (y + 4800) with (y + 48 * 100) at 1 by lia. rewrite Z_mod_plus_full.
  replace (y + 4800) with (y + 12 * 400) by lia. by rewrite Z_mod_plus_full.
Qed.

Lemma date_pure_julian y m d : valid_date y m d = true ->
  date_pure (julian_pure y m d - EPOCH_JULIAN_DATE) = (y, m, d).
Proof.
  intros Hv. set (y' := y + 4800 - (14 - m) / 12). set (m' := m + 12 * ((14 - m) / 12) - 3).
  destruct (date_pure_month y m d y' m' Hv eq_refl eq_refl) as (Hda & Hl & Hm & Hd & Hy & Hm12).
  destruct (year_split y') as (g & c & b & a & Ey & Hc & Hb & Ha & E4 & E100 & E400 & Hleap).
  set (da := (153 * m' + 2) / 5 + d - 1) in *.
  rewrite (date_pure_split g c b a da); [|..]; try done.
  - rewrite Hm. replace (g * 400 + c * 100 + b * 4 + a) with y' by lia. by rewrite Hd, Hy, Hm12.
  - unfold julian_pure, EPOCH_JULIAN_DATE. fold y'. fold m'. rewrite E4, E100, E400. subst da. lia.
  - intros E. destruct (Hl E) as [-> HL]. apply Hleap.
    replace (y' + 1) with (y + 4800) by (subst y'; change ((14 - 2) / 12) with 1; lia).
    by rewrite leap_4800.
Qed.

(** The leap days before the year that starts in March of [y]. *)
Lemma leap_days y : let x := y + 4800 in
  x / 4 - x / 100 + x / 400 =
  (x - 1) / 4 - (x - 1) / 100 + (x - 1) / 400 + (if leap y then 1 else 0).
Proof.
  intros x. rewrite <- leap_4800. fold x. clearbody x.
  destruct (leap x) eqn:E; unfold leap in E.
  - rewrite andb_true_iff, orb_true_iff, negb_true_iff, !Z.eqb_eq, Z.eqb_neq in E.
    Z.to_euclidean_division_equations; lia.
  - rewrite andb_false_iff, orb_false_iff, negb_false_iff, !Z.eqb_eq, !Z.eqb_neq in E.
    Z.to_euclidean_division_equations; lia.
Qed.

(** Julian days follow the calendar. *)
Lemma julian_next y m d : valid_date y m d = true ->
  let '(y2, m2, d2) := next_day (y, m, d) in
  valid_date y2 m2 d2 = true /\ julian_pure y2 m2 d2 = julian_pure y m d + 1.
Proof.
  intros Hv. destruct (valid_date_range y m d Hv) as [Hm Hd]. pose proof (leap_days y) as HL. cbv zeta in HL.
  unfold valid_date in *. rewrite !andb_true_iff, !Z.leb_le in Hv. destruct Hv as [_ Hv].
  unfold next_day. destruct (Z.ltb_spec d (month_days y m)) as [Hlt|Hge].
  { rewrite !andb_true_iff, !Z.leb_le. unfold julian_pure. lia. }
  assert (d = month_days y m) as -> by lia. clear Hv Hge Hd.
  revert Hm. intros Hm. pattern m. apply month_cases; [done|..];
    unfold julian_pure; cbv [month_days Z.eqb Z.ltb Z.compare Pos.compare Pos.compare_cont Pos.eqb orb];
    (split; [try done|]); try (by destruct (leap y));
    repeat match goal with |- context [(14 - ?k) / 12] =>
      let v := eval vm_compute in ((14 - k) / 12) in change ((14 - k) / 12) with v end;
    repeat match goal with |- context [(153 * ?k + 2) / 5] =>
      let v := eval vm_compute in ((153 * k + 2) / 5) in change ((153 * k + 2) / 5) with v end;
    rewrite ?Z.sub_0_r; try (destruct (leap y));
    replace (y + 1 + 4800 - 1) with (y + 4800) by lia; lia.
Qed.

Lemma calendar_julian n :
  let '(y, m, d) := calendar n in
  valid_date y m d = true /\ julian_pure y m d = EPOCH_JULIAN_DATE + Z.of_nat n.
Proof.
  induction n as [|n IH]; [done|]. cbn [calendar]. destruct (calendar n) as [[y m] d].
  destruct IH as [Hv Hj]. pose proof (julian_next y m d Hv) as Hn.
  destruct (next_day (y, m, d)) as [[y2 m2] d2]. destruct Hn as [Hv2 Hj2].
  split; [done|]. rewrite Hj2, Hj. lia.
Qed.

(** The computed date of day [n] is the calendar's. *)
Lemma date_pure_calendar n : date_pure (Z.of_nat n) = calendar n.
Proof.
  pose proof (calendar_julian n) as Hc. destruct (calendar n) as [[y m] d]. destruct Hc as [Hv Hj].
  rewrite <- (date_pure_julian y m d Hv), Hj. f_equal. lia.
Qed.

(** ** The conversion functions *)

(** The seconds from the epoch to a calendar time, before it negative. *)
Definition seconds_of (t : EFI_TIME) : Z :=
  86400 * (julian_pure (Year t) (Month t) (Day t) - EPOCH_JULIAN_DATE)
  + 3600 * Hour t + 60 * Minute t + Second t.

(** [u32] removes a multiple of 2^32. *)
Lemma u32_multiple a : exists k, u32 a = a + k * 2 ^ 32.
Proof. exists (- (a / 2 ^ 32)). unfold u32. Z.to_euclidean_division_equations; lia. Qed.
Lemma u32_congr a b k : a = b + k * 2 ^ 32 -> u32 a = u32 b.
Proof. intros ->. apply Z_mod_plus_full. Qed.

Lemma julian_bounds y m d : 0 <= y -> valid_date y m d = true ->
  let j := julian_pure y m d in
  365 * (y + 4799) - 32045 <= j <= 366 * (y + 4800) + 398 - 32045.
Proof.
  intros Hy Hv. destruct (valid_date_range y m d Hv) as [Hm Hd]. unfold julian_pure.
  assert (Ha : 0 <= (14 - m) / 12 <= 1 /\ 0 <= m + 12 * ((14 - m) / 12) - 3 <= 11)
    by (Z.to_euclidean_division_equations; lia).
  set (a := (14 - m) / 12) in *. set (m' := m + 12 * a - 3) in *. set (y' := y + 4800 - a).
  assert (H5 : 0 <= (153 * m' + 2) / 5 <= 337) by (Z.to_euclidean_division_equations; lia).
  assert (Hl : 0 <= y' / 4 - y' / 100 + y' / 400 <= y') by (subst y'; Z.to_euclidean_division_equations; lia).
  subst y'. cbv zeta. lia.
Qed.

(** The Julian days of a year lie between those of its ends. *)
Lemma julian_year y m d : valid_date y m d = true ->
  julian_pure y 1 1 <= julian_pure y m d < julian_pure (y + 1) 1 1.
Proof.
  intros Hv. destruct (valid_date_range y m d Hv) as [Hm Hd]. pose proof (leap_days y) as HL. cbv zeta in HL.
  unfold valid_date in Hv. rewrite !andb_true_iff, !Z.leb_le in Hv. destruct Hv as [_ Hv].
  revert Hv. pattern m. apply month_cases; [done|..];
    unfold julian_pure, month_days; cbv [Z.eqb Pos.eqb orb];
    repeat match goal with |- context [(14 - ?k) / 12] =>
      let v := eval vm_compute in ((14 - k) / 12) in change ((14 - k) / 12) with v end;
    repeat match goal with |- context [(153 * ?k + 2) / 5] =>
      let v := eval vm_compute in ((153 * k + 2) / 5) in change ((153 * k + 2) / 5) with v end;
    rewrite ?Z.sub_0_r; replace (y + 1 + 4800 - 1) with (y + 4800) by lia;
    destruct (leap y); lia.
Qed.

Lemma julian_1970 y m d : valid_date y m d = true ->
  julian_pure y m d < EPOCH_JULIAN_DATE <-> y < 1970.
Proof.
  intros Hv. pose proof (julian_year y m d Hv) as Hj. unfold EPOCH_JULIAN_DATE.
  unfold julian_pure at 1 4 in Hj. change ((14 - 1) / 12) with 1 in Hj.
  change ((153 * (1 + 12 * 1 - 3) + 2) / 5) with 306 in Hj.
  set (j := julian_pure y m d) in *. clearbody j. Z.to_euclidean_division_equations; lia.
Qed.

Lemma EfiTimeToEpoch_ok `{EdkConfig} t :
  0 <= Year t < 2 ^ 16 -> 0 <= Hour t < 2 ^ 8 -> 0 <= Minute t < 2 ^ 8 ->
  valid_date (Year t) (Month t) (Day t) = true ->
  EfiTimeToEpoch t =
    if negb MDEPKG_NDEBUG && (julian_pure (Year t) (Month t) (Day t) <? EPOCH_JULIAN_DATE) then None
    else Some (u32 (seconds_of t)).
Proof.
  intros Hy Hh Hmi Hv. destruct (valid_date_range _ _ _ Hv) as [Hm Hd].
  pose proof (julian_bounds _ _ _ (proj1 Hy) Hv) as Hj. unfold EfiTimeToEpoch, seconds_of.
  rewrite Z.quot_div_nonneg by lia.
  assert (Ha : 0 <= (14 - Month t) / 12 <= 1 /\ 0 <= Month t + 12 * ((14 - Month t) / 12) - 3 <= 11)
    by (Z.to_euclidean_division_equations; lia).
  unfold julian_pure in *. set (a := (14 - Month t) / 12) in *.
  rewrite (u32_small a), (u32_small (Year t + 4800)), (u32_small (12 * a)) by lia.
  rewrite (u32_small (Year t + 4800 - a)), (u32_small (Month t + 12 * a)) by lia.
  rewrite (u32_small (Month t + 12 * a - 3)) by lia.
  set (m' := Month t + 12 * a - 3) in *. set (y := Year t + 4800 - a) in *.
  assert (Hy' : 0 <= y < 2 ^ 17) by lia.
  rewrite (u32_small (153 * m')), (u32_small (153 * m' + 2)) by lia. cbv zeta in *.
  assert (Hq : 0 <= (153 * m' + 2) / 5 <= 337) by (Z.to_euclidean_division_equations; lia).
  assert (H4 : 0 <= y / 4 <= y) by (Z.to_euclidean_division_equations; lia).
  assert (H100 : 0 <= y / 100 <= y / 4) by (Z.to_euclidean_division_equations; lia).
  assert (H400 : 0 <= y / 400 <= y) by (Z.to_euclidean_division_equations; lia).
  set (q := (153 * m' + 2) / 5) in *. set (y4 := y / 4) in *. set (y100 := y / 100) in *.
  set (y400 := y / 400) in *.
  rewrite (u32_small (Day t + q)), (u32_small (365 * y)) by lia.
  rewrite (u32_small (Day t + q + 365 * y)), (u32_small (Day t + q + 365 * y + y4)),
    (u32_small (Day t + q + 365 * y + y4 - y100)), (u32_small (Day t + q + 365 * y + y4 - y100 + y400)) by lia.
  set (J := Day t + q + 365 * y + y4 - y100 + y400 - 32045) in *.
  rewrite (u32_small J) by lia. destruct (negb MDEPKG_NDEBUG && (J <? EPOCH_JULIAN_DATE)); [done|].
  f_equal. unfold SEC_PER_DAY, SEC_PER_HOUR, SEC_PER_MIN.
  destruct (u32_multiple (J - EPOCH_JULIAN_DATE)) as [k1 ->].
  rewrite (u32_small (Hour t * 3600)), (u32_small (Minute t * 60)) by lia.
  destruct (u32_multiple ((J - EPOCH_JULIAN_DATE + k1 * 2 ^ 32) * 86400)) as [k2 ->].
  match goal with |- u32 (u32 (u32 ?x + _) + _) = _ => destruct (u32_multiple x) as [k3 ->] end.
  match goal with |- u32 (u32 ?x + _) = _ => destruct (u32_multiple x) as [k4 ->] end.
  apply (u32_congr _ _ (k1 * 86400 + k2 + k3 + k4)). lia.
Qed.

Lemma DayValid_ok t : 1 <= Month t <= 12 ->
  DayValid t = Some (bool_decide (valid_date (Year t) (Month t) (Day t) = true)).
Proof.
  intros Hm. unfold DayValid. rewrite (proj2 (Z.ltb_ge (Month t - 1) 0)) by lia.
  assert (Hl : IsLeapYear t = leap (Year t)).
  { unfold IsLeapYear, leap. by destruct (Year t `mod` 4 =? 0), (Year t `mod` 100 =? 0), (Year t `mod` 400 =? 0). }
  assert (Hbd : forall b : bool, bool_decide (b = true) = b) by by intros [].
  rewrite Hl, Hbd. unfold valid_date, month_days.
  destruct (Z.ltb_spec (Day t) 1) as [H1|H1].
  { rewrite (proj2 (Z.leb_gt 1 (Day t))) by lia. by rewrite andb_false_r. }
  rewrite (proj2 (Z.leb_le 1 (Day t))), (proj2 (Z.leb_le 1 (Month t))),
    (proj2 (Z.leb_le (Month t) 12)) by lia.
  generalize (leap (Year t)). intros l. clear Hl. revert Hm. generalize (Month t). intros m Hm.
  pattern m. apply month_cases; [done|..]; simpl; f_equal; rewrite ?orb_false_r, ?Z.leb_antisym; try done.
  destruct l; simpl; [by rewrite orb_false_r|].
  destruct (Z.ltb_spec 29 (Day t)), (Z.ltb_spec 28 (Day t)); try done; lia.
Qed.

(** The ranges of the UEFI specification. *)
Definition time_in_range (t : EFI_TIME) : Prop :=
  1900 <= Year t <= 9999 /\ valid_date (Year t) (Month t) (Day t) = true /\
  Hour t <= 23 /\ Minute t <= 59 /\ Second t <= 59 /\ Nanosecond t <= 999999999 /\
  (TimeZone t = EFI_UNSPECIFIED_TIMEZONE \/ -1440 <= TimeZone t <= 1440) /\
  Daylight t <= 3.

Lemma daylight_mask d : 0 <= d < 2 ^ 8 ->
  Z.land d (Z.lnot (Z.lor EFI_TIME_ADJUST_DAYLIGHT EFI_TIME_IN_DAYLIGHT)) = 0 <-> d <= 3.
Proof.
  intros Hd. change (Z.lor _ _) with (Z.ones 2). rewrite <- Z.ldiff_land, Z.ldiff_ones_r by lia.
  rewrite Z.shiftl_mul_pow2, Z.shiftr_div_pow2 by lia. Z.to_euclidean_division_equations; lia.
Qed.

Lemma EfiTimeIsValid_ok t : time_wf t -> EfiTimeIsValid t = Some true <-> time_in_range t.
Proof.
  intros (Hy & Hm & Hd & Hh & Hmi & Hs & Hn & Htz & Hdl). unfold EfiTimeIsValid, time_in_range.
  destruct ((Year t <? 1900) || _ || _ || _) eqn:E.
  - rewrite !orb_true_iff, !Z.ltb_lt in E. split; [done|].
    intros (? & Hv & _). apply valid_date_range in Hv. lia.
  - rewrite !orb_false_iff, !Z.ltb_ge in E. rewrite DayValid_ok by lia. simpl.
    rewrite (inj_iff Some), negb_true_iff, !orb_false_iff, !negb_false_iff, !Z.ltb_ge, orb_true_iff,
      andb_true_iff, !Z.leb_le, !Z.eqb_eq, bool_decide_eq_true, (daylight_mask _ Hdl). intuition lia.
Qed.

Lemma calendar_range n : Z.of_nat n <= 49710 ->
  let '(y, m, d) := calendar n in 1970 <= y < 2 ^ 16 /\ 1 <= m <= 12 /\ 1 <= d <= 31.
Proof.
  intros Hn. pose proof (calendar_julian n) as Hc. destruct (calendar n) as [[y m] d] eqn:E.
  destruct Hc as [Hv Hj]. split; [|by apply (valid_date_range y)].
  assert (Hy : 1970 <= y).
  { clear -E. revert y m d E. induction n as [|n IH]; simpl; intros y m d E; [by injection E as <- _ _|].
    destruct (calendar n) as [[y' m'] d'] eqn:E'. pose proof (IH _ _ _ eq_refl). unfold next_day in E.
    repeat case_match; injection E as <- _ _; lia. }
  pose proof (julian_bounds y m d ltac:(lia) Hv) as Hb. cbv zeta in Hb. rewrite Hj in Hb.
  unfold EPOCH_JULIAN_DATE in Hb. split; [done|]. change (2 ^ 16) with 65536. lia.
Qed.

Lemma EpochToEfiTime_ok e t : 0 <= e < 2 ^ 32 ->
  let x := EpochToEfiTime e t in
  date_of x = calendar (Z.to_nat (e / 86400)) /\
  Hour x = (e / 3600) `mod` 24 /\ Minute x = (e / 60) `mod` 60 /\ Second x = e `mod` 60 /\
  Nanosecond x = 0 /\ TimeZone x = TimeZone t /\ Daylight x = Daylight t.
Proof.
  intros He x. subst x. rewrite EpochToEfiTime_pure by done.
  assert (Hn : 0 <= e / 86400 <= 49710) by (Z.to_euclidean_division_equations; lia).
  pose proof (date_pure_calendar (Z.to_nat (e / 86400))) as Hp. rewrite Z2Nat.id in Hp by lia. rewrite Hp.
  pose proof (calendar_range (Z.to_nat (e / 86400)) ltac:(lia)) as Hr.
  destruct (calendar _) as [[y m] d]. unfold date_of. simpl.
  unfold u16, u8. rewrite !Z.mod_small by lia. done.
Qed.

(** C22: the date computed from Linux seconds is the one the Gregorian calendar
    counts to from 1 January 1970, the time of day has the remaining seconds,
    and the result is a time the validity check accepts (whenever the time zone
    and the daylight flags, which the function leaves alone, are valid). *)
Theorem EpochToEfiTime_calendar e t : 0 <= e < 2 ^ 32 ->
  let x := EpochToEfiTime e t in
  date_of x = calendar (Z.to_nat (e / 86400)) /\
  3600 * Hour x + 60 * Minute x + Second x = e `mod` 86400 /\
  (TimeZone t = EFI_UNSPECIFIED_TIMEZONE \/ -1440 <= TimeZone t <= 1440 ->
   0 <= Daylight t <= 3 -> EfiTimeIsValid x = Some true).
Proof.
  intros He x. destruct (EpochToEfiTime_ok e t He) as (Hd & Hh & Hm & Hs & Hn & Htz & Hdl). fold x in Hd, Hh, Hm, Hs, Hn, Htz, Hdl.
  clearbody x.
  split; [done|].
  assert (Hb : 0 <= Hour x < 24 /\ 0 <= Minute x < 60 /\ 0 <= Second x < 60).
  { rewrite Hh, Hm, Hs. split_and!; apply Z.mod_pos_bound; lia. }
  split; [rewrite Hh, Hm, Hs; Z.to_euclidean_division_equations; lia|].
  intros Hz Hl. assert (Hk : 0 <= e / 86400 <= 49710) by (Z.to_euclidean_division_equations; lia).
  pose proof (calendar_range (Z.to_nat (e / 86400)) ltac:(lia)) as Hr.
  pose proof (calendar_julian (Z.to_nat (e / 86400))) as Hj. rewrite <- Hd in Hr, Hj. simpl in Hr, Hj.
  destruct Hj as [Hv Hj].
  assert (Hy : Year x <= 9999).
  { pose proof (julian_bounds (Year x) _ _ ltac:(lia) Hv) as HB. cbv zeta in HB. unfold EPOCH_JULIAN_DATE in *. lia. }
  apply EfiTimeIsValid_ok.
  - unfold time_wf. rewrite Hn, Htz, Hdl. unfold EFI_UNSPECIFIED_TIMEZONE in Hz. split_and!; try done; lia.
  - unfold time_in_range. rewrite Hn, Htz, Hdl. split_and!; try done; lia.
Qed.

Lemma epoch_time_epoch `{EdkConfig} e t : 0 <= e < 2 ^ 32 ->
  EfiTimeToEpoch (EpochToEfiTime e t) = Some e.
Proof.
  intros He. destruct (EpochToEfiTime_ok e t He) as (Hd & Hh & Hm & Hs & _).
  generalize dependent (EpochToEfiTime e t). intros x Hd Hh Hm Hs.
  assert (Hk : 0 <= e / 86400 <= 49710) by (Z.to_euclidean_division_equations; lia).
  pose proof (calendar_range (Z.to_nat (e / 86400)) ltac:(lia)) as Hr.
  pose proof (calendar_julian (Z.to_nat (e / 86400))) as Hj. rewrite <- Hd in Hr, Hj. simpl in Hr, Hj.
  destruct Hj as [Hv Hj]. rewrite Z2Nat.id in Hj by lia.
  pose proof (Z.mod_pos_bound (e / 3600) 24 ltac:(lia)). pose proof (Z.mod_pos_bound (e / 60) 60 ltac:(lia)).
  rewrite EfiTimeToEpoch_ok by (done || lia).
  rewrite (proj2 (Z.ltb_ge _ _)) by (unfold EPOCH_JULIAN_DATE in *; lia). rewrite andb_false_r.
  f_equal. unfold seconds_of. rewrite Hj, Hh, Hm, Hs. rewrite u32_small; [|done || idtac];
    Z.to_euclidean_division_equations; lia.
Qed.

Lemma seconds_of_range t :
  1970 <= Year t <= 2105 -> valid_date (Year t) (Month t) (Day t) = true ->
  0 <= Hour t <= 23 -> 0 <= Minute t <= 59 -> 0 <= Second t <= 59 ->
  0 <= seconds_of t < 2 ^ 32.
Proof.
  intros Hy Hv Hh Hm Hs. pose proof (julian_year _ _ _ Hv) as Hj. pose proof (julian_1970 _ _ _ Hv) as Hl.
  assert (Hu : julian_pure (Year t + 1) 1 1 <= EPOCH_JULIAN_DATE + 49673).
  { unfold julian_pure, EPOCH_JULIAN_DATE. change ((14 - 1) / 12) with 1.
    change ((153 * (1 + 12 * 1 - 3) + 2) / 5) with 306. generalize (Year t) Hy. intros y Hy'.
    Z.to_euclidean_division_equations; lia. }
  unfold seconds_of. lia.
Qed.

Lemma time_epoch_time `{EdkConfig} t :
  1970 <= Year t <= 2105 -> valid_date (Year t) (Month t) (Day t) = true ->
  0 <= Hour t <= 23 -> 0 <= Minute t <= 59 -> 0 <= Second t <= 59 ->
  EfiTimeToEpoch t = Some (seconds_of t) /\
  EpochToEfiTime (seconds_of t) t =
    mk_time (Year t) (Month t) (Day t) (Hour t) (Minute t) (Second t) (Pad1 t) 0 (TimeZone t) (Daylight t) (Pad2 t).
Proof.
  intros Hy Hv Hh Hm Hs. pose proof (seconds_of_range t Hy Hv Hh Hm Hs) as He.
  pose proof (julian_1970 _ _ _ Hv) as Hl. destruct (valid_date_range _ _ _ Hv) as [Hmo Hd]. split.
  - rewrite EfiTimeToEpoch_ok by (done || lia).
    rewrite (proj2 (Z.ltb_ge _ _)) by lia. by rewrite andb_false_r, u32_small.
  - rewrite EpochToEfiTime_pure by done. unfold seconds_of.
    pose proof (date_pure_julian _ _ _ Hv) as Hp.
    set (n := julian_pure (Year t) (Month t) (Day t) - EPOCH_JULIAN_DATE) in *.
    set (e := 86400 * n + 3600 * Hour t + 60 * Minute t + Second t).
    assert (E1 : e / 86400 = n) by (subst e; clear Hp; Z.to_euclidean_division_equations; lia).
    rewrite E1, Hp. unfold u16, u8. rewrite !Z.mod_small by lia.
    f_equal; subst e; clear Hp E1; Z.to_euclidean_division_equations; lia.
Qed.

(** C23: converting to a calendar time and back gives the seconds again, for
    every 32-bit number of seconds; converting a calendar time of the years
    1970 to 2105 to seconds and back gives the time again, less its
    nanoseconds. *)
Theorem epoch_roundtrip `{EdkConfig} :
  (forall e t, 0 <= e < 2 ^ 32 -> EfiTimeToEpoch (EpochToEfiTime e t) = Some e) /\
  (forall t, time_wf t -> EfiTimeIsValid t = Some true -> 1970 <= Year t <= 2105 ->
   exists e, EfiTimeToEpoch t = Some e /\
     EpochToEfiTime e t =
       mk_time (Year t) (Month t) (Day t) (Hour t) (Minute t) (Second t) (Pad1 t) 0 (TimeZone t) (Daylight t) (Pad2 t)).
Proof.
  split; [intros e t; apply epoch_time_epoch|].
  intros t Hwf Hvalid Hy. apply (EfiTimeIsValid_ok t Hwf) in Hvalid as (_ & Hv & Hh & Hm & Hs & _).
  destruct Hwf as (_ & _ & _ & ? & ? & ? & _). exists (seconds_of t). apply time_epoch_time; done || lia.
Qed.

(** For every calendar time the validity check accepts, the conversion to
    Linux seconds is exact modulo 2^32: from 2106 on it wraps around.  The
    years 1900 to 1969, which the check accepts too, fail the function's
    assertion when assertions are compiled in. *)
Theorem EfiTimeToEpoch_spec `{EdkConfig} t : time_wf t -> EfiTimeIsValid t = Some true ->
  EfiTimeToEpoch t =
    if negb MDEPKG_NDEBUG && (Year t <? 1970) then None else Some (u32 (seconds_of t)).
Proof.
  intros Hwf Hvalid. apply (EfiTimeIsValid_ok t Hwf) in Hvalid as (Hy & Hv & _).
  destruct Hwf as (? & ? & ? & Hh & Hm & _). rewrite EfiTimeToEpoch_ok by done.
  replace (julian_pure (Year t) (Month t) (Day t) <? EPOCH_JULIAN_DATE) with (Year t <? 1970); [done|].
  pose proof (julian_1970 _ _ _ Hv).
  by destruct (Z.ltb_spec (Year t) 1970), (Z.ltb_spec (julian_pure (Year t) (Month t) (Day t)) EPOCH_JULIAN_DATE);
    try done; lia.
Qed.

(** The validity check reads no table entry out of bounds, and accepts
    exactly the ranges of the UEFI specification with the days of each month
    of the Gregorian calendar. *)
Theorem EfiTimeIsValid_spec t : time_wf t ->
  is_Some (EfiTimeIsValid t) /\ (EfiTimeIsValid t = Some true <-> time_in_range t).
Proof.
  intros Hwf. split; [|by apply EfiTimeIsValid_ok].
  unfold EfiTimeIsValid. destruct ((Year t <? 1900) || _ || _ || _) eqn:E; [done|].
  rewrite !orb_false_iff, !Z.ltb_ge in E. rewrite DayValid_ok by lia. done.
Qed.

(** ** Witnesses *)

(** 29 February 2000, 23:59:58, and a day of 1969. *)
Definition demo_time : EFI_TIME := mk_time 2000 2 29 23 59 58 0 0 EFI_UNSPECIFIED_TIMEZONE 0 0.
Definition demo_time_1969 : EFI_TIME := mk_time 1969 12 31 0 0 0 0 0 0 0 0.

#[local] Instance demo_edk : EdkConfig := {| MDEPKG_NDEBUG := false |}.

Lemma demo_time_wf : time_wf demo_time /\ time_wf demo_time_1969.
Proof. unfold time_wf, EFI_UNSPECIFIED_TIMEZONE. simpl. unfold EFI_UNSPECIFIED_TIMEZONE. lia. Qed.

Lemma EpochToEfiTime_calendar_witness :
  date_of (EpochToEfiTime 5097600 demo_time) = (1970, 3, 1) /\
  EfiTimeIsValid (EpochToEfiTime 5097600 demo_time) = Some true.
Proof.
  pose proof (EpochToEfiTime_calendar 5097600 demo_time ltac:(lia)) as H. cbv zeta in H.
  destruct H as (Hd & _ & Hv). split; [rewrite Hd; by vm_compute|].
  apply Hv; [by left|]. simpl. lia.
Defined.

Lemma EfiTimeToEpoch_spec_witness :
  EfiTimeToEpoch demo_time = Some 951868798 /\ EfiTimeToEpoch demo_time_1969 = None.
Proof.
  split; (rewrite EfiTimeToEpoch_spec; [by vm_compute|apply demo_time_wf|by vm_compute]).
Defined.

Lemma EfiTimeIsValid_spec_witness : time_in_range demo_time.
Proof.
  apply (EfiTimeIsValid_spec demo_time); [apply demo_time_wf|by vm_compute].
Defined.

Lemma epoch_roundtrip_witness :
  EfiTimeToEpoch (EpochToEfiTime 951868798 demo_time) = Some 951868798 /\
  exists e, EfiTimeToEpoch demo_time = Some e /\ EpochToEfiTime e demo_time = demo_time.
Proof.
  split; [apply (proj1 epoch_roundtrip); lia|].
  apply (proj2 epoch_roundtrip); [apply demo_time_wf|by vm_compute|simpl; lia].
Defined.
