(* ===== verification/Errors.v ===== *)
(** * Linux errors as EFI statuses ([Misc.c])

    LKL system calls return 0 or more on success and a negated Linux error
    number on failure; [LKLError2EfiError] translates either sign. *)

From S2P Require Import Prelude Efi.

Definition LKLErrorStatus : list Z :=
  [EFI_SUCCESS; EFI_ACCESS_DENIED; EFI_NOT_FOUND;
   EFI_NOT_FOUND; EFI_ABORTED; EFI_DEVICE_ERROR;
   EFI_NOT_FOUND; EFI_INVALID_PARAMETER; EFI_INVALID_PARAMETER;
   EFI_INVALID_PARAMETER; EFI_NOT_FOUND; EFI_NOT_READY;
   EFI_OUT_OF_RESOURCES; EFI_ACCESS_DENIED; EFI_INVALID_PARAMETER;
   EFI_INVALID_PARAMETER; EFI_DEVICE_ERROR; EFI_DEVICE_ERROR;
   EFI_DEVICE_ERROR; EFI_NOT_FOUND; EFI_INVALID_PARAMETER;
   EFI_INVALID_PARAMETER; EFI_INVALID_PARAMETER; EFI_OUT_OF_RESOURCES;
   EFI_OUT_OF_RESOURCES; EFI_INVALID_PARAMETER; EFI_NOT_READY;
   EFI_OUT_OF_RESOURCES; EFI_VOLUME_FULL; EFI_INVALID_PARAMETER;
   EFI_WRITE_PROTECTED; EFI_OUT_OF_RESOURCES; EFI_DEVICE_ERROR;
   EFI_INVALID_PARAMETER; EFI_UNSUPPORTED; EFI_UNSUPPORTED;
   EFI_INVALID_PARAMETER; EFI_OUT_OF_RESOURCES; EFI_INVALID_PARAMETER;
   EFI_UNSUPPORTED; EFI_DEVICE_ERROR; EFI_UNSUPPORTED;
   EFI_UNSUPPORTED; EFI_INVALID_PARAMETER; EFI_INVALID_PARAMETER;
   EFI_DEVICE_ERROR; EFI_DEVICE_ERROR; EFI_DEVICE_ERROR;
   EFI_INVALID_PARAMETER; EFI_DEVICE_ERROR; EFI_NOT_READY;
   EFI_DEVICE_ERROR; EFI_DEVICE_ERROR; EFI_INVALID_PARAMETER;
   EFI_OUT_OF_RESOURCES; EFI_NOT_FOUND; EFI_INVALID_PARAMETER;
   EFI_INVALID_PARAMETER; EFI_UNSUPPORTED; EFI_UNSUPPORTED;
   EFI_INVALID_PARAMETER; EFI_NOT_READY; EFI_TIMEOUT;
   EFI_OUT_OF_RESOURCES; EFI_NOT_FOUND; EFI_NOT_FOUND;
   EFI_NOT_FOUND; EFI_DEVICE_ERROR; EFI_DEVICE_ERROR;
   EFI_DEVICE_ERROR; EFI_DEVICE_ERROR; EFI_PROTOCOL_ERROR;
   EFI_UNSUPPORTED; EFI_DEVICE_ERROR; EFI_DEVICE_ERROR;
   EFI_OUT_OF_RESOURCES; EFI_DEVICE_ERROR; EFI_DEVICE_ERROR;
   EFI_DEVICE_ERROR; EFI_NOT_FOUND; EFI_LOAD_ERROR;
   EFI_LOAD_ERROR; EFI_LOAD_ERROR; EFI_LOAD_ERROR;
   EFI_LOAD_ERROR; EFI_DEVICE_ERROR; EFI_DEVICE_ERROR;
   EFI_OUT_OF_RESOURCES; EFI_INVALID_PARAMETER; EFI_INVALID_PARAMETER;
   EFI_OUT_OF_RESOURCES; EFI_INVALID_PARAMETER; EFI_NOT_FOUND;
   EFI_UNSUPPORTED; EFI_UNSUPPORTED; EFI_UNSUPPORTED;
   EFI_UNSUPPORTED; EFI_UNSUPPORTED; EFI_NOT_READY;
   EFI_DEVICE_ERROR; EFI_DEVICE_ERROR; EFI_DEVICE_ERROR;
   EFI_DEVICE_ERROR; EFI_ABORTED; EFI_DEVICE_ERROR;
   EFI_OUT_OF_RESOURCES; EFI_DEVICE_ERROR; EFI_DEVICE_ERROR;
   EFI_DEVICE_ERROR; EFI_DEVICE_ERROR; EFI_TIMEOUT;
   EFI_ACCESS_DENIED; EFI_DEVICE_ERROR; EFI_DEVICE_ERROR;
   EFI_NOT_READY; EFI_NOT_READY; EFI_INVALID_PARAMETER;
   EFI_DEVICE_ERROR; EFI_UNSUPPORTED; EFI_OUT_OF_RESOURCES;
   EFI_INVALID_PARAMETER; EFI_DEVICE_ERROR; EFI_VOLUME_FULL;
   EFI_NO_MEDIA; EFI_INVALID_PARAMETER; EFI_ABORTED;
   EFI_NOT_FOUND; EFI_DEVICE_ERROR; EFI_DEVICE_ERROR;
   EFI_DEVICE_ERROR; EFI_INVALID_PARAMETER; EFI_DEVICE_ERROR;
   EFI_INVALID_PARAMETER; EFI_DEVICE_ERROR].

(** [LKLErrorStatus[i]] for a signed index: [None] is a read outside the
    table. *)
Definition LKLErrorStatus_read (i : Z) : option Z :=
  if i <? 0 then None else LKLErrorStatus !! Z.to_nat i.

(** The function with its table read checked. [Error] is an [INTN]; negating
    its smallest value gives the value itself. *)
Definition LKLError2EfiError_checked (Error : Z) : option Z :=
  let Error := if Error <? 0 then s32 (- Error) else Error in
  if Z.of_nat (length LKLErrorStatus) <=? u32 Error then Some MAX_UINTN
  else LKLErrorStatus_read Error.

(** Its result as the callers use it; [LKLError2EfiError_spec] proves that the
    checked read never fails, so the default is never taken. *)
Definition LKLError2EfiError (Error : Z) : Z :=
  default EFI_SUCCESS (LKLError2EfiError_checked Error).

(** ** Properties *)

Lemma LKLErrorStatus_errors i st :
  LKLErrorStatus !! i = Some st -> (EFI_ERROR st = negb (i =? 0)%nat /\ 0 <= st < 2 ^ 32).
Proof.
  assert (Hall : forallb (fun j => match LKLErrorStatus !! j with
      | Some st => eqb (EFI_ERROR st) (negb (j =? 0)%nat) && (0 <=? st) && (st <? 2 ^ 32) | None => true end)
    (seq 0 134) = true) by (vm_compute; reflexivity).
  intros Hi. pose proof (lookup_lt_Some _ _ _ Hi) as Hlt. change (length LKLErrorStatus) with 134%nat in Hlt.
  pose proof (forallb_in _ _ i Hall ltac:(apply elem_of_seq; lia)) as Hj. cbv beta in Hj. rewrite Hi, !andb_true_iff in Hj.
  destruct Hj as [[He H0] H1]. apply eqb_prop in He. split; [done|lia].
Qed.

Lemma LKLError2EfiError_checked_abs e : INT_MIN <= e <= INT_MAX ->
  LKLError2EfiError_checked e =
    if Z.abs e <? 134 then LKLErrorStatus !! Z.to_nat (Z.abs e) else Some MAX_UINTN.
Proof.
  intros He. unfold LKLError2EfiError_checked. change (Z.of_nat (length LKLErrorStatus)) with 134.
  unfold INT_MIN, INT_MAX in *.
  destruct (decide (e = - 2 ^ 31)) as [->|Hmin]; [by vm_compute|].
  assert (E : (if e <? 0 then s32 (- e) else e) = Z.abs e).
  { destruct (Z.ltb_spec e 0); [rewrite s32_small by (unfold INT_MIN, INT_MAX; lia)|]; lia. }
  rewrite E, u32_small by lia. unfold LKLErrorStatus_read.
  destruct (Z.leb_spec 134 (Z.abs e)), (Z.ltb_spec (Z.abs e) 134), (Z.ltb_spec (Z.abs e) 0); done || lia.
Qed.

(** The read succeeds, and the callers' function returns what it read. *)
Lemma LKLError2EfiError_reads e : INT_MIN <= e <= INT_MAX ->
  LKLError2EfiError_checked e = Some (LKLError2EfiError e) /\
  (Z.abs e < 134 -> LKLErrorStatus !! Z.to_nat (Z.abs e) = Some (LKLError2EfiError e)) /\
  (134 <= Z.abs e -> LKLError2EfiError e = MAX_UINTN).
Proof.
  intros He. unfold LKLError2EfiError. rewrite LKLError2EfiError_checked_abs by done.
  destruct (Z.ltb_spec (Z.abs e) 134); [|split_and!; [done|lia|done]].
  destruct (lookup_lt_is_Some_2 LKLErrorStatus (Z.to_nat (Z.abs e))) as [st ->];
    [change (length LKLErrorStatus) with 134%nat; lia|split_and!; [done|done|lia]].
Qed.

Lemma LKLError2EfiError_ok e : INT_MIN <= e <= INT_MAX ->
  (e = 0 -> LKLError2EfiError e = EFI_SUCCESS) /\
  (e <> 0 -> EFI_ERROR (LKLError2EfiError e) = true) /\
  (e <> INT_MIN -> LKLError2EfiError (- e) = LKLError2EfiError e).
Proof.
  intros He. destruct (LKLError2EfiError_reads e He) as [_ [Hin Hout]].
  split_and!; [by intros ->| |].
  - intros Hn. destruct (Z.lt_ge_cases (Z.abs e) 134) as [Hl|Hl]; [|by rewrite Hout].
    destruct (LKLErrorStatus_errors _ _ (Hin Hl)) as [-> _].
    destruct (Nat.eqb_spec (Z.to_nat (Z.abs e)) 0); [lia|done].
  - intros Hm. unfold LKLError2EfiError. unfold INT_MIN, INT_MAX in *.
    rewrite !LKLError2EfiError_checked_abs by (unfold INT_MIN, INT_MAX; lia). by rewrite Z.abs_opp.
Qed.

Lemma LKLError2EfiError_error e : INT_MIN <= e <= INT_MAX -> e <> 0 -> EFI_ERROR (LKLError2EfiError e) = true.
Proof. intros He. by apply LKLError2EfiError_ok. Qed.

(** C39: the translation never reads outside its table of 134 entries: for
    every [INTN], of either sign and the smallest one included, the checked
    run of the function reads inside the table or not at all. An error number
    the table has gives its entry, every other value [MAX_UINTN]; 0 gives
    success and every other value an error; and the sign does not matter. *)
Theorem LKLError2EfiError_spec e : INT_MIN <= e <= INT_MAX ->
  LKLError2EfiError_checked e = Some (LKLError2EfiError e) /\
  (Z.abs e < 134 -> LKLErrorStatus !! Z.to_nat (Z.abs e) = Some (LKLError2EfiError e)) /\
  (134 <= Z.abs e -> LKLError2EfiError e = MAX_UINTN) /\
  (e = 0 -> LKLError2EfiError e = EFI_SUCCESS) /\
  (e <> 0 -> EFI_ERROR (LKLError2EfiError e) = true) /\
  (e <> INT_MIN -> LKLError2EfiError (- e) = LKLError2EfiError e).
Proof.
  intros He. destruct (LKLError2EfiError_reads e He) as [? [??]], (LKLError2EfiError_ok e He) as [? [??]].
  by split_and!.
Qed.

Lemma LKLError2EfiError_spec_witness :
  LKLError2EfiError_checked (-134) = Some MAX_UINTN /\ LKLError2EfiError (-2) = EFI_NOT_FOUND.
Proof.
  destruct (LKLError2EfiError_spec (-134) ltac:(unfold INT_MIN, INT_MAX; lia)) as [H _].
  split; [exact H|vm_compute; reflexivity].
Defined.
