(* ===== verification/Lkl.v ===== *)
(** * The interface to LKL, and the effects of the file layer

    The Linux kernel library is not part of the sources: its system calls are
    the operations of a type class, with the documented behaviour the driver
    relies on as laws.  The file layer runs in a monad over the state of that
    kernel and of the firmware's pool allocator.  Strings are lists of
    character codes without the terminating NUL. *)

From S2P Require Import Prelude Efi.

Abbreviation str := (list Z) (only parsing).

Definition SLASH : Z := 47.
Definition BACKSLASH : Z := 92.
Definition DOT : Z := 46.

(** The fields of the Linux structures the driver reads. *)
Record lkl_stat := mk_stat {
  st_mode : Z; st_size : Z; st_blocks : Z; lkl_st_atime : Z; lkl_st_mtime : Z }.
Record lkl_statfs := mk_statfs { f_bsize : Z; f_blocks : Z; f_bfree : Z }.
Record lkl_utimbuf := mk_utimbuf { actime : Z; modtime : Z }.

(** A result below zero is a negated error number. *)
Class LklSys := {
  World : Type;
  lkl_dir : Type;
  lkl_sys_lstat : str -> World -> Z * lkl_stat;
  lkl_sys_readlink : str -> Z -> World -> Z * str;
  lkl_sys_fstat : Z -> World -> Z * lkl_stat;
  lkl_sys_statfs : str -> World -> Z * lkl_statfs;
  lkl_sys_open : str -> Z -> Z -> World -> Z * World;
  lkl_sys_openat : Z -> str -> Z -> Z -> World -> Z * World;
  lkl_sys_close : Z -> World -> Z * World;
  lkl_sys_mkdir : str -> Z -> World -> Z * World;
  lkl_sys_unlink : str -> World -> Z * World;
  lkl_sys_read : Z -> Z -> World -> (Z * list Z) * World;
  lkl_sys_write : Z -> list Z -> World -> Z * World;
  lkl_sys_lseek : Z -> Z -> Z -> World -> Z * World;
  lkl_sys_fsync : Z -> World -> Z * World;
  lkl_sys_ftruncate : Z -> Z -> World -> Z * World;
  lkl_sys_utime : option str -> lkl_utimbuf -> World -> Z * World;
  lkl_sys_chmod : str -> Z -> World -> Z * World;
  lkl_fdopendir : Z -> World -> (option lkl_dir * Z) * World;
  lkl_readdir : lkl_dir -> World -> option str * World;
  lkl_rewinddir : lkl_dir -> World -> World;
  lkl_errdir : lkl_dir -> World -> Z;
  LKL_S_ISLNK : Z -> bool;
  LKL_S_ISDIR : Z -> bool;
  LKL_S_IRUSR : Z;
  LKL_S_IWUSR : Z;
  LKL_O_RDONLY : Z;
  LKL_O_WRONLY : Z;
  LKL_O_RDWR : Z;
  LKL_O_CREAT : Z;
  LKL_SEEK_SET : Z;
  LKL_SEEK_CUR : Z;
  LKL_SEEK_END : Z;
  LKL_EEXIST : Z;
  (** Linux defines [O_RDONLY] as 0. *)
  LKL_O_RDONLY_zero : LKL_O_RDONLY = 0;
  (** The results are [INTN]s. *)
  lkl_open_int : forall p f m w, INT_MIN <= fst (lkl_sys_open p f m w) <= INT_MAX;
  lkl_mkdir_int : forall p m w, INT_MIN <= fst (lkl_sys_mkdir p m w) <= INT_MAX;
  lkl_fstat_int : forall fd w, INT_MIN <= fst (lkl_sys_fstat fd w) <= INT_MAX;
  lkl_read_int : forall fd n w, INT_MIN <= fst (fst (lkl_sys_read fd n w)) <= INT_MAX;
  lkl_write_int : forall fd b w, INT_MIN <= fst (lkl_sys_write fd b w) <= INT_MAX;
  (** [readlink] writes at most as many bytes as it is given room for. *)
  lkl_readlink_len : forall p n w, 0 <= fst (lkl_sys_readlink p n w) ->
    Z.of_nat (length (snd (lkl_sys_readlink p n w))) = fst (lkl_sys_readlink p n w) /\
    fst (lkl_sys_readlink p n w) <= n;
  (** [read] returns the number of bytes it has stored, at most those asked for. *)
  lkl_read_len : forall fd n w, 0 <= fst (fst (lkl_sys_read fd n w)) ->
    Z.of_nat (length (snd (fst (lkl_sys_read fd n w)))) = fst (fst (lkl_sys_read fd n w)) /\
    fst (fst (lkl_sys_read fd n w)) <= n
}.

(** The part of LKL that deals with block devices and mounts.  [lkl_sys_ioctl]
    takes the bytes its argument points to and gives those it leaves there; a
    disk is known by what its [struct lkl_disk] holds: the handle, and what
    [lkl_disk_add] has left in it, which its number stands for. *)
Class LklBlk `{LklSys} := {
  lkl_disk_add : Z -> World -> Z * World;
  lkl_disk_remove : Z -> Z -> World -> unit * World;
  (** disk, partition: the result and the device number *)
  lkl_get_virtio_blkdev : Z -> Z -> World -> Z * Z;
  (** disk, partition, type, flags, size of the buffer: the result and the mount point *)
  lkl_mount_dev : Z -> Z -> str -> Z -> Z -> World -> (Z * str) * World;
  lkl_sys_mknod : str -> Z -> Z -> World -> Z * World;
  (** device, mount point, type, flags *)
  lkl_sys_mount : str -> str -> str -> Z -> World -> Z * World;
  lkl_sys_umount : str -> Z -> World -> Z * World;
  lkl_sys_ioctl : Z -> Z -> list Z -> World -> (Z * list Z) * World;
  (** [_LKL_IOWR]: type, number, size *)
  LKL_IOWR : Z -> Z -> Z -> Z;
  LKL_BLKGETSIZE : Z;
  LKL_O_CLOEXEC : Z;
  LKL_S_IFBLK : Z;
  LKL_S_IFCHR : Z;
  LKL_MS_SYNCHRONOUS : Z;
  LKL_MS_DIRSYNC : Z;
  MAXPATHLEN : Z;
  (** An [ioctl] writes within the bytes it is given. *)
  lkl_ioctl_len : forall fd req b w, length (snd (fst (lkl_sys_ioctl fd req b w))) = length b;
  lkl_ioctl_bytes : forall fd req b w, Forall (fun x => 0 <= x < 256) b ->
    Forall (fun x => 0 <= x < 256) (snd (fst (lkl_sys_ioctl fd req b w)));
  (** The path length limit has room for the device names the driver makes. *)
  MAXPATHLEN_min : 64 <= MAXPATHLEN;
  lkl_disk_add_int : forall h w, INT_MIN <= fst (lkl_disk_add h w) <= INT_MAX;
  lkl_blkdev_int : forall d p w, INT_MIN <= fst (lkl_get_virtio_blkdev d p w) <= INT_MAX;
  lkl_blkdev_id : forall d p w, 0 <= snd (lkl_get_virtio_blkdev d p w) < 2 ^ 32;
  lkl_mount_dev_int : forall d p t f n w, INT_MIN <= fst (fst (lkl_mount_dev d p t f n w)) <= INT_MAX;
  lkl_mknod_int : forall p m d w, INT_MIN <= fst (lkl_sys_mknod p m d w) <= INT_MAX;
  lkl_mount_int : forall d p t f w, INT_MIN <= fst (lkl_sys_mount d p t f w) <= INT_MAX;
  lkl_ioctl_int : forall fd req b w, INT_MIN <= fst (fst (lkl_sys_ioctl fd req b w)) <= INT_MAX
}.

(** ** Effects *)

(** [pool_fails]: the outcomes of the coming allocations ([true]: out of
    memory; past its end every allocation succeeds).  [pool_live]: the number
    of blocks allocated and not freed. *)
Record fstate `{LklSys} := mk_fstate { world : World; pool_fails : list bool; pool_live : Z }.
Arguments mk_fstate {_} _ _ _.

Inductive ffailure := FAssert | FUB | FFuel.

Inductive fres `{LklSys} (A : Type) : Type :=
| FDone (a : A) (s : fstate)
| FFail (e : ffailure).
Arguments FDone {_ A} a s.
Arguments FFail {_ A} e.

Section monad.
Context `{LklSys}.

Definition FM (A : Type) : Type := fstate -> fres A.

#[export] Instance FM_ret : MRet FM := fun A a s => FDone a s.
#[export] Instance FM_bind : MBind FM := fun A B f m s =>
  match m s with FDone a s' => f a s' | FFail e => FFail e end.

Definition ffail {A} (e : ffailure) : FM A := fun _ => FFail e.
Definition fwhen (b : bool) (m : FM unit) : FM unit := if b then m else mret tt.

(** A system call that changes the kernel's state, and one that reads it. *)
Definition sys {A} (f : World -> A * World) : FM A := fun s =>
  let (a, w) := f (world s) in FDone a (mk_fstate w (pool_fails s) (pool_live s)).
Definition query {A} (f : World -> A) : FM A := fun s => FDone (f (world s)) s.

(** [AllocatePool] and the like: whether the block was allocated. *)
Definition AllocatePool : FM bool := fun s =>
  match pool_fails s with
  | true :: fs => FDone false (mk_fstate (world s) fs (pool_live s))
  | fs => FDone true (mk_fstate (world s) (tail fs) (pool_live s + 1))
  end.
Definition FreePool : FM unit := fun s =>
  FDone tt (mk_fstate (world s) (pool_fails s) (pool_live s - 1)).
(** Whether the coming allocation fails. *)
Definition no_memory (s : fstate) : bool := default false (head (pool_fails s)).
(** [ReallocatePool]: the old block goes when the new one could be had. *)
Definition ReallocatePool : FM bool := fun s =>
  match pool_fails s with
  | true :: fs => FDone false (mk_fstate (world s) fs (pool_live s))
  | fs => FDone true (mk_fstate (world s) (tail fs) (pool_live s))
  end.

Lemma fbind_done {A B} (m : FM A) (f : A -> FM B) s a s' :
  m s = FDone a s' -> (m ≫= f) s = f a s'.
Proof. unfold mbind, FM_bind. by intros ->. Qed.

Lemma fbind_inv {A B} (m : FM A) (f : A -> FM B) s b s' :
  (m ≫= f) s = FDone b s' -> exists a s0, m s = FDone a s0 /\ f a s0 = FDone b s'.
Proof. unfold mbind, FM_bind. destruct (m s); naive_solver. Qed.

(** *** Hoare triples for total correctness *)

(** From [s], [m] finishes, and its result satisfies [Q]. *)
Definition fwp {A} (m : FM A) (Q : A -> fstate -> Prop) (s : fstate) : Prop :=
  match m s with FDone a s' => Q a s' | FFail _ => False end.

Lemma fwp_mono {A} (m : FM A) (Q Q' : A -> fstate -> Prop) s :
  fwp m Q s -> (forall a s', Q a s' -> Q' a s') -> fwp m Q' s.
Proof. unfold fwp. destruct (m s); naive_solver. Qed.

Lemma fwp_ret {A} (a : A) (Q : A -> fstate -> Prop) s : Q a s -> fwp (mret a) Q s.
Proof. done. Qed.

Lemma fwp_bind {A B} (m : FM A) (f : A -> FM B) (Q : B -> fstate -> Prop) s :
  fwp m (fun a s' => fwp (f a) Q s') s -> fwp (m ≫= f) Q s.
Proof. unfold fwp, mbind, FM_bind. by destruct (m s). Qed.

Lemma fwp_sys {A} (f : World -> A * World) (Q : A -> fstate -> Prop) s :
  Q (fst (f (world s))) (mk_fstate (snd (f (world s))) (pool_fails s) (pool_live s)) -> fwp (sys f) Q s.
Proof. unfold fwp, sys. by destruct (f (world s)). Qed.

Lemma fwp_query {A} (f : World -> A) (Q : A -> fstate -> Prop) s :
  Q (f (world s)) s -> fwp (query f) Q s.
Proof. done. Qed.

Lemma fwp_alloc (Q : bool -> fstate -> Prop) s :
  (forall fs, Q false (mk_fstate (world s) fs (pool_live s))) ->
  (forall fs, Q true (mk_fstate (world s) fs (pool_live s + 1))) -> fwp AllocatePool Q s.
Proof. unfold fwp, AllocatePool. destruct (pool_fails s) as [|[] ?]; eauto. Qed.

Lemma fwp_realloc (Q : bool -> fstate -> Prop) s :
  (forall b fs, Q b (mk_fstate (world s) fs (pool_live s))) -> fwp ReallocatePool Q s.
Proof. unfold fwp, ReallocatePool. destruct (pool_fails s) as [|[] ?]; eauto. Qed.

Lemma fwp_free (Q : unit -> fstate -> Prop) s :
  Q tt (mk_fstate (world s) (pool_fails s) (pool_live s - 1)) -> fwp FreePool Q s.
Proof. done. Qed.
End monad.

(** One step of a triple. *)
Ltac fstep := cbv beta; cbn [negb]; lazymatch goal with
  | |- fwp (mret _) _ _ => apply fwp_ret
  | |- fwp (_ ≫= _) _ _ => apply fwp_bind; try fstep
  | |- fwp (sys _) _ _ => apply fwp_sys
  | |- fwp (query _) _ _ => apply fwp_query
  | |- fwp AllocatePool _ _ => apply fwp_alloc; intros ?
  | |- fwp ReallocatePool _ _ => apply fwp_realloc; intros ? ?
  | |- fwp FreePool _ _ => apply fwp_free
  end.
