(* ===== verification/Path.v ===== *)
(** * Strings and paths ([Misc.c])

    Conversions of path strings, the base name, the removal of trailing
    slashes, and [RealPath], the resolution of a path to its canonical form
    through LKL's [lstat] and [readlink].  A C string is the list of its
    characters before the NUL; a pointer into it is an offset or the rest of
    the list. *)

From S2P Require Import Prelude Efi Lkl Errors.

(** ** Conversions *)

(** Hexadecimal digits in upper case, padded with zeros to a width, as EDK2's
    [%0wx] prints them. *)
Fixpoint uhex (fuel : nat) (n : Z) (acc : str) : str :=
  match fuel with
  | O => acc
  | S f => let d := n `mod` 16 in
           let acc := (if 9 <? d then d + 55 else d + 48) :: acc in
           if n / 16 =? 0 then acc else uhex f (n / 16) acc
  end.
Definition pad_hex (w : nat) (n : Z) : str :=
  let d := uhex 16 n [] in replicate (w - length d) 48 ++ d.

(** A format string of [%a] directives, [%0wx] directives with their argument
    and plain characters, and the text it stands for. *)
Inductive fmt_piece := Pa | Px (w : nat) (n : Z) | Pc (c : Z).
Fixpoint expand (fmt : list fmt_piece) (args : list str) : str :=
  match fmt with
  | [] => []
  | Pa :: fmt' => match args with a :: args' => a ++ expand fmt' args' | [] => [] end
  | Px w n :: fmt' => pad_hex w n ++ expand fmt' args
  | Pc c :: fmt' => c :: expand fmt' args
  end.

(** The EDK2 string library.  The conversions between 16-bit and 8-bit strings
    go character by character and leave ASCII characters unchanged; the
    formatted print gives the whole text, and the bounded copy the whole
    source, when it fits with its NUL. *)
Class EdkStrings := {
  UnicodeStrToAsciiStr : str -> str;
  AsciiStrToUnicodeStr : str -> str;
  (** the size of the buffer, the format and its arguments *)
  AsciiSPrint : Z -> list fmt_piece -> list str -> str;
  (** the same in 16-bit characters, the size still in bytes *)
  UnicodeSPrint : Z -> list fmt_piece -> list str -> str;
  (** the destination, its size, the source and the number of characters *)
  AsciiStrnCpyS : str -> Z -> str -> Z -> str;
  unicode_ascii_length : forall s, length (UnicodeStrToAsciiStr s) = length s;
  ascii_unicode_length : forall s, length (AsciiStrToUnicodeStr s) = length s;
  unicode_ascii_id : forall s, Forall (fun c => 0 < c < 128) s -> UnicodeStrToAsciiStr s = s;
  ascii_unicode_id : forall s, Forall (fun c => 0 < c < 128) s -> AsciiStrToUnicodeStr s = s;
  AsciiSPrint_fits : forall size fmt args,
    Z.of_nat (length (expand fmt args)) < size -> AsciiSPrint size fmt args = expand fmt args;
  UnicodeSPrint_fits : forall size fmt args,
    2 * (Z.of_nat (length (expand fmt args)) + 1) <= size -> UnicodeSPrint size fmt args = expand fmt args;
  AsciiStrnCpyS_fits : forall dst max src n,
    Z.of_nat (length src) < max -> Z.of_nat (length src) <= n -> AsciiStrnCpyS dst max src n = src
}.

Section conversions.
Context `{LklSys} `{EdkStrings}.

Definition Unicode2Ascii (UnicodeStr : str) : FM (option str) :=
  AsciiStr ← AllocatePool;
  if negb AsciiStr then mret None else mret (Some (UnicodeStrToAsciiStr UnicodeStr)).

Definition Ascii2Unicode (AsciiStr : str) : FM (option str) :=
  UnicodeStr ← AllocatePool;
  if negb UnicodeStr then mret None else mret (Some (AsciiStrToUnicodeStr AsciiStr)).

(** [AllocateCopyPool] of the whole string. *)
Definition AsciiStrDup (Str : str) : FM (option str) :=
  p ← AllocatePool; mret (if (p : bool) then Some Str else None).
Definition UnicodeStrDup (Str : str) : FM (option str) :=
  p ← AllocatePool; mret (if (p : bool) then Some Str else None).
End conversions.

(** The loops that replace one character by another, in place. *)
Fixpoint replace_char (from to : Z) (fname : str) : str :=
  match fname with
  | [] => []
  | c :: s => (if c =? from then to else c) :: replace_char from to s
  end.

Definition PathToUnix (fname : str) : str := replace_char BACKSLASH SLASH fname.
Definition PathToUefi (fname : str) : str := replace_char SLASH BACKSLASH fname.
Definition PathToUnixAscii (fname : str) : str := replace_char BACKSLASH SLASH fname.
Definition PathToUefiAscii (fname : str) : str := replace_char SLASH BACKSLASH fname.

(** [L'A'] to [L'F'] become [L'a'] to [L'f']. *)
Fixpoint UnicodeToLower (UnicodeString : str) : str :=
  match UnicodeString with
  | [] => []
  | c :: s => (if (65 <=? c) && (c <=? 70) then u16 (c - 65 + 97) else c) :: UnicodeToLower s
  end.

(** ** Base name, trailing slashes, prefixes *)

(** [for (; i && s[i-1]!='/'; i--);] *)
Fixpoint basename_loop (s : str) (i : nat) : nat :=
  match i with
  | O => O
  | S i' => if s !! i' is Some c then if c =? SLASH then i else basename_loop s i' else i
  end.

(** The offset of the result in [s]. *)
Definition GetBasenamePtr (s : str) : nat :=
  match s with [] => O | _ => basename_loop s (length s - 1) end.

(** [for (; i && s[i]=='/'; i--) s[i] = 0;]: a NUL cuts the string. *)
Fixpoint trailing_loop (s : str) (i : nat) : str :=
  match i with
  | O => s
  | S i' => if s !! i is Some c then
              if c =? SLASH then trailing_loop (take i s) i' else s
            else s
  end.

Definition RemoveTrailingSlashes (s : str) : str :=
  match s with [] => [] | _ => trailing_loop s (length s - 1) end.

(** [AsciiStrnCmp(pre, str, AsciiStrLen(pre)) == 0] *)
Definition StartsWith (s pre : str) : bool := bool_decide (take (length pre) s = pre).

(** ** [RealPath] *)

Definition path_max : Z := 4096.
Definition MAX_LINKS : Z := 40.

(** Past a run of separators, and the next component with what follows it. *)
Fixpoint skip_slashes (s : str) : str :=
  match s with c :: s' => if c =? SLASH then skip_slashes s' else s | [] => [] end.
Fixpoint component (s : str) : str * str :=
  match s with
  | [] => ([], [])
  | c :: s' => if c =? SLASH then ([], s) else let (x, e) := component s' in (c :: x, e)
  end.

(** The characters of [rpath] before [dest] are kept in reverse order:
    [dest[-1]] is the head.  [while ((--dest)[-1] != '/');] *)
Fixpoint back_to_slash (d : str) : str :=
  match d with c :: d' => if c =? SLASH then d else back_to_slash d' | [] => [] end.
Definition back_up (d : str) : str :=
  if (1 <? length d)%nat then back_to_slash (tail d) else d.

Section realpath.
Context `{LklSys}.

(** [n] characters are stored from [dest] on; the buffer has [limit]. *)
Definition room (d : str) (n limit : Z) : FM unit :=
  if Z.of_nat (length d) + n <=? limit then mret tt else ffail FUB.

(** The component that was just appended to the buffer: an ordinary entry is
    kept; for a symbolic link the loop ([self]) goes on with its target. *)
Definition realpath_entry (self : str -> str -> Z -> Z -> FM (option str)) (end_ d : str)
    (num_links limit : Z) : FM (option str) :=
  st ← query (lkl_sys_lstat (rev d));
  if fst (st : Z * lkl_stat) <? 0 then mret None
  else if LKL_S_ISLNK (st_mode (snd st)) then
    if MAX_LINKS <? num_links + 1 then mret None
    else
      rl ← query (lkl_sys_readlink (rev d) (path_max - 1));
      let (n, buf) := (rl : Z * str) in
      if n <? 0 then mret None
      else if path_max <=? n + Z.of_nat (length end_) then mret None
      else
        self (buf ++ end_) (if bool_decide (head buf = Some SLASH) then [SLASH] else back_up d)
          (num_links + 1) limit
  else self end_ d num_links limit.

(** The loop: [rest] is what is left of the name, [num_links] the symbolic
    links followed, [limit] the size of the result buffer; [None]: error. *)
Fixpoint realpath_loop (fuel : nat) (resolved : bool) (rest d : str) (num_links limit : Z)
    : FM (option str) :=
  match fuel with
  | O => ffail FFuel
  | S fuel' =>
      match rest with
      | [] => mret (Some d)
      | _ =>
          let (comp, end_) := component (skip_slashes rest) in
          if bool_decide (comp = []) then mret (Some d)
          else if bool_decide (comp = [DOT]) then realpath_loop fuel' resolved end_ d num_links limit
          else if bool_decide (comp = [DOT; DOT]) then
            realpath_loop fuel' resolved end_ (back_up d) num_links limit
          else
            let slash := negb (bool_decide (head d = Some SLASH)) in
            fwhen slash (room d 1 limit);;
            let d := if slash then SLASH :: d else d in
            let n := Z.of_nat (length comp) in
            limit' ←
              (if limit <=? Z.of_nat (length d) + n then
                 if resolved then mret None
                 else
                   let new_size := limit + (if path_max <? n + 1 then n + 1 else path_max) in
                   ok ← ReallocatePool;
                   mret (if ok : bool then Some new_size else None)
               else mret (Some limit));
            match (limit' : option Z) with
            | None => mret None
            | Some limit =>
                room d (n + 1) limit;;
                realpath_entry (realpath_loop fuel' resolved) end_ (rev comp ++ d) num_links limit
            end
      end
  end.

(** Enough for the name and for the longest names 40 links can put in its
    place. *)
Definition realpath_fuel (name : str) : nat := length name + 41 * Z.to_nat path_max + 1.

(** [RealPath(name, resolved)], [resolved] telling whether the caller gives a
    buffer of [path_max] bytes; the result is the string in the buffer. *)
Definition RealPath (name : option str) (resolved : bool) : FM (option str) :=
  match name with
  | None | Some [] => mret None
  | Some name =>
      rpath ← (if resolved then mret true else AllocatePool);
      if negb (rpath : bool) then mret None
      else
        r ← (if negb (bool_decide (head name = Some SLASH)) then mret None
             else realpath_loop (realpath_fuel name) resolved name [SLASH] 0 path_max);
        match (r : option str) with
        | None => fwhen (negb resolved) FreePool;; mret None
        | Some d =>
            let d := if (1 <? length d)%nat && bool_decide (head d = Some SLASH) then tail d else d in
            mret (Some (rev d))
        end
  end.

Definition LKLMakeDir (Path : str) : FM Z :=
  Ret ← sys (lkl_sys_mkdir Path 448);
  mret (if negb ((Ret : Z) =? 0) && negb (Ret =? - LKL_EEXIST) then LKLError2EfiError Ret else EFI_SUCCESS).
End realpath.

(** ** Specification: paths as sequences of components *)

(** The components of a path: the maximal runs without a separator. *)
Fixpoint comps_from (cur s : str) : list str :=
  let flush := if bool_decide (cur = []) then [] else [cur] in
  match s with
  | [] => flush
  | c :: s' => if c =? SLASH then flush ++ comps_from [] s' else comps_from (cur ++ [c]) s'
  end.
Definition comps (s : str) : list str := comps_from [] s.

Definition path_of (cs : list str) : str := concat (map (cons SLASH) cs).
Definition render (cs : list str) : str := match cs with [] => [SLASH] | _ => path_of cs end.

Section resolution.
Context `{LklSys}.

(** Resolution without a look at what is a directory: from [cs], following the
    components that remain leads to the directory or file [r]. *)
Inductive resolves (w : World) : list str -> list str -> list str -> Prop :=
| rs_done cs : resolves w cs [] cs
| rs_dot cs t r : resolves w cs t r -> resolves w cs ([DOT] :: t) r
| rs_dotdot cs t r : resolves w (removelast cs) t r -> resolves w cs ([DOT; DOT] :: t) r
| rs_file cs c t r :
    c <> [DOT] -> c <> [DOT; DOT] ->
    0 <= fst (lkl_sys_lstat (path_of (cs ++ [c])) w) ->
    LKL_S_ISLNK (st_mode (snd (lkl_sys_lstat (path_of (cs ++ [c])) w))) = false ->
    resolves w (cs ++ [c]) t r -> resolves w cs (c :: t) r
| rs_link cs c t r target :
    c <> [DOT] -> c <> [DOT; DOT] ->
    0 <= fst (lkl_sys_lstat (path_of (cs ++ [c])) w) ->
    LKL_S_ISLNK (st_mode (snd (lkl_sys_lstat (path_of (cs ++ [c])) w))) = true ->
    0 <= fst (lkl_sys_readlink (path_of (cs ++ [c])) (path_max - 1) w) ->
    target = snd (lkl_sys_readlink (path_of (cs ++ [c])) (path_max - 1) w) ->
    resolves w (if bool_decide (head target = Some SLASH) then [] else cs) (comps target ++ t) r ->
    resolves w cs (c :: t) r.

(** [cs] is a directory; the root is one. *)
Definition directory (w : World) (cs : list str) : Prop :=
  cs = [] \/ LKL_S_ISDIR (st_mode (snd (lkl_sys_lstat (path_of cs) w))) = true.

(** The components POSIX resolution goes through: a separator at the end stands
    for a last component [.]. *)
Definition posix_comps (s : str) : list str :=
  comps s ++ (if bool_decide (last s = Some SLASH) then [[DOT]] else []).

(** POSIX path resolution: the same, but every component is looked up in a
    directory; [k]: the symbolic links followed. *)
Inductive posix_resolves (w : World) : list str -> list str -> nat -> list str -> Prop :=
| ps_done cs : posix_resolves w cs [] 0 cs
| ps_dot cs t k r : directory w cs -> posix_resolves w cs t k r -> posix_resolves w cs ([DOT] :: t) k r
| ps_dotdot cs t k r :
    directory w cs -> posix_resolves w (removelast cs) t k r -> posix_resolves w cs ([DOT; DOT] :: t) k r
| ps_file cs c t k r :
    directory w cs -> c <> [DOT] -> c <> [DOT; DOT] ->
    0 <= fst (lkl_sys_lstat (path_of (cs ++ [c])) w) ->
    LKL_S_ISLNK (st_mode (snd (lkl_sys_lstat (path_of (cs ++ [c])) w))) = false ->
    posix_resolves w (cs ++ [c]) t k r -> posix_resolves w cs (c :: t) k r
| ps_link cs c t k r target :
    directory w cs -> c <> [DOT] -> c <> [DOT; DOT] ->
    0 <= fst (lkl_sys_lstat (path_of (cs ++ [c])) w) ->
    LKL_S_ISLNK (st_mode (snd (lkl_sys_lstat (path_of (cs ++ [c])) w))) = true ->
    0 <= fst (lkl_sys_readlink (path_of (cs ++ [c])) (path_max - 1) w) ->
    target = snd (lkl_sys_readlink (path_of (cs ++ [c])) (path_max - 1) w) ->
    posix_resolves w (if bool_decide (head target = Some SLASH) then [] else cs) (posix_comps target ++ t) k r ->
    posix_resolves w cs (c :: t) (S k) r.

(** A canonical path: proper names only, and every prefix names an existing
    file that is not a symbolic link. *)
Definition name_ok (c : str) : Prop := c <> [] /\ SLASH ∉ c /\ c <> [DOT] /\ c <> [DOT; DOT].
Definition canonical (w : World) (cs : list str) : Prop :=
  Forall name_ok cs /\
  forall k, (0 < k <= length cs)%nat ->
    0 <= fst (lkl_sys_lstat (path_of (take k cs)) w) /\
    LKL_S_ISLNK (st_mode (snd (lkl_sys_lstat (path_of (take k cs)) w))) = false.

(** *** Strings and components *)

Definition stops (e : str) : Prop := e = [] \/ head e = Some SLASH.

Lemma component_spec s x e : component s = (x, e) -> s = x ++ e /\ SLASH ∉ x /\ stops e.
Proof.
  revert x e. induction s as [|c s IH]; simpl; intros x e E.
  - injection E as <- <-. split; [done|]. split; [apply not_elem_of_nil|by left].
  - destruct (Z.eqb_spec c SLASH) as [->|Hc].
    + injection E as <- <-. split; [done|]. split; [apply not_elem_of_nil|by right].
    + destruct (component s) as [x' e']. injection E as <- <-.
      destruct (IH _ _ eq_refl) as (-> & Hx & He). split; [done|]. split; [set_solver|done].
Qed.

Lemma comps_from_slash cur s : comps_from cur (SLASH :: s) = comps_from cur [] ++ comps_from [] s.
Proof. done. Qed.

Lemma comps_from_run x : forall cur s, SLASH ∉ x -> comps_from cur (x ++ s) = comps_from (cur ++ x) s.
Proof.
  induction x as [|c x IH]; intros cur s Hx; simpl; [by rewrite app_nil_r|].
  destruct (Z.eqb_spec c SLASH) as [->|Hc]; [set_solver|].
  rewrite IH by set_solver. by rewrite <- app_assoc.
Qed.

Lemma comps_from_stop cur e : stops e -> comps_from cur e = comps_from cur [] ++ comps e.
Proof.
  intros [->|He]; [by rewrite app_nil_r|]. destruct e as [|c e]; [done|]. simpl in He. simplify_eq.
  done.
Qed.

Lemma comps_component x e : SLASH ∉ x -> x <> [] -> stops e -> comps (x ++ e) = x :: comps e.
Proof.
  intros Hx Hne He. unfold comps at 1. rewrite comps_from_run by done. simpl.
  rewrite comps_from_stop by done. simpl. by rewrite bool_decide_eq_false_2.
Qed.

Lemma comps_skip s : comps (skip_slashes s) = comps s.
Proof.
  induction s as [|c s IH]; [done|]. simpl. destruct (Z.eqb_spec c SLASH) as [->|]; [|done].
  rewrite IH. done.
Qed.

Lemma comps_from_app t : forall cur e, stops e -> comps_from cur (t ++ e) = comps_from cur t ++ comps e.
Proof.
  induction t as [|c t IH]; intros cur e He; simpl app.
  - by apply comps_from_stop.
  - simpl. destruct (c =? SLASH); [|by apply IH].
    by rewrite IH, app_assoc by done.
Qed.

Lemma comps_app t e : stops e -> comps (t ++ e) = comps t ++ comps e.
Proof. apply comps_from_app. Qed.

Lemma skip_slashes_length s : (length (skip_slashes s) <= length s)%nat.
Proof. induction s as [|c s IH]; simpl; [lia|]. destruct (c =? SLASH); simpl; lia. Qed.

Lemma path_of_app cs cs' : path_of (cs ++ cs') = path_of cs ++ path_of cs'.
Proof. unfold path_of. by rewrite map_app, concat_app. Qed.

(** *** The buffer *)

(** The characters before [dest], reversed, for the directory [cs], with or
    without a separator after it. *)
Definition holds (cs : list str) (b : bool) (d : str) : Prop :=
  rev d = path_of cs ++ (if b then [SLASH] else []) /\ Forall name_ok cs /\ (cs = [] -> b = true).

Lemma back_to_slash_run x y : SLASH ∉ x -> back_to_slash (x ++ SLASH :: y) = SLASH :: y.
Proof.
  induction x as [|c x IH]; simpl; intros Hx; [done|].
  destruct (Z.eqb_spec c SLASH) as [->|]; [set_solver|]. apply IH. set_solver.
Qed.

Lemma elem_of_rev c (x : str) : c ∈ rev x <-> c ∈ x.
Proof. rewrite !list_elem_of_In. by rewrite <- in_rev. Qed.

Lemma rev_eq (d x : str) : rev d = x -> d = rev x.
Proof. intros <-. by rewrite rev_involutive. Qed.

Lemma holds_slash d : holds [] true d <-> d = [SLASH].
Proof.
  unfold holds. simpl. split; [|by intros ->].
  intros (Hd & _). by apply rev_eq in Hd.
Qed.

Lemma holds_snoc cs c b d : holds (cs ++ [c]) b d ->
  d = (if b then [SLASH] else []) ++ rev c ++ SLASH :: rev (path_of cs) /\ name_ok c /\ Forall name_ok cs.
Proof.
  intros (Hd & Hok & _). apply Forall_app in Hok as [Hok Hc]. rewrite Forall_singleton in Hc.
  split; [|done]. apply rev_eq in Hd. rewrite Hd, path_of_app. unfold path_of at 2. simpl.
  rewrite app_nil_r, !rev_app_distr. simpl. rewrite <- !app_assoc. by destruct b.
Qed.

Lemma back_up_ok cs b d : holds cs b d ->
  holds (removelast cs) true (back_up d) /\ (length (back_up d) <= length d)%nat.
Proof.
  intros Hd. destruct cs as [|c cs' _] using rev_ind.
  - assert (b = true) as -> by by apply Hd. apply holds_slash in Hd as ->. split; [|done].
    by apply holds_slash.
  - rewrite removelast_last. destruct (holds_snoc _ _ _ _ Hd) as (-> & (Hne & Hns & _) & Hok).
    assert (Hr : rev c <> [] /\ SLASH ∉ rev c).
    { split; [intros E; apply Hne; by apply rev_eq in E|]. by rewrite elem_of_rev. }
    destruct Hr as [Hr1 Hr2]. destruct (rev c) as [|k r] eqn:E; [done|].
    assert (Hb : back_up ((if b then [SLASH] else []) ++ (k :: r) ++ SLASH :: rev (path_of cs')) =
      SLASH :: rev (path_of cs')).
    { unfold back_up. destruct b; simpl; [|rewrite length_app; simpl; rewrite Nat.add_succ_r; simpl].
      - destruct (Z.eqb_spec k SLASH) as [->|]; [set_solver|]. apply back_to_slash_run. set_solver.
      - apply back_to_slash_run. set_solver. }
    rewrite Hb. split.
    + split; [|done]. simpl. by rewrite rev_involutive.
    + rewrite !length_app. simpl. lia.
Qed.

Lemma holds_append cs b d c : holds cs b d -> name_ok c ->
  let d1 := if negb (bool_decide (head d = Some SLASH)) then SLASH :: d else d in
  holds (cs ++ [c]) false (rev c ++ d1) /\ rev (rev c ++ d1) = path_of (cs ++ [c]) /\
  (b = true -> d1 = d) /\ (length d1 <= length d + 1)%nat.
Proof.
  intros (Hd & Hok & Hb) Hc d1.
  assert (H1 : rev d1 = path_of cs ++ [SLASH] /\ (b = true -> d1 = d) /\ (length d1 <= length d + 1)%nat).
  { subst d1. destruct b; simpl.
    - assert (d = SLASH :: rev (path_of cs)) as -> by (apply rev_eq in Hd; by rewrite Hd, rev_app_distr).
      rewrite bool_decide_eq_true_2 by done. cbn [negb rev]. rewrite rev_involutive. split_and!; [done..|lia].
    - rewrite app_nil_r in Hd. destruct cs as [|c' cs' _] using rev_ind; [by specialize (Hb eq_refl)|].
      destruct (holds_snoc cs' c' false d) as (Ed & Hc' & _).
      { split; [by rewrite app_nil_r|done]. }
      assert (Hh : head d <> Some SLASH).
      { rewrite Ed. simpl. destruct Hc' as (Hne & Hns & _).
        assert (Hr : SLASH ∉ rev c') by (by rewrite elem_of_rev).
        destruct (rev c') as [|k r] eqn:E; [by apply rev_eq in E|]. simpl. intros [= ->]. set_solver. }
      rewrite bool_decide_eq_false_2 by done. simpl. rewrite Hd. split_and!; [done..|lia]. }
  destruct H1 as (Hr & ? & ?).
  assert (Hrev : rev (rev c ++ d1) = path_of (cs ++ [c])).
  { rewrite rev_app_distr, rev_involutive, Hr, path_of_app, <- app_assoc. unfold path_of at 3. simpl.
    by rewrite app_nil_r. }
  split; [|done]. split; [by rewrite Hrev, app_nil_r|]. split; [|by destruct cs].
  apply Forall_app. split; [done|]. by apply Forall_singleton.
Qed.

(** *** The loop *)

(** What the loop leaves alone, and the path it arrives at. *)
Definition realpath_post (cs todo : list str) (s : fstate) (r : option str) (s' : fstate) : Prop :=
  world s' = world s /\ pool_live s' = pool_live s /\
  match r with
  | Some d => exists cs' b', holds cs' b' d /\ resolves (world s) cs todo cs'
  | None => True
  end.

Lemma fwp_room d n limit Q s :
  Z.of_nat (length d) + n <= limit -> Q tt s -> fwp (room d n limit) Q s.
Proof. intros Hle HQ. unfold room. by rewrite (proj2 (Z.leb_le _ _)). Qed.

Lemma realpath_post_none cs todo s s' :
  world s' = world s -> pool_live s' = pool_live s -> realpath_post cs todo s None s'.
Proof. done. Qed.

(** The rest of the loop from another directory, with other components left. *)
Lemma fwp_continue {m : FM (option str)} cs cs2 todo todo2 s s1 :
  fwp m (realpath_post cs2 todo2 s1) s1 ->
  world s1 = world s -> pool_live s1 = pool_live s ->
  (forall r, resolves (world s) cs2 todo2 r -> resolves (world s) cs todo r) ->
  fwp m (realpath_post cs todo s) s1.
Proof.
  intros Hm Hw1 Hp1 Hres. eapply fwp_mono; [exact Hm|]. intros r s' (Hw & Hp & Hr).
  rewrite Hw1 in *. split; [done|]. split; [congruence|]. destruct r as [d|]; [|done].
  destruct Hr as (cs' & b' & Hh & Hr). exists cs', b'. split; [done|by apply Hres].
Qed.

(** The growth of the buffer: afterwards the component and its NUL fit. *)
Lemma fwp_grow (resolved : bool) (d1 : str) n limit s (Q : option Z -> fstate -> Prop) :
  0 <= n -> Z.of_nat (length d1) <= limit ->
  (forall s', world s' = world s -> pool_live s' = pool_live s -> Q None s') ->
  (forall s' limit', world s' = world s -> pool_live s' = pool_live s ->
     Z.of_nat (length d1) + n < limit' -> Q (Some limit') s') ->
  fwp (if limit <=? Z.of_nat (length d1) + n then
         if resolved then mret None
         else
           ok ← ReallocatePool;
           mret (if ok : bool then Some (limit + (if path_max <? n + 1 then n + 1 else path_max)) else None)
       else mret (Some limit)) Q s.
Proof.
  intros Hn Hl HN HS. destruct (Z.leb_spec limit (Z.of_nat (length d1) + n)) as [Hle|Hgt].
  - destruct resolved; [by apply HN|]. apply fwp_bind, fwp_realloc. intros [] fs; [|by apply HN].
    apply HS; [done..|]. unfold path_max. destruct (Z.ltb_spec 4096 (n + 1)); lia.
  - by apply HS.
Qed.

(** What the loop promises with [fuel] iterations left. *)
Definition realpath_ok (self : str -> str -> Z -> Z -> FM (option str)) (fuel : Z) : Prop :=
  forall rest d cs b links limit s,
    holds cs b d -> Z.of_nat (length d) < limit -> 0 <= links <= MAX_LINKS ->
    Z.of_nat (length rest) + (MAX_LINKS + 1 - links) * path_max < fuel ->
    fwp (self rest d links limit) (realpath_post cs (comps rest) s) s.

Lemma realpath_entry_ok self fuel cs x e d links limit s s1 :
  realpath_ok self fuel -> holds (cs ++ [x]) false d -> rev d = path_of (cs ++ [x]) ->
  Z.of_nat (length d) < limit -> 0 <= links <= MAX_LINKS ->
  Z.of_nat (length e) + (MAX_LINKS + 1 - links) * path_max < fuel -> stops e ->
  (x <> [] /\ x <> [DOT] /\ x <> [DOT; DOT]) -> world s1 = world s -> pool_live s1 = pool_live s ->
  fwp (realpath_entry self e d links limit) (realpath_post cs (x :: comps e) s) s1.
Proof.
  intros IH Hd Hrev Hlim Hlinks Hfuel Hst (Hx0 & Hdot & Hdd) Hw1 Hp1. unfold realpath_entry.
  apply fwp_bind, fwp_query. rewrite Hrev, Hw1.
  destruct (Z.ltb_spec (fst (lkl_sys_lstat (path_of (cs ++ [x])) (world s))) 0) as [|Hls].
  { by apply realpath_post_none. }
  destruct (LKL_S_ISLNK _) eqn:Hlnk.
  2: { eapply fwp_continue; [eapply IH; [exact Hd|exact Hlim|done|done]|done|done|]. intros r. by apply rs_file. }
  destruct (Z.ltb_spec MAX_LINKS (links + 1)) as [|Hml]; [by apply realpath_post_none|].
  apply fwp_bind, fwp_query. rewrite Hw1.
  pose proof (lkl_readlink_len (path_of (cs ++ [x])) (path_max - 1) (world s)) as Hrl.
  pose proof (rs_link (world s) cs x (comps e)) as Hlink.
  destruct (lkl_sys_readlink _ _ _) as [n buf]. simpl in Hrl, Hlink.
  destruct (Z.ltb_spec n 0) as [|Hn]; [by apply realpath_post_none|].
  destruct (Z.leb_spec path_max (n + Z.of_nat (length e))) as [|Htot]; [by apply realpath_post_none|].
  destruct (Hrl Hn) as [Hbuf _].
  assert (Hf2 : Z.of_nat (length (buf ++ e)) + (MAX_LINKS + 1 - (links + 1)) * path_max < fuel).
  { rewrite length_app. unfold path_max in *. lia. }
  destruct (back_up_ok _ _ _ Hd) as [Hd3 Hl3]. rewrite removelast_last in Hd3.
  case_bool_decide as Habs.
  - eapply fwp_continue; [eapply IH; [by apply holds_slash| |lia|exact Hf2]|done|done|].
    { assert (d <> []) by (intros ->; by destruct cs). destruct d; simpl in *; [done|lia]. }
    rewrite comps_app by done. intros r Hr. eapply Hlink; try done. by rewrite bool_decide_eq_true_2.
  - eapply fwp_continue; [eapply IH; [exact Hd3|lia|lia|exact Hf2]|done|done|].
    rewrite comps_app by done. intros r Hr. eapply Hlink; try done. by rewrite bool_decide_eq_false_2.
Qed.

(** The next component and what follows it. *)
Lemma component_next rest x e : component (skip_slashes rest) = (x, e) ->
  if bool_decide (x = []) then comps rest = []
  else comps rest = x :: comps e /\ (length x + length e <= length rest)%nat /\ SLASH ∉ x /\ stops e.
Proof.
  intros Ex. destruct (component_spec _ _ _ Ex) as (Es & Hx & He). case_bool_decide as Hx0.
  - subst x. destruct He as [->|He].
    + by rewrite <- comps_skip, Es.
    + exfalso. rewrite app_nil_l in Es. rewrite <- Es in He. clear -He.
      induction rest as [|c s IH]; simpl in He; [done|].
      destruct (Z.eqb_spec c SLASH); [done|]. simpl in He. congruence.
  - rewrite <- (comps_skip rest), Es. split; [by apply comps_component|].
    pose proof (skip_slashes_length rest) as Hl. rewrite Es, length_app in Hl. done.
Qed.

Lemma realpath_loop_ok (resolved : bool) fuel : realpath_ok (realpath_loop fuel resolved) (Z.of_nat fuel).
Proof.
  induction fuel as [|fuel IH]; intros rest d cs b links limit s Hd Hlim Hlinks Hfuel.
  { unfold MAX_LINKS, path_max in *. lia. }
  assert (Hend : comps rest = [] -> realpath_post cs (comps rest) s (Some d) s).
  { intros ->. split; [done|]. split; [done|]. exists cs, b. split; [done|constructor]. }
  destruct rest as [|c0 rest0]; cbn [realpath_loop]; [by apply Hend|].
  remember (c0 :: rest0) as rest eqn:Erest. clear Erest c0 rest0.
  destruct (component (skip_slashes rest)) as [x e] eqn:Ex. apply component_next in Ex.
  case_bool_decide as Hx0; [by apply Hend|]. clear Hend.
  destruct Ex as (Hcomps & Hlen & Hns & Hst). rewrite Hcomps.
  assert (Hx1 : (1 <= length x)%nat) by (destruct x; simpl; [done|lia]).
  assert (Hf' : Z.of_nat (length e) + (MAX_LINKS + 1 - links) * path_max < Z.of_nat fuel) by lia.
  case_bool_decide as Hdot.
  { subst x. eapply fwp_continue; [by eapply IH|done|done|]. intros r. apply rs_dot. }
  case_bool_decide as Hdd.
  { subst x. destruct (back_up_ok _ _ _ Hd) as [Hd' Hl']. eapply fwp_continue;
      [eapply IH; [exact Hd'|lia|done|done]|done|done|]. intros r. apply rs_dotdot. }
  destruct (holds_append cs b d x Hd) as (Hd2 & Hrev & _ & Hl1); [done|].
  set (d1 := if negb (bool_decide (head d = Some SLASH)) then SLASH :: d else d) in *.
  apply fwp_bind. unfold fwhen.
  assert (Hroom : fwp (if negb (bool_decide (head d = Some SLASH)) then room d 1 limit else mret tt)
    (fun _ s' => s' = s) s).
  { destruct (negb _); [|done]. apply fwp_room; [lia|done]. }
  eapply fwp_mono; [exact Hroom|]. intros _ ? ->. apply fwp_bind. fold d1. clearbody d1. clear Hroom.
  apply fwp_grow; [lia|lia|intros; by apply realpath_post_none|].
  intros s1 limit' Hw1 Hp1 Hlim'. apply fwp_bind, fwp_room; [lia|].
  eapply realpath_entry_ok; try done. rewrite length_app, length_rev. lia.
Qed.

(** *** Resolution gives canonical paths *)

Definition proper (c : str) : Prop := c <> [] /\ SLASH ∉ c.

Lemma comps_from_proper s : forall cur, SLASH ∉ cur -> Forall proper (comps_from cur s).
Proof.
  induction s as [|c s IH]; intros cur Hc; simpl.
  - case_bool_decide; [done|]. by apply Forall_singleton.
  - destruct (Z.eqb_spec c SLASH) as [->|Hne].
    + apply Forall_app. split; [|apply IH; apply not_elem_of_nil].
      case_bool_decide; [done|]. by apply Forall_singleton.
    + apply IH. set_solver.
Qed.

Lemma canonical_nil w : canonical w [].
Proof. split; [done|]. simpl. lia. Qed.

Lemma canonical_removelast w cs : canonical w cs -> canonical w (removelast cs).
Proof.
  intros [Hok Hk]. destruct cs as [|c cs _] using rev_ind; [done|]. rewrite removelast_last.
  apply Forall_app in Hok as [Hok _]. split; [done|]. intros k Hl.
  specialize (Hk k). rewrite length_app, take_app_le in Hk by lia. apply Hk. lia.
Qed.

Lemma canonical_snoc w cs c : canonical w cs -> name_ok c ->
  0 <= fst (lkl_sys_lstat (path_of (cs ++ [c])) w) ->
  LKL_S_ISLNK (st_mode (snd (lkl_sys_lstat (path_of (cs ++ [c])) w))) = false ->
  canonical w (cs ++ [c]).
Proof.
  intros [Hok Hk] Hc H0 Hl. split; [apply Forall_app; split; [done|by apply Forall_singleton]|].
  intros k. rewrite length_app. simpl. intros Hlen. destruct (decide (k <= length cs)%nat).
  - rewrite take_app_le by lia. apply Hk. lia.
  - by rewrite take_ge by (rewrite length_app; simpl; lia).
Qed.

Lemma resolves_canonical w cs todo r :
  resolves w cs todo r -> Forall proper todo -> canonical w cs -> canonical w r.
Proof.
  induction 1 as [cs|cs t r _ IH|cs t r _ IH|cs c t r Hd Hdd H0 Hl _ IH|cs c t r tg Hd Hdd H0 Hl Hn -> _ IH];
    intros Ht Hcan; try apply Forall_cons in Ht as [Hc Ht]; try done.
  - by apply IH.
  - apply IH; [done|by apply canonical_removelast].
  - apply IH; [done|]. apply canonical_snoc; [done|by destruct Hc|done|done].
  - apply IH; [|by case_bool_decide; [apply canonical_nil|]].
    apply Forall_app. split; [|done]. apply comps_from_proper, not_elem_of_nil.
Qed.

(** The last step: a separator at the end goes. *)
Lemma holds_render cs b d : holds cs b d ->
  rev (if (1 <? length d)%nat && bool_decide (head d = Some SLASH) then tail d else d) = render cs.
Proof.
  intros Hd. destruct cs as [|c cs _] using rev_ind.
  - assert (b = true) as -> by by apply Hd. apply holds_slash in Hd as ->. done.
  - assert (Er : render (cs ++ [c]) = path_of (cs ++ [c])) by by destruct cs.
    pose proof (holds_snoc _ _ _ _ Hd) as (Ed & (Hne & Hns & _) & _). rewrite Er.
    destruct b; simpl in Ed.
    + destruct Hd as (Hr & _). rewrite Ed in Hr |- *.
      assert (Hlen : (1 <? length (SLASH :: rev c ++ SLASH :: rev (path_of cs)))%nat = true).
      { apply Nat.ltb_lt. simpl. rewrite length_app. simpl. lia. }
      rewrite Hlen, bool_decide_eq_true_2 by done. cbn [andb tail]. cbn [rev] in Hr.
      by apply app_inj_tail in Hr as [Hr _].
    + rewrite bool_decide_eq_false_2; [|].
      * rewrite andb_false_r. destruct Hd as (Hr & _). by rewrite app_nil_r in Hr.
      * rewrite Ed. assert (Hr2 : SLASH ∉ rev c) by (by rewrite elem_of_rev).
        destruct (rev c) as [|k r] eqn:E; [by apply rev_eq in E|]. simpl. intros [= ->]. set_solver.
Qed.

(** The postcondition of [RealPath] on the name [nm]. *)
Definition realpath_result (resolved : bool) (nm : option str) (s : fstate) (r : option str) (s' : fstate)
    : Prop :=
  world s' = world s /\
  pool_live s' = pool_live s + (match r with Some _ => if resolved then 0 else 1 | None => 0 end) /\
  match r with
  | None => True
  | Some p => exists n cs, nm = Some n /\ head n = Some SLASH /\
      resolves (world s) [] (comps n) cs /\ canonical (world s) cs /\ p = render cs
  end.

Lemma realpath_none resolved nm s s' :
  world s' = world s -> pool_live s' = pool_live s -> realpath_result resolved nm s None s'.
Proof. intros Hw Hp. split; [done|]. simpl. split; [lia|done]. Qed.

Lemma realpath_error (resolved : bool) nm s s' :
  world s' = world s -> pool_live s' = pool_live s + (if resolved then 0 else 1) ->
  fwp (fwhen (negb resolved) FreePool;; mret None) (realpath_result resolved nm s) s'.
Proof.
  intros Hw Hp. destruct resolved; simpl; [apply realpath_none; [done|lia]|].
  apply fwp_bind, fwp_free. apply realpath_none; simpl; [done|lia].
Qed.

Lemma realpath_loop_result (resolved : bool) nm s s0 :
  head nm = Some SLASH ->
  world s0 = world s -> pool_live s0 = pool_live s + (if resolved then 0 else 1) ->
  fwp (realpath_loop (realpath_fuel nm) resolved nm [SLASH] 0 path_max) (fun r s' =>
    world s' = world s /\ pool_live s' = pool_live s0 /\
    match r with
    | Some d => realpath_result resolved (Some nm) s (Some (rev
        (if (1 <? length d)%nat && bool_decide (head d = Some SLASH) then tail d else d))) s'
    | None => True
    end) s0.
Proof.
  intros Hs Hw Hp. eapply fwp_mono; [eapply (realpath_loop_ok resolved _ nm [SLASH] [] true)|].
  - by apply holds_slash.
  - unfold path_max. simpl. lia.
  - unfold MAX_LINKS. lia.
  - unfold realpath_fuel, MAX_LINKS. rewrite !Nat2Z.inj_add, Nat2Z.inj_mul, Z2Nat.id
      by (unfold path_max; lia). lia.
  - intros r s' (Hw' & Hp' & Hr). split; [congruence|]. split; [done|]. destruct r as [d|]; [|done].
    destruct Hr as (cs & b & Hh & Hres). split; [congruence|]. split; [lia|].
    exists nm, cs. split; [done|]. split; [done|]. rewrite Hw in Hres. split; [done|].
    split; [|by apply holds_render with b].
    eapply resolves_canonical; [exact Hres|apply comps_from_proper, not_elem_of_nil|apply canonical_nil].
Qed.

Lemma RealPath_ok name resolved s :
  fwp (RealPath name resolved) (realpath_result resolved name s) s.
Proof.
  destruct name as [[|c n]|]; [by apply realpath_none| |by apply realpath_none].
  unfold RealPath. cbv beta iota. set (nm := c :: n). clearbody nm. apply fwp_bind.
  assert (Hrun : forall s0, world s0 = world s ->
    pool_live s0 = pool_live s + (if resolved then 0 else 1) ->
    fwp (r ← (if negb (bool_decide (head nm = Some SLASH)) then mret None
             else realpath_loop (realpath_fuel nm) resolved nm [SLASH] 0 path_max);
        match (r : option str) with
        | None => fwhen (negb resolved) FreePool;; mret None
        | Some d =>
            let d := if (1 <? length d)%nat && bool_decide (head d = Some SLASH) then tail d else d in
            mret (Some (rev d))
        end) (realpath_result resolved (Some nm) s) s0).
  { intros s0 Hw Hp. apply fwp_bind. case_bool_decide as Hs; cbn [negb].
    - eapply fwp_mono; [by eapply realpath_loop_result|]. intros [d|] s' (Hw' & Hp' & Hr); [exact Hr|].
      apply realpath_error; congruence.
    - apply fwp_ret. by apply realpath_error. }
  destruct resolved.
  - apply Hrun; [done|lia].
  - apply fwp_alloc; intros fs; [by apply realpath_none|]. by apply Hrun.
Qed.

(** *** POSIX resolution *)

(** [t'] is [t] with components [.] put in. *)
Inductive dotted : list str -> list str -> Prop :=
| dt_nil : dotted [] []
| dt_dot t t' : dotted t t' -> dotted t ([DOT] :: t')
| dt_cons c t t' : dotted t t' -> dotted (c :: t) (c :: t').

Lemma dotted_refl t : dotted t t.
Proof. induction t; by constructor. Qed.

Lemma dotted_app t1 t1' t2 t2' : dotted t1 t1' -> dotted t2 t2' -> dotted (t1 ++ t2) (t1' ++ t2').
Proof. induction 1; intros; simpl; auto using dotted. Qed.

Lemma dotted_posix s : dotted (comps s) (posix_comps s).
Proof.
  unfold posix_comps. rewrite <- (app_nil_r (comps s)) at 1. apply dotted_app; [apply dotted_refl|].
  case_bool_decide; repeat constructor.
Qed.

Lemma dotted_cons_inv t c t' : dotted t (c :: t') -> c <> [DOT] -> exists t1, t = c :: t1 /\ dotted t1 t'.
Proof. inversion 1; [done|]. subst. eauto. Qed.

(** Resolution that meets no symbolic link. *)
Fixpoint plain (w : World) (cs todo : list str) : option (list str) :=
  match todo with
  | [] => Some cs
  | c :: t =>
      if bool_decide (c = [DOT]) then plain w cs t
      else if bool_decide (c = [DOT; DOT]) then plain w (removelast cs) t
      else
        let st := lkl_sys_lstat (path_of (cs ++ [c])) w in
        if (fst st <? 0) || LKL_S_ISLNK (st_mode (snd st)) then None else plain w (cs ++ [c]) t
  end.

(** Where POSIX resolution leads, resolution without the look at directories
    leads too. *)
Lemma posix_resolves_ok w cs todo' k r : posix_resolves w cs todo' k r ->
  forall todo, dotted todo todo' -> resolves w cs todo r /\ (k = O -> plain w cs todo = Some r).
Proof.
  induction 1 as [cs|cs t k r Hdir _ IH|cs t k r Hdir _ IH|cs c t k r Hdir Hd Hdd H0 Hl _ IH|
    cs c t k r tg Hdir Hd Hdd H0 Hl Hn Ht _ IH]; intros todo Hdot.
  - inversion Hdot. subst. split; [constructor|done].
  - inversion Hdot as [|t0 t1 Ht|c t0 t1 Ht]; subst; [by apply IH|]. destruct (IH _ Ht) as [Hr Hp].
    split; [by constructor|]. intros ->. simpl. by rewrite Hp.
  - apply dotted_cons_inv in Hdot as (t1 & -> & Ht); [|done]. destruct (IH _ Ht) as [Hr Hp].
    split; [by constructor|]. intros ->. simpl. by rewrite Hp.
  - apply dotted_cons_inv in Hdot as (t1 & -> & Ht); [|done]. destruct (IH _ Ht) as [Hr Hp].
    split; [by apply rs_file|]. intros ->. simpl. rewrite !bool_decide_eq_false_2 by done.
    rewrite (proj2 (Z.ltb_ge _ _)), Hl by done. by rewrite Hp.
  - apply dotted_cons_inv in Hdot as (t1 & -> & Ht1); [|done]. split; [|done].
    eapply rs_link; [done..|]. apply IH. apply dotted_app; [apply dotted_posix|done].
Qed.

Lemma resolves_unique w cs todo r r' : resolves w cs todo r -> resolves w cs todo r' -> r = r'.
Proof.
  intros Hr. revert r'.
  induction Hr as [cs|cs t r _ IH|cs t r _ IH|cs c t r Hd Hdd H0 Hl _ IH|cs c t r tg Hd Hdd H0 Hl Hn -> _ IH];
    intros r'; inversion 1; subst; try done; try congruence; by apply IH.
Qed.

(** The loop gets to the end when the name is short and no link is met. *)
Lemma realpath_loop_plain (resolved : bool) fuel : forall rest d cs b links r s,
  holds cs b d -> (b = false -> stops rest) ->
  Z.of_nat (length d) + Z.of_nat (length rest) < path_max -> (length rest < fuel)%nat ->
  plain (world s) cs (comps rest) = Some r ->
  exists d' b', realpath_loop fuel resolved rest d links path_max s = FDone (Some d') s /\ holds r b' d'.
Proof.
  induction fuel as [|fuel IH]; intros rest d cs b links r s Hd Hb Hmax Hfuel Hp; [lia|].
  destruct rest as [|c0 rest0]; cbn [realpath_loop]; [injection Hp as <-; by exists d, b|].
  remember (c0 :: rest0) as rest eqn:Erest.
  destruct (component (skip_slashes rest)) as [x e] eqn:Ex. pose proof (component_next _ _ _ Ex) as Hx.
  case_bool_decide as Hx0; [rewrite Hx in Hp; injection Hp as <-; by exists d, b|].
  destruct Hx as (Hcomps & Hlen & Hns & Hst). rewrite Hcomps in Hp. cbn [plain] in Hp.
  assert (Hx1 : (1 <= length x)%nat) by (destruct x; simpl; [done|lia]).
  case_bool_decide as Hdot; [eapply IH; [done|done|lia|lia|done]|].
  case_bool_decide as Hdd.
  { destruct (back_up_ok _ _ _ Hd) as [Hd' Hl']. eapply IH; [done|done|lia|lia|done]. }
  destruct (_ || _) eqn:Hls in Hp; [done|]. apply orb_false_iff in Hls as [H0%Z.ltb_ge Hlnk].
  destruct (holds_append cs b d x Hd) as (Hd2 & Hrev & Hd1 & Hl1); [done|].
  set (d1 := if negb (bool_decide (head d = Some SLASH)) then SLASH :: d else d) in *.
  assert (Hroom : Z.of_nat (length d1) + Z.of_nat (length x) + Z.of_nat (length e) < path_max).
  { destruct b; [rewrite Hd1 by done; lia|]. destruct (Hb eq_refl) as [E|E]; [by rewrite E in Erest|].
    subst rest. injection E as ->. change (skip_slashes (SLASH :: rest0)) with (skip_slashes rest0) in Ex.
    apply component_next in Ex. rewrite bool_decide_eq_false_2 in Ex by done. simpl length in *. lia. }
  assert (Hr1 : (fwhen (negb (bool_decide (head d = Some SLASH))) (room d 1 path_max)) s = FDone tt s).
  { unfold fwhen, room. destruct (negb _); [|done]. by rewrite (proj2 (Z.leb_le _ _)) by lia. }
  rewrite (fbind_done _ _ _ _ _ Hr1). fold d1.
  rewrite (proj2 (Z.leb_gt path_max _)) by lia. rewrite (fbind_done _ _ s (Some path_max) s) by done.
  rewrite (fbind_done _ _ s tt s) by (unfold room; by rewrite (proj2 (Z.leb_le _ _)) by lia).
  unfold realpath_entry. rewrite Hrev. erewrite fbind_done by reflexivity.
  rewrite (proj2 (Z.ltb_ge _ _)), Hlnk by done.
  eapply IH; [exact Hd2|done| |lia|done]. rewrite length_app, length_rev. lia.
Qed.

Lemma RealPath_plain n resolved r s :
  head n = Some SLASH -> Z.of_nat (length n) < path_max - 1 -> resolved = true \/ no_memory s = false ->
  plain (world s) [] (comps n) = Some r ->
  fwp (RealPath (Some n) resolved) (fun p _ => p = Some (render r)) s.
Proof.
  intros Hs Hlen Hmem Hp. destruct n as [|c n]; [done|]. unfold RealPath. set (nm := c :: n) in *.
  assert (Halloc : exists s0, (if resolved then mret true else AllocatePool) s = FDone true s0 /\ world s0 = world s).
  { destruct resolved; [by exists s|]. destruct Hmem as [|Hm]; [done|]. unfold AllocatePool, no_memory in *.
    destruct (pool_fails s) as [|[] fs]; try done; by eexists. }
  destruct Halloc as (s0 & Ha & Hw). apply fwp_bind. unfold fwp at 1. rewrite Ha. cbn [negb].
  apply fwp_bind. rewrite bool_decide_eq_true_2 by done. cbn [negb].
  destruct (realpath_loop_plain resolved (realpath_fuel nm) nm [SLASH] [] true 0 r s0) as (d & b & Hrun & Hh).
  - by apply holds_slash.
  - done.
  - simpl length at 1. lia.
  - unfold realpath_fuel. lia.
  - by rewrite Hw.
  - unfold fwp at 1. rewrite Hrun. apply fwp_ret. f_equal. by apply holds_render with b.
Qed.

(** C13: [RealPath] always finishes, within its buffers, with the file system
    untouched and no block leaked: it returns NULL, or a path that following
    the components of the given absolute name leads to, written canonically,
    every prefix of which exists and is no symbolic link.  Only then, and when
    the caller gave no buffer, one block is handed to the caller.  Where POSIX
    resolution of the name leads somewhere, a path it returns is the path of
    just that place; and it is not NULL when no symbolic link is met, the name
    is shorter than the limit and there is memory for the buffer.  (The code
    does not ask whether what it follows a component from is a directory, so it
    returns a path for some names where POSIX resolution fails.) *)
Theorem RealPath_spec name resolved s :
  fwp (RealPath name resolved) (fun p s' =>
    realpath_result resolved name s p s' /\
    forall n k r, name = Some n -> head n = Some SLASH -> posix_resolves (world s) [] (posix_comps n) k r ->
      (p = None \/ p = Some (render r)) /\
      (k = O -> Z.of_nat (length n) < path_max - 1 -> resolved = true \/ no_memory s = false ->
       p = Some (render r))) s.
Proof.
  pose proof (RealPath_ok name resolved s) as Hok. unfold fwp in *.
  destruct (RealPath name resolved s) as [p s'|] eqn:Hrun; [|done]. split; [done|]. intros n k r -> Hs Hposix.
  destruct (posix_resolves_ok _ _ _ _ _ Hposix (comps n) (dotted_posix n)) as [Hr Hp]. split.
  - destruct p as [p|]; [right|by left]. destruct Hok as (_ & _ & n' & cs & [= <-] & _ & Hcs & _ & ->).
    by rewrite (resolves_unique _ _ _ _ _ Hr Hcs).
  - intros Hk Hlen Hmem. pose proof (RealPath_plain n resolved r s Hs Hlen Hmem (Hp Hk)) as HH.
    unfold fwp in HH. by rewrite Hrun in HH.
Qed.
End resolution.

(** ** Base names, slashes and conversions *)

Lemma basename_loop_spec s i : (i <= length s)%nat ->
  let k := basename_loop s i in
  (k <= i)%nat /\ (k = O \/ s !! (k - 1)%nat = Some SLASH) /\
  forall j, (k <= j < i)%nat -> s !! j <> Some SLASH.
Proof.
  induction i as [|i IH]; intros Hi k; subst k; simpl.
  { split; [done|]. split; [by left|lia]. }
  destruct (lookup_lt_is_Some_2 s i ltac:(lia)) as [c Hc]. rewrite Hc.
  destruct (Z.eqb_spec c SLASH) as [->|Hne].
  - split; [lia|]. simpl. rewrite Nat.sub_0_r. split; [by right|lia].
  - destruct (IH ltac:(lia)) as (Hk & Hs & Hj). split; [lia|]. split; [done|].
    intros j Hji. destruct (decide (j = i)) as [->|]; [congruence|]. apply Hj. lia.
Qed.

Lemma trailing_loop_spec s i : s <> [] -> i = (length s - 1)%nat ->
  exists n, s = trailing_loop s i ++ replicate n SLASH /\ trailing_loop s i <> [] /\
    (length (trailing_loop s i) = 1%nat \/ last (trailing_loop s i) <> Some SLASH).
Proof.
  revert s. induction i as [|i IH]; intros s Hne Hi; cbn [trailing_loop].
  { exists O. rewrite app_nil_r. split; [done|]. split; [done|]. left. destruct s as [|? [|]]; simpl in *; lia || done. }
  destruct (lookup_lt_is_Some_2 s (S i) ltac:(lia)) as [c Hc]. rewrite Hc.
  assert (Es : s = take (S i) s ++ [c]).
  { rewrite <- (take_drop (S i) s) at 1. f_equal. rewrite (drop_S s c (S i)) by done. f_equal.
    apply drop_ge. lia. }
  destruct (Z.eqb_spec c SLASH) as [->|Hcs].
  - destruct (IH (take (S i) s)) as (n & E & Hn & Hl).
    + intros E. apply (f_equal length) in E. rewrite length_take_le in E by lia. done.
    + rewrite length_take_le by lia. lia.
    + exists (S n). split; [|done]. rewrite Es at 1. rewrite E at 1. rewrite <- app_assoc. f_equal.
      by rewrite <- replicate_cons_app.
  - exists O. rewrite app_nil_r. split; [done|]. split; [done|]. right. rewrite Es, last_snoc. congruence.
Qed.

Lemma path_split_ok s : s <> [] ->
  let p := RemoveTrailingSlashes s in
  let name := drop (GetBasenamePtr p) p in
  (exists n, s = p ++ replicate n SLASH) /\ p <> [] /\
  (GetBasenamePtr p < length p)%nat /\
  (GetBasenamePtr p = O \/ p !! (GetBasenamePtr p - 1)%nat = Some SLASH) /\ name <> [] /\
  (p <> [SLASH] -> SLASH ∉ name).
Proof.
  intros Hs p name. assert (Hp : exists n, s = p ++ replicate n SLASH /\ p <> [] /\
    (length p = 1%nat \/ last p <> Some SLASH)).
  { subst p. unfold RemoveTrailingSlashes. destruct s as [|c s]; [done|]. by apply trailing_loop_spec. }
  clearbody p. destruct Hp as (n & Es & Hp & Hlast).
  assert (Hlp : (0 < length p)%nat) by (destruct p; simpl; [done|lia]).
  assert (E : GetBasenamePtr p = basename_loop p (length p - 1)) by by destruct p.
  destruct (basename_loop_spec p (length p - 1) ltac:(lia)) as (Hk & Hsl & Hj). rewrite <- E in *.
  split; [by exists n|]. split; [done|]. split; [lia|]. split; [done|]. split.
  - intros En. apply (f_equal length) in En. unfold name in En. rewrite length_drop in En. simpl in En. lia.
  - intros Hne (j & Hin)%list_elem_of_lookup. unfold name in Hin. rewrite lookup_drop in Hin.
    pose proof (lookup_lt_Some _ _ _ Hin) as Hlt.
    destruct (decide (GetBasenamePtr p + j < length p - 1)%nat); [by apply (Hj (GetBasenamePtr p + j)%nat); [lia|]|].
    assert (Hi : (GetBasenamePtr p + j = pred (length p))%nat) by lia. rewrite Hi in Hin.
    rewrite <- last_lookup in Hin. destruct Hlast as [H1|H1]; [|done].
    destruct p as [|c [|]]; simpl in *; simplify_eq; done.
Qed.

(** The split that file creation makes of a path.  [RemoveTrailingSlashes]
    takes nothing but separators off the end and leaves a character;
    [GetBasenamePtr] points into the string, to its start or behind a
    separator, at a name that is not empty and has no separator in it, unless
    the whole path is separators. *)
Theorem path_split_spec s : s <> [] ->
  let p := RemoveTrailingSlashes s in
  let name := drop (GetBasenamePtr p) p in
  (exists n, s = p ++ replicate n SLASH) /\ p <> [] /\
  (GetBasenamePtr p < length p)%nat /\
  (GetBasenamePtr p = O \/ p !! (GetBasenamePtr p - 1)%nat = Some SLASH) /\ name <> [] /\
  (p <> [SLASH] -> SLASH ∉ name).
Proof. apply path_split_ok. Qed.

Lemma replace_char_lookup from to s i :
  replace_char from to s !! i = (fun c => if c =? from then to else c) <$> s !! i.
Proof. revert i. induction s as [|c s IH]; intros [|i]; simpl; auto. Qed.

(** The path conversions keep the length and every character that is no
    separator of either kind; converting to Unix form leaves no backslash,
    converting to EFI form leaves no slash, and on a path without the other
    kind of separator the one undoes the other. *)
Theorem path_conversion_spec s :
  length (PathToUnixAscii s) = length s /\ length (PathToUefiAscii s) = length s /\
  BACKSLASH ∉ PathToUnixAscii s /\ SLASH ∉ PathToUefiAscii s /\
  (forall i c, c <> SLASH -> c <> BACKSLASH ->
     (PathToUnixAscii s !! i = Some c <-> s !! i = Some c) /\
     (PathToUefiAscii s !! i = Some c <-> s !! i = Some c)) /\
  (BACKSLASH ∉ s -> PathToUnixAscii (PathToUefiAscii s) = s) /\
  (SLASH ∉ s -> PathToUefiAscii (PathToUnixAscii s) = s).
Proof.
  unfold PathToUnixAscii, PathToUefiAscii.
  assert (Hlen : forall a b, length (replace_char a b s) = length s).
  { intros a b. induction s as [|c s IH]; simpl; [done|by rewrite IH]. }
  assert (Hno : forall a b, a <> b -> a ∉ replace_char a b s).
  { intros a b Hab. induction s as [|c s IH]; simpl; [apply not_elem_of_nil|].
    destruct (Z.eqb_spec c a); set_solver. }
  assert (Hrt : forall a b, b ∉ s -> replace_char b a (replace_char a b s) = s).
  { intros a b. induction s as [|c s IH]; simpl; intros Hb; [done|]. rewrite IH by set_solver.
    f_equal. destruct (Z.eqb_spec c a) as [->|]; [by rewrite Z.eqb_refl|].
    destruct (Z.eqb_spec c b) as [->|]; [set_solver|done]. }
  split_and!; [done|done|by apply Hno|by apply Hno| |by apply Hrt|by apply Hrt].
  intros i c Hs Hb. rewrite !replace_char_lookup. destruct (s !! i) as [d|]; [|done]. simpl.
  split; [destruct (Z.eqb_spec d BACKSLASH)|destruct (Z.eqb_spec d SLASH)]; split; intros [=]; congruence.
Qed.

Lemma path_split_spec_witness :
  SLASH ∉ drop (GetBasenamePtr (RemoveTrailingSlashes [47; 97; 47; 98; 47])) [47; 97; 47; 98].
Proof.
  pose proof (path_split_spec [47; 97; 47; 98; 47] ltac:(done)) as H. cbv zeta in H.
  exact (proj2 (proj2 (proj2 (proj2 (proj2 H)))) ltac:(done)).
Defined.
