(* ===== verification/DemoFs.v ===== *)
(** * A small Linux

    An instance of [LklSys] with an in-memory file system, at which the
    properties are instantiated: nodes by absolute path, open files with a
    position, directories with the names of their entries.  Paths are looked
    up as they are, without following symbolic links. *)

From S2P Require Import Prelude Efi Lkl Path.

Record node := mk_node {
  n_mode : Z; n_data : list Z; n_entries : list str; n_atime : Z; n_mtime : Z }.

Record demo_world := mk_dworld {
  nodes : gmap str node;
  fds : gmap Z (str * Z);
  dirpos : gmap Z nat;
  (** the mount points, the disks by their numbers, the mapped devices, the
      protocols the driver has open; the number of directory streams made *)
  dmounts : gset str;
  ddisks : gmap Z Z;
  ddms : gset str;
  dbound : gset (Z * Z);
  dstreams : Z
}.
Definition mk_world ns fs ds : demo_world := mk_dworld ns fs ds ∅ ∅ ∅ ∅ 0.
Definition upd (w : demo_world) ns fs ds : demo_world :=
  mk_dworld ns fs ds (dmounts w) (ddisks w) (ddms w) (dbound w) (dstreams w).

Definition S_IFMT : Z := 61440.
Definition S_IFDIR : Z := 16384.
Definition S_IFREG : Z := 32768.
Definition S_IFLNK : Z := 40960.
Definition ENOENT : Z := -2.
Definition EBADF : Z := -9.
Definition EINVAL : Z := -22.
Definition EMFILE : Z := -24.
(** The most one call transfers. *)
Definition MAX_RW : Z := 0x7ffff000.

Definition stat_of (n : node) : lkl_stat :=
  mk_stat (n_mode n) (Z.of_nat (length (n_data n))) (Z.of_nat (length (n_data n)) / 512)
    (n_atime n) (n_mtime n).
Definition no_stat : lkl_stat := mk_stat 0 0 0 0 0.

Definition d_lstat (p : str) (w : demo_world) : Z * lkl_stat :=
  match nodes w !! p with Some n => (0, stat_of n) | None => (ENOENT, no_stat) end.

Definition d_readlink (p : str) (n : Z) (w : demo_world) : Z * str :=
  if n <=? 0 then (EINVAL, []) else
  match nodes w !! p with
  | Some nd =>
      if Z.land (n_mode nd) S_IFMT =? S_IFLNK then
        let t := take (Z.to_nat n) (n_data nd) in (Z.of_nat (length t), t)
      else (EINVAL, [])
  | None => (ENOENT, [])
  end.

Definition fd_node (fd : Z) (w : demo_world) : option (str * Z * node) :=
  '(p, pos) ← fds w !! fd; n ← nodes w !! p; Some (p, pos, n).

Definition d_fstat (fd : Z) (w : demo_world) : Z * lkl_stat :=
  match fd_node fd w with Some (_, n) => (0, stat_of n) | None => (EBADF, no_stat) end.

(** The lowest descriptor that is free, of 1024; the first three are taken. *)
Definition free_fd (w : demo_world) : option Z :=
  List.find (fun fd => bool_decide (fds w !! fd = None)) (seqZ 3 1021).

Definition new_fd (p : str) (w : demo_world) : Z * demo_world :=
  match free_fd w with
  | Some fd => (fd, upd w (nodes w) (<[fd := (p, 0)]> (fds w)) (dirpos w))
  | None => (EMFILE, w)
  end.

Definition d_open (p : str) (flags mode : Z) (w : demo_world) : Z * demo_world :=
  match nodes w !! p with
  | Some _ => new_fd p w
  | None =>
      if Z.land flags 64 =? 0 then (ENOENT, w)
      else new_fd p (upd w (<[p := mk_node (S_IFREG + mode) [] [] 0 0]> (nodes w)) (fds w) (dirpos w))
  end.

Definition d_openat (fd : Z) (name : str) (flags mode : Z) (w : demo_world) : Z * demo_world :=
  match fds w !! fd with
  | Some (p, _) => d_open (p ++ SLASH :: name) flags mode w
  | None => (EBADF, w)
  end.

Definition d_close (fd : Z) (w : demo_world) : Z * demo_world :=
  (0, upd w (nodes w) (delete fd (fds w)) (dirpos w)).

Definition d_mkdir (p : str) (mode : Z) (w : demo_world) : Z * demo_world :=
  match nodes w !! p with
  | Some _ => (-17, w)
  | None => (0, upd w (<[p := mk_node (S_IFDIR + mode) [] [] 0 0]> (nodes w)) (fds w) (dirpos w))
  end.

Definition d_unlink (p : str) (w : demo_world) : Z * demo_world :=
  match nodes w !! p with
  | Some _ => (0, upd w (delete p (nodes w)) (fds w) (dirpos w))
  | None => (ENOENT, w)
  end.

Definition d_read (fd n : Z) (w : demo_world) : (Z * list Z) * demo_world :=
  if (n <? 0) || (MAX_RW <? n) then ((EINVAL, []), w) else
  match fd_node fd w with
  | Some (p, pos, nd) =>
      let b := take (Z.to_nat n) (drop (Z.to_nat pos) (n_data nd)) in
      ((Z.of_nat (length b), b),
       upd w (nodes w) (<[fd := (p, pos + Z.of_nat (length b))]> (fds w)) (dirpos w))
  | None => ((EBADF, []), w)
  end.

Definition d_write (fd : Z) (b : list Z) (w : demo_world) : Z * demo_world :=
  match fd_node fd w with
  | Some (p, pos, nd) =>
      if MAX_RW <? Z.of_nat (length b) then (EINVAL, w) else
      let data := take (Z.to_nat pos) (n_data nd) ++ b ++ drop (Z.to_nat pos + length b) (n_data nd) in
      (Z.of_nat (length b),
       upd w (<[p := mk_node (n_mode nd) data (n_entries nd) (n_atime nd) (n_mtime nd)]> (nodes w))
         (<[fd := (p, pos + Z.of_nat (length b))]> (fds w)) (dirpos w))
  | None => (EBADF, w)
  end.

Definition d_lseek (fd off whence : Z) (w : demo_world) : Z * demo_world :=
  match fd_node fd w with
  | Some (p, pos, nd) =>
      let new := if whence =? 0 then off else if whence =? 1 then pos + off
                 else Z.of_nat (length (n_data nd)) + off in
      if new <? 0 then (EINVAL, w) else
      (new, upd w (nodes w) (<[fd := (p, new)]> (fds w)) (dirpos w))
  | None => (EBADF, w)
  end.

Definition upd_node (p : str) (f : node -> node) (w : demo_world) : Z * demo_world :=
  match nodes w !! p with
  | Some n => (0, upd w (<[p := f n]> (nodes w)) (fds w) (dirpos w))
  | None => (ENOENT, w)
  end.

Definition d_ftruncate (fd len : Z) (w : demo_world) : Z * demo_world :=
  match fds w !! fd with
  | Some (p, _) => upd_node p (fun n => mk_node (n_mode n) (take (Z.to_nat len) (n_data n)) (n_entries n)
                     (n_atime n) (n_mtime n)) w
  | None => (EBADF, w)
  end.

Definition d_utime (p : option str) (t : lkl_utimbuf) (w : demo_world) : Z * demo_world :=
  match p with
  | Some p => upd_node p (fun n => mk_node (n_mode n) (n_data n) (n_entries n) (actime t) (modtime t)) w
  | None => (-14, w)
  end.

Definition d_chmod (p : str) (mode : Z) (w : demo_world) : Z * demo_world :=
  upd_node p (fun n => mk_node mode (n_data n) (n_entries n) (n_atime n) (n_mtime n)) w.

Definition d_fdopendir (fd : Z) (w : demo_world) : (option Z * Z) * demo_world :=
  match fds w !! fd with
  | Some _ => ((Some fd, 0), mk_dworld (nodes w) (fds w) (<[fd := O]> (dirpos w)) (dmounts w) (ddisks w) (ddms w)
                               (dbound w) (dstreams w + 1))
  | None => ((None, EBADF), w)
  end.

Definition d_readdir (d : Z) (w : demo_world) : option str * demo_world :=
  match fd_node d w with
  | Some (_, _, nd) =>
      let i := default O (dirpos w !! d) in
      (n_entries nd !! i, upd w (nodes w) (fds w) (<[d := S i]> (dirpos w)))
  | None => (None, w)
  end.

Definition d_rewinddir (d : Z) (w : demo_world) : demo_world :=
  upd w (nodes w) (fds w) (<[d := O]> (dirpos w)).

Definition d_statfs (p : str) (w : demo_world) : Z * lkl_statfs := (0, mk_statfs 512 4096 1024).

Definition d_fsync (fd : Z) (w : demo_world) : Z * demo_world :=
  match fds w !! fd with Some _ => (0, w) | None => (EBADF, w) end.

Definition d_errdir (d : Z) (w : demo_world) : Z :=
  match fds w !! d with Some _ => 0 | None => EBADF end.

Ltac d_int := unfold INT_MIN, INT_MAX, ENOENT, EBADF, EINVAL, EMFILE in *; simpl; lia.

Lemma free_fd_Some w fd : free_fd w = Some fd -> 3 <= fd < 1024 /\ fds w !! fd = None.
Proof.
  unfold free_fd. intros [Hin Hb]%List.find_some. apply bool_decide_eq_true_1 in Hb.
  apply list_elem_of_In, elem_of_seqZ in Hin. split; [lia|done].
Qed.

Lemma new_fd_int p w : INT_MIN <= fst (new_fd p w) <= INT_MAX.
Proof. unfold new_fd. destruct (free_fd w) as [fd|] eqn:E; [apply free_fd_Some in E as [? _]|]; d_int. Qed.

Lemma d_open_int p f m w : INT_MIN <= fst (d_open p f m w) <= INT_MAX.
Proof.
  unfold d_open. destruct (nodes w !! p); [apply new_fd_int|].
  destruct (_ =? _); [d_int|apply new_fd_int].
Qed.

Lemma d_mkdir_int p m w : INT_MIN <= fst (d_mkdir p m w) <= INT_MAX.
Proof. unfold d_mkdir. destruct (nodes w !! p); d_int. Qed.

Lemma d_fstat_int fd w : INT_MIN <= fst (d_fstat fd w) <= INT_MAX.
Proof. unfold d_fstat. destruct (fd_node fd w) as [[]|]; d_int. Qed.

Lemma d_read_int fd n w : INT_MIN <= fst (fst (d_read fd n w)) <= INT_MAX.
Proof.
  unfold d_read. destruct (Z.ltb_spec n 0); [d_int|]. destruct (Z.ltb_spec MAX_RW n); [d_int|].
  destruct (fd_node fd w) as [[[p pos] nd]|]; [|d_int].
  cbn [fst snd orb]. rewrite length_take. unfold INT_MIN, INT_MAX, MAX_RW in *. lia.
Qed.

Lemma d_write_int fd b w : INT_MIN <= fst (d_write fd b w) <= INT_MAX.
Proof.
  unfold d_write. destruct (fd_node fd w) as [[[p pos] nd]|]; [|d_int].
  destruct (Z.ltb_spec MAX_RW (Z.of_nat (length b))); [d_int|].
  cbn [fst snd]. unfold INT_MIN, INT_MAX, MAX_RW in *. lia.
Qed.

Lemma d_readlink_len p n w : 0 <= fst (d_readlink p n w) ->
  Z.of_nat (length (snd (d_readlink p n w))) = fst (d_readlink p n w) /\ fst (d_readlink p n w) <= n.
Proof.
  unfold d_readlink. destruct (Z.leb_spec n 0); [by intros []|].
  destruct (nodes w !! p) as [nd|]; [|by intros []].
  destruct (_ =? _); [|by intros []]. simpl. intros _. split; [done|]. rewrite length_take. lia.
Qed.

Lemma d_read_len fd n w : 0 <= fst (fst (d_read fd n w)) ->
  Z.of_nat (length (snd (fst (d_read fd n w)))) = fst (fst (d_read fd n w)) /\
  fst (fst (d_read fd n w)) <= n.
Proof.
  unfold d_read. destruct (Z.ltb_spec n 0); [by intros []|]. cbn [orb]. destruct (MAX_RW <? n); [by intros []|].
  destruct (fd_node fd w) as [[[p pos] nd]|]; [|by intros []].
  simpl. intros _. split; [done|]. rewrite length_take. lia.
Qed.

#[export] Instance demo_lkl : LklSys := {|
  World := demo_world;
  lkl_dir := Z;
  lkl_sys_lstat := d_lstat;
  lkl_sys_readlink := d_readlink;
  lkl_sys_fstat := d_fstat;
  lkl_sys_statfs := d_statfs;
  lkl_sys_open := d_open;
  lkl_sys_openat := d_openat;
  lkl_sys_close := d_close;
  lkl_sys_mkdir := d_mkdir;
  lkl_sys_unlink := d_unlink;
  lkl_sys_read := d_read;
  lkl_sys_write := d_write;
  lkl_sys_lseek := d_lseek;
  lkl_sys_fsync := d_fsync;
  lkl_sys_ftruncate := d_ftruncate;
  lkl_sys_utime := d_utime;
  lkl_sys_chmod := d_chmod;
  lkl_fdopendir := d_fdopendir;
  lkl_readdir := d_readdir;
  lkl_rewinddir := d_rewinddir;
  lkl_errdir := d_errdir;
  LKL_S_ISLNK m := Z.land m S_IFMT =? S_IFLNK;
  LKL_S_ISDIR m := Z.land m S_IFMT =? S_IFDIR;
  LKL_S_IRUSR := 256;
  LKL_S_IWUSR := 128;
  LKL_O_RDONLY := 0;
  LKL_O_WRONLY := 1;
  LKL_O_RDWR := 2;
  LKL_O_CREAT := 64;
  LKL_SEEK_SET := 0;
  LKL_SEEK_CUR := 1;
  LKL_SEEK_END := 2;
  LKL_EEXIST := 17;
  LKL_O_RDONLY_zero := eq_refl;
  lkl_open_int := d_open_int;
  lkl_mkdir_int := d_mkdir_int;
  lkl_fstat_int := d_fstat_int;
  lkl_read_int := d_read_int;
  lkl_write_int := d_write_int;
  lkl_readlink_len := d_readlink_len;
  lkl_read_len := d_read_len
|}.

Definition demo_file (data : list Z) : node := mk_node (S_IFREG + 420) data [] 0 0.
Definition demo_directory (names : list str) : node := mk_node (S_IFDIR + 493) [] names 0 0.
Definition demo_link (target : str) : node := mk_node (S_IFLNK + 511) target [] 0 0.
Definition demo_state (ns : list (str * node)) : fstate :=
  mk_fstate (H := demo_lkl) (mk_world (list_to_map ns) ∅ ∅) [] 0.

(** The string library on characters below 128. *)
Definition d_sprint (size : Z) (fmt : list fmt_piece) (args : list str) : str :=
  take (Z.to_nat (size - 1)) (expand fmt args).
Definition d_usprint (size : Z) (fmt : list fmt_piece) (args : list str) : str :=
  take (Z.to_nat (size / 2 - 1)) (expand fmt args).
Definition d_strncpy (dst : str) (max : Z) (src : str) (n : Z) : str :=
  if Z.of_nat (length src) <? max then take (Z.to_nat n) src else dst.

Lemma d_sprint_fits size fmt args :
  Z.of_nat (length (expand fmt args)) < size -> d_sprint size fmt args = expand fmt args.
Proof. intros Hl. apply take_ge. lia. Qed.

Lemma d_usprint_fits size fmt args :
  2 * (Z.of_nat (length (expand fmt args)) + 1) <= size -> d_usprint size fmt args = expand fmt args.
Proof.
  intros Hl. apply take_ge. assert (Z.of_nat (length (expand fmt args)) + 1 <= size / 2); [|lia].
  apply Z.div_le_lower_bound; lia.
Qed.

Lemma d_strncpy_fits dst max src n :
  Z.of_nat (length src) < max -> Z.of_nat (length src) <= n -> d_strncpy dst max src n = src.
Proof. intros Hl Hn. unfold d_strncpy. rewrite (proj2 (Z.ltb_lt _ _)) by done. apply take_ge. lia. Qed.

#[export] Instance demo_strings : EdkStrings := {|
  UnicodeStrToAsciiStr s := s;
  AsciiStrToUnicodeStr s := s;
  AsciiSPrint := d_sprint;
  UnicodeSPrint := d_usprint;
  AsciiStrnCpyS := d_strncpy;
  unicode_ascii_length s := eq_refl;
  ascii_unicode_length s := eq_refl;
  unicode_ascii_id s _ := eq_refl;
  ascii_unicode_id s _ := eq_refl;
  AsciiSPrint_fits := d_sprint_fits;
  UnicodeSPrint_fits := d_usprint_fits;
  AsciiStrnCpyS_fits := d_strncpy_fits
|}.

(** ** [RealPath] at the small Linux *)

(** A directory /d with a file f in it, and a file /f. *)
Definition demo_paths : fstate :=
  demo_state [([47; 100], demo_directory [[102]]); ([47; 100; 47; 102], demo_file []); ([47; 102], demo_file [])].

(** "/d/../d//f" *)
Lemma RealPath_spec_witness :
  fwp (RealPath (H := demo_lkl) (Some [47; 100; 47; 46; 46; 47; 100; 47; 47; 102]) false)
    (fun p _ => p = Some [47; 100; 47; 102]) demo_paths.
Proof.
  eapply fwp_mono; [apply (RealPath_spec (H := demo_lkl))|]. intros p s' [_ Hp]. cbv beta in Hp.
  refine (proj2 (Hp _ O [[100]; [102]] eq_refl eq_refl _) eq_refl ltac:(vm_compute; reflexivity)
    (or_intror eq_refl)).
  change (posix_comps _) with [[100]; [DOT; DOT]; [100]; [102]].
  apply ps_file; [by left|done|done|done|reflexivity|]. apply ps_dotdot; [right; reflexivity|].
  apply ps_file; [by left|done|done|done|reflexivity|].
  apply ps_file; [right; reflexivity|done|done|done|reflexivity|]. apply ps_done.
Defined.

(** What follows a regular file is not refused: for "/f/.." and "/f/" POSIX
    resolution fails, [RealPath] returns "/" and "/f". *)
Theorem RealPath_through_file :
  fwp (RealPath (H := demo_lkl) (Some [47; 102; 47; 46; 46]) true) (fun p _ => p = Some [47]) demo_paths /\
  fwp (RealPath (H := demo_lkl) (Some [47; 102; 47]) true) (fun p _ => p = Some [47; 102]) demo_paths /\
  forall n k r, n = [47; 102; 47; 46; 46] \/ n = [47; 102; 47] ->
    ~ posix_resolves (H := demo_lkl) (world demo_paths) [] (posix_comps n) k r.
Proof.
  split; [vm_compute; reflexivity|]. split; [vm_compute; reflexivity|]. intros n k r Hn Hr.
  assert (exists c, (c = [DOT] \/ c = [DOT; DOT]) /\ posix_comps n = [[102]; c]) as (c & Hc & E).
  { destruct Hn as [-> | ->]; [exists [DOT; DOT]|exists [DOT]]; (split; [auto|vm_compute; reflexivity]). }
  rewrite E in Hr. clear Hn E.
  assert (Hnd : ~ directory (H := demo_lkl) (world demo_paths) [[102]]).
  { intros [Hnil|Hdir]; [discriminate Hnil|vm_compute in Hdir; discriminate Hdir]. }
  inversion Hr as [| | |? ? ? ? ? _ _ _ _ _ Hr'|? ? ? ? ? ? _ _ _ _ Hl]; [subst|by vm_compute in Hl].
  destruct Hc as [-> | ->]; inversion Hr';
    match goal with
    | H : ?x <> ?x |- _ => by destruct (H eq_refl)
    | H : directory _ _ |- _ => exact (Hnd H)
    end.
Qed.
