(* ===== verification/FsId.v ===== *)
(** * Recognising file systems ([filesystems/], [Include/FsId.h])

    A file system is recognised by a magic string at an offset of the medium;
    the magics are tried in the order of a table, on a raw medium through Disk
    I/O ([GetFsType]) or on a block device node inside LKL ([GetFsTypeLKL]). *)

From S2P Require Import Prelude Efi Lkl Errors DemoFs.

Record FS_IDMAG := mk_mag { magic : list Z; len : Z; kboff : Z; sboff : Z }.
Record FS_IDINFO := mk_info { Name : str; Magics : list FS_IDMAG }.

(** "ext4", "ntfs", "f2fs" *)
Definition ext4_name : str := [101; 120; 116; 52].
Definition ntfs_name : str := [110; 116; 102; 115].
Definition f2fs_name : str := [102; 50; 102; 115].

Definition EXT_SB_MAGIC : list Z := [0x53; 0xEF].
Definition EXT_SB_OFF : Z := 0x400.
Definition EXT_SB_KBOFF : Z := Z.shiftr EXT_SB_OFF 10.
Definition EXT_MAG_OFF : Z := 0x38.
Definition IdInfoExt : FS_IDINFO :=
  mk_info ext4_name [mk_mag EXT_SB_MAGIC 2 EXT_SB_KBOFF EXT_MAG_OFF].

(** "NTFS    " *)
Definition IdInfoNTFS : FS_IDINFO :=
  mk_info ntfs_name [mk_mag [78; 84; 70; 83; 32; 32; 32; 32] 8 0 3].

Definition F2FS_MAGIC : list Z := [0x10; 0x20; 0xF5; 0xF2].
Definition F2FS_SB1_KBOFF : Z := Z.shiftr 0x400 10.
Definition IdInfoF2FS : FS_IDINFO :=
  mk_info f2fs_name [mk_mag F2FS_MAGIC 4 F2FS_SB1_KBOFF 0].

Definition FsIdInfos : list FS_IDINFO := [IdInfoExt; IdInfoNTFS; IdInfoF2FS].

(** [UINT8 Buffer[1024]] *)
Definition BUFFER_SIZE : Z := 1024.

Definition magic_offset (m : FS_IDMAG) : Z :=
  u32 (Z.shiftl (u32 (kboff m + Z.shiftr (sboff m) 10)) 10).

(** [!CompareMem(Magic->magic, Buffer + (Magic->sboff & 0x3ff), Magic->len)];
    [None]: the comparison reads outside of the buffer. *)
Definition magic_matches (m : FS_IDMAG) (Buffer : list Z) : option bool :=
  let o := Z.land (sboff m) 0x3ff in
  if Z.of_nat (length Buffer) <? o + len m then None
  else Some (bool_decide (take (Z.to_nat (len m)) (drop (Z.to_nat o) Buffer) =
                          take (Z.to_nat (len m)) (magic m))).

(** ** On a medium *)

(** [ReadDisk offset size]: the status and, on success, the bytes. *)
Section medium.
Variable ReadDisk : Z -> Z -> Z * list Z.

Inductive probe_result := Found (name : str) | Next (Buffer : list Z) | OutOfBounds.

(** The inner loop: the magics of one file system; the buffer keeps its
    contents when a read fails. *)
Fixpoint magics_loop (name : str) (ms : list FS_IDMAG) (Buffer : list Z) : probe_result :=
  match ms with
  | [] => Next Buffer
  | m :: ms' =>
      let (Status, bytes) := ReadDisk (magic_offset m) BUFFER_SIZE in
      if EFI_ERROR Status then magics_loop name ms' Buffer
      else
        match magic_matches m bytes with
        | None => OutOfBounds
        | Some true => Found name
        | Some false => magics_loop name ms' bytes
        end
  end.

Fixpoint infos_loop (infos : list FS_IDINFO) (Buffer : list Z) : option (Z * option str) :=
  match infos with
  | [] => Some (EFI_NOT_FOUND, None)
  | i :: infos' =>
      match magics_loop (Name i) (Magics i) Buffer with
      | Found name => Some (EFI_SUCCESS, Some name)
      | Next Buffer => infos_loop infos' Buffer
      | OutOfBounds => None
      end
  end.

(** The status and [*OutName]; [junk] is what the stack holds. *)
Definition GetFsType (junk : list Z) : option (Z * option str) := infos_loop FsIdInfos junk.
End medium.

(** ** On a device node *)

Section node.
Context `{LklSys}.

(** A read of fewer bytes than asked for leaves the rest of the buffer. *)
Definition overlay (bytes Buffer : list Z) : list Z := bytes ++ drop (length bytes) Buffer.

Fixpoint lkl_magics_loop (FD : Z) (name : str) (ms : list FS_IDMAG) (Buffer : list Z) : FM probe_result :=
  match ms with
  | [] => mret (Next Buffer)
  | m :: ms' =>
      Ret ← sys (lkl_sys_lseek FD (magic_offset m) LKL_SEEK_SET);
      if s32 Ret <? 0 then lkl_magics_loop FD name ms' Buffer
      else
        rb ← sys (lkl_sys_read FD BUFFER_SIZE);
        let (Ret, bytes) := (rb : Z * list Z) in
        if Ret <? 0 then lkl_magics_loop FD name ms' Buffer
        else
          let Buffer := overlay bytes Buffer in
          match magic_matches m Buffer with
          | None => ffail FUB
          | Some true => mret (Found name)
          | Some false => lkl_magics_loop FD name ms' Buffer
          end
  end.

Fixpoint lkl_infos_loop (FD : Z) (infos : list FS_IDINFO) (Buffer : list Z) : FM (Z * option str) :=
  match infos with
  | [] => mret (EFI_NOT_FOUND, None)
  | i :: infos' =>
      r ← lkl_magics_loop FD (Name i) (Magics i) Buffer;
      match (r : probe_result) with
      | Found name => mret (EFI_SUCCESS, Some name)
      | Next Buffer => lkl_infos_loop FD infos' Buffer
      | OutOfBounds => ffail FUB
      end
  end.

Definition GetFsTypeLKL (Path : str) (junk : list Z) : FM (Z * option str) :=
  FD ← sys (lkl_sys_open Path LKL_O_RDONLY 0);
  if FD <? 0 then mret (LKLError2EfiError FD, None)
  else
    r ← lkl_infos_loop FD FsIdInfos junk;
    _ ← sys (lkl_sys_close FD);
    mret r.
End node.

(** ** Specification *)

(** The bytes of a medium from [off] on. *)
Definition bytes_at (disk : Z -> Z) (off : Z) (n : nat) : list Z :=
  map (fun i => disk (off + Z.of_nat i)) (seq 0 n).

Definition has_magic (disk : Z -> Z) (off : Z) (mg : list Z) : bool :=
  bool_decide (bytes_at disk off (length mg) = mg).

(** The superblock magics, in the order they are looked for. *)
Definition fs_of (disk : Z -> Z) : Z * option str :=
  if has_magic disk 0x438 [0x53; 0xEF] then (EFI_SUCCESS, Some ext4_name)
  else if has_magic disk 3 [78; 84; 70; 83; 32; 32; 32; 32] then (EFI_SUCCESS, Some ntfs_name)
  else if has_magic disk 0x400 [0x10; 0x20; 0xF5; 0xF2] then (EFI_SUCCESS, Some f2fs_name)
  else (EFI_NOT_FOUND, None).

Lemma length_bytes_at disk off n : length (bytes_at disk off n) = n.
Proof. unfold bytes_at. by rewrite length_map, length_seq. Qed.

Lemma bytes_at_slice disk off n o k : (o + k <= n)%nat ->
  take k (drop o (bytes_at disk off n)) = bytes_at disk (off + Z.of_nat o) k.
Proof.
  intros Hk. apply list_eq. intros i. destruct (decide (i < k)%nat).
  - rewrite lookup_take_lt, lookup_drop by done. unfold bytes_at.
    rewrite !list_lookup_fmap, !lookup_seq_lt by lia. simpl. f_equal. f_equal. lia.
  - rewrite !lookup_ge_None_2; [done| |]; rewrite ?length_take, ?length_drop, ?length_bytes_at; lia.
Qed.

Lemma magic_matches_bytes disk m off :
  length (magic m) = Z.to_nat (len m) -> 0 <= len m -> 0 <= sboff m -> Z.land (sboff m) 0x3ff + len m <= 1024 ->
  magic_matches m (bytes_at disk off (Z.to_nat BUFFER_SIZE)) =
    Some (has_magic disk (off + Z.land (sboff m) 0x3ff) (magic m)).
Proof.
  intros Hm Hlen Hsb Hb. unfold magic_matches, has_magic. rewrite length_bytes_at.
  assert (H0 : 0 <= Z.land (sboff m) 0x3ff) by (apply Z.land_nonneg; lia).
  unfold BUFFER_SIZE. rewrite (proj2 (Z.ltb_ge _ _)) by lia.
  rewrite bytes_at_slice by lia. rewrite (take_ge (magic m)) by lia. rewrite Hm. by rewrite Z2Nat.id.
Qed.

(** The magics are in the first two KiB. *)
Definition FS_AREA : Z := 2048.

(** Disk I/O on a healthy medium. *)
Definition reads (disk : Z -> Z) (ReadDisk : Z -> Z -> Z * list Z) : Prop :=
  forall off n, 0 <= off -> 0 <= n -> off + n <= FS_AREA -> ReadDisk off n = (EFI_SUCCESS, bytes_at disk off (Z.to_nat n)).

Definition ext_mag : FS_IDMAG := mk_mag EXT_SB_MAGIC 2 EXT_SB_KBOFF EXT_MAG_OFF.
Definition ntfs_mag : FS_IDMAG := mk_mag [78; 84; 70; 83; 32; 32; 32; 32] 8 0 3.
Definition f2fs_mag : FS_IDMAG := mk_mag F2FS_MAGIC 4 F2FS_SB1_KBOFF 0.

(** The comparisons of the table's entries. *)
Lemma table_matches disk :
  let at_ m := magic_matches m (bytes_at disk (magic_offset m) (Z.to_nat BUFFER_SIZE)) in
  at_ ext_mag = Some (has_magic disk 0x438 [0x53; 0xEF]) /\
  at_ ntfs_mag = Some (has_magic disk 3 [78; 84; 70; 83; 32; 32; 32; 32]) /\
  at_ f2fs_mag = Some (has_magic disk 0x400 [0x10; 0x20; 0xF5; 0xF2]).
Proof.
  cbv zeta. split_and!; (rewrite magic_matches_bytes; [reflexivity|done|done|done|by vm_compute]).
Qed.

Lemma table_offsets : 0 <= magic_offset ext_mag <= 1024 /\ 0 <= magic_offset ntfs_mag <= 1024 /\
  0 <= magic_offset f2fs_mag <= 1024.
Proof. by vm_compute. Qed.

(** The table, unfolded. *)
Ltac open_table :=
  unfold FsIdInfos, IdInfoExt, IdInfoNTFS, IdInfoF2FS;
  fold ext_mag ntfs_mag f2fs_mag; cbn [Magics Name].

(** On a medium that can be read, [GetFsType] finds the file system whose
    magic is in its place (the two bytes 53 EF at 0x438 for ext, "NTFS" at 3,
    10 20 F5 F2 at 0x400 for f2fs, in this order), never compares outside of
    its buffer, and fails with [EFI_NOT_FOUND] when there is none; when no read
    succeeds it fails likewise. *)
Theorem GetFsType_spec disk ReadDisk junk :
  (reads disk ReadDisk -> GetFsType ReadDisk junk = Some (fs_of disk)) /\
  ((forall off n, EFI_ERROR (fst (ReadDisk off n)) = true) ->
   GetFsType ReadDisk junk = Some (EFI_NOT_FOUND, None)).
Proof.
  destruct table_offsets as (H1 & H2 & H3). split.
  - intros Hr. unfold GetFsType. open_table. cbn [infos_loop magics_loop Magics Name].
    rewrite !Hr by (unfold FS_AREA, BUFFER_SIZE; lia). change (EFI_ERROR EFI_SUCCESS) with false. cbv iota.
    destruct (table_matches disk) as (-> & -> & ->). unfold fs_of.
    by repeat match goal with |- context [has_magic disk ?o ?m] => destruct (has_magic disk o m) end.
  - intros He. unfold GetFsType. open_table. cbn [infos_loop magics_loop Magics Name].
    pose proof (He (magic_offset ext_mag) BUFFER_SIZE) as E1.
    pose proof (He (magic_offset ntfs_mag) BUFFER_SIZE) as E2.
    pose proof (He (magic_offset f2fs_mag) BUFFER_SIZE) as E3.
    destruct (ReadDisk (magic_offset ext_mag) _) as [s1 b1], (ReadDisk (magic_offset ntfs_mag) _) as [s2 b2].
    simpl in *. rewrite E1, E2. destruct (ReadDisk (magic_offset f2fs_mag) _) as [s3 b3].
    simpl in *. by rewrite E3.
Qed.

Section lkl_spec.
Context `{LklSys}.

(** The open file [FD] gives the bytes of [disk], wherever it is read, in the
    worlds [P] that reading it leads to. *)
Record file_reads (disk : Z -> Z) (FD : Z) (P : World -> Prop) : Prop := {
  fr_seek : forall w off, P w -> 0 <= off <= FS_AREA ->
    fst (lkl_sys_lseek FD off LKL_SEEK_SET w) = off /\ P (snd (lkl_sys_lseek FD off LKL_SEEK_SET w));
  fr_read : forall w off n, P w -> 0 <= off -> 0 <= n -> off + n <= FS_AREA ->
    let w1 := snd (lkl_sys_lseek FD off LKL_SEEK_SET w) in
    fst (lkl_sys_read FD n w1) = (n, bytes_at disk off (Z.to_nat n)) /\ P (snd (lkl_sys_read FD n w1));
}.

Lemma lkl_magic_step {disk FD P} name m ms junk s :
  file_reads disk FD P -> P (world s) -> length junk = Z.to_nat BUFFER_SIZE ->
  0 <= magic_offset m <= 1024 ->
  exists s', P (world s') /\ pool_live s' = pool_live s /\
    let B := bytes_at disk (magic_offset m) (Z.to_nat BUFFER_SIZE) in
    lkl_magics_loop FD name (m :: ms) junk s =
      match magic_matches m B with
      | None => FFail FUB
      | Some true => FDone (Found name) s'
      | Some false => lkl_magics_loop FD name ms B s'
      end.
Proof.
  intros Hf HP Hj Ho. destruct (fr_seek _ _ _ Hf (world s) (magic_offset m) HP) as [Es HPs]; [unfold FS_AREA; lia|].
  destruct (fr_read _ _ _ Hf (world s) (magic_offset m) BUFFER_SIZE HP) as [Er HPr];
    [lia|done|unfold FS_AREA, BUFFER_SIZE; lia|].
  cbn [lkl_magics_loop]. unfold mbind, FM_bind, sys at 1.
  destruct (lkl_sys_lseek _ _ _ _) as [ret w1] eqn:E1. simpl in *. subst ret.
  rewrite s32_small by (unfold INT_MIN, INT_MAX; lia). rewrite (proj2 (Z.ltb_ge _ _)) by lia.
  unfold sys. simpl. destruct (lkl_sys_read _ _ w1) as [[n B] w2] eqn:E2. simpl in *. simplify_eq.
  exists (mk_fstate w2 (pool_fails s) (pool_live s)). split; [done|]. split; [done|].
  change (BUFFER_SIZE <? 0) with false. cbv iota. unfold overlay.
  rewrite length_bytes_at, drop_ge, app_nil_r by lia. by destruct (magic_matches _ _) as [[]|].
Qed.

(** One file system of the table, which has one magic. *)
Lemma lkl_info_step {disk FD P} name m infos junk s b :
  file_reads disk FD P -> P (world s) -> length junk = Z.to_nat BUFFER_SIZE ->
  0 <= magic_offset m <= 1024 ->
  magic_matches m (bytes_at disk (magic_offset m) (Z.to_nat BUFFER_SIZE)) = Some b ->
  exists s', P (world s') /\ pool_live s' = pool_live s /\
    lkl_infos_loop FD (mk_info name [m] :: infos) junk s =
      if b then FDone (EFI_SUCCESS, Some name) s'
      else lkl_infos_loop FD infos (bytes_at disk (magic_offset m) (Z.to_nat BUFFER_SIZE)) s'.
Proof.
  intros Hf HP Hj Ho Hm. destruct (lkl_magic_step name m [] junk s Hf HP Hj Ho) as (s' & HP' & Hl & E).
  cbv zeta in E. rewrite Hm in E. exists s'. split; [done|]. split; [done|]. cbn [lkl_infos_loop Name Magics].
  unfold mbind, FM_bind. unfold FM_bind in E. rewrite E. by destruct b.
Qed.

Lemma lkl_infos_ok disk FD P junk s :
  file_reads disk FD P -> P (world s) -> length junk = Z.to_nat BUFFER_SIZE ->
  exists s', P (world s') /\ pool_live s' = pool_live s /\
    lkl_infos_loop FD FsIdInfos junk s = FDone (fs_of disk) s'.
Proof.
  intros Hf HP Hj. destruct (table_matches disk) as (T1 & T2 & T3). unfold fs_of. open_table.
  destruct (lkl_info_step ext4_name ext_mag [mk_info ntfs_name [ntfs_mag]; mk_info f2fs_name [f2fs_mag]]
    junk s _ Hf HP Hj ltac:(by vm_compute) T1) as (s1 & HP1 & L1 & ->).
  destruct (has_magic disk 0x438 [0x53; 0xEF]); [by exists s1|].
  destruct (lkl_info_step ntfs_name ntfs_mag [mk_info f2fs_name [f2fs_mag]] _ s1 _ Hf HP1
    (length_bytes_at disk (magic_offset ext_mag) _) ltac:(by vm_compute) T2) as (s2 & HP2 & L2 & ->).
  destruct (has_magic disk 3 [78; 84; 70; 83; 32; 32; 32; 32]); [exists s2; split; [done|split; [congruence|done]]|].
  destruct (lkl_info_step f2fs_name f2fs_mag [] _ s2 _ Hf HP2
    (length_bytes_at disk (magic_offset ntfs_mag) _) ltac:(by vm_compute) T3) as (s3 & HP3 & L3 & ->).
  exists s3. split; [done|]. split; [congruence|].
  by destruct (has_magic disk 0x400 [0x10; 0x20; 0xF5; 0xF2]).
Qed.

(** C26: on a device node whose reads are complete, [GetFsTypeLKL] gives the
    answer [GetFsType] gives on the medium, allocates nothing, and closes the
    node; when the node cannot be opened it returns the translated error. *)
Theorem GetFsTypeLKL_equiv disk Path junk s P :
  let FD := fst (lkl_sys_open Path LKL_O_RDONLY 0 (world s)) in
  let w1 := snd (lkl_sys_open Path LKL_O_RDONLY 0 (world s)) in
  length junk = Z.to_nat BUFFER_SIZE ->
  (FD < 0 -> exists s', GetFsTypeLKL Path junk s = FDone (LKLError2EfiError FD, None) s' /\ world s' = w1) /\
  (0 <= FD -> P w1 -> file_reads disk FD P ->
   exists s' w2, GetFsTypeLKL Path junk s = FDone (fs_of disk) s' /\ P w2 /\
     world s' = snd (lkl_sys_close FD w2) /\ pool_live s' = pool_live s).
Proof.
  intros FD w1 Hj. unfold GetFsTypeLKL, mbind, FM_bind, sys at 1 3.
  subst FD w1. destruct (lkl_sys_open _ _ _ _) as [FD w1]. cbn [fst snd]. split.
  { intros HFD. rewrite (proj2 (Z.ltb_lt _ _)) by done. by eexists. }
  intros HFD HP Hf. rewrite (proj2 (Z.ltb_ge _ _)) by done.
  set (s1 := mk_fstate w1 (pool_fails s) (pool_live s)).
  assert (Hend : exists s', P (world s') /\ pool_live s' = pool_live s /\
    lkl_infos_loop FD FsIdInfos junk s1 = FDone (fs_of disk) s').
  { by apply (lkl_infos_ok disk FD P junk s1 Hf). }
  destruct Hend as (s' & HP' & Hl & ->).
  destruct (lkl_sys_close FD (world s')) as [rc w3] eqn:Ec. unfold sys. rewrite Ec.
  eexists _, (world s'). split; [reflexivity|]. simpl. by rewrite Ec.
Qed.
End lkl_spec.

(** ** Witnesses *)

(** A medium with an ext superblock. *)
Definition demo_disk (i : Z) : Z := if i =? 0x438 then 0x53 else if i =? 0x439 then 0xEF else 0.

Lemma GetFsType_spec_witness :
  GetFsType (fun off n => (EFI_SUCCESS, bytes_at demo_disk off (Z.to_nat n))) [] =
    Some (EFI_SUCCESS, Some ext4_name).
Proof.
  rewrite (proj1 (GetFsType_spec demo_disk (fun off n => (EFI_SUCCESS, bytes_at demo_disk off (Z.to_nat n))) [])
    ltac:(intros ? ? _ _ _; reflexivity)).
  reflexivity.
Defined.

(** "/d", with its first two KiB *)
Definition demo_dev : str := [47; 100].
Definition demo_dev_state : fstate (H := demo_lkl) :=
  demo_state [(demo_dev, demo_file (bytes_at demo_disk 0 (Z.to_nat FS_AREA)))].

(** The node is open as descriptor 3. *)
Definition demo_dev_open (w : demo_world) : Prop :=
  exists pos, fd_node 3 w = Some (demo_dev, pos, demo_file (bytes_at demo_disk 0 (Z.to_nat FS_AREA))).

Lemma demo_dev_moved w pos p nd pos' : fd_node 3 w = Some (p, pos, nd) ->
  fd_node 3 (upd w (nodes w) (<[3 := (p, pos')]> (fds w)) (dirpos w)) = Some (p, pos', nd).
Proof.
  unfold fd_node. simpl. rewrite lookup_insert_eq. simpl.
  destruct (fds w !! 3) as [[p0 pos0]|]; simpl; [|done].
  destruct (nodes w !! p0) as [n0|] eqn:E; simpl; [|done]. intros [= -> -> ->]. by rewrite E.
Qed.

Lemma demo_dev_reads : file_reads (H := demo_lkl) demo_disk 3 demo_dev_open.
Proof.
  assert (Hseek : forall w off, 0 <= off -> demo_dev_open w -> fst (d_lseek 3 off 0 w) = off /\
    fd_node 3 (snd (d_lseek 3 off 0 w)) =
      Some (demo_dev, off, demo_file (bytes_at demo_disk 0 (Z.to_nat FS_AREA)))).
  { intros w off Ho (pos & E). unfold d_lseek. rewrite E. simpl. rewrite (proj2 (Z.ltb_ge _ _)) by done. simpl. split; [done|]. by eapply demo_dev_moved. }
  split.
  - intros w off HP [Ho _]. simpl. destruct (Hseek w off Ho HP) as [-> E]. split; [done|]. by exists off.
  - intros w off n HP Ho Hn Hsz. simpl. destruct (Hseek w off Ho HP) as [_ E].
    unfold d_read. rewrite (proj2 (Z.ltb_ge _ _)) by done. rewrite (proj2 (Z.ltb_ge MAX_RW _)) by (unfold MAX_RW, FS_AREA in *; lia).
    cbn [orb]. rewrite E. cbv iota beta zeta.
    change (n_data (demo_file ?x)) with x.
    rewrite bytes_at_slice by (unfold FS_AREA in *; lia). rewrite length_bytes_at.
    rewrite !Z2Nat.id by done. simpl. split; [done|]. eexists. by eapply demo_dev_moved.
Qed.

Lemma GetFsTypeLKL_equiv_witness :
  exists s', GetFsTypeLKL (H := demo_lkl) demo_dev (replicate 1024 0) demo_dev_state =
    FDone (EFI_SUCCESS, Some ext4_name) s' /\ pool_live s' = 0.
Proof.
  destruct (proj2 (GetFsTypeLKL_equiv (H := demo_lkl) demo_disk demo_dev (replicate 1024 0) demo_dev_state
    demo_dev_open ltac:(reflexivity))) as (s' & w2 & E & _ & _ & Hl).
  - vm_compute. discriminate.
  - eexists. reflexivity.
  - exact demo_dev_reads.
  - exists s'. split; [exact E|exact Hl].
Defined.
