(* ===== verification/File.v ===== *)
(** * Opening and closing files ([Open.c], [OpenVolume.c], [Flush.c])

    The file handles of the EFI simple file system protocol: a handle is the
    [LKL_IFILE] it is embedded in, which keeps the Linux file descriptor and
    the path below the mount point of its volume. *)

From S2P Require Import Prelude Efi Lkl Errors Path DemoFs.

Definition EFI_FILE_MODE_READ : Z := 0x1.
Definition EFI_FILE_MODE_WRITE : Z := 0x2.
Definition EFI_FILE_MODE_CREATE : Z := 0x8000000000000000.
Definition EFI_FILE_READ_ONLY : Z := 0x1.
Definition EFI_FILE_DIRECTORY : Z := 0x10.
Definition EFI_FILE_VALID_ATTR : Z := 0x37.

(** [~x] on 64 bits. *)
Definition not64 (x : Z) : Z := u64 (Z.lnot x).

(** The handles and the disk of the volume are left out. *)
Record LKL_VOLUME := mk_volume {
  Valid : bool;
  MediaId : Z;
  ReadOnly : bool;
  LKLDiskId : Z;
  LKLMountPoint : str;
  FsType : str;
  IsEncrypted : bool;
  LKLBlkDevice : str;
  LKLBlkDeviceDecrypted : str;
  LKLCryptFSName : str
}.

Section file.
Context `{LklSys} `{EdkStrings}.

Record LKL_IFILE := mk_ifile {
  Volume : LKL_VOLUME;
  FD : Z;
  LinuxOpenFlags : Z;
  StatBuf : lkl_stat;
  FilePath : str;
  Dir : option lkl_dir;
  DirEnt : option str
}.

Definition sizeof_FilePath : Z := 4096.

Definition LKLAllocateIFile (Volume : LKL_VOLUME) (FD : Z) : FM (Z * option LKL_IFILE) :=
  IFile ← AllocatePool;
  if negb (IFile : bool) then mret (EFI_OUT_OF_RESOURCES, None)
  else
    st ← query (lkl_sys_fstat FD);
    let (RC, StatBuf) := (st : Z * lkl_stat) in
    if negb (RC =? 0) then
      let Status := LKLError2EfiError RC in
      fwhen (EFI_ERROR Status) FreePool;;
      mret (Status, None)
    else mret (EFI_SUCCESS, Some (mk_ifile Volume FD 0 StatBuf [] None None)).

(** *** [LKLOpen] *)

(** The checks before anything is allocated: a status, or the Linux flags and
    mode. *)
Definition open_flags (V : LKL_VOLUME) (OpenMode Attributes : Z) : Z + Z * Z :=
  let ReadMode := negb (Z.land OpenMode EFI_FILE_MODE_READ =? 0) in
  let WriteMode := negb (Z.land OpenMode EFI_FILE_MODE_WRITE =? 0) in
  let CreateMode := negb (Z.land OpenMode EFI_FILE_MODE_CREATE =? 0) in
  if negb ((OpenMode =? EFI_FILE_MODE_READ)
        || (OpenMode =? Z.lor EFI_FILE_MODE_READ EFI_FILE_MODE_WRITE)
        || (OpenMode =? Z.lor (Z.lor EFI_FILE_MODE_READ EFI_FILE_MODE_WRITE) EFI_FILE_MODE_CREATE))
  then inl EFI_INVALID_PARAMETER
  else if CreateMode &&
          negb (Z.land Attributes (Z.lor EFI_FILE_READ_ONLY (not64 EFI_FILE_VALID_ATTR)) =? 0)
  then inl EFI_INVALID_PARAMETER
  else if negb (ReadMode || WriteMode) then inl EFI_ACCESS_DENIED
  else
    let LinuxFlags :=
      if ReadMode && WriteMode then Z.lor 0 LKL_O_RDWR
      else if ReadMode then Z.lor 0 LKL_O_RDONLY else Z.lor 0 LKL_O_WRONLY in
    let LinuxFlags := if CreateMode then Z.lor LinuxFlags LKL_O_CREAT else LinuxFlags in
    let LinuxMode :=
      if CreateMode then
        if negb (Z.land Attributes EFI_FILE_READ_ONLY =? 0) then Z.lor 0 LKL_S_IRUSR
        else Z.lor 0 (Z.lor LKL_S_IRUSR LKL_S_IWUSR)
      else 0 in
    if ReadOnly V && WriteMode then inl EFI_WRITE_PROTECTED
    else inr (LinuxFlags, LinuxMode).

(** [NewFileName]: the absolute path with the mount point in front. *)
Definition open_path (ParentIFile : LKL_IFILE) (FileNameAscii : str) : FM (option str) :=
  let mp := LKLMountPoint (Volume ParentIFile) in
  let len (s : str) := Z.of_nat (length s) in
  if bool_decide (head FileNameAscii = Some SLASH) then
    let NewFileNameSize := len mp + len FileNameAscii + 1 in
    NewFileName ← AllocatePool;
    if negb (NewFileName : bool) then mret None
    else mret (Some (AsciiSPrint NewFileNameSize [Pa; Pa] [mp; FileNameAscii]))
  else
    let NewFileNameSize := len mp + 1 + len (FilePath ParentIFile) + 1 + len FileNameAscii + 1 in
    NewFileName ← AllocatePool;
    if negb (NewFileName : bool) then mret None
    else mret (Some (AsciiSPrint NewFileNameSize [Pa; Pc SLASH; Pa; Pc SLASH; Pa]
                 [mp; FilePath ParentIFile; FileNameAscii])).

(** Creation: the path in front of the base name, and the base name; [None]
    when there is none.  [BaseName[-1] = 0] needs a character there. *)
Definition open_split (NewFileName : str) : FM (option (str * str)) :=
  let NewFileName := RemoveTrailingSlashes NewFileName in
  let o := GetBasenamePtr NewFileName in
  let BaseName := drop o NewFileName in
  if bool_decide (BaseName = []) then mret None
  else if bool_decide (o = O) then ffail FUB
  else mret (Some (take (o - 1) NewFileName, BaseName)).

(** Creation, with the directory resolved: the status when it fails, else the
    path of the new file and the flags and mode to open it with. *)
Definition open_create (AbsFilePath BaseName : str) (Attributes LinuxFlags LinuxMode : Z)
    : FM (Z + str * Z * Z) :=
  let CreateNameSize := Z.of_nat (length AbsFilePath) + 1 + Z.of_nat (length BaseName) + 1 in
  CreateName ← AllocatePool;
  if negb (CreateName : bool) then mret (inl EFI_OUT_OF_RESOURCES)
  else
    let CreateName := AsciiSPrint CreateNameSize [Pa; Pc SLASH; Pa] [AbsFilePath; BaseName] in
    _ ← FreePool;
    let AbsFilePath := CreateName in
    if negb (Z.land Attributes EFI_FILE_DIRECTORY =? 0) then
      RC ← sys (lkl_sys_mkdir AbsFilePath LinuxMode);
      if negb ((RC : Z) =? 0) then mret (inl (LKLError2EfiError RC))
      else mret (inr (AbsFilePath, LKL_O_RDONLY, 0))
    else mret (inr (AbsFilePath, LinuxFlags, LinuxMode)).

(** The mount point check, [open] and the new handle; the descriptor is -1 as
    long as the file is not open. *)
Definition open_file (V : LKL_VOLUME) (AbsFilePath : str) (LinuxFlags LinuxMode : Z)
    : FM (Z * Z * option LKL_IFILE) :=
  if negb (StartsWith AbsFilePath (LKLMountPoint V)) then mret (EFI_NOT_FOUND, -1, None)
  else
    fd ← sys (lkl_sys_open AbsFilePath LinuxFlags LinuxMode);
    if (fd : Z) <? 0 then mret (LKLError2EfiError fd, fd, None)
    else
      r ← LKLAllocateIFile V fd;
      let (Status, IFile) := (r : Z * option LKL_IFILE) in
      match IFile with
      | Some IFile =>
          let CopySrc := drop (length (LKLMountPoint V)) AbsFilePath in
          let CopySrc := if bool_decide (head CopySrc = Some SLASH) then tail CopySrc else CopySrc in
          mret (Status, fd, Some (mk_ifile V fd LinuxFlags (StatBuf IFile)
            (AsciiStrnCpyS (FilePath IFile) sizeof_FilePath CopySrc sizeof_FilePath) None None))
      | None => mret (Status, fd, None)
      end.

(** The label [Done]; the flags tell which of the three buffers exist. *)
Definition open_done (Status fd : Z) (IFile : option LKL_IFILE)
    (FileNameAscii NewFileName AbsFilePath : bool) : FM (Z * option LKL_IFILE) :=
  fwhen (EFI_ERROR Status && (0 <=? fd)) (_ ← sys (lkl_sys_close fd); mret tt);;
  fwhen FileNameAscii FreePool;;
  fwhen NewFileName FreePool;;
  fwhen AbsFilePath FreePool;;
  mret (Status, IFile).

(** From [RealPath] on. *)
Definition open_resolved (V : LKL_VOLUME) (NewFileName : str) (BaseName : option str)
    (Attributes LinuxFlags LinuxMode : Z) : FM (Z * option LKL_IFILE) :=
  AbsFilePath ← RealPath (Some NewFileName) false;
  match (AbsFilePath : option str) with
  | None => open_done EFI_NOT_FOUND (-1) None true true false
  | Some AbsFilePath =>
      c ← (match BaseName with
           | Some BaseName => open_create AbsFilePath BaseName Attributes LinuxFlags LinuxMode
           | None => mret (inr (AbsFilePath, LinuxFlags, LinuxMode))
           end);
      match (c : Z + str * Z * Z) with
      | inl Status => open_done Status (-1) None true true true
      | inr (AbsFilePath, LinuxFlags, LinuxMode) =>
          r ← open_file V AbsFilePath LinuxFlags LinuxMode;
          let '(Status, fd, IFile) := (r : Z * Z * option LKL_IFILE) in
          open_done Status fd IFile true true true
      end
  end.

(** The status and [*NewHandle], when it is written. *)
Definition LKLOpen (ParentIFile : LKL_IFILE) (FileName : option str) (OpenMode Attributes : Z)
    : FM (Z * option LKL_IFILE) :=
  let V := Volume ParentIFile in
  match FileName with
  | None => mret (EFI_INVALID_PARAMETER, None)
  | Some FileName =>
      match open_flags V OpenMode Attributes with
      | inl Status => mret (Status, None)
      | inr (LinuxFlags, LinuxMode) =>
          FileNameAscii ← Unicode2Ascii FileName;
          match (FileNameAscii : option str) with
          | None => open_done EFI_OUT_OF_RESOURCES (-1) None false false false
          | Some FileNameAscii =>
              NewFileName ← open_path ParentIFile (PathToUnixAscii FileNameAscii);
              match (NewFileName : option str) with
              | None => open_done EFI_OUT_OF_RESOURCES (-1) None true false false
              | Some NewFileName =>
                  if negb (Z.land OpenMode EFI_FILE_MODE_CREATE =? 0) then
                    sp ← open_split NewFileName;
                    match (sp : option (str * str)) with
                    | None => open_done EFI_NOT_FOUND (-1) None true true false
                    | Some (NewFileName, BaseName) =>
                        open_resolved V NewFileName (Some BaseName) Attributes LinuxFlags LinuxMode
                    end
                  else open_resolved V NewFileName None Attributes LinuxFlags LinuxMode
              end
          end
      end
  end.

Definition LKLOpenEx : FM Z := mret EFI_DEVICE_ERROR.

(** *** Closing *)

Definition LKLIFileClose (IFile : LKL_IFILE) : FM Z :=
  _ ← sys (lkl_sys_close (FD IFile));
  _ ← FreePool;
  mret EFI_SUCCESS.

Definition LKLClose (IFile : LKL_IFILE) : FM Z :=
  _ ← LKLIFileClose IFile;
  mret EFI_SUCCESS.

Definition LKLFlush (IFile : LKL_IFILE) : FM Z :=
  RC ← sys (lkl_sys_fsync (FD IFile));
  mret (LKLError2EfiError RC).

Definition LKLFlushEx : FM Z := mret EFI_DEVICE_ERROR.

Definition LKLDelete (IFile : LKL_IFILE) : FM Z :=
  let mp := LKLMountPoint (Volume IFile) in
  let FilePathSize := Z.of_nat (length mp) + 1 + Z.of_nat (length (FilePath IFile)) + 1 in
  path ← AllocatePool;
  let path := if path : bool then Some (AsciiSPrint FilePathSize [Pa; Pc SLASH; Pa] [mp; FilePath IFile])
              else None in
  _ ← LKLIFileClose IFile;
  match path with
  | Some path =>
      RC ← sys (lkl_sys_unlink path);
      _ ← FreePool;
      mret (if (RC : Z) =? 0 then EFI_SUCCESS else EFI_WARN_DELETE_FAILURE)
  | None => mret EFI_WARN_DELETE_FAILURE
  end.

(** *** [OpenVolume] *)

(** On failure the pointer to the new handle is not set: writing its flags goes
    to an address that was never initialised. *)
Definition LKLOpenVolume (V : LKL_VOLUME) : FM (Z * option LKL_IFILE) :=
  fd ← sys (lkl_sys_open (LKLMountPoint V) LKL_O_RDONLY 420);
  if (fd : Z) <? 0 then
    mret (LKLError2EfiError fd, None)
  else
    r ← LKLAllocateIFile V fd;
    let (Status, IFile) := (r : Z * option LKL_IFILE) in
    match IFile with
    | None => ffail FUB
    | Some IFile =>
        let IFile := mk_ifile (Volume IFile) (FD IFile) LKL_O_RDONLY (StatBuf IFile) (FilePath IFile)
                       (Dir IFile) (DirEnt IFile) in
        fwhen (EFI_ERROR Status && (0 <=? fd)) (_ ← sys (lkl_sys_close fd); mret tt);;
        mret (Status, Some IFile)
    end.

(** ** Specification *)

(** The path below the mount point, as it is kept in the handle. *)
Definition below (V : LKL_VOLUME) (path : str) : str :=
  let rest := drop (length (LKLMountPoint V)) path in
  if bool_decide (head rest = Some SLASH) then tail rest else rest.

(** The handle [f] is for [path], opened in the world [w0] with the outcome [w]. *)
Record opened (V : LKL_VOLUME) (path : str) (flags mode : Z) (w0 : World) (f : LKL_IFILE) (w : World)
    : Prop := {
  op_fd : fst (lkl_sys_open path flags mode w0) = FD f;
  op_world : w = snd (lkl_sys_open path flags mode w0);
  op_fd_ok : 0 <= FD f;
  op_stat : lkl_sys_fstat (FD f) w = (0, StatBuf f);
  op_prefix : StartsWith path (LKLMountPoint V) = true;
  op_volume : Volume f = V;
  op_flags : LinuxOpenFlags f = flags;
  op_path : Z.of_nat (length path) < sizeof_FilePath -> FilePath f = below V path;
  op_dir : Dir f = None;
  op_dirent : DirEnt f = None
}.

(** No handle: not opened at all, not possible to open, or closed again. *)
Definition unopened (path : str) (flags mode : Z) (w0 w : World) : Prop :=
  let fd := fst (lkl_sys_open path flags mode w0) in
  let w1 := snd (lkl_sys_open path flags mode w0) in
  w = w0 \/ (fd < 0 /\ w = w1) \/ (0 <= fd /\ w = snd (lkl_sys_close fd w1)).

(** The result of an attempt to open [path]: a handle in one new block, or an
    error and nothing left behind. *)
Definition open_post (V : LKL_VOLUME) (path : str) (flags mode : Z) (w0 : World) (live : Z)
    (r : Z * option LKL_IFILE) (s' : fstate) : Prop :=
  match snd r with
  | Some f => fst r = EFI_SUCCESS /\ opened V path flags mode w0 f (world s') /\ pool_live s' = live + 1
  | None => EFI_ERROR (fst r) = true /\ unopened path flags mode w0 (world s') /\ pool_live s' = live
  end.

(** An error before anything was done. *)
Definition no_effect (s : fstate) (r : Z * option LKL_IFILE) (s' : fstate) : Prop :=
  EFI_ERROR (fst r) = true /\ snd r = None /\ world s' = world s /\ pool_live s' = pool_live s.

Lemma AllocateIFile_ok V fd s : fwp (LKLAllocateIFile V fd) (fun r s' =>
  world s' = world s /\
  match snd r with
  | Some f => fst r = EFI_SUCCESS /\ pool_live s' = pool_live s + 1 /\
      lkl_sys_fstat fd (world s) = (0, StatBuf f) /\ f = mk_ifile V fd 0 (StatBuf f) [] None None
  | None => EFI_ERROR (fst r) = true /\ pool_live s' = pool_live s
  end) s.
Proof.
  unfold LKLAllocateIFile. fstep; [fstep; done|]. cbn [negb]. fstep.
  pose proof (lkl_fstat_int fd (world s)) as Hint. simpl.
  destruct (lkl_sys_fstat fd (world s)) as [RC st]. simpl in *.
  destruct (Z.eqb_spec RC 0) as [->|Hne]; cbn [negb]; [by fstep|].
  rewrite LKLError2EfiError_error by done. simpl. fstep. fstep. simpl.
  rewrite LKLError2EfiError_error by done. split_and!; [done|done|lia].
Qed.

Definition b2z (b : bool) : Z := if b then 1 else 0.

Lemma open_done_ok Status fd f a b c (Q : Z * option LKL_IFILE -> fstate -> Prop) s :
  (forall s', world s' = (if EFI_ERROR Status && (0 <=? fd) then snd (lkl_sys_close fd (world s)) else world s) ->
     pool_live s' = pool_live s - b2z a - b2z b - b2z c -> Q (Status, f) s') ->
  fwp (open_done Status fd f a b c) Q s.
Proof.
  intros HQ. unfold open_done, fwhen.
  destruct (EFI_ERROR Status && (0 <=? fd)); destruct a, b, c;
    repeat fstep; apply HQ; simpl; try done; lia.
Qed.

(** [open_file] and the clean-up behind it. *)
Lemma open_file_ok V path flags mode w0 live s :
  world s = w0 -> pool_live s = live + 3 ->
  fwp (r ← open_file V path flags mode;
       let '(Status, fd, IFile) := (r : Z * Z * option LKL_IFILE) in
       open_done Status fd IFile true true true) (open_post V path flags mode w0 live) s.
Proof.
  intros Hw Hl. unfold open_file. subst w0. destruct (StartsWith path (LKLMountPoint V)) eqn:Hpre; cbn [negb].
  2:{ fstep. apply open_done_ok. simpl. intros s' Hw' Hl'; cbn [open_post fst snd]; split_and!; [done|by left|simpl in *; lia]. }
  apply fwp_bind. fstep. pose proof (lkl_open_int path flags mode (world s)) as Hint.
  destruct (lkl_sys_open path flags mode (world s)) as [fd w1] eqn:Eo. simpl in *.
  destruct (Z.ltb_spec fd 0).
  { fstep. apply open_done_ok. rewrite (proj2 (Z.leb_gt _ _)) by done. rewrite andb_false_r. simpl.
    intros s' Hw' Hl'; cbn [open_post fst snd]; split_and!; [by apply LKLError2EfiError_error; lia| |simpl in *; lia].
    right; left. rewrite Eo. by rewrite Hw'. }
  apply fwp_bind. eapply fwp_mono; [apply AllocateIFile_ok|]. intros [Status [f|]] s1; simpl.
  - intros (Hw1 & -> & Hl1 & Est & Ef). fstep. apply open_done_ok.
    change (EFI_ERROR EFI_SUCCESS) with false. simpl. intros s' Hw' Hl'.
    cbn [open_post fst snd]. split; [done|]. split; [|simpl in *; lia]. rewrite Hw', Hw1. constructor; simpl; try done.
    + by rewrite Eo.
    + by rewrite Eo.
    + intros Hlen. unfold below. rewrite AsciiStrnCpyS_fits; [done| |];
      (assert (length (if bool_decide (head (drop (length (LKLMountPoint V)) path) = Some SLASH)
         then tail (drop (length (LKLMountPoint V)) path) else drop (length (LKLMountPoint V)) path)
         <= length path)%nat;
       [case_bool_decide; [destruct (drop _ path) eqn:E; simpl; [lia|apply (f_equal length) in E; rewrite length_drop in E; simpl in E; lia]|rewrite length_drop; lia]|lia]).
  - intros (Hw1 & He & Hl1). fstep. apply open_done_ok. rewrite He, (proj2 (Z.leb_le _ _)) by done. simpl.
    intros s' Hw' Hl'; cbn [open_post fst snd]; split_and!; [done| |simpl in *; lia].
    right; right. rewrite Eo, Hw', Hw1. done.
Qed.

(** The absolute name of a file inside LKL. *)
Definition open_name (P : LKL_IFILE) (FileName : str) : str :=
  let mp := LKLMountPoint (Volume P) in
  let n := PathToUnixAscii (UnicodeStrToAsciiStr FileName) in
  if bool_decide (head n = Some SLASH) then mp ++ n else mp ++ SLASH :: FilePath P ++ SLASH :: n.

Lemma open_path_ok P FileName s :
  fwp (open_path P (PathToUnixAscii (UnicodeStrToAsciiStr FileName))) (fun r s' =>
    world s' = world s /\
    match r with
    | Some n => n = open_name P FileName /\ pool_live s' = pool_live s + 1
    | None => pool_live s' = pool_live s
    end) s.
Proof.
  unfold open_path, open_name. case_bool_decide; (fstep; [by fstep|]); fstep; (split; [done|]);
    (split; [|done]); rewrite AsciiSPrint_fits; simpl; rewrite ?app_nil_r, ?length_app; simpl;
    rewrite ?length_app; simpl; done || lia.
Qed.

Lemma Unicode2Ascii_ok name s : fwp (Unicode2Ascii name) (fun r s' =>
  world s' = world s /\
  match r with
  | Some a => a = UnicodeStrToAsciiStr name /\ pool_live s' = pool_live s + 1
  | None => pool_live s' = pool_live s
  end) s.
Proof. unfold Unicode2Ascii. by fstep; fstep. Qed.

(** The steps of [LKLOpen] up to the absolute name. *)
Lemma LKLOpen_start P FileName mode attr flags lmode (Q : Z * option LKL_IFILE -> fstate -> Prop) s :
  open_flags (Volume P) mode attr = inr (flags, lmode) ->
  (forall r s', no_effect s r s' -> Q r s') ->
  (forall s1, world s1 = world s -> pool_live s1 = pool_live s + 2 ->
     fwp (if negb (Z.land mode EFI_FILE_MODE_CREATE =? 0) then
            sp ← open_split (open_name P FileName);
            match (sp : option (str * str)) with
            | None => open_done EFI_NOT_FOUND (-1) None true true false
            | Some (NewFileName, BaseName) =>
                open_resolved (Volume P) NewFileName (Some BaseName) attr flags lmode
            end
          else open_resolved (Volume P) (open_name P FileName) None attr flags lmode) Q s1) ->
  fwp (LKLOpen P (Some FileName) mode attr) Q s.
Proof.
  intros Hf Herr Hok. unfold LKLOpen. rewrite Hf. apply fwp_bind.
  eapply fwp_mono; [apply Unicode2Ascii_ok|]. intros [n|] s1 (Hw1 & Hl1).
  - destruct Hl1 as [-> Hl1]. apply fwp_bind. eapply fwp_mono; [apply open_path_ok|].
    intros [n|] s2 (Hw2 & Hl2).
    + destruct Hl2 as [-> Hl2]. apply Hok; [congruence|lia].
    + apply open_done_ok. simpl. intros s' Hw' Hl'. apply Herr.
      split_and!; simpl in *; [done..|congruence|lia].
  - apply open_done_ok. simpl. intros s' Hw' Hl'. apply Herr.
    split_and!; simpl in *; [done..|congruence|lia].
Qed.

(** [RealPath] inside [LKLOpen]. *)
Lemma open_resolved_ok V name BaseName attr flags lmode (Q : Z * option LKL_IFILE -> fstate -> Prop) s0 s :
  world s = world s0 -> pool_live s = pool_live s0 + 2 ->
  (forall r s', no_effect s0 r s' -> Q r s') ->
  (forall cs s1, resolves (world s0) [] (comps name) cs -> canonical (world s0) cs ->
     world s1 = world s0 -> pool_live s1 = pool_live s0 + 3 ->
     fwp (c ← (match BaseName with
           | Some BaseName => open_create (render cs) BaseName attr flags lmode
           | None => mret (inr (render cs, flags, lmode))
           end);
      match (c : Z + str * Z * Z) with
      | inl Status => open_done Status (-1) None true true true
      | inr (AbsFilePath, LinuxFlags, LinuxMode) =>
          r ← open_file V AbsFilePath LinuxFlags LinuxMode;
          let '(Status, fd, IFile) := (r : Z * Z * option LKL_IFILE) in
          open_done Status fd IFile true true true
      end) Q s1) ->
  fwp (open_resolved V name BaseName attr flags lmode) Q s.
Proof.
  intros Hw Hl Herr Hok. unfold open_resolved. apply fwp_bind.
  eapply fwp_mono; [apply RealPath_ok|]. intros [p|] s1 (Hw1 & Hl1 & Hr).
  - destruct Hr as (n & cs & [= <-] & _ & Hres & Hcan & ->). rewrite Hw in *.
    apply Hok; [done..|simpl in *; lia].
  - apply open_done_ok. simpl. intros s' Hw' Hl'. apply Herr.
    split_and!; simpl in *; [done..|congruence|lia].
Qed.

(** *** The modes *)

Definition MODE_CREATE : Z := Z.lor (Z.lor EFI_FILE_MODE_READ EFI_FILE_MODE_WRITE) EFI_FILE_MODE_CREATE.
Definition MODE_WRITE : Z := Z.lor EFI_FILE_MODE_READ EFI_FILE_MODE_WRITE.

(** The attributes a file may be created with: hidden, system, directory and
    archive. *)
Definition CREATE_ATTR : Z := 0x36.
Definition create_attr (attr : Z) : bool := Z.land attr CREATE_ATTR =? attr.

Lemma create_attr_mask attr : 0 <= attr < 2 ^ 64 ->
  (Z.land attr (Z.lor EFI_FILE_READ_ONLY (not64 EFI_FILE_VALID_ATTR)) =? 0) = create_attr attr.
Proof.
  intros Ha.
  assert (Hm : Z.lor EFI_FILE_READ_ONLY (not64 EFI_FILE_VALID_ATTR) = Z.ldiff (Z.ones 64) CREATE_ATTR) by done.
  assert (E : Z.land attr (Z.lor EFI_FILE_READ_ONLY (not64 EFI_FILE_VALID_ATTR)) = Z.ldiff attr CREATE_ATTR).
  { rewrite Hm. assert (Hx : Z.land attr (Z.ones 64) = attr).
    { rewrite Z.land_ones by lia. apply Z.mod_small. lia. }
    rewrite <- Hx at 2. apply Z.bits_inj'. intros n Hn. rewrite !Z.land_spec, !Z.ldiff_spec, Z.land_spec.
    by destruct (Z.testbit attr n), (Z.testbit (Z.ones 64) n). }
  rewrite E. unfold create_attr. apply eq_true_iff_eq. rewrite !Z.eqb_eq. split; intros Hz;
    apply Z.bits_inj'; intros n Hn; apply (f_equal (fun z => Z.testbit z n)) in Hz; revert Hz;
    rewrite ?Z.land_spec, ?Z.ldiff_spec, ?Z.bits_0; by destruct (Z.testbit attr n), (Z.testbit CREATE_ATTR n).
Qed.

Lemma open_flags_ok V mode attr : 0 <= attr < 2 ^ 64 ->
  open_flags V mode attr =
    if mode =? EFI_FILE_MODE_READ then inr (LKL_O_RDONLY, 0)
    else if mode =? MODE_WRITE then
      if ReadOnly V then inl EFI_WRITE_PROTECTED else inr (LKL_O_RDWR, 0)
    else if mode =? MODE_CREATE then
      if create_attr attr then
        if ReadOnly V then inl EFI_WRITE_PROTECTED
        else inr (Z.lor LKL_O_RDWR LKL_O_CREAT, Z.lor LKL_S_IRUSR LKL_S_IWUSR)
      else inl EFI_INVALID_PARAMETER
    else inl EFI_INVALID_PARAMETER.
Proof.
  intros Ha. unfold open_flags. rewrite create_attr_mask by done. fold MODE_WRITE.
  change (Z.lor MODE_WRITE EFI_FILE_MODE_CREATE) with MODE_CREATE.
  destruct (Z.eqb_spec mode EFI_FILE_MODE_READ) as [->|].
  { change (Z.land EFI_FILE_MODE_READ EFI_FILE_MODE_WRITE =? 0) with true. cbn. by rewrite andb_false_r. }
  destruct (Z.eqb_spec mode MODE_WRITE) as [->|].
  { change (Z.land MODE_WRITE EFI_FILE_MODE_WRITE =? 0) with false. cbn. by rewrite andb_true_r. }
  destruct (Z.eqb_spec mode MODE_CREATE) as [->|]; [|done].
  change (Z.land MODE_CREATE EFI_FILE_MODE_WRITE =? 0) with false.
  change (Z.land MODE_CREATE EFI_FILE_MODE_READ =? 0) with false.
  change (Z.land MODE_CREATE EFI_FILE_MODE_CREATE =? 0) with false. cbn [negb orb andb].
  destruct (create_attr attr) eqn:Hc; [|done]. cbn [negb]. rewrite andb_true_r.
  assert (Hro : Z.land attr EFI_FILE_READ_ONLY = 0).
  { unfold create_attr in Hc. apply Z.eqb_eq in Hc. rewrite <- Hc, <- Z.land_assoc. by apply Z.land_0_r. }
  by rewrite Hro.
Qed.

(** [LKLOpen] rejects, without doing anything, a missing name, an open mode
    other than read, read/write and read/write/create, attributes a file cannot
    be created with, and every mode that writes on a read-only volume. *)
Theorem LKLOpen_checks P FileName mode attr s : 0 <= attr < 2 ^ 64 ->
  (FileName = None \/ mode ∉ [EFI_FILE_MODE_READ; MODE_WRITE; MODE_CREATE] \/
   mode = MODE_CREATE /\ create_attr attr = false ->
   LKLOpen P FileName mode attr s = FDone (EFI_INVALID_PARAMETER, None) s) /\
  (forall name, FileName = Some name -> ReadOnly (Volume P) = true ->
   mode = MODE_WRITE \/ mode = MODE_CREATE /\ create_attr attr = true ->
   LKLOpen P FileName mode attr s = FDone (EFI_WRITE_PROTECTED, None) s).
Proof.
  intros Ha. unfold LKLOpen. rewrite open_flags_ok by done. split.
  - destruct FileName as [name|]; [|done]. intros [|[Hm|[-> Hattr]]]; [done| |by rewrite Hattr].
    rewrite (proj2 (Z.eqb_neq mode EFI_FILE_MODE_READ)) by set_solver.
    rewrite (proj2 (Z.eqb_neq mode MODE_WRITE)) by set_solver.
    by rewrite (proj2 (Z.eqb_neq mode MODE_CREATE)) by set_solver.
  - intros name -> -> [->|[-> Hattr]]; cbn; [done|]. by rewrite Hattr.
Qed.

Lemma LKLOpen_existing_ok P name mode attr s : 0 <= attr < 2 ^ 64 ->
  mode = EFI_FILE_MODE_READ \/ mode = MODE_WRITE /\ ReadOnly (Volume P) = false ->
  let flags := if mode =? EFI_FILE_MODE_READ then LKL_O_RDONLY else LKL_O_RDWR in
  fwp (LKLOpen P (Some name) mode attr) (fun r s' =>
    no_effect s r s' \/
    exists cs, resolves (world s) [] (comps (open_name P name)) cs /\ canonical (world s) cs /\
      open_post (Volume P) (render cs) flags 0 (world s) (pool_live s) r s') s.
Proof.
  intros Ha Hmode flags.
  assert (Hf : open_flags (Volume P) mode attr = inr (flags, 0)).
  { rewrite open_flags_ok by done. subst flags. destruct Hmode as [->|[-> ->]]; done. }
  assert (Hc : (Z.land mode EFI_FILE_MODE_CREATE =? 0) = true) by (destruct Hmode as [->|[-> _]]; done).
  eapply LKLOpen_start; [exact Hf|by left|]. intros s1 Hw1 Hl1. rewrite Hc. cbn [negb].
  eapply open_resolved_ok; [exact Hw1|exact Hl1|by left|].
  intros cs s2 Hres Hcan Hw2 Hl2. apply fwp_bind, fwp_ret.
  eapply fwp_mono; [by apply open_file_ok|]. intros r s' Hr. right. by exists cs.
Qed.

(** C18: opening an existing file (modes read and read/write) always finishes.
    Either nothing happens and an error is returned, or the absolute name is
    resolved to its canonical path and that path is opened with the flags of
    the mode: the handle then is in the one block more that is allocated, and
    on failure the error is returned with the descriptor closed and no block
    left. *)
Theorem LKLOpen_existing P name mode attr s : 0 <= attr < 2 ^ 64 ->
  mode = EFI_FILE_MODE_READ \/ mode = MODE_WRITE /\ ReadOnly (Volume P) = false ->
  let flags := if mode =? EFI_FILE_MODE_READ then LKL_O_RDONLY else LKL_O_RDWR in
  fwp (LKLOpen P (Some name) mode attr) (fun r s' =>
    no_effect s r s' \/
    exists cs, resolves (world s) [] (comps (open_name P name)) cs /\ canonical (world s) cs /\
      open_post (Volume P) (render cs) flags 0 (world s) (pool_live s) r s') s.
Proof. apply LKLOpen_existing_ok. Qed.

(** *** Creation *)

(** A mount point: an absolute path of proper names, not the root. *)
Definition mount_point (mp : str) : Prop := exists ms, mp = path_of ms /\ ms <> [] /\ Forall name_ok ms.

(** What [LKLOpen] makes of the name of a file to create. *)
Definition create_path (P : LKL_IFILE) (name : str) : str := RemoveTrailingSlashes (open_name P name).
Definition create_dir (P : LKL_IFILE) (name : str) : str :=
  take (GetBasenamePtr (create_path P name) - 1) (create_path P name).
Definition create_base (P : LKL_IFILE) (name : str) : str :=
  drop (GetBasenamePtr (create_path P name)) (create_path P name).

Lemma open_name_mount P name : mount_point (LKLMountPoint (Volume P)) ->
  exists c rest, open_name P name = SLASH :: c :: rest /\ c <> SLASH.
Proof.
  intros (ms & E & Hne & Hok). unfold open_name. rewrite E. destruct ms as [|m ms]; [done|].
  apply Forall_cons in Hok as [(Hm & Hs & _) _]. destruct m as [|c m]; [done|].
  assert (c <> SLASH) by set_solver. case_bool_decide; simpl; eauto.
Qed.

Lemma create_split_ok P name : mount_point (LKLMountPoint (Volume P)) ->
  open_split (open_name P name) = mret (Some (create_dir P name, create_base P name)) /\
  create_path P name = create_dir P name ++ SLASH :: create_base P name /\
  create_base P name <> [] /\ SLASH ∉ create_base P name.
Proof.
  intros Hmp. destruct (open_name_mount P name Hmp) as (c & rest & En & Hc).
  destruct (path_split_ok (open_name P name) ltac:(by rewrite En)) as ((n & Es) & Hp & Hlt & Ho & Hb & Hns).
  fold (create_path P name) in *. unfold create_base, create_dir.
  set (p := create_path P name) in *. set (o := GetBasenamePtr p) in *.
  assert (Hps : p <> [SLASH]).
  { intros E. rewrite E, En in Es. injection Es as Es. destruct n; [done|]. by injection Es as -> _. }
  assert (Ho0 : o <> O).
  { intros E. rewrite E in Hns. destruct p as [|k p'] eqn:Ep; [done|].
    assert (k = SLASH) as -> by (rewrite En in Es; by injection Es). set_solver. }
  specialize (Hns Hps). destruct Ho as [|Ho]; [done|]. split; [|split; [|done]].
  - unfold open_split. fold (create_path P name). fold p. fold o.
    by rewrite !bool_decide_eq_false_2.
  - rewrite <- (take_drop (o - 1) p) at 1. f_equal. rewrite (drop_S _ SLASH) by done. f_equal. f_equal. lia.
Qed.

(** The result of creating [path], a directory or a file. *)
Definition create_post (V : LKL_VOLUME) (path : str) (attr : Z) (s : fstate)
    (r : Z * option LKL_IFILE) (s' : fstate) : Prop :=
  let LinuxMode := Z.lor LKL_S_IRUSR LKL_S_IWUSR in
  if Z.land attr EFI_FILE_DIRECTORY =? 0 then
    open_post V path (Z.lor LKL_O_RDWR LKL_O_CREAT) LinuxMode (world s) (pool_live s) r s'
  else
    let (RC, w1) := lkl_sys_mkdir path LinuxMode (world s) in
    if RC =? 0 then open_post V path LKL_O_RDONLY 0 w1 (pool_live s) r s'
    else fst r = LKLError2EfiError RC /\ EFI_ERROR (fst r) = true /\ snd r = None /\ world s' = w1 /\
         pool_live s' = pool_live s.

Lemma open_create_ok V cs BaseName attr s0 s :
  world s = world s0 -> pool_live s = pool_live s0 + 3 ->
  let path := render cs ++ SLASH :: BaseName in
  fwp (c ← open_create (render cs) BaseName attr (Z.lor LKL_O_RDWR LKL_O_CREAT) (Z.lor LKL_S_IRUSR LKL_S_IWUSR);
      match (c : Z + str * Z * Z) with
      | inl Status => open_done Status (-1) None true true true
      | inr (AbsFilePath, LinuxFlags, LinuxMode) =>
          r ← open_file V AbsFilePath LinuxFlags LinuxMode;
          let '(Status, fd, IFile) := (r : Z * Z * option LKL_IFILE) in
          open_done Status fd IFile true true true
      end) (fun r s' => no_effect s0 r s' \/ create_post V path attr s0 r s') s.
Proof.
  intros Hw Hl path. unfold open_create.
  assert (Ep : AsciiSPrint (Z.of_nat (length (render cs)) + 1 + Z.of_nat (length BaseName) + 1)
    [Pa; Pc SLASH; Pa] [render cs; BaseName] = path).
  { assert (He : expand [Pa; Pc SLASH; Pa] [render cs; BaseName] = path) by (simpl; by rewrite app_nil_r).
    rewrite AsciiSPrint_fits; [done|]. rewrite He. unfold path. rewrite length_app. simpl. lia. }
  rewrite Ep. apply fwp_bind. fstep.
  { fstep. apply open_done_ok. simpl. intros s' Hw' Hl'. left. split_and!; simpl in *; [done..|congruence|lia]. }
  fstep. unfold create_post. destruct (Z.eqb_spec (Z.land attr EFI_FILE_DIRECTORY) 0) as [E|E]; cbn [negb].
  - fstep. eapply fwp_mono; [apply (open_file_ok V path _ _ (world s0) (pool_live s0)); simpl; [done|lia]|].
    intros r s' Hr. by right.
  - fstep. simpl. rewrite Hw. pose proof (lkl_mkdir_int path (Z.lor LKL_S_IRUSR LKL_S_IWUSR) (world s0)) as Hint.
    destruct (lkl_sys_mkdir path _ (world s0)) as [RC w1]. simpl in *.
    destruct (Z.eqb_spec RC 0) as [->|Hne]; cbn [negb].
    + fstep. eapply fwp_mono; [apply (open_file_ok V path _ _ w1 (pool_live s0)); simpl; [done|lia]|].
      intros r s' Hr. by right.
    + fstep. apply open_done_ok. rewrite andb_false_r. simpl. intros s' Hw' Hl'. right.
      split_and!; simpl in *; [done|by apply LKLError2EfiError_error|done|done|lia].
Qed.

Lemma LKLOpen_create_ok P name attr s : 0 <= attr < 2 ^ 64 -> create_attr attr = true ->
  ReadOnly (Volume P) = false -> mount_point (LKLMountPoint (Volume P)) ->
  fwp (LKLOpen P (Some name) MODE_CREATE attr) (fun r s' =>
    no_effect s r s' \/
    exists cs, resolves (world s) [] (comps (create_dir P name)) cs /\ canonical (world s) cs /\
      create_post (Volume P) (render cs ++ SLASH :: create_base P name) attr s r s') s.
Proof.
  intros Ha Hattr Hro Hmp. destruct (create_split_ok P name Hmp) as (Hsp & _).
  eapply LKLOpen_start; [rewrite open_flags_ok by done; cbn; by rewrite Hattr, Hro|by left|].
  intros s1 Hw1 Hl1. change (Z.land MODE_CREATE EFI_FILE_MODE_CREATE =? 0) with false. cbn [negb].
  rewrite Hsp. apply fwp_bind, fwp_ret.
  eapply open_resolved_ok; [exact Hw1|exact Hl1|by left|].
  intros cs s2 Hres Hcan Hw2 Hl2. eapply fwp_mono; [by apply (open_create_ok _ cs _ attr s)|].
  intros r s' [Hr|Hr]; [by left|]. right. by exists cs.
Qed.

(** C19: creating a file always finishes.  Either nothing happens and an error is
    returned; or the directory part of the absolute name, without the last
    name of it, is resolved to its canonical path, the last name is appended as
    it is, and the result is opened for creation - or, for a directory, made
    and then opened - with no block and no descriptor left behind on failure. *)
Theorem LKLOpen_create P name attr s : 0 <= attr < 2 ^ 64 -> create_attr attr = true ->
  ReadOnly (Volume P) = false -> mount_point (LKLMountPoint (Volume P)) ->
  create_path P name = create_dir P name ++ SLASH :: create_base P name /\
  create_base P name <> [] /\ SLASH ∉ create_base P name /\
  fwp (LKLOpen P (Some name) MODE_CREATE attr) (fun r s' =>
    no_effect s r s' \/
    exists cs, resolves (world s) [] (comps (create_dir P name)) cs /\ canonical (world s) cs /\
      create_post (Volume P) (render cs ++ SLASH :: create_base P name) attr s r s') s.
Proof.
  intros Ha Hattr Hro Hmp. destruct (create_split_ok P name Hmp) as (_ & He & Hb & Hns).
  split; [done|]. split; [done|]. split; [done|]. by apply LKLOpen_create_ok.
Qed.

(** *** Containment *)

Lemma prefix_stop m c e f : SLASH ∉ m -> SLASH ∉ c -> stops f ->
  m ++ SLASH :: e `prefix_of` c ++ f -> m = c /\ SLASH :: e `prefix_of` f.
Proof.
  revert c. induction m as [|k m IH]; intros c Hm Hc Hf Hp; simpl in Hp.
  - destruct c as [|k c]; [done|]. simpl in Hp. apply prefix_cons_inv_1 in Hp as <-. set_solver.
  - destruct c as [|k' c]; simpl in Hp.
    + destruct Hf as [->|Hf]; [by apply prefix_nil_not in Hp|]. destruct f as [|x f]; [done|].
      simpl in Hf. injection Hf as ->. apply prefix_cons_inv_1 in Hp as ->. set_solver.
    + pose proof (prefix_cons_inv_1 _ _ _ _ Hp) as ->. apply prefix_cons_inv_2 in Hp.
      destruct (IH c) as [-> ?]; [set_solver|set_solver|done|done|done].
Qed.

Lemma path_of_stops cs : stops (path_of cs).
Proof. destruct cs; [by left|by right]. Qed.

Lemma prefix_stop_nil m c f : SLASH ∉ m -> stops f -> m `prefix_of` c ++ f -> m `prefix_of` c.
Proof.
  revert c. induction m as [|k m IH]; intros c Hm Hf Hp; [apply prefix_nil|].
  destruct c as [|k' c]; simpl in Hp.
  - destruct Hf as [->|Hf]; [done|]. destruct f as [|x f]; [done|].
    simpl in Hf. injection Hf as ->. apply prefix_cons_inv_1 in Hp as ->. set_solver.
  - pose proof (prefix_cons_inv_1 _ _ _ _ Hp) as ->. apply prefix_cons_inv_2 in Hp.
    apply prefix_cons, IH; [set_solver|done|done].
Qed.

(** The string prefix is the component prefix, but for the last component. *)
Lemma path_prefix ms : forall m cs, Forall name_ok (ms ++ [m]) -> Forall name_ok cs ->
  path_of (ms ++ [m]) `prefix_of` path_of cs ->
  exists x rest, cs = ms ++ (m ++ x) :: rest.
Proof.
  induction ms as [|m0 ms IH]; intros m cs Hms Hcs Hp.
  - destruct cs as [|c cs]; [by apply prefix_nil_not in Hp|]. unfold path_of in Hp. simpl in Hp.
    apply prefix_cons_inv_2 in Hp. rewrite app_nil_r in Hp. fold (path_of cs) in Hp.
    apply Forall_cons in Hms as [(_ & Hm & _) _]. apply prefix_stop_nil in Hp; [|done|apply path_of_stops].
    destruct Hp as [x ->]. by exists x, cs.
  - destruct cs as [|c cs]; [by apply prefix_nil_not in Hp|]. simpl in Hms.
    apply Forall_cons in Hms as [(_ & Hm0 & _) Hms]. apply Forall_cons in Hcs as [(_ & Hc & _) Hcs].
    change (path_of ((m0 :: ms) ++ [m])) with (SLASH :: m0 ++ path_of (ms ++ [m])) in Hp.
    change (path_of (c :: cs)) with (SLASH :: c ++ path_of cs) in Hp. apply prefix_cons_inv_2 in Hp.
    assert (exists e, path_of (ms ++ [m]) = SLASH :: e) as [e He] by (destruct ms; by eexists).
    rewrite He in Hp. apply prefix_stop in Hp as [-> Hp]; [|done|done|apply path_of_stops].
    rewrite <- He in Hp. destruct (IH m cs Hms Hcs Hp) as (x & rest & ->). by exists x, rest.
Qed.

Lemma StartsWith_prefix s pre : StartsWith s pre = true -> pre `prefix_of` s.
Proof.
  unfold StartsWith. intros E%bool_decide_eq_true. rewrite <- E. exists (drop (length pre) s).
  by rewrite take_drop.
Qed.

Lemma render_prefix ms m cs : Forall name_ok (ms ++ [m]) -> Forall name_ok cs ->
  StartsWith (render cs) (path_of (ms ++ [m])) = true -> exists x rest, cs = ms ++ (m ++ x) :: rest.
Proof.
  intros Hms Hcs Hp%StartsWith_prefix. destruct cs as [|c cs]; [|by apply path_prefix].
  exfalso. simpl in Hp. apply Forall_app in Hms as [_ Hm]. apply Forall_singleton in Hm as (Hm & Hs & _).
  destruct ms as [|m0 ms]; unfold path_of in Hp; simpl in Hp.
  - destruct m as [|k m]; [done|]. apply prefix_cons_inv_2 in Hp. simpl in Hp. by apply prefix_nil_not in Hp.
  - apply prefix_cons_inv_2, prefix_nil_inv, app_nil in Hp as [_ Hp]. rewrite map_app, concat_app in Hp.
    apply app_nil in Hp as [_ Hp]. done.
Qed.

(** No entry beside the mount point has a name that goes on where the mount
    point's ends. *)
Definition no_longer_name (w : World) (ms : list str) (m : str) : Prop :=
  forall x, x <> [] -> SLASH ∉ x -> fst (lkl_sys_lstat (path_of (ms ++ [m ++ x])) w) < 0.

Lemma canonical_below w ms m x rest :
  canonical w (ms ++ (m ++ x) :: rest) -> no_longer_name w ms m -> x = [].
Proof.
  intros [Hok Hc] Hno. destruct (decide (x = [])) as [|Hx]; [done|].
  apply Forall_app in Hok as [_ Hok]. apply Forall_cons in Hok as [(_ & Hs & _) _].
  specialize (Hno x Hx ltac:(set_solver)).
  destruct (Hc (S (length ms))) as [Hl _]; [rewrite length_app; simpl; lia|].
  replace (take (S (length ms)) (ms ++ (m ++ x) :: rest)) with (ms ++ [m ++ x]) in Hl; [lia|].
  rewrite take_app_ge by lia. replace (S (length ms) - length ms)%nat with 1%nat by lia. done.
Qed.

(** C12: containment.  However the name is written - with [..], with symbolic
    links, absolute or relative - a handle that [LKLOpen] returns for an
    existing file is for a canonical path below the mount point of the volume,
    and keeps the part of the path below it; provided that no entry beside the
    mount point has a longer name that begins like it, since the check compares
    characters and not components. *)
Theorem LKLOpen_contained P name mode attr s ms m : 0 <= attr < 2 ^ 64 ->
  mode = EFI_FILE_MODE_READ \/ mode = MODE_WRITE /\ ReadOnly (Volume P) = false ->
  LKLMountPoint (Volume P) = path_of (ms ++ [m]) -> Forall name_ok (ms ++ [m]) ->
  no_longer_name (world s) ms m ->
  fwp (LKLOpen P (Some name) mode attr) (fun r s' =>
    match snd r with
    | Some f => exists rest, canonical (world s) (ms ++ [m] ++ rest) /\
        fst (lkl_sys_open (path_of (ms ++ [m] ++ rest)) (LinuxOpenFlags f) 0 (world s)) = FD f /\
        (Z.of_nat (length (path_of (ms ++ [m] ++ rest))) < sizeof_FilePath -> FilePath f = tail (path_of rest))
    | None => True
    end) s.
Proof.
  intros Ha Hmode Hmp Hms Hno.
  eapply fwp_mono; [by apply LKLOpen_existing_ok|]. intros [Status [f|]] s' Hr; [|done]. simpl.
  destruct Hr as [(_ & Hr & _)|(cs & _ & Hcan & Hr)]; [done|]. cbn [open_post fst snd] in Hr.
  destruct Hr as (_ & Hop & _). pose proof (op_prefix _ _ _ _ _ _ _ Hop) as Hpre. rewrite Hmp in Hpre.
  destruct (render_prefix ms m cs Hms) as (x & rest & ->); [by destruct Hcan|done|].
  pose proof (canonical_below _ _ _ _ _ Hcan Hno) as ->. rewrite app_nil_r in *.
  assert (Er : render (ms ++ m :: rest) = path_of (ms ++ m :: rest)) by by destruct ms.
  rewrite Er in Hop. exists rest. change ([m] ++ rest) with (m :: rest). split; [done|].
  split; [by rewrite (op_flags _ _ _ _ _ _ _ Hop), (op_fd _ _ _ _ _ _ _ Hop)|].
  intros Hlen. rewrite (op_path _ _ _ _ _ _ _ Hop Hlen). unfold below. rewrite Hmp.
  replace (ms ++ m :: rest) with ((ms ++ [m]) ++ rest) by by rewrite <- app_assoc.
  rewrite (path_of_app (ms ++ [m])), drop_app_length. by destruct rest.
Qed.

(** *** Deleting, and opening the volume *)

(** Deleting through a handle closes its descriptor and frees it, whatever
    happens, and unlinks the path that was opened; a failure, which is reported
    as a warning, leaves the file there and nothing else. *)
Theorem LKLDelete_spec V path rel flags mode w0 f w s :
  opened V path flags mode w0 f w -> Z.of_nat (length path) < sizeof_FilePath ->
  path = LKLMountPoint V ++ SLASH :: rel ->
  let w1 := snd (lkl_sys_close (FD f) (world s)) in
  fwp (LKLDelete f) (fun Status s' =>
    pool_live s' = pool_live s - 1 /\ EFI_ERROR Status = false /\
    (Status = EFI_WARN_DELETE_FAILURE /\ world s' = w1 \/
     world s' = snd (lkl_sys_unlink path w1) /\
     Status = if fst (lkl_sys_unlink path w1) =? 0 then EFI_SUCCESS else EFI_WARN_DELETE_FAILURE)) s.
Proof.
  intros Hop Hlen Ep w1.
  assert (Ef : FilePath f = rel).
  { rewrite (op_path _ _ _ _ _ _ _ Hop Hlen). unfold below. by rewrite Ep, drop_app_length. }
  assert (Es : AsciiSPrint (Z.of_nat (length (LKLMountPoint (Volume f))) + 1 + Z.of_nat (length (FilePath f)) + 1)
    [Pa; Pc SLASH; Pa] [LKLMountPoint (Volume f); FilePath f] = path).
  { rewrite Ef, (op_volume _ _ _ _ _ _ _ Hop).
    assert (He : expand [Pa; Pc SLASH; Pa] [LKLMountPoint V; rel] = path) by (simpl; by rewrite app_nil_r).
    rewrite AsciiSPrint_fits; [done|]. rewrite He, Ep, length_app. simpl. lia. }
  unfold LKLDelete. rewrite Es. unfold LKLIFileClose. fstep.
  - repeat fstep. simpl. split_and!; [lia|done|by left].
  - repeat fstep. simpl. fold w1. split_and!; [lia|by destruct (_ =? 0)|by right].
Qed.

(** [LKLOpenVolume] gives a handle for the root of the volume, or the
    translated error when it cannot be opened; but when there is no memory for
    the handle, or [fstat] fails, it writes through a pointer it never set. *)
Theorem LKLOpenVolume_spec V s :
  let fd := fst (lkl_sys_open (LKLMountPoint V) LKL_O_RDONLY 420 (world s)) in
  let w1 := snd (lkl_sys_open (LKLMountPoint V) LKL_O_RDONLY 420 (world s)) in
  (fd < 0 -> exists Status s', LKLOpenVolume V s = FDone (Status, None) s' /\
     Status = LKLError2EfiError fd /\ EFI_ERROR Status = true /\
     world s' = w1 /\ pool_live s' = pool_live s) /\
  (0 <= fd -> no_memory s = true \/ fst (lkl_sys_fstat fd w1) <> 0 -> LKLOpenVolume V s = FFail FUB) /\
  (0 <= fd -> no_memory s = false -> fst (lkl_sys_fstat fd w1) = 0 ->
   exists s', LKLOpenVolume V s =
       FDone (EFI_SUCCESS, Some (mk_ifile V fd LKL_O_RDONLY (snd (lkl_sys_fstat fd w1)) [] None None)) s' /\
     world s' = w1 /\ pool_live s' = pool_live s + 1).
Proof.
  intros fd w1. unfold LKLOpenVolume, mbind, FM_bind, sys at 1 3 5.
  pose proof (lkl_open_int (LKLMountPoint V) LKL_O_RDONLY 420 (world s)) as Hint. subst fd w1.
  destruct (lkl_sys_open _ _ _ _) as [fd w1]. cbn [fst snd] in *. split; [|split].
  - intros Hfd. rewrite (proj2 (Z.ltb_lt _ _)) by done. eexists _, _. split; [done|].
    split; [done|]. split; [apply LKLError2EfiError_error; lia|done].
  - intros Hfd Hbad. rewrite (proj2 (Z.ltb_ge _ _)) by done.
    unfold LKLAllocateIFile, mbind, FM_bind, AllocatePool, query, no_memory in *. simpl in *.
    destruct (pool_fails s) as [|[] fs]; simpl in *; [| done|];
      (destruct Hbad as [|Hbad]; [done|]; destruct (lkl_sys_fstat fd w1) as [RC st]; simpl in *;
       rewrite (proj2 (Z.eqb_neq _ _)) by done; simpl; by destruct (EFI_ERROR _)).
  - intros Hfd Hm Hst. rewrite (proj2 (Z.ltb_ge _ _)) by done.
    unfold LKLAllocateIFile, mbind, FM_bind, AllocatePool, query, no_memory in *. simpl in *.
    destruct (pool_fails s) as [|[] fs]; simpl in *; [|done|];
      (destruct (lkl_sys_fstat fd w1) as [RC st]; simpl in *; rewrite Hst; simpl; eexists; done).
Qed.
End file.

(** ** At the small Linux *)

(** "mnt", "0", "f" *)
Definition c_mnt : str := [109; 110; 116].
Definition c_0 : str := [48].
Definition c_f : str := [102].
Definition demo_mp : str := path_of [c_mnt; c_0].

Definition demo_volume (ro : bool) : LKL_VOLUME :=
  mk_volume true 0 ro 0 demo_mp [101; 120; 116; 52] false [] [] [].
Definition demo_root (ro : bool) : LKL_IFILE (H := demo_lkl) :=
  mk_ifile (H := demo_lkl) (demo_volume ro) 3 0 no_stat [] None None.

(** /mnt, /mnt/0 and /mnt/0/f *)
Definition demo_nodes : list (str * node) :=
  [(path_of [c_mnt], demo_directory [c_0]); (demo_mp, demo_directory [c_f]);
   (path_of [c_mnt; c_0; c_f], demo_file [104; 105])].
Definition demo_fs : fstate (H := demo_lkl) := demo_state demo_nodes.

(** The world after the root was opened. *)
Definition demo_open_root : fstate (H := demo_lkl) :=
  mk_fstate (H := demo_lkl) (snd (d_open demo_mp 0 0 (world demo_fs))) [] 0.

Lemma demo_mount : mount_point demo_mp.
Proof.
  exists [c_mnt; c_0]. split; [done|]. split; [done|].
  repeat constructor; try done; vm_compute; set_solver.
Qed.

Lemma demo_names : Forall name_ok ([c_mnt] ++ [c_0]).
Proof. repeat constructor; try done; vm_compute; set_solver. Qed.

Lemma LKLOpen_checks_witness :
  LKLOpen (H := demo_lkl) (demo_root true) (Some c_f) MODE_WRITE 0 demo_open_root =
    FDone (EFI_WRITE_PROTECTED, None) demo_open_root.
Proof.
  apply (proj2 (LKLOpen_checks (H := demo_lkl) (demo_root true) (Some c_f) MODE_WRITE 0 demo_open_root ltac:(lia))
    c_f); [reflexivity|reflexivity|by left].
Defined.

(** "\f" is opened through the root handle. *)
Lemma LKLOpen_existing_witness :
  fwp (LKLOpen (H := demo_lkl) (demo_root false) (Some [92; 102]) EFI_FILE_MODE_READ 0) (fun r s' =>
    no_effect demo_open_root r s' \/
    exists cs, resolves (world demo_open_root) [] (comps (open_name (demo_root false) [92; 102])) cs /\
      canonical (world demo_open_root) cs /\
      open_post (demo_volume false) (render cs) LKL_O_RDONLY 0 (world demo_open_root) 0 r s') demo_open_root.
Proof.
  apply (LKLOpen_existing (H := demo_lkl) (demo_root false) [92; 102] EFI_FILE_MODE_READ 0 demo_open_root);
    [lia|by left].
Defined.

(** It succeeds. *)
Example open_f : match LKLOpen (H := demo_lkl) (demo_root false) (Some [92; 102]) EFI_FILE_MODE_READ 0 demo_open_root with
  | FDone (Status, Some f) s' => (Status, FD f, FilePath f, pool_live s') = (EFI_SUCCESS, 4, c_f, 1)
  | _ => False
  end.
Proof. vm_compute. reflexivity. Qed.

Lemma LKLOpen_create_witness :
  create_base (H := demo_lkl) (demo_root false) [103] = [103] /\
  SLASH ∉ create_base (H := demo_lkl) (demo_root false) [103].
Proof.
  split; [reflexivity|].
  apply (LKLOpen_create (H := demo_lkl) (demo_root false) [103] 0 demo_open_root);
    [lia|reflexivity|reflexivity|exact demo_mount].
Defined.

Lemma demo_no_longer_name : no_longer_name (H := demo_lkl) (world demo_open_root) [c_mnt] c_0.
Proof.
  intros x Hx Hs.
  assert (Hn : nodes (world demo_open_root) = list_to_map demo_nodes) by reflexivity.
  change (fst (d_lstat (path_of ([c_mnt] ++ [c_0 ++ x])) (world demo_open_root)) < 0).
  unfold d_lstat. rewrite Hn. destruct (list_to_map demo_nodes !! _) as [n|] eqn:E; [|done].
  exfalso. apply elem_of_list_to_map_2 in E. unfold demo_nodes in E.
  rewrite !elem_of_cons, elem_of_nil in E. unfold path_of in E. simpl in E.
  rewrite app_nil_r in E. destruct x as [|k x]; [done|].
  destruct E as [E|[E|[E|[]]]]; simplify_eq. unfold SLASH in Hs. set_solver.
Qed.

Lemma LKLOpen_contained_witness :
  fwp (LKLOpen (H := demo_lkl) (demo_root false) (Some [92; 102]) EFI_FILE_MODE_READ 0) (fun r s' =>
    match snd r with
    | Some f => exists rest, canonical (world demo_open_root) ([c_mnt] ++ [c_0] ++ rest) /\
        fst (d_open (path_of ([c_mnt] ++ [c_0] ++ rest)) (LinuxOpenFlags f) 0 (world demo_open_root)) = FD f /\
        (Z.of_nat (length (path_of ([c_mnt] ++ [c_0] ++ rest))) < sizeof_FilePath ->
         FilePath f = tail (path_of rest))
    | None => True
    end) demo_open_root.
Proof.
  apply (LKLOpen_contained (H := demo_lkl) (demo_root false) [92; 102] EFI_FILE_MODE_READ 0 demo_open_root
    [c_mnt] c_0); [lia|by left|reflexivity|exact demo_names|exact demo_no_longer_name].
Defined.

(** The handle of "\f". *)
Definition demo_f : LKL_IFILE (H := demo_lkl) :=
  mk_ifile (H := demo_lkl) (demo_volume false) 4 0 (stat_of (demo_file [104; 105])) c_f None None.

Lemma LKLDelete_spec_witness :
  fwp (LKLDelete (H := demo_lkl) demo_f) (fun Status s' => pool_live s' = - 1 /\ EFI_ERROR Status = false)
    demo_open_root.
Proof.
  eapply fwp_mono.
  - eapply (LKLDelete_spec (H := demo_lkl) (demo_volume false) (path_of [c_mnt; c_0; c_f]) c_f 0 0
      (world demo_open_root) demo_f); [|by vm_compute|reflexivity].
    constructor; try reflexivity; vm_compute; discriminate.
  - intros Status s' (Hl & He & _). split; [exact Hl|exact He].
Defined.

Lemma LKLOpenVolume_spec_witness :
  LKLOpenVolume (H := demo_lkl) (demo_volume false) (mk_fstate (H := demo_lkl) (world demo_fs) [true] 0) = FFail FUB.
Proof.
  apply (proj1 (proj2 (LKLOpenVolume_spec (H := demo_lkl) (demo_volume false)
    (mk_fstate (H := demo_lkl) (world demo_fs) [true] 0)))); [vm_compute; discriminate|by left].
Defined.

(** Creation reaches outside of the volume.  Creating the directory
    "..\e" from the root of the volume mounted at /mnt/0 is answered with
    [EFI_NOT_FOUND], after the directory /mnt/e has been made: the directory is
    made before the path is compared with the mount point. *)
Theorem LKLOpen_mkdir_escapes :
  exists s', LKLOpen (H := demo_lkl) (demo_root false) (Some [46; 46; 92; 101]) MODE_CREATE EFI_FILE_DIRECTORY
      demo_open_root = FDone (EFI_NOT_FOUND, None) s' /\
    d_lstat (path_of [c_mnt; [101]]) (world demo_open_root) = (ENOENT, no_stat) /\
    fst (d_lstat (path_of [c_mnt; [101]]) (world s')) = 0.
Proof.
  assert (Hrun : match LKLOpen (H := demo_lkl) (demo_root false) (Some [46; 46; 92; 101]) MODE_CREATE
      EFI_FILE_DIRECTORY demo_open_root with
    | FDone (Status, None) s' => (Status =? EFI_NOT_FOUND) && (fst (d_lstat (path_of [c_mnt; [101]]) (world s')) =? 0)
    | _ => false
    end = true) by (vm_compute; reflexivity).
  destruct (LKLOpen _ _ _ _ _) as [[Status [f|]] s'|]; try discriminate.
  apply andb_true_iff in Hrun as [->%Z.eqb_eq H0%Z.eqb_eq]. exists s'. split; [done|]. split; [|done].
  vm_compute. reflexivity.
Qed.
