(* ===== verification/FileIO.v ===== *)
(** * Reading, writing and positions ([ReadWrite.c], [LKLFillFileInfo] of [Misc.c])

    File data goes through [read] and [write]; a directory handle keeps its
    Linux directory stream and an entry that did not fit the caller's buffer.
    An operation gives the handle as it leaves it. *)

From S2P Require Import Prelude Efi Lkl Errors Time Path DemoFs File.

(** [OFFSET_OF (EFI_FILE_INFO, FileName)] *)
Definition SIZE_OF_EFI_FILE_INFO : Z := 80.
Definition sizeof_CHAR16 : Z := 2.

Record EFI_FILE_INFO := mk_file_info {
  Size : Z;
  FileSize : Z;
  PhysicalSize : Z;
  CreateTime : EFI_TIME;
  LastAccessTime : EFI_TIME;
  ModificationTime : EFI_TIME;
  Attribute : Z;
  FileName : str
}.

Definition ZeroTime : EFI_TIME := mk_time 0 0 0 0 0 0 0 0 0 0 0.

(** [ZeroMem], with the fields set afterwards. *)
Definition new_file_info (ResultSize : Z) (FileName : str) : EFI_FILE_INFO :=
  mk_file_info ResultSize 0 0 ZeroTime ZeroTime ZeroTime 0 FileName.

(** [AsciiStrSize] *)
Definition AsciiStrSize (s : str) : Z := Z.of_nat (length s) + 1.

Inductive IO_MODE := READ_DATA | WRITE_DATA.
#[export] Instance IO_MODE_eq_dec : EqDecision IO_MODE.
Proof. solve_decision. Defined.

(** What an operation stores at the beginning of the caller's buffer. *)
Inductive stored := Nothing | Bytes (b : list Z) | FileInfo (i : EFI_FILE_INFO).


Section io.
Context `{LklSys} `{EdkStrings} `{EdkConfig}.

Definition set_Dir (f : LKL_IFILE) (d : option lkl_dir) : LKL_IFILE :=
  mk_ifile (Volume f) (FD f) (LinuxOpenFlags f) (StatBuf f) (FilePath f) d (DirEnt f).
Definition set_DirEnt (f : LKL_IFILE) (e : option str) : LKL_IFILE :=
  mk_ifile (Volume f) (FD f) (LinuxOpenFlags f) (StatBuf f) (FilePath f) (Dir f) e.

(** The status and the information as it is left. *)
Definition LKLFillFileInfo (fd : Z) (info : EFI_FILE_INFO) : FM (Z * EFI_FILE_INFO) :=
  st ← query (lkl_sys_fstat fd);
  let (RC, StatBuf) := (st : Z * lkl_stat) in
  if negb (RC =? 0) then mret (EFI_DEVICE_ERROR, info)
  else
    let attr := 0 in
    let attr := if Z.land (st_mode StatBuf) LKL_S_IWUSR =? 0 then Z.lor attr EFI_FILE_READ_ONLY else attr in
    let attr := if LKL_S_ISDIR (st_mode StatBuf) then Z.lor attr EFI_FILE_DIRECTORY else attr in
    mret (EFI_SUCCESS, mk_file_info (Size info)
      (u64 (st_size StatBuf)) (u64 (st_blocks StatBuf * 512))
      (EpochToEfiTime (u32 (lkl_st_mtime StatBuf)) (CreateTime info))
      (EpochToEfiTime (u32 (lkl_st_atime StatBuf)) (LastAccessTime info))
      (EpochToEfiTime (u32 (lkl_st_mtime StatBuf)) (ModificationTime info))
      attr (FileName info)).

(** The status and [*Position], when it is written. *)
Definition LKLGetPosition (IFile : LKL_IFILE) : FM (Z * option Z) :=
  NewPosition ← sys (lkl_sys_lseek (FD IFile) 0 LKL_SEEK_CUR);
  if (NewPosition : Z) <? 0 then mret (LKLError2EfiError (s32 NewPosition), None)
  else mret (EFI_SUCCESS, Some (u64 NewPosition)).

Definition LKLSetPosition (IFile : LKL_IFILE) (Position : Z) : FM (Z * LKL_IFILE) :=
  if LKL_S_ISDIR (st_mode (StatBuf IFile)) then
    if Position =? 0 then
      match Dir IFile with
      | Some d => sys (fun w => (tt, lkl_rewinddir d w))
      | None => mret tt
      end;;
      mret (EFI_SUCCESS, set_DirEnt IFile None)
    else mret (EFI_UNSUPPORTED, IFile)
  else
    NewPosition ←
      (if Position =? 0xffffffffffffffff then sys (lkl_sys_lseek (FD IFile) 0 LKL_SEEK_END)
       else sys (lkl_sys_lseek (FD IFile) (s64 Position) LKL_SEEK_SET));
    mret (if (NewPosition : Z) <? 0 then LKLError2EfiError (s32 NewPosition) else EFI_SUCCESS, IFile).

(** The writing of [Name] and its NUL behind the fixed part of the information
    must stay inside the caller's buffer. *)
Definition check_room (BufferSize : Z) (Name : str) : FM unit :=
  if SIZE_OF_EFI_FILE_INFO + sizeof_CHAR16 * (Z.of_nat (length Name) + 1) <=? BufferSize then mret tt
  else ffail FUB.

(** The outcome of an access: the status, [*BufferSize], what is stored in the
    buffer, and the handle. *)
Definition io_result : Type := Z * Z * stored * LKL_IFILE.

(** [lkl_fdopendir] unless the stream is open. *)
Definition open_stream (IFile : LKL_IFILE) : FM (Z + lkl_dir * LKL_IFILE) :=
  match Dir IFile with
  | Some d => mret (inr (d, IFile))
  | None =>
      r ← sys (lkl_fdopendir (FD IFile));
      match (r : option lkl_dir * Z) with
      | (None, RC) => mret (inl (LKLError2EfiError RC))
      | (Some d, _) => mret (inr (d, set_Dir IFile (Some d)))
      end
  end.

Definition LKLIFileReadDir (IFile : LKL_IFILE) (BufferSize : Z) : FM io_result :=
  r ← open_stream IFile;
  match (r : Z + lkl_dir * LKL_IFILE) with
  | inl Status => mret (Status, BufferSize, Nothing, IFile)
  | inr (d, IFile) =>
      e ← (match DirEnt IFile with
           | None => sys (lkl_readdir d)
           | Some e => mret (Some e)
           end);
      match (e : option str) with
      | None =>
          err ← query (lkl_errdir d);
          if negb ((err : Z) =? 0) then mret (EFI_DEVICE_ERROR, 0, Nothing, IFile)
          else mret (EFI_SUCCESS, 0, Nothing, set_DirEnt IFile None)
      | Some d_name =>
          let NameSize := AsciiStrSize d_name * sizeof_CHAR16 in
          let ResultSize := SIZE_OF_EFI_FILE_INFO + NameSize in
          if BufferSize <? ResultSize then
            mret (EFI_BUFFER_TOO_SMALL, ResultSize, Nothing, set_DirEnt IFile (Some d_name))
          else
            let Name := AsciiStrToUnicodeStr d_name in
            check_room BufferSize Name;;
            let info := new_file_info ResultSize Name in
            fd ← sys (lkl_sys_openat (FD IFile) d_name LKL_O_RDONLY 420);
            info ← (if 0 <=? (fd : Z) then
                      r ← LKLFillFileInfo fd info;
                      _ ← sys (lkl_sys_close fd);
                      mret (snd (r : Z * EFI_FILE_INFO))
                    else mret info);
            mret (EFI_SUCCESS, BufferSize, FileInfo info, set_DirEnt IFile None)
      end
  end.

(** [Buffer]: the caller's bytes, of which [BufferSize] are written; too few
    of them would be read past their end. *)
Definition LKLIFileAccess (IFile : LKL_IFILE) (IoMode : IO_MODE) (BufferSize : Z) (Buffer : list Z)
    : FM io_result :=
  let isdir := LKL_S_ISDIR (st_mode (StatBuf IFile)) in
  if isdir && bool_decide (IoMode = WRITE_DATA) then mret (EFI_UNSUPPORTED, BufferSize, Nothing, IFile)
  else if bool_decide (IoMode = WRITE_DATA) && ReadOnly (Volume IFile) then
    mret (EFI_WRITE_PROTECTED, BufferSize, Nothing, IFile)
  else if isdir then
    fwhen (negb MDEPKG_NDEBUG && negb (bool_decide (IoMode = READ_DATA))) (ffail FAssert);;
    LKLIFileReadDir IFile BufferSize
  else
    r ← (match IoMode with
         | WRITE_DATA =>
             fwhen (Z.of_nat (length Buffer) <? BufferSize) (ffail FUB);;
             RC ← sys (lkl_sys_write (FD IFile) (take (Z.to_nat BufferSize) Buffer));
             mret ((RC : Z), Nothing)
         | READ_DATA =>
             rb ← sys (lkl_sys_read (FD IFile) BufferSize);
             mret (fst (rb : Z * list Z), if 0 <=? fst rb then Bytes (snd rb) else Nothing)
         end);
    let (RC, st) := (r : Z * stored) in
    if RC <? 0 then mret (LKLError2EfiError RC, BufferSize, st, IFile)
    else mret (EFI_SUCCESS, RC, st, IFile).

Definition LKLRead (IFile : LKL_IFILE) (BufferSize : Z) : FM io_result :=
  LKLIFileAccess IFile READ_DATA BufferSize [].

Definition LKLReadEx : FM Z := mret EFI_UNSUPPORTED.

Definition LKLWrite (IFile : LKL_IFILE) (BufferSize : Z) (Buffer : list Z) : FM io_result :=
  LKLIFileAccess IFile WRITE_DATA BufferSize Buffer.

Definition LKLWriteEx : FM Z := mret EFI_UNSUPPORTED.

(** ** Files *)

Definition is_dir (f : LKL_IFILE) : bool := LKL_S_ISDIR (st_mode (StatBuf f)).

(** C27: file data.  Reading a file gives the bytes the kernel has read and sets
    the size to their number, which is never more than was asked for; writing
    hands the kernel exactly the bytes of the given size and sets the size to
    the number written.  An error is translated and leaves the size.  A
    directory cannot be written, nor can a file of a read-only volume, and
    neither attempt has any effect.  The handle never changes. *)
Theorem LKLRead_Write_spec f BufferSize (Buffer : list Z) s :
  (is_dir f = false ->
   let r := fst (lkl_sys_read (FD f) BufferSize (world s)) in
   exists s', world s' = snd (lkl_sys_read (FD f) BufferSize (world s)) /\ pool_live s' = pool_live s /\
     LKLRead f BufferSize s =
       (if fst r <? 0 then FDone (LKLError2EfiError (fst r), BufferSize, Nothing, f) s'
        else FDone (EFI_SUCCESS, fst r, Bytes (snd r), f) s') /\
     (fst r < 0 -> EFI_ERROR (LKLError2EfiError (fst r)) = true) /\
     (0 <= fst r -> Z.of_nat (length (snd r)) = fst r /\ fst r <= BufferSize)) /\
  (is_dir f = true -> LKLWrite f BufferSize Buffer s = FDone (EFI_UNSUPPORTED, BufferSize, Nothing, f) s) /\
  (is_dir f = false -> ReadOnly (Volume f) = true ->
   LKLWrite f BufferSize Buffer s = FDone (EFI_WRITE_PROTECTED, BufferSize, Nothing, f) s) /\
  (is_dir f = false -> ReadOnly (Volume f) = false -> BufferSize <= Z.of_nat (length Buffer) ->
   let r := lkl_sys_write (FD f) (take (Z.to_nat BufferSize) Buffer) (world s) in
   exists s', world s' = snd r /\ pool_live s' = pool_live s /\
     LKLWrite f BufferSize Buffer s =
       (if fst r <? 0 then FDone (LKLError2EfiError (fst r), BufferSize, Nothing, f) s'
        else FDone (EFI_SUCCESS, fst r, Nothing, f) s') /\
     (fst r < 0 -> EFI_ERROR (LKLError2EfiError (fst r)) = true)).
Proof.
  unfold LKLRead, LKLWrite, LKLIFileAccess, is_dir.
  change (bool_decide (READ_DATA = WRITE_DATA)) with false.
  change (bool_decide (WRITE_DATA = WRITE_DATA)) with true. split; [|split; [|split]].
  - intros ->. cbn. unfold mbind, FM_bind, sys. cbn.
    pose proof (lkl_read_int (FD f) BufferSize (world s)) as Hi.
    pose proof (lkl_read_len (FD f) BufferSize (world s)) as Hl.
    destruct (lkl_sys_read _ _ _) as [[n b] w1]. cbn in *. exists (mk_fstate w1 (pool_fails s) (pool_live s)). split; [done|].
    split; [done|]. destruct (Z.leb_spec 0 n), (Z.ltb_spec n 0); try lia; cbn; (split; [done|]).
    + split; [lia|]. intros _. by apply Hl.
    + split; [intros _; apply LKLError2EfiError_error; lia|intros; lia].
  - by intros ->.
  - intros -> Hro. cbn. by rewrite Hro.
  - intros -> -> Hb. cbn. rewrite (proj2 (Z.ltb_ge _ _)) by done. unfold fwhen, mbind, FM_bind, sys. cbn.
    pose proof (lkl_write_int (FD f) (take (Z.to_nat BufferSize) Buffer) (world s)) as Hi.
    destruct (lkl_sys_write _ _ _) as [n w1]. cbn in *. exists (mk_fstate w1 (pool_fails s) (pool_live s)). split; [done|].
    split; [done|]. destruct (Z.ltb_spec n 0); cbn; (split; [done|]); [|lia].
    intros _. apply LKLError2EfiError_error; lia.
Qed.

(** ** Positions *)

(** The descriptor can be positioned, in the world [w]: [lseek] gives the
    offset it is asked for, keeps it, and refuses a negative one. *)
Record seekable (fd : Z) (w : World) : Prop := {
  sk_set : forall off, 0 <= off < 2 ^ 63 ->
    fst (lkl_sys_lseek fd off LKL_SEEK_SET w) = off /\
    fst (lkl_sys_lseek fd 0 LKL_SEEK_CUR (snd (lkl_sys_lseek fd off LKL_SEEK_SET w))) = off;
  sk_neg : forall off, off < 0 -> INT_MIN <= fst (lkl_sys_lseek fd off LKL_SEEK_SET w) < 0;
  sk_end : 0 <= fst (lkl_sys_lseek fd 0 LKL_SEEK_END w) < 2 ^ 63 /\
    fst (lkl_sys_lseek fd 0 LKL_SEEK_CUR (snd (lkl_sys_lseek fd 0 LKL_SEEK_END w))) =
      fst (lkl_sys_lseek fd 0 LKL_SEEK_END w)
}.

(** A client that positions the file and asks where it is. *)
Definition set_get (f : LKL_IFILE) (Position : Z) : FM (Z * option Z) :=
  r ← LKLSetPosition f Position;
  let (Status, f) := (r : Z * LKL_IFILE) in
  if EFI_ERROR Status then mret (Status, None)
  else LKLGetPosition f.

(** Positions.  A position set on a file is the one read back; all bits
    set means the end of the file; a position that is negative as a Linux
    offset is refused.  On a directory only 0 can be set, which restarts the
    stream and forgets a kept entry. *)
Theorem LKLSetPosition_spec f Position s : 0 <= Position < 2 ^ 64 ->
  (is_dir f = false -> seekable (FD f) (world s) ->
   exists r s', set_get f Position s = FDone r s' /\ pool_live s' = pool_live s /\
     (Position < 2 ^ 63 -> r = (EFI_SUCCESS, Some Position)) /\
     (Position = 2 ^ 64 - 1 -> r = (EFI_SUCCESS, Some (fst (lkl_sys_lseek (FD f) 0 LKL_SEEK_END (world s))))) /\
     (2 ^ 63 <= Position < 2 ^ 64 - 1 -> EFI_ERROR (fst r) = true /\ snd r = None)) /\
  (is_dir f = true -> Position <> 0 -> LKLSetPosition f Position s = FDone (EFI_UNSUPPORTED, f) s) /\
  (is_dir f = true -> Position = 0 ->
   exists s', LKLSetPosition f Position s = FDone (EFI_SUCCESS, set_DirEnt f None) s' /\
     pool_live s' = pool_live s /\
     world s' = match Dir f with Some d => lkl_rewinddir d (world s) | None => world s end).
Proof.
  intros HP. unfold set_get, LKLSetPosition, is_dir. split; [|split].
  - intros -> Hsk. unfold mbind, FM_bind.
    change 0xffffffffffffffff with (2 ^ 64 - 1).
    destruct (Z.eqb_spec Position (2 ^ 64 - 1)) as [E|Hne].
    + destruct (sk_end _ _ Hsk) as [[Hp0 Hp1] Hp2]. unfold sys at 1.
      destruct (lkl_sys_lseek (FD f) 0 LKL_SEEK_END (world s)) as [p w1]. cbn in *.
      rewrite (proj2 (Z.ltb_ge _ _)) by done. cbn.
      change (EFI_ERROR EFI_SUCCESS) with false. unfold LKLGetPosition, mbind, FM_bind, sys. cbn.
      destruct (lkl_sys_lseek (FD f) 0 LKL_SEEK_CUR w1) as [p' w2]. cbn in *. subst p'.
      rewrite (proj2 (Z.ltb_ge _ _)) by done. rewrite u64_small by lia. eexists _, _. split; [done|].
      cbn. split; [done|]. split; [lia|]. split; [done|lia].
    + destruct (decide (Position < 2 ^ 63)).
      * rewrite s64_small by lia. destruct (sk_set _ _ Hsk Position ltac:(lia)) as [E1 E2]. unfold sys at 1.
        destruct (lkl_sys_lseek (FD f) Position LKL_SEEK_SET (world s)) as [p w1]. cbn in *. subst p.
        rewrite (proj2 (Z.ltb_ge _ _)) by lia. cbn.
      change (EFI_ERROR EFI_SUCCESS) with false. unfold LKLGetPosition, mbind, FM_bind, sys. cbn.
        destruct (lkl_sys_lseek (FD f) 0 LKL_SEEK_CUR w1) as [p' w2]. cbn in *. subst p'.
        rewrite (proj2 (Z.ltb_ge _ _)) by lia. rewrite u64_small by lia. eexists _, _. split; [done|].
        cbn. split; [done|]. split; [done|]. split; lia.
      * rewrite s64_high by lia. pose proof (sk_neg _ _ Hsk (Position - 2 ^ 64) ltac:(lia)) as Hn.
        unfold sys at 1. destruct (lkl_sys_lseek (FD f) _ LKL_SEEK_SET (world s)) as [p w1]. cbn in *.
        rewrite (proj2 (Z.ltb_lt _ _)) by lia. cbn. rewrite s32_small by (unfold INT_MIN, INT_MAX in *; lia).
        rewrite LKLError2EfiError_error by (unfold INT_MIN, INT_MAX in *; lia). eexists _, _.
        split; [done|]. cbn. split; [done|]. split; [lia|]. split; [lia|]. intros _.
        split; [|done]. apply LKLError2EfiError_error; unfold INT_MIN, INT_MAX in *; lia.
  - intros -> Hne. by rewrite (proj2 (Z.eqb_neq _ _)).
  - intros -> ->. cbn. unfold mbind, FM_bind, sys. destruct (Dir f); eexists; done.
Qed.

(** ** Directories *)

(** The directory stream [d] of the descriptor [fd] gives the names [names] and
    then its end, in the worlds [P names]; looking at an entry through [openat]
    does not move it. *)
Record dir_stream (d : lkl_dir) (fd : Z) (P : list str -> World -> Prop) : Prop := {
  ds_next : forall n ns w, P (n :: ns) w ->
    fst (lkl_readdir d w) = Some n /\ P ns (snd (lkl_readdir d w));
  ds_end : forall w, P [] w ->
    fst (lkl_readdir d w) = None /\ P [] (snd (lkl_readdir d w)) /\ lkl_errdir d (snd (lkl_readdir d w)) = 0;
  ds_visit : forall ns name w, P ns w ->
    let e := lkl_sys_openat fd name LKL_O_RDONLY 420 w in
    P ns (if 0 <=? fst e then snd (lkl_sys_close (fst e) (snd e)) else snd e)
}.

(** What the handle [f] will still give: the entry it keeps and those of the
    stream, which is perhaps not open yet. *)
Definition entries (f : LKL_IFILE) (d : lkl_dir) (P : list str -> World -> Prop) (names : list str)
    (w : World) : Prop :=
  (Dir f = Some d /\ match DirEnt f with
                     | None => P names w
                     | Some n => exists ns, names = n :: ns /\ P ns w
                     end) \/
  (Dir f = None /\ DirEnt f = None /\
   fst (fst (lkl_fdopendir (FD f) w)) = Some d /\ P names (snd (lkl_fdopendir (FD f) w))).

(** The size the information on an entry takes. *)
Definition entry_size (n : str) : Z := SIZE_OF_EFI_FILE_INFO + AsciiStrSize n * sizeof_CHAR16.

(** The same directory. *)
Definition same_dir (f f' : LKL_IFILE) (d : lkl_dir) : Prop :=
  FD f' = FD f /\ StatBuf f' = StatBuf f /\ Volume f' = Volume f /\ Dir f' = Some d.

(** One call to [LKLRead] on a directory with the entries [names]. *)
Definition read_dir_post (f : LKL_IFILE) (d : lkl_dir) (P : list str -> World -> Prop) (names : list str)
    (BufferSize live : Z) (r : io_result) (s' : fstate) : Prop :=
  let '(Status, Size', st, f') := r in
  same_dir f f' d /\ pool_live s' = live /\
  match names with
  | [] => Status = EFI_SUCCESS /\ Size' = 0 /\ st = Nothing /\ entries f' d P [] (world s')
  | n :: ns =>
      if BufferSize <? entry_size n then
        Status = EFI_BUFFER_TOO_SMALL /\ Size' = entry_size n /\ st = Nothing /\ entries f' d P names (world s')
      else
        Status = EFI_SUCCESS /\ Size' = BufferSize /\ entries f' d P ns (world s') /\
        exists i, st = FileInfo i /\ FileName i = AsciiStrToUnicodeStr n /\ Size i = entry_size n
  end.

Lemma open_stream_ok f d P names s : entries f d P names (world s) ->
  fwp (open_stream f) (fun r s' => exists f', r = inr (d, f') /\ same_dir f f' d /\ DirEnt f' = DirEnt f /\
    pool_live s' = pool_live s /\
    match DirEnt f with None => P names (world s') | Some n => exists ns, names = n :: ns /\ P ns (world s') end) s.
Proof.
  intros [[Hd Hp]|(Hd & He & Ho & HP)]; unfold open_stream; rewrite Hd.
  - fstep. by exists f.
  - fstep. destruct (lkl_fdopendir (FD f) (world s)) as [[[d'|] rc] w1]; simpl in *; [|done]. simplify_eq.
    fstep. eexists. split; [done|]. by rewrite He.
Qed.

Lemma check_room_ok size name (Q : unit -> fstate -> Prop) s :
  entry_size name <= size -> Q tt s -> fwp (check_room size (AsciiStrToUnicodeStr name)) Q s.
Proof.
  unfold check_room, entry_size, AsciiStrSize, sizeof_CHAR16. rewrite ascii_unicode_length. intros Hl HQ.
  by rewrite (proj2 (Z.leb_le _ _)) by lia.
Qed.

Lemma FillFileInfo_ok fd i s : fwp (LKLFillFileInfo fd i) (fun r s' =>
  s' = s /\ FileName (snd r) = FileName i /\ Size (snd r) = Size i) s.
Proof.
  unfold LKLFillFileInfo. fstep. destruct (lkl_sys_fstat fd (world s)) as [rc st].
  destruct (negb (rc =? 0)); by fstep.
Qed.

(** The entry [n], taken from the stream, is given to the caller or kept. *)
Lemma read_entry_ok f f1 d P n ns BufferSize s :
  dir_stream d (FD f) P -> same_dir f f1 d -> P ns (world s) ->
  fwp (let NameSize := AsciiStrSize n * sizeof_CHAR16 in
       let ResultSize := SIZE_OF_EFI_FILE_INFO + NameSize in
       if BufferSize <? ResultSize then
         mret (EFI_BUFFER_TOO_SMALL, ResultSize, Nothing, set_DirEnt f1 (Some n))
       else
         let Name := AsciiStrToUnicodeStr n in
         check_room BufferSize Name;;
         let info := new_file_info ResultSize Name in
         fd ← sys (lkl_sys_openat (FD f1) n LKL_O_RDONLY 420);
         info ← (if 0 <=? (fd : Z) then
                   r ← LKLFillFileInfo fd info;
                   _ ← sys (lkl_sys_close fd);
                   mret (snd (r : Z * EFI_FILE_INFO))
                 else mret info);
         mret (EFI_SUCCESS, BufferSize, FileInfo info, set_DirEnt f1 None))
    (read_dir_post f d P (n :: ns) BufferSize (pool_live s)) s.
Proof.
  intros Hds (Hfd & Hst & Hv & Hd) HP. cbv zeta. fold (entry_size n). unfold read_dir_post.
  assert (Hsame : forall e, same_dir f (set_DirEnt f1 e) d) by done.
  destruct (Z.ltb_spec BufferSize (entry_size n)).
  - fstep. split; [done|]. split; [done|]. split_and!; try done. left. split; [done|]. by exists ns.
  - apply fwp_bind, check_room_ok; [done|]. fstep. rewrite Hfd.
    pose proof (ds_visit _ _ _ Hds ns n (world s) HP) as Hvis. cbv zeta in Hvis.
    destruct (lkl_sys_openat (FD f) n LKL_O_RDONLY 420 (world s)) as [fd w1]. simpl in *. apply fwp_bind.
    destruct (0 <=? fd).
    + apply fwp_bind. eapply fwp_mono; [apply FillFileInfo_ok|]. intros r s2 (-> & Hn & Hsz). fstep. fstep. fstep.
      simpl. split_and!; try done. { left. done. } by exists (snd r).
    + fstep. fstep. simpl. split_and!; try done. { left. done. } by eexists.
Qed.

Lemma LKLRead_dir_ok f d P names BufferSize s :
  is_dir f = true -> dir_stream d (FD f) P -> entries f d P names (world s) ->
  fwp (LKLRead f BufferSize) (read_dir_post f d P names BufferSize (pool_live s)) s.
Proof.
  intros Hdir Hds Hent. unfold LKLRead, LKLIFileAccess. fold (is_dir f). rewrite Hdir.
  change (bool_decide (READ_DATA = WRITE_DATA)) with false.
  change (bool_decide (READ_DATA = READ_DATA)) with true. cbn [andb negb]. rewrite andb_false_r.
  apply fwp_bind, fwp_ret. unfold LKLIFileReadDir. apply fwp_bind.
  eapply fwp_mono; [by apply open_stream_ok|]. intros r s1 (f1 & -> & Hsame & He & Hl & Hp). rewrite He, <- Hl.
  destruct (DirEnt f) as [n|].
  - destruct Hp as (ns & -> & HP). apply fwp_bind, fwp_ret. by apply (read_entry_ok f f1 d P n ns BufferSize).
  - fstep. destruct names as [|n ns].
    + destruct (ds_end _ _ _ Hds _ Hp) as (-> & HPe & Herr). fstep. simpl. rewrite Herr. simpl. fstep.
      simpl. split; [done|]. split; [done|]. split_and!; try done. left. split; [by apply Hsame|done].
    + destruct (ds_next _ _ _ Hds _ _ _ Hp) as [-> HPn].
      by apply (read_entry_ok f f1 d P n ns BufferSize
        (mk_fstate (snd (lkl_readdir d (world s1))) (pool_fails s1) (pool_live s1))).
Qed.

(** A caller that lists a directory: it asks with an empty buffer, repeats the
    call with the size it is told, and stops at size 0. *)
Fixpoint list_dir (fuel : nat) (f : LKL_IFILE) (BufferSize : Z) : FM (Z * list str * LKL_IFILE) :=
  match fuel with
  | O => ffail FFuel
  | S fuel' =>
      r ← LKLRead f BufferSize;
      let '(Status, Size', st, f) := (r : io_result) in
      if Status =? EFI_BUFFER_TOO_SMALL then list_dir fuel' f Size'
      else if EFI_ERROR Status then mret (Status, [], f)
      else
        match st with
        | FileInfo i =>
            rest ← list_dir fuel' f 0;
            let '(Status, names, f) := (rest : Z * list str * LKL_IFILE) in
            mret (Status, FileName i :: names, f)
        | _ => mret (Status, [], f)
        end
  end.

Lemma entry_size_pos n : 80 < entry_size n.
Proof. unfold entry_size, AsciiStrSize, sizeof_CHAR16, SIZE_OF_EFI_FILE_INFO. lia. Qed.

Lemma list_dir_ok d P names : forall f fuel s,
  is_dir f = true -> dir_stream d (FD f) P -> entries f d P names (world s) ->
  (2 * length names + 1 <= fuel)%nat ->
  fwp (list_dir fuel f 0) (fun r s' => exists f', r = (EFI_SUCCESS, map AsciiStrToUnicodeStr names, f') /\
    same_dir f f' d /\ pool_live s' = pool_live s /\ entries f' d P [] (world s')) s.
Proof.
  induction names as [|n ns IH]; intros f fuel s Hdir Hds Hent Hfuel.
  - destruct fuel as [|fuel]; [simpl in *; lia|]. cbn [list_dir]. apply fwp_bind.
    eapply fwp_mono; [by apply (LKLRead_dir_ok f d P [])|]. intros [[[Status Sz] st] f'] s'. simpl.
    intros (Hsame & Hl & -> & -> & -> & He). apply fwp_ret. by exists f'.
  - destruct fuel as [|[|fuel]]; [simpl in *; lia..|]. cbn [list_dir]. apply fwp_bind.
    eapply fwp_mono; [by apply (LKLRead_dir_ok f d P (n :: ns))|]. intros [[[Status Sz] st] f1] s1. simpl.
    pose proof (entry_size_pos n) as Hsz. rewrite (proj2 (Z.ltb_lt _ _)) by lia.
    intros ((Hfd1 & Hst1 & Hv1 & Hd1) & Hl1 & -> & -> & -> & He1).
    change (EFI_BUFFER_TOO_SMALL =? EFI_BUFFER_TOO_SMALL) with true. cbv iota. apply fwp_bind.
    assert (Hdir1 : is_dir f1 = true) by (unfold is_dir; by rewrite Hst1).
    eapply fwp_mono; [apply (LKLRead_dir_ok f1 d P (n :: ns)); [done|by rewrite Hfd1|done]|].
    intros [[[Status Sz] st] f2] s2. simpl. rewrite Z.ltb_irrefl.
    intros ((Hfd2 & Hst2 & Hv2 & Hd2) & Hl2 & -> & -> & He2 & i & -> & Hi & _).
    change (EFI_SUCCESS =? EFI_BUFFER_TOO_SMALL) with false. change (EFI_ERROR EFI_SUCCESS) with false. cbv iota.
    apply fwp_bind. eapply fwp_mono.
    { apply (IH f2 fuel s2); [unfold is_dir; by rewrite Hst2, Hst1|by rewrite Hfd2, Hfd1|done|simpl in *; lia]. }
    intros r s3 (f3 & -> & (Hfd3 & Hst3 & Hv3 & Hd3) & Hl3 & He3). apply fwp_ret. exists f3.
    rewrite Hi. split; [done|]. split; [split_and!; congruence|]. split; [congruence|done].
Qed.

(** One read of a directory.  It gives the next entry when the buffer has
    room for it; when not, it tells the size needed, and the entry is not lost:
    it is the next one again.  Behind the last entry the size is 0. *)
Theorem LKLRead_dir_spec f d P names BufferSize s :
  is_dir f = true -> dir_stream d (FD f) P -> entries f d P names (world s) ->
  fwp (LKLRead f BufferSize) (read_dir_post f d P names BufferSize (pool_live s)) s.
Proof. apply LKLRead_dir_ok. Qed.

(** C20: a caller that follows the protocol - ask, repeat with the size it is
    told, stop at size 0 - gets every entry of the directory once, in order,
    and then the end. *)
Theorem list_dir_complete f d P names fuel s :
  is_dir f = true -> dir_stream d (FD f) P -> entries f d P names (world s) ->
  (2 * length names + 1 <= fuel)%nat ->
  fwp (list_dir fuel f 0) (fun r s' => exists f', r = (EFI_SUCCESS, map AsciiStrToUnicodeStr names, f') /\
    same_dir f f' d /\ pool_live s' = pool_live s /\ entries f' d P [] (world s')) s.
Proof. apply list_dir_ok. Qed.
End io.

(** ** At the small Linux *)

#[local] Instance demo_edk_io : EdkConfig := {| MDEPKG_NDEBUG := false |}.

(** /mnt/0 with two entries, opened as descriptor 3; the stream is not open. *)
Definition demo_names_ab : list str := [[97]; [98; 99]].
Definition demo_ab : fstate (H := demo_lkl) :=
  mk_fstate (H := demo_lkl)
    (mk_world {[ demo_mp := demo_directory demo_names_ab ]} {[ 3 := (demo_mp, 0) ]} ∅) [] 1.
Definition demo_ab_dir : LKL_IFILE (H := demo_lkl) :=
  mk_ifile (H := demo_lkl) (demo_volume false) 3 0 (stat_of (demo_directory demo_names_ab)) [] None None.

Definition demo_ab_stream (ns : list str) (w : demo_world) : Prop :=
  fds w = {[ 3 := (demo_mp, 0) ]} /\ nodes w = {[ demo_mp := demo_directory demo_names_ab ]} /\
  drop (default O (dirpos w !! 3)) demo_names_ab = ns.

Lemma demo_ab_visit ns name w : demo_ab_stream ns w ->
  let e := d_openat 3 name 0 420 w in
  demo_ab_stream ns (if 0 <=? fst e then snd (d_close (fst e) (snd e)) else snd e).
Proof.
  intros (Hf & Hn & Hd). unfold d_openat. rewrite Hf, lookup_singleton_eq. unfold d_open. rewrite Hn.
  destruct ({[ demo_mp := _ ]} !! (demo_mp ++ SLASH :: name)) as [nd|] eqn:E; [|done].
  apply lookup_singleton_Some in E as [E _]. apply (f_equal length) in E. rewrite length_app in E. simpl in E. lia.
Qed.

Lemma demo_ab_dir_stream : dir_stream (H := demo_lkl) 3 3 demo_ab_stream.
Proof.
  assert (Hnext : forall ns w, demo_ab_stream ns w -> fst (d_readdir 3 w) = head ns /\
    demo_ab_stream (tail ns) (snd (d_readdir 3 w)) /\ d_errdir 3 (snd (d_readdir 3 w)) = 0).
  { intros ns w (Hf & Hn & Hd). unfold d_readdir, fd_node. rewrite Hf, lookup_singleton_eq. simpl.
    rewrite Hn, lookup_singleton_eq. simpl. unfold d_errdir. simpl.
    rewrite lookup_singleton_eq. split; [|split; [|done]].
    - rewrite <- Hd. by rewrite head_lookup, lookup_drop, Nat.add_0_r.
    - split; [done|]. split; [done|]. simpl. rewrite lookup_insert_eq. simpl.
      rewrite <- Hd. set (k := default O (dirpos w !! 3)).
      by destruct k as [|[|[|k]]]. }
  split.
  - intros n ns w Hw. by destruct (Hnext _ _ Hw) as (? & ? & _).
  - intros w Hw. by apply (Hnext []).
  - intros ns name w Hw. by apply demo_ab_visit.
Qed.

Lemma demo_ab_entries : entries (H := demo_lkl) demo_ab_dir 3 demo_ab_stream demo_names_ab (world demo_ab).
Proof. right. split; [done|]. split; [done|]. split; [done|]. by split_and!. Qed.

Lemma LKLRead_Write_spec_witness :
  exists s', LKLRead (H := demo_lkl) demo_f 5 demo_open_root =
    FDone (LKLError2EfiError EBADF, 5, Nothing, demo_f) s'.
Proof.
  destruct (proj1 (LKLRead_Write_spec (H := demo_lkl) demo_f 5 [] demo_open_root) ltac:(reflexivity))
    as (s' & _ & _ & E & _).
  exists s'. exact E.
Defined.

(** "\f" open as descriptor 3 *)
Definition demo_at_f : fstate (H := demo_lkl) :=
  mk_fstate (H := demo_lkl) (mk_world (nodes (world demo_fs)) {[ 3 := (path_of [c_mnt; c_0; c_f], 0) ]} ∅) [] 1.
Definition demo_f3 : LKL_IFILE (H := demo_lkl) :=
  mk_ifile (H := demo_lkl) (demo_volume false) 3 0 (stat_of (demo_file [104; 105])) c_f None None.

Lemma demo_f3_node pos : fd_node 3 (upd (world demo_fs) (nodes (world demo_fs))
  (<[3 := (path_of [c_mnt; c_0; c_f], pos)]> {[ 3 := (path_of [c_mnt; c_0; c_f], 0) ]}) ∅) =
  Some (path_of [c_mnt; c_0; c_f], pos, demo_file [104; 105]).
Proof. unfold fd_node. simpl. by rewrite lookup_insert_eq. Qed.

Lemma demo_seek off whence : whence = 0 \/ whence = 2 ->
  let new := if whence =? 0 then off else 2 + off in
  (0 <= new -> fst (d_lseek 3 off whence (world demo_at_f)) = new /\
     fst (d_lseek 3 0 1 (snd (d_lseek 3 off whence (world demo_at_f)))) = new) /\
  (new < 0 -> fst (d_lseek 3 off whence (world demo_at_f)) = EINVAL).
Proof.
  intros Hw new. assert (E : d_lseek 3 off whence (world demo_at_f) =
    if new <? 0 then (EINVAL, world demo_at_f) else (new, upd (world demo_fs) (nodes (world demo_fs))
      (<[3 := (path_of [c_mnt; c_0; c_f], new)]> {[ 3 := (path_of [c_mnt; c_0; c_f], 0) ]}) ∅)).
  { subst new. by destruct Hw as [->| ->]. }
  rewrite E. split; intros Hn.
  - rewrite (proj2 (Z.ltb_ge _ _)) by done. split; [done|]. unfold d_lseek. cbn [fst snd]. rewrite demo_f3_node.
    cbn. rewrite Z.add_0_r. by rewrite (proj2 (Z.ltb_ge _ _)) by done.
  - by rewrite (proj2 (Z.ltb_lt _ _)) by done.
Qed.

Lemma demo_seekable : seekable (H := demo_lkl) 3 (world demo_at_f).
Proof.
  split.
  - intros off Hoff. apply (demo_seek off 0); [by left|simpl; lia].
  - intros off Hoff. change (INT_MIN <= fst (d_lseek 3 off 0 (world demo_at_f)) < 0).
    rewrite (proj2 (demo_seek off 0 ltac:(by left))) by (simpl; lia). done.
  - destruct (proj1 (demo_seek 0 2 ltac:(by right)) ltac:(done)) as [E1 E2].
    change (0 <= fst (d_lseek 3 0 2 (world demo_at_f)) < 2 ^ 63 /\
      fst (d_lseek 3 0 1 (snd (d_lseek 3 0 2 (world demo_at_f)))) = fst (d_lseek 3 0 2 (world demo_at_f))).
    rewrite E1, E2. done.
Qed.

Lemma LKLSetPosition_spec_witness :
  exists s', set_get (H := demo_lkl) demo_f3 1 demo_at_f = FDone (EFI_SUCCESS, Some 1) s'.
Proof.
  destruct (proj1 (LKLSetPosition_spec (H := demo_lkl) demo_f3 1 demo_at_f ltac:(lia)) ltac:(reflexivity)
    demo_seekable) as (r & s' & E & _ & Hr & _).
  exists s'. rewrite E. rewrite (Hr ltac:(lia)). reflexivity.
Defined.

Lemma LKLRead_dir_spec_witness :
  fwp (LKLRead (H := demo_lkl) demo_ab_dir 82)
    (read_dir_post (H := demo_lkl) demo_ab_dir 3 demo_ab_stream demo_names_ab 82 1) demo_ab.
Proof.
  apply (LKLRead_dir_spec (H := demo_lkl) demo_ab_dir 3 demo_ab_stream demo_names_ab 82 demo_ab);
    [reflexivity|exact demo_ab_dir_stream|exact demo_ab_entries].
Defined.

Lemma list_dir_complete_witness :
  fwp (list_dir (H := demo_lkl) 5 demo_ab_dir 0) (fun r _ => fst r = (EFI_SUCCESS, [[97]; [98; 99]])) demo_ab.
Proof.
  eapply fwp_mono.
  - apply (list_dir_complete (H := demo_lkl) demo_ab_dir 3 demo_ab_stream demo_names_ab 5 demo_ab);
      [reflexivity|exact demo_ab_dir_stream|exact demo_ab_entries|simpl; lia].
  - intros r s' (f' & -> & _). reflexivity.
Defined.
