(* ===== verification/FileInfo.v ===== *)
(** * File and volume information ([Info.c])

    [GetInfo] with its two-call protocol for the buffer size, and [SetInfo],
    which changes the times, the write permission and the size of a file. *)

From S2P Require Import Prelude Efi Lkl Errors Time Path DemoFs File FileIO.

(** GUIDs as 128-bit numbers: gEfiFileInfoGuid, gEfiFileSystemInfoGuid. *)
Definition gEfiFileInfoGuid : Z := 0x09576e926d3f11d28e3900a0c969723b.
Definition gEfiFileSystemInfoGuid : Z := 0x09576e936d3f11d28e3900a0c969723b.
Definition CompareGuid (a b : Z) : bool := a =? b.

(** [OFFSET_OF (EFI_FILE_SYSTEM_INFO, VolumeLabel)] *)
Definition SIZE_OF_EFI_FILE_SYSTEM_INFO : Z := 36.

Record EFI_FILE_SYSTEM_INFO := mk_fs_info {
  fsi_Size : Z; fsi_ReadOnly : bool; VolumeSize : Z; FreeSpace : Z; BlockSize : Z; VolumeLabel : str }.

(** What [GetInfo] stores in the caller's buffer. *)
Inductive got_info := NoInfo | GotFile (i : EFI_FILE_INFO) | GotFs (i : EFI_FILE_SYSTEM_INFO).

#[export] Instance EFI_TIME_eq_dec : EqDecision EFI_TIME.
Proof. solve_decision. Defined.

Section info.
Context `{LklSys} `{EdkStrings} `{EdkConfig}.

Definition flift {A} (e : ffailure) (o : option A) : FM A :=
  match o with Some a => mret a | None => ffail e end.

(** *** Getting *)

(** The status, [*BufferSize] and the buffer. *)
Definition LKLGetFileInfo (IFile : LKL_IFILE) (BufferSize : Z) : FM (Z * Z * got_info) :=
  let base := drop (GetBasenamePtr (FilePath IFile)) (FilePath IFile) in
  let NameSize := AsciiStrSize base * sizeof_CHAR16 in
  let ResultSize := SIZE_OF_EFI_FILE_INFO + NameSize in
  if BufferSize <? ResultSize then mret (EFI_BUFFER_TOO_SMALL, ResultSize, NoInfo)
  else
    let Name := AsciiStrToUnicodeStr base in
    check_room BufferSize Name;;
    r ← LKLFillFileInfo (FD IFile) (new_file_info ResultSize Name);
    let info := snd (r : Z * EFI_FILE_INFO) in
    let attr := Attribute info in
    let attr := if Z.land (LinuxOpenFlags IFile) LKL_O_RDONLY =? 0 then Z.lor attr EFI_FILE_READ_ONLY else attr in
    let attr := if LKL_S_ISDIR (st_mode (StatBuf IFile)) then Z.lor attr EFI_FILE_DIRECTORY else attr in
    mret (EFI_SUCCESS, BufferSize, GotFile (mk_file_info (Size info) (FileSize info) (PhysicalSize info)
      (CreateTime info) (LastAccessTime info) (ModificationTime info) attr (FileName info))).

Definition LKLGetVolumeInfo (V : LKL_VOLUME) (BufferSize : Z) : FM (Z * Z * got_info) :=
  st ← query (lkl_sys_statfs (LKLMountPoint V));
  let (RC, StatBuf) := (st : Z * lkl_statfs) in
  if negb (RC =? 0) then mret (EFI_UNSUPPORTED, BufferSize, NoInfo)
  else
    let NameSize := AsciiStrSize (FsType V) * sizeof_CHAR16 in
    let ResultSize := SIZE_OF_EFI_FILE_SYSTEM_INFO + NameSize in
    if ResultSize <=? BufferSize then
      let Label := AsciiStrToUnicodeStr (FsType V) in
      fwhen (BufferSize <? SIZE_OF_EFI_FILE_SYSTEM_INFO + sizeof_CHAR16 * (Z.of_nat (length Label) + 1)) (ffail FUB);;
      let bs := u32 (f_bsize StatBuf) in
      mret (EFI_SUCCESS, ResultSize, GotFs (mk_fs_info ResultSize (ReadOnly V)
        (u64 (f_blocks StatBuf * bs)) (u64 (f_bfree StatBuf * bs)) bs Label))
    else mret (EFI_BUFFER_TOO_SMALL, ResultSize, NoInfo).

(** *** Setting *)

(** One of the two blocks that take over a time: nothing for the zero time, an
    error ([None]) for an invalid one, else the new modification time and
    whether a time has changed. *)
Definition take_time (ro : Z) (t : EFI_TIME) (u : lkl_utimbuf) (TimeChanged : bool)
    : FM (option (lkl_utimbuf * bool)) :=
  if bool_decide (ZeroTime = t) then mret (Some (u, TimeChanged))
  else
    valid ← flift FUB (EfiTimeIsValid t);
    if negb (valid : bool) then mret None
    else if ro =? 0 then
      NewTime ← flift FAssert (EfiTimeToEpoch t);
      let NewTime := u32 NewTime in
      if negb (modtime u =? NewTime) then mret (Some (mk_utimbuf (actime u) NewTime, true))
      else mret (Some (u, TimeChanged))
    else mret (Some (u, TimeChanged)).

(** The library's [FreePool] asserts that the pointer is not NULL. *)
Definition FreePool_ptr (p : bool) : FM unit :=
  if p then FreePool else fwhen (negb MDEPKG_NDEBUG) (ffail FAssert).

(** The status of an error, or [None]. *)
Definition apply_time (V : LKL_VOLUME) (IFile : LKL_IFILE) (u : lkl_utimbuf) : FM (option Z) :=
  let FilePathSize := Z.of_nat (length (LKLMountPoint V)) + 1 + Z.of_nat (length (FilePath IFile)) + 1 in
  p ← AllocatePool;
  let path := if p : bool then Some (AsciiSPrint FilePathSize [Pa; Pc SLASH; Pa] [LKLMountPoint V; FilePath IFile])
              else None in
  RC ← sys (lkl_sys_utime path u);
  FreePool_ptr p;;
  mret (if negb ((RC : Z) =? 0) then Some (LKLError2EfiError RC) else None).

(** The part behind the times: the attributes and the size. *)
Definition set_attributes (IFile : LKL_IFILE) (NewInfo : EFI_FILE_INFO) (st : lkl_stat) (ro IsDirectory : Z) : FM Z :=
  if negb (Z.land (Attribute NewInfo) (not64 EFI_FILE_VALID_ATTR) =? 0) then mret EFI_INVALID_PARAMETER
  else
    let NewAttribute := u8 (Attribute NewInfo) in
    if negb (u8 (Z.land NewAttribute EFI_FILE_DIRECTORY) =? IsDirectory) then mret EFI_ACCESS_DENIED
    else
      RC ← (if negb (u8 (Z.land NewAttribute EFI_FILE_READ_ONLY) =? ro) then
              let NewMode :=
                if negb (Z.land NewAttribute EFI_FILE_READ_ONLY =? 0)
                then Z.land (st_mode st) (Z.lnot LKL_S_IWUSR)
                else Z.lor (st_mode st) LKL_S_IWUSR in
              sys (lkl_sys_chmod (FilePath IFile) NewMode)
            else mret 0);
      if negb ((RC : Z) =? 0) then mret (LKLError2EfiError RC)
      else if negb (FileSize NewInfo =? u64 (st_size st)) then
        if negb (IsDirectory =? 0) || negb (ro =? 0) then mret EFI_ACCESS_DENIED
        else
          RC ← sys (lkl_sys_ftruncate (FD IFile) (FileSize NewInfo));
          mret (if negb ((RC : Z) =? 0) then LKLError2EfiError RC else EFI_SUCCESS)
      else mret EFI_SUCCESS.

Definition LKLSetFileInfo (V : LKL_VOLUME) (IFile : LKL_IFILE) (BufferSize : Z) (NewInfo : EFI_FILE_INFO)
    : FM Z :=
  if bool_decide (FilePath IFile = []) then mret EFI_ACCESS_DENIED
  else if (BufferSize <? SIZE_OF_EFI_FILE_INFO + 2) || (BufferSize <? Size NewInfo) then
    mret EFI_BAD_BUFFER_SIZE
  else
    st ← query (lkl_sys_fstat (FD IFile));
    let (RC, st) := (st : Z * lkl_stat) in
    if negb (RC =? 0) then mret (LKLError2EfiError RC)
    else
      let UTimeBuf := mk_utimbuf (lkl_st_atime st) (lkl_st_mtime st) in
      let ro := u8 (Z.land (LinuxOpenFlags IFile) LKL_O_RDONLY) in
      let IsDirectory := if LKL_S_ISDIR (st_mode st) then 1 else 0 in
      t1 ← take_time ro (CreateTime NewInfo) UTimeBuf false;
      match (t1 : option (lkl_utimbuf * bool)) with
      | None => mret EFI_INVALID_PARAMETER
      | Some (UTimeBuf, TimeChanged) =>
          t2 ← take_time ro (ModificationTime NewInfo) UTimeBuf TimeChanged;
          match (t2 : option (lkl_utimbuf * bool)) with
          | None => mret EFI_INVALID_PARAMETER
          | Some (UTimeBuf, TimeChanged) =>
              e ← (if (ro =? 0) && TimeChanged then apply_time V IFile UTimeBuf else mret None);
              match (e : option Z) with
              | Some Status => mret Status
              | None => set_attributes IFile NewInfo st ro IsDirectory
              end
          end
      end.

(** *** The entry points *)

(** [Buffer]: the new information when setting. *)
Definition LKLSetOrGetInfo (IsSet : bool) (IFile : LKL_IFILE) (Type_ : Z) (BufferSize : Z)
    (Buffer : EFI_FILE_INFO) : FM (Z * Z * got_info) :=
  let V := Volume IFile in
  if IsSet then
    if CompareGuid Type_ gEfiFileInfoGuid then
      if ReadOnly V then mret (EFI_WRITE_PROTECTED, BufferSize, NoInfo)
      else
        Status ← LKLSetFileInfo V IFile BufferSize Buffer;
        mret (Status, BufferSize, NoInfo)
    else mret (EFI_UNSUPPORTED, BufferSize, NoInfo)
  else
    r ← (if CompareGuid Type_ gEfiFileInfoGuid then LKLGetFileInfo IFile BufferSize
         else mret (EFI_UNSUPPORTED, BufferSize, NoInfo));
    let '(Status, BufferSize, stored) := (r : Z * Z * got_info) in
    if CompareGuid Type_ gEfiFileSystemInfoGuid then LKLGetVolumeInfo V BufferSize
    else mret (Status, BufferSize, stored).

Definition LKLGetInfo (IFile : LKL_IFILE) (Type_ BufferSize : Z) : FM (Z * Z * got_info) :=
  LKLSetOrGetInfo false IFile Type_ BufferSize (new_file_info 0 []).

Definition LKLSetInfo (IFile : LKL_IFILE) (Type_ BufferSize : Z) (Buffer : EFI_FILE_INFO) : FM Z :=
  r ← LKLSetOrGetInfo true IFile Type_ BufferSize Buffer;
  mret (fst (fst (r : Z * Z * got_info))).

(** ** Getting information *)

Definition base_name (f : LKL_IFILE) : str := drop (GetBasenamePtr (FilePath f)) (FilePath f).

(** C29: [GetInfo] on a file.  A buffer that is too small is answered with the
    size needed, and nothing else happens; with that size or more the name,
    the sizes, the times and the attributes of the open file are given, inside
    the buffer.  The file is always reported as read-only, however it was
    opened, because [O_RDONLY] is 0. *)
Theorem LKLGetInfo_file f BufferSize s :
  let need := entry_size (base_name f) in
  let st := snd (lkl_sys_fstat (FD f) (world s)) in
  (BufferSize < need ->
   LKLGetInfo f gEfiFileInfoGuid BufferSize s = FDone (EFI_BUFFER_TOO_SMALL, need, NoInfo) s) /\
  (need <= BufferSize -> fst (lkl_sys_fstat (FD f) (world s)) = 0 ->
   LKLGetInfo f gEfiFileInfoGuid BufferSize s = FDone (EFI_SUCCESS, BufferSize, GotFile (mk_file_info need
     (u64 (st_size st)) (u64 (st_blocks st * 512))
     (EpochToEfiTime (u32 (lkl_st_mtime st)) ZeroTime) (EpochToEfiTime (u32 (lkl_st_atime st)) ZeroTime)
     (EpochToEfiTime (u32 (lkl_st_mtime st)) ZeroTime)
     (if LKL_S_ISDIR (st_mode st) || is_dir f then Z.lor EFI_FILE_READ_ONLY EFI_FILE_DIRECTORY
      else EFI_FILE_READ_ONLY) (AsciiStrToUnicodeStr (base_name f)))) s).
Proof.
  intros need st. unfold LKLGetInfo, LKLSetOrGetInfo.
  change (CompareGuid gEfiFileInfoGuid gEfiFileInfoGuid) with true.
  change (CompareGuid gEfiFileInfoGuid gEfiFileSystemInfoGuid) with false.
  unfold LKLGetFileInfo. fold (base_name f) (is_dir f). fold (entry_size (base_name f)) need.
  unfold mbind, FM_bind. split.
  - intros Hlt. by rewrite (proj2 (Z.ltb_lt _ _)).
  - intros Hle Hst. rewrite (proj2 (Z.ltb_ge _ _)) by done.
    assert (Hroom : check_room BufferSize (AsciiStrToUnicodeStr (base_name f)) s = FDone tt s).
    { unfold check_room. rewrite ascii_unicode_length.
      subst need. unfold entry_size, AsciiStrSize, sizeof_CHAR16 in *. by rewrite (proj2 (Z.leb_le _ _)) by lia. }
    rewrite Hroom. unfold LKLFillFileInfo, mbind, FM_bind, query. subst st.
    destruct (lkl_sys_fstat (FD f) (world s)) as [rc st]. cbn in Hst |- *. subst rc. cbn.
    rewrite LKL_O_RDONLY_zero, Z.land_0_r. cbn.
    by destruct (Z.land (st_mode st) LKL_S_IWUSR =? 0), (LKL_S_ISDIR (st_mode st)), (is_dir f).
Qed.

(** [GetInfo] on a volume: the block counts of the mounted file system in
    bytes and its type as the label, with the same size protocol; an unknown
    kind of information is refused. *)
Theorem LKLGetInfo_volume f BufferSize s :
  let V := Volume f in
  let need := SIZE_OF_EFI_FILE_SYSTEM_INFO + AsciiStrSize (FsType V) * sizeof_CHAR16 in
  let st := snd (lkl_sys_statfs (LKLMountPoint V) (world s)) in
  (fst (lkl_sys_statfs (LKLMountPoint V) (world s)) = 0 ->
   (BufferSize < need ->
    LKLGetInfo f gEfiFileSystemInfoGuid BufferSize s = FDone (EFI_BUFFER_TOO_SMALL, need, NoInfo) s) /\
   (need <= BufferSize ->
    LKLGetInfo f gEfiFileSystemInfoGuid BufferSize s = FDone (EFI_SUCCESS, need, GotFs (mk_fs_info need (ReadOnly V)
      (u64 (f_blocks st * u32 (f_bsize st))) (u64 (f_bfree st * u32 (f_bsize st))) (u32 (f_bsize st))
      (AsciiStrToUnicodeStr (FsType V)))) s)) /\
  (fst (lkl_sys_statfs (LKLMountPoint V) (world s)) <> 0 ->
   LKLGetInfo f gEfiFileSystemInfoGuid BufferSize s = FDone (EFI_UNSUPPORTED, BufferSize, NoInfo) s) /\
  (forall g, g <> gEfiFileInfoGuid -> g <> gEfiFileSystemInfoGuid ->
   LKLGetInfo f g BufferSize s = FDone (EFI_UNSUPPORTED, BufferSize, NoInfo) s).
Proof.
  intros V need st. unfold LKLGetInfo, LKLSetOrGetInfo. fold V.
  change (CompareGuid gEfiFileSystemInfoGuid gEfiFileInfoGuid) with false.
  change (CompareGuid gEfiFileSystemInfoGuid gEfiFileSystemInfoGuid) with true.
  unfold LKLGetVolumeInfo. fold need. unfold mbind, FM_bind, query. subst st. split; [|split].
  - destruct (lkl_sys_statfs (LKLMountPoint V) (world s)) as [rc st] eqn:E. cbn. intros ->. rewrite E. cbn.
    split; intros Hn; [by rewrite (proj2 (Z.leb_gt _ _))|]. rewrite (proj2 (Z.leb_le _ _)) by done. unfold fwhen.
    rewrite ascii_unicode_length. rewrite (proj2 (Z.ltb_ge _ _)); [done|].
    subst need. unfold AsciiStrSize, sizeof_CHAR16 in *. lia.
  - destruct (lkl_sys_statfs (LKLMountPoint V) (world s)) as [rc st] eqn:E. cbn. intros Hrc. rewrite E.
    by rewrite (proj2 (Z.eqb_neq _ _)).
  - intros g Hg1 Hg2. unfold CompareGuid. by rewrite !(proj2 (Z.eqb_neq _ _)).
Qed.

(** ** Setting information *)

Lemma land_not64 a m : 0 <= a < 2 ^ 64 -> Z.land a (not64 m) = 0 <-> Z.land a m = a.
Proof.
  intros Ha. assert (E : Z.land a (not64 m) = Z.ldiff a m).
  { unfold not64, u64. rewrite <- Z.land_ones by lia. rewrite (Z.land_comm (Z.lnot m)), Z.land_assoc.
    rewrite (Z.land_ones a) by lia. rewrite Z.mod_small by lia. symmetry. apply Z.ldiff_land. }
  rewrite E. split; intros Hz; apply Z.bits_inj'; intros n Hn; apply (f_equal (fun z => Z.testbit z n)) in Hz;
    revert Hz; rewrite ?Z.land_spec, ?Z.ldiff_spec, ?Z.bits_0; by destruct (Z.testbit a n), (Z.testbit m n).
Qed.

Lemma valid_attr_small a : 0 <= a < 2 ^ 64 -> Z.land a EFI_FILE_VALID_ATTR = a -> 0 <= a < 2 ^ 8.
Proof.
  intros Ha E. replace EFI_FILE_VALID_ATTR with (Z.land EFI_FILE_VALID_ATTR (Z.ones 8)) in E by done.
  rewrite Z.land_assoc, Z.land_ones in E by lia. rewrite <- E. apply Z.mod_pos_bound. lia.
Qed.

(** Nothing of the handle's flags survives the mask with [O_RDONLY]. *)
Lemma ro_zero f : u8 (Z.land (LinuxOpenFlags f) LKL_O_RDONLY) = 0.
Proof. by rewrite LKL_O_RDONLY_zero, Z.land_0_r. Qed.

(** The buffer of [SetInfo] is large enough. *)
Definition set_size_ok (BufferSize : Z) (NewInfo : EFI_FILE_INFO) : bool :=
  negb ((BufferSize <? SIZE_OF_EFI_FILE_INFO + 2) || (BufferSize <? Size NewInfo)).

(** [SetInfo] refuses, without any effect: information other than that on a
    file, a read-only volume, the root of a volume, a buffer smaller than the
    information or than its own size field, a file whose state cannot be had,
    and a creation time that is neither zero nor valid. *)
Theorem LKLSetInfo_rejects f g BufferSize NewInfo s :
  (g <> gEfiFileInfoGuid -> LKLSetInfo f g BufferSize NewInfo s = FDone EFI_UNSUPPORTED s) /\
  (g = gEfiFileInfoGuid ->
   (ReadOnly (Volume f) = true -> LKLSetInfo f g BufferSize NewInfo s = FDone EFI_WRITE_PROTECTED s) /\
   (ReadOnly (Volume f) = false ->
    (FilePath f = [] -> LKLSetInfo f g BufferSize NewInfo s = FDone EFI_ACCESS_DENIED s) /\
    (FilePath f <> [] -> set_size_ok BufferSize NewInfo = false ->
     LKLSetInfo f g BufferSize NewInfo s = FDone EFI_BAD_BUFFER_SIZE s) /\
    (FilePath f <> [] -> set_size_ok BufferSize NewInfo = true ->
     let rc := fst (lkl_sys_fstat (FD f) (world s)) in
     (rc <> 0 -> LKLSetInfo f g BufferSize NewInfo s = FDone (LKLError2EfiError rc) s /\
        EFI_ERROR (LKLError2EfiError rc) = true) /\
     (rc = 0 -> CreateTime NewInfo <> ZeroTime -> EfiTimeIsValid (CreateTime NewInfo) = Some false ->
      LKLSetInfo f g BufferSize NewInfo s = FDone EFI_INVALID_PARAMETER s)))).
Proof.
  unfold LKLSetInfo, LKLSetOrGetInfo, mbind, FM_bind. split.
  { intros Hg. unfold CompareGuid. by rewrite (proj2 (Z.eqb_neq _ _)). }
  intros ->. change (CompareGuid gEfiFileInfoGuid gEfiFileInfoGuid) with true. cbv iota.
  split; [by intros ->|]. intros ->. unfold LKLSetFileInfo, set_size_ok. split; [|split].
  - intros Hp. by rewrite bool_decide_eq_true_2.
  - intros Hp Hsz%negb_false_iff. rewrite bool_decide_eq_false_2 by done. by rewrite Hsz.
  - intros Hp Hsz%negb_true_iff. cbv zeta. rewrite bool_decide_eq_false_2 by done. rewrite Hsz.
    unfold mbind, FM_bind, query. pose proof (lkl_fstat_int (FD f) (world s)) as Hint.
    destruct (lkl_sys_fstat (FD f) (world s)) as [rc st]. cbn in *. split.
    + intros Hrc. rewrite (proj2 (Z.eqb_neq _ _)) by done. split; [done|by apply LKLError2EfiError_error].
    + intros -> Hc Hv. cbn. unfold take_time. rewrite bool_decide_eq_false_2 by congruence.
      unfold flift, mbind, FM_bind. by rewrite Hv.
Qed.



(** *** A reference for [SetInfo] on a regular file *)


(** The time given in a field of the new information, in seconds: none for
    a field of zero bytes; any other one must be valid. *)
Definition time_given (t : EFI_TIME) (g : option Z) : Prop :=
  match g with
  | None => t = ZeroTime
  | Some e => t <> ZeroTime /\ EfiTimeIsValid t = Some true /\ EfiTimeToEpoch t = Some e
  end.

(** The modification time wanted, for the creation time [c] and the
    modification time [m] given, [old] being the one the file has: the
    modification time if there is one, else the creation time. *)
Definition wanted_time (old : Z) (c m : option Z) : Z := default (default old c) m.

(** Whether a time counts as changed: the creation time given is not the old
    modification time, or the modification time given is not the one wanted
    before it. *)
Definition time_changed (old : Z) (c m : option Z) : bool :=
  negb (old =? default old c) || negb (default old c =? wanted_time old c m).


Lemma EfiTimeToEpoch_range t e : EfiTimeToEpoch t = Some e -> 0 <= e < 2 ^ 32.
Proof. unfold EfiTimeToEpoch. destruct (_ && _); [done|]. intros [= <-]. apply u32_range. Qed.

Lemma take_time_ok t g a old ch s : time_given t g ->
  take_time 0 t (mk_utimbuf a old) ch s =
    FDone (Some (mk_utimbuf a (default old g), ch || negb (old =? default old g))) s.
Proof.
  unfold take_time. destruct g as [e|]; simpl.
  - intros (Hz & Hv & He). rewrite bool_decide_eq_false_2 by congruence. unfold flift, mbind, FM_bind.
    rewrite Hv. simpl. rewrite He. simpl. rewrite u32_small by by eapply EfiTimeToEpoch_range.
    destruct (Z.eqb_spec old e) as [->|]; simpl; by rewrite ?orb_false_r, ?orb_true_r.
  - intros ->. by rewrite bool_decide_eq_true_2, Z.eqb_refl, orb_false_r.
Qed.

Lemma take_times_ok st NewInfo c m s :
  time_given (CreateTime NewInfo) c -> time_given (ModificationTime NewInfo) m ->
  let old := lkl_st_mtime st in
  (t1 ← take_time 0 (CreateTime NewInfo) (mk_utimbuf (lkl_st_atime st) old) false;
   match (t1 : option (lkl_utimbuf * bool)) with
   | None => mret None
   | Some (u, c) => take_time 0 (ModificationTime NewInfo) u c
   end) s = FDone (Some (mk_utimbuf (lkl_st_atime st) (wanted_time old c m), time_changed old c m)) s.
Proof.
  intros Hc Hm old. unfold mbind, FM_bind. rewrite (take_time_ok _ c) by done. by rewrite (take_time_ok _ m) by done.
Qed.

Lemma file_attr_ok a : 0 <= a < 2 ^ 64 -> Z.land a EFI_FILE_VALID_ATTR = a ->
  u8 a = a /\ u8 (Z.land a EFI_FILE_DIRECTORY) = Z.land a EFI_FILE_DIRECTORY /\
  u8 (Z.land a EFI_FILE_READ_ONLY) = Z.land a EFI_FILE_READ_ONLY.
Proof.
  intros Ha Hv. pose proof (valid_attr_small a Ha Hv) as Hs. split; [by apply Z.mod_small|].
  assert (Hl : forall m, 0 <= m -> Z.land a m < 2 ^ 8).
  { intros m Hm. replace (Z.land a m) with (Z.land (Z.land a m) (Z.ones 8)).
    - rewrite Z.land_ones by lia. apply Z.mod_pos_bound. lia.
    - rewrite <- Z.land_assoc, (Z.land_comm m), Z.land_assoc. f_equal. rewrite Z.land_ones by lia.
      by apply Z.mod_small. }
  split; apply Z.mod_small; (split; [apply Z.land_nonneg; lia|apply Hl; done]).
Qed.


(** The checks before the times. *)
Definition set_ready (f : LKL_IFILE) (BufferSize : Z) (NewInfo : EFI_FILE_INFO) (st : lkl_stat) (s : fstate)
    : Prop :=
  ReadOnly (Volume f) = false /\ FilePath f <> [] /\ set_size_ok BufferSize NewInfo = true /\
  lkl_sys_fstat (FD f) (world s) = (0, st) /\ 0 <= Attribute NewInfo < 2 ^ 64.

(** Behind the checks, with the time wanted. *)
Lemma SetInfo_start f BufferSize NewInfo st c m s :
  set_ready f BufferSize NewInfo st s ->
  time_given (CreateTime NewInfo) c -> time_given (ModificationTime NewInfo) m ->
  let old := lkl_st_mtime st in
  LKLSetInfo f gEfiFileInfoGuid BufferSize NewInfo s =
    (x ← (if time_changed old c m
          then apply_time (Volume f) f (mk_utimbuf (lkl_st_atime st) (wanted_time old c m))
          else mret None);
     match (x : option Z) with
     | Some Status => mret Status
     | None => set_attributes f NewInfo st 0 (if LKL_S_ISDIR (st_mode st) then 1 else 0)
     end) s.
Proof.
  intros (Hro & Hp & Hsz%negb_true_iff & Hst & Ha) Hc Hm old. unfold LKLSetInfo, LKLSetOrGetInfo. rewrite Hro.
  change (CompareGuid gEfiFileInfoGuid gEfiFileInfoGuid) with true. cbv iota.
  unfold LKLSetFileInfo. rewrite bool_decide_eq_false_2 by done. rewrite Hsz. rewrite ro_zero.
  unfold mbind, FM_bind, query. rewrite Hst. cbn [negb Z.eqb].
  pose proof (take_times_ok st NewInfo c m s Hc Hm) as Ht. unfold mbind, FM_bind in Ht.
  destruct (take_time 0 (CreateTime NewInfo) _ false s) as [[[u ch]|] s1|]; [|done|done].
  rewrite Ht. cbn [andb]. change (0 =? 0) with true. cbn [andb]. fold old.
  destruct (if time_changed old c m then _ else _); cbn; [|done].
  destruct a; cbn; [done|]. by destruct (set_attributes _ _ _ _ _ _).
Qed.


(** No information on a directory can be set: whatever the attributes, the
    call fails, because the directory bit 0x10 is compared with the truth value
    1 (here with both times zero, when nothing else happens either). *)
Theorem LKLSetInfo_directory f BufferSize NewInfo st s :
  set_ready f BufferSize NewInfo st s -> CreateTime NewInfo = ZeroTime -> ModificationTime NewInfo = ZeroTime ->
  LKL_S_ISDIR (st_mode st) = true ->
  LKLSetInfo f gEfiFileInfoGuid BufferSize NewInfo s =
    FDone (if Z.land (Attribute NewInfo) EFI_FILE_VALID_ATTR =? Attribute NewInfo
           then EFI_ACCESS_DENIED else EFI_INVALID_PARAMETER) s.
Proof.
  intros Hr Hc Hm Hdir. rewrite (SetInfo_start f BufferSize NewInfo st None None s Hr Hc Hm), Hdir.
  unfold time_changed, wanted_time. cbn [default]. rewrite Z.eqb_refl. cbn [negb orb].
  destruct Hr as (_ & _ & _ & _ & Ha). unfold mbind, FM_bind. cbn. unfold set_attributes.
  pose proof (land_not64 (Attribute NewInfo) EFI_FILE_VALID_ATTR Ha) as Hl.
  destruct (Z.eqb_spec (Z.land (Attribute NewInfo) (not64 EFI_FILE_VALID_ATTR)) 0) as [E|E].
  - rewrite (proj2 (Z.eqb_eq _ (Attribute NewInfo))) by (by apply Hl). cbn [negb].
    destruct (file_attr_ok _ Ha (proj1 Hl E)) as (E1 & E2 & _). cbv zeta. rewrite E1, E2.
    assert (Hne : Z.land (Attribute NewInfo) EFI_FILE_DIRECTORY <> 1).
    { intros E3. apply (f_equal (fun z => Z.testbit z 0)) in E3. rewrite Z.land_spec in E3.
      change (Z.testbit EFI_FILE_DIRECTORY 0) with false in E3. by rewrite andb_false_r in E3. }
    by rewrite (proj2 (Z.eqb_neq _ _)).
  - rewrite (proj2 (Z.eqb_neq _ (Attribute NewInfo))) by (intros E2; by apply E, Hl). done.
Qed.
End info.

(** ** At the small Linux *)

#[local] Instance demo_edk_info : EdkConfig := {| MDEPKG_NDEBUG := false |}.

(** As creation time the last second but one of 29 February 2000, and size 1. *)
Definition demo_new_info : EFI_FILE_INFO :=
  mk_file_info 82 1 0 demo_time ZeroTime ZeroTime 0 [].
Definition demo_dir_info : EFI_FILE_INFO := mk_file_info 82 0 0 ZeroTime ZeroTime ZeroTime EFI_FILE_DIRECTORY [].

(** A handle on /mnt/0/s, a directory, with the descriptor 3. *)
Definition demo_sub : LKL_IFILE (H := demo_lkl) :=
  mk_ifile (H := demo_lkl) (demo_volume false) 3 0 (stat_of (demo_directory demo_names_ab)) [115] None None.

Lemma LKLGetInfo_file_witness :
  LKLGetInfo (H := demo_lkl) demo_f3 gEfiFileInfoGuid 0 demo_at_f = FDone (EFI_BUFFER_TOO_SMALL, 84, NoInfo) demo_at_f.
Proof. apply (LKLGetInfo_file (H := demo_lkl) demo_f3 0 demo_at_f). reflexivity. Defined.

Lemma LKLGetInfo_volume_witness :
  LKLGetInfo (H := demo_lkl) demo_f3 gEfiFileSystemInfoGuid 45 demo_at_f =
    FDone (EFI_BUFFER_TOO_SMALL, 46, NoInfo) demo_at_f.
Proof. apply (LKLGetInfo_volume (H := demo_lkl) demo_f3 45 demo_at_f); reflexivity. Defined.

Lemma LKLSetInfo_rejects_witness :
  LKLSetInfo (H := demo_lkl) demo_f3 gEfiFileInfoGuid 81 demo_new_info demo_at_f = FDone EFI_BAD_BUFFER_SIZE demo_at_f.
Proof.
  apply (LKLSetInfo_rejects (H := demo_lkl) demo_f3 gEfiFileInfoGuid 81 demo_new_info demo_at_f);
    [reflexivity|reflexivity|discriminate|reflexivity].
Defined.


Lemma LKLSetInfo_directory_witness :
  LKLSetInfo (H := demo_lkl) demo_sub gEfiFileInfoGuid 82 demo_dir_info demo_ab = FDone EFI_ACCESS_DENIED demo_ab.
Proof.
  apply (LKLSetInfo_directory (H := demo_lkl) demo_sub 82 demo_dir_info (stat_of (demo_directory demo_names_ab)) demo_ab).
  - split; [reflexivity|]. split; [discriminate|]. split; [reflexivity|]. split; [reflexivity|split; [discriminate|reflexivity]].
  - reflexivity.
  - reflexivity.
  - reflexivity.
Defined.
