(* ===== verification/Session.v ===== *)
(** * Sessions of the file protocol

    A client with any number of open files: a table of handles, on which the
    operations of [File], [FileIO] and [FileInfo] are called in any order.
    What the driver holds of the kernel's resources - descriptors, directory
    streams - and of the pool's is accounted for over the whole session. *)

From S2P Require Import Prelude Efi Errors Lkl Time Path DemoFs File FileIO FileInfo.

(** ** The kernel's resources *)

(** The open descriptors, and the number of directory streams. *)
Record resources := mk_res { r_fds : gset Z; r_streams : Z }.

Definition add_fd (fd : Z) (R : resources) : resources := mk_res ({[fd]} ∪ r_fds R) (r_streams R).
Definition del_fd (fd : Z) (R : resources) : resources := mk_res (r_fds R ∖ {[fd]}) (r_streams R).
Definition add_streams (n : Z) (R : resources) : resources := mk_res (r_fds R) (r_streams R + n).

(** What an attempt to open adds: a descriptor that was not open. *)
Definition opens_fd `{LklSys} (held : World -> resources) (w : World) (r : Z * World) : Prop :=
  if 0 <=? fst r then fst r ∉ r_fds (held w) /\ held (snd r) = add_fd (fst r) (held w)
  else held (snd r) = held w.

(** The documented behaviour of the system calls towards the resources: [open]
    makes a descriptor, [close] removes it whatever it returns, [fdopendir]
    makes a stream, and nothing else has to do with them. *)
Class FdLaws `{LklSys} := {
  held : World -> resources;
  held_open p f m w : opens_fd held w (lkl_sys_open p f m w);
  held_openat fd p f m w : opens_fd held w (lkl_sys_openat fd p f m w);
  held_close fd w : held (snd (lkl_sys_close fd w)) = del_fd fd (held w);
  held_fdopendir fd w : held (snd (lkl_fdopendir fd w)) =
    add_streams (if fst (fst (lkl_fdopendir fd w)) then 1 else 0) (held w);
  held_mkdir p m w : held (snd (lkl_sys_mkdir p m w)) = held w;
  held_unlink p w : held (snd (lkl_sys_unlink p w)) = held w;
  held_read fd n w : held (snd (lkl_sys_read fd n w)) = held w;
  held_write fd b w : held (snd (lkl_sys_write fd b w)) = held w;
  held_lseek fd o h w : held (snd (lkl_sys_lseek fd o h w)) = held w;
  held_fsync fd w : held (snd (lkl_sys_fsync fd w)) = held w;
  held_ftruncate fd n w : held (snd (lkl_sys_ftruncate fd n w)) = held w;
  held_utime p u w : held (snd (lkl_sys_utime p u w)) = held w;
  held_chmod p m w : held (snd (lkl_sys_chmod p m w)) = held w;
  held_readdir d w : held (snd (lkl_readdir d w)) = held w;
  held_rewinddir d w : held (lkl_rewinddir d w) = held w
}.

Create HintDb held discriminated.
#[export] Hint Resolve held_mkdir held_unlink held_read held_write held_lseek held_fsync held_ftruncate
  held_utime held_chmod held_readdir held_rewinddir : held.

Lemma del_add_fd fd R : fd ∉ r_fds R -> del_fd fd (add_fd fd R) = R.
Proof. destruct R as [F n]. unfold del_fd, add_fd. simpl. intros Hn. f_equal. set_solver. Qed.

Lemma add_streams_0 R : add_streams 0 R = R.
Proof. destruct R. unfold add_streams. simpl. by rewrite Z.add_0_r. Qed.

Section session.
Context `{LklSys} `{EdkStrings} `{EdkConfig}.

(** ** The client *)

(** The handles by the client's variable that holds them, and the number of
    streams whose handles were closed. *)
Record session := mk_session { handles : gmap nat LKL_IFILE; lost_streams : Z }.
Definition no_handles : session := mk_session ∅ 0.

Definition streams_of (f : LKL_IFILE) : Z := if Dir f then 1 else 0.

Inductive fop :=
| FOpenVolume (h : nat)
| FOpen (h parent : nat) (name : option str) (mode attr : Z)
| FRead (h : nat) (BufferSize : Z)
| FWrite (h : nat) (BufferSize : Z) (Buffer : list Z)
| FGetPosition (h : nat)
| FSetPosition (h : nat) (Position : Z)
| FGetInfo (h : nat) (Type_ BufferSize : Z)
| FSetInfo (h : nat) (Type_ BufferSize : Z) (Buffer : EFI_FILE_INFO)
| FFlush (h : nat)
| FClose (h : nat)
| FDelete (h : nat).

(** A handle that is not open is a stale pointer. *)
Definition with_handle (ses : session) (h : nat) (k : LKL_IFILE -> FM (Z * session)) : FM (Z * session) :=
  match handles ses !! h with Some f => k f | None => ffail FUB end.

Definition put_handle (h : nat) (f : LKL_IFILE) (ses : session) : session :=
  mk_session (<[h := f]> (handles ses)) (lost_streams ses).
Definition put_new (h : nat) (f : option LKL_IFILE) (ses : session) : session :=
  match f with Some f => put_handle h f ses | None => ses end.
Definition drop_handle (h : nat) (f : LKL_IFILE) (ses : session) : session :=
  mk_session (delete h (handles ses)) (lost_streams ses + streams_of f).

(** The interface of a handle, which [LKLAllocateIFile] copies into each new
    one, so that a client's calls go through it. *)
Record EFI_FILE_PROTOCOL := mk_protocol {
  fp_Revision : Z;
  fp_Open : LKL_IFILE -> option str -> Z -> Z -> FM (Z * option LKL_IFILE);
  fp_Close : LKL_IFILE -> FM Z;
  fp_Delete : LKL_IFILE -> FM Z;
  fp_Read : LKL_IFILE -> Z -> FM io_result;
  fp_Write : LKL_IFILE -> Z -> list Z -> FM io_result;
  fp_GetPosition : LKL_IFILE -> FM (Z * option Z);
  fp_SetPosition : LKL_IFILE -> Z -> FM (Z * LKL_IFILE);
  fp_GetInfo : LKL_IFILE -> Z -> Z -> FM (Z * Z * got_info);
  fp_SetInfo : LKL_IFILE -> Z -> Z -> EFI_FILE_INFO -> FM Z;
  fp_Flush : LKL_IFILE -> FM Z;
  fp_OpenEx : FM Z;
  fp_ReadEx : FM Z;
  fp_WriteEx : FM Z;
  fp_FlushEx : FM Z
}.

(** The revision of the specification's first version. *)
Definition EFI_FILE_PROTOCOL_REVISION : Z := 0x00010000.

Definition LKLFileInterface : EFI_FILE_PROTOCOL :=
  mk_protocol EFI_FILE_PROTOCOL_REVISION LKLOpen LKLClose LKLDelete LKLRead LKLWrite LKLGetPosition LKLSetPosition
    LKLGetInfo LKLSetInfo LKLFlush LKLOpenEx LKLReadEx LKLWriteEx LKLFlushEx.

(** One call: its status and the handles behind it. *)
Definition run_fop (V : LKL_VOLUME) (o : fop) (ses : session) : FM (Z * session) :=
  let I := LKLFileInterface in
  match o with
  | FOpenVolume h =>
      r ← LKLOpenVolume V;
      mret (fst (r : Z * option LKL_IFILE), put_new h (snd r) ses)
  | FOpen h p name mode attr => with_handle ses p (fun f =>
      r ← fp_Open I f name mode attr;
      mret (fst (r : Z * option LKL_IFILE), put_new h (snd r) ses))
  | FRead h n => with_handle ses h (fun f =>
      r ← fp_Read I f n;
      let '(Status, _, _, f) := (r : io_result) in mret (Status, put_handle h f ses))
  | FWrite h n b => with_handle ses h (fun f =>
      r ← fp_Write I f n b;
      let '(Status, _, _, f) := (r : io_result) in mret (Status, put_handle h f ses))
  | FGetPosition h => with_handle ses h (fun f =>
      r ← fp_GetPosition I f; mret (fst (r : Z * option Z), ses))
  | FSetPosition h p => with_handle ses h (fun f =>
      r ← fp_SetPosition I f p; mret (fst (r : Z * LKL_IFILE), put_handle h (snd r) ses))
  | FGetInfo h g n => with_handle ses h (fun f =>
      r ← fp_GetInfo I f g n; mret (fst (fst (r : Z * Z * got_info)), ses))
  | FSetInfo h g n i => with_handle ses h (fun f => Status ← fp_SetInfo I f g n i; mret (Status, ses))
  | FFlush h => with_handle ses h (fun f => Status ← fp_Flush I f; mret (Status, ses))
  | FClose h => with_handle ses h (fun f => Status ← fp_Close I f; mret (Status, drop_handle h f ses))
  | FDelete h => with_handle ses h (fun f => Status ← fp_Delete I f; mret (Status, drop_handle h f ses))
  end.

Fixpoint run_fops (V : LKL_VOLUME) (ops : list fop) (ses : session) : FM session :=
  match ops with
  | [] => mret ses
  | o :: ops =>
      r ← run_fop V o ses;
      run_fops V ops (snd (r : Z * session))
  end.

(** ** The rules of use *)

(** A time to set: none, or a time the code neither asserts on nor reads a
    table out of its bounds for. *)
Definition settable (t : EFI_TIME) : Prop :=
  t = ZeroTime \/ time_wf t /\ (MDEPKG_NDEBUG = true \/ Year t < 1900 \/ 1970 <= Year t).

(** The root can be opened, or there is an error before memory is needed; else
    [LKLOpenVolume] writes through a pointer that is not set. *)
Definition volume_opens (V : LKL_VOLUME) (s : fstate) : Prop :=
  let r := lkl_sys_open (LKLMountPoint V) LKL_O_RDONLY 420 (world s) in
  fst r < 0 \/ no_memory s = false /\ fst (lkl_sys_fstat (fst r) (snd r)) = 0.

Definition fop_allowed (V : LKL_VOLUME) (o : fop) (ses : session) (s : fstate) : Prop :=
  match o with
  | FOpenVolume h => handles ses !! h = None /\ volume_opens V s
  | FOpen h p name mode attr => handles ses !! h = None /\ is_Some (handles ses !! p) /\ 0 <= attr < 2 ^ 64
  | FWrite h n b => is_Some (handles ses !! h) /\ n <= Z.of_nat (length b)
  | FSetInfo h g n i => is_Some (handles ses !! h) /\
      settable (CreateTime i) /\ settable (ModificationTime i) /\
      (MDEPKG_NDEBUG = true \/ no_memory s = false)
  | FRead h _ | FGetPosition h | FSetPosition h _ | FGetInfo h _ _ | FFlush h | FClose h | FDelete h =>
      is_Some (handles ses !! h)
  end.

(** The client keeps the rules at each of its calls. *)
Fixpoint follows (V : LKL_VOLUME) (ops : list fop) (ses : session) (s : fstate) : Prop :=
  match ops with
  | [] => True
  | o :: ops => fop_allowed V o ses s /\
      match run_fop V o ses s with FDone r s' => follows V ops (snd r) s' | FFail _ => True end
  end.

#[export] Instance settable_dec t : Decision (settable t).
Proof. unfold settable, time_wf. apply _. Defined.

#[export] Instance fop_allowed_dec V o ses s : Decision (fop_allowed V o ses s).
Proof. destruct o; unfold fop_allowed, volume_opens; apply _. Defined.

#[export] Instance follows_dec V ops ses s : Decision (follows V ops ses s).
Proof.
  revert ses s. induction ops as [|o ops IH]; intros ses s; cbn [follows]; [apply _|].
  apply and_dec; [apply _|]. destruct (run_fop V o ses s); apply _.
Defined.

(** ** What each call does to the resources *)

Context `{!FdLaws}.

(** The resources [R] and the number of blocks [n] are held. *)
Definition at_res (R : resources) (n : Z) (s : fstate) : Prop := held (world s) = R /\ pool_live s = n.

(** The call returns, leaves the resources as they are, and its result
    satisfies [P]. *)
Definition stable {A} (P : A -> Prop) (m : FM A) : Prop :=
  forall R n s, at_res R n s -> fwp m (fun a s' => P a /\ at_res R n s') s.

Definition any {A} (a : A) : Prop := True.

Lemma stable_ret {A} (P : A -> Prop) a : P a -> stable P (mret a).
Proof. by intros Ha R n s Hs. Qed.

Lemma stable_bind {A B} (P : A -> Prop) (Q : B -> Prop) (m : FM A) (f : A -> FM B) :
  stable P m -> (forall a, P a -> stable Q (f a)) -> stable Q (m ≫= f).
Proof.
  intros Hm Hf R n s Hs. apply fwp_bind. eapply fwp_mono; [by apply Hm|]. intros a s' [Ha Hs']. by apply Hf.
Qed.

Lemma stable_sys {A} (f : World -> A * World) : (forall w, held (snd (f w)) = held w) -> stable any (sys f).
Proof. intros Hf R n s [Hr Hn]. apply fwp_sys. split; [done|]. split; [simpl; by rewrite Hf|done]. Qed.

Lemma stable_query {A} (f : World -> A) : stable any (query f).
Proof. by intros R n s Hs. Qed.

Lemma stable_fill fd i : stable any (LKLFillFileInfo fd i).
Proof. intros R n s Hs. eapply fwp_mono; [apply FillFileInfo_ok|]. by intros r s' (-> & _). Qed.

Lemma stable_use {A} (P : A -> Prop) (m : FM A) R n s (Q : A -> fstate -> Prop) :
  stable P m -> at_res R n s -> (forall a s', P a -> at_res R n s' -> Q a s') -> fwp m Q s.
Proof. intros Hm Hs HQ. eapply fwp_mono; [by apply Hm|]. intros a s' []. by apply HQ. Qed.

(** Proofs of [stable] along the code. *)
Ltac stable_step := first
  [ apply stable_ret
  | apply stable_query
  | apply stable_fill
  | apply stable_sys; intros ?; cbn [snd]; solve [auto with held]
  | apply (stable_bind any); [|intros ? _] ].
Ltac stable := repeat first [ stable_step | progress case_match ]; try done.

Lemma GetPosition_stable f : stable any (LKLGetPosition f).
Proof. unfold LKLGetPosition. stable. Qed.

Lemma Flush_stable f : stable any (LKLFlush f).
Proof. unfold LKLFlush. stable. Qed.

(** A descriptor opened to look at something, and closed. *)
Lemma visit_stable {A B C} (P : C -> Prop) fd name flags mode (f : Z -> FM A) (g : A -> B) i (k : B -> FM C) :
  (forall e, stable any (f e)) -> (forall x, stable P (k x)) ->
  stable P (e ← sys (lkl_sys_openat fd name flags mode);
            x ← (if 0 <=? (e : Z) then r ← f e; _ ← sys (lkl_sys_close e); mret (g r) else mret i);
            k x).
Proof.
  intros Hf Hk R n s [Hr Hn]. fstep. pose proof (held_openat fd name flags mode (world s)) as Ho.
  unfold opens_fd in Ho. destruct (lkl_sys_openat fd name flags mode (world s)) as [e w1]. cbn [fst snd] in *.
  apply fwp_bind. destruct (0 <=? e); [|fstep; apply Hk; split; [simpl; congruence|done]].
  destruct Ho as [Hnew Ho]. apply fwp_bind.
  eapply fwp_mono; [by apply (Hf e (held w1) n)|]. intros r s2 [_ [Hr2 Hn2]]. fstep. fstep. apply Hk.
  split; [|done]. simpl. rewrite held_close, Hr2, Ho, del_add_fd by done. done.
Qed.

(** *** Calls that give the handle back *)

Definition same_file (f f' : LKL_IFILE) : Prop := FD f' = FD f /\ Volume f' = Volume f.

(** The call keeps the file; a stream it makes is in the handle it leaves. *)
Definition keeps_handle {A} (f : LKL_IFILE) (h : A -> LKL_IFILE) (m : FM A) : Prop :=
  forall R n s, at_res R n s ->
  fwp m (fun r s' => same_file f (h r) /\ at_res (add_streams (streams_of (h r) - streams_of f) R) n s') s.

Definition same_handle (f f' : LKL_IFILE) : Prop := same_file f f' /\ Dir f' = Dir f.

Lemma keeps_handle_stable {A} f (h : A -> LKL_IFILE) (m : FM A) :
  stable (fun r => same_handle f (h r)) m -> keeps_handle f h m.
Proof.
  intros Hm R n s Hs. eapply fwp_mono; [by apply Hm|]. intros r s' [[Hf Hd] Hs'].
  unfold streams_of. by rewrite Hd, Z.sub_diag, add_streams_0.
Qed.

Lemma SetPosition_handle f p : keeps_handle f snd (LKLSetPosition f p).
Proof. apply keeps_handle_stable. unfold LKLSetPosition. stable. Qed.

Definition io_handle (r : io_result) : LKL_IFILE := snd r.

Lemma Write_handle f n b : n <= Z.of_nat (length b) -> keeps_handle f io_handle (LKLWrite f n b).
Proof.
  intros Hb. unfold LKLWrite, LKLIFileAccess.
  change (bool_decide (WRITE_DATA = WRITE_DATA)) with true. rewrite (proj2 (Z.ltb_ge _ _)) by done. cbn [fwhen].
  rewrite andb_true_r. cbn [andb]. apply keeps_handle_stable. stable.
Qed.

Lemma open_stream_res f R n s : at_res R n s ->
  fwp (open_stream f) (fun r s' =>
    match r with
    | inl _ => at_res R n s'
    | inr (d, f') => same_file f f' /\ Dir f' = Some d /\ at_res (add_streams (1 - streams_of f) R) n s'
    end) s.
Proof.
  intros [Hr Hn]. unfold open_stream, streams_of. destruct (Dir f) as [d|] eqn:Ed.
  - fstep. by rewrite add_streams_0.
  - fstep. pose proof (held_fdopendir (FD f) (world s)) as Hh.
    destruct (lkl_fdopendir (FD f) (world s)) as [[[d|] rc] w1]; cbn [fst snd] in *; fstep; rewrite Hr in Hh.
    + done.
    + by rewrite add_streams_0 in Hh.
Qed.

Lemma ReadDir_handle f n : keeps_handle f io_handle (LKLIFileReadDir f n).
Proof.
  intros R m s Hs. unfold LKLIFileReadDir. apply fwp_bind.
  eapply fwp_mono; [by apply open_stream_res|]. intros [Status|[d f']] s1.
  { intros Hs1. fstep. cbn [io_handle snd]. by rewrite Z.sub_diag, add_streams_0. }
  intros (Hf & Hd & Hs1). eapply (stable_use (fun r => same_handle f' (io_handle r))); [|exact Hs1|].
  - apply (stable_bind any); [stable|]. intros [d_name|] _; [|stable]. cbv zeta.
    destruct (Z.ltb_spec n (SIZE_OF_EFI_FILE_INFO + AsciiStrSize d_name * sizeof_CHAR16)); [stable|].
    apply (stable_bind any); [intros ????; by apply check_room_ok|]. intros _ _.
    apply (visit_stable _ (FD f') d_name LKL_O_RDONLY 420 (fun e => LKLFillFileInfo e _) (fun r => snd r)); intros; stable.
  - intros r s' [[Hfd Hv] Hd'] Hs'. destruct Hf as [Hfd0 Hv0]. split; [split; congruence|].
    unfold streams_of at 1. by rewrite Hd', Hd.
Qed.

Lemma Read_handle f n : keeps_handle f io_handle (LKLRead f n).
Proof.
  unfold LKLRead, LKLIFileAccess. change (bool_decide (READ_DATA = WRITE_DATA)) with false.
  change (bool_decide (READ_DATA = READ_DATA)) with true. rewrite andb_false_r. cbn [andb negb]. rewrite andb_false_r.
  destruct (LKL_S_ISDIR (st_mode (StatBuf f))).
  - apply ReadDir_handle.
  - apply keeps_handle_stable. stable.
Qed.

(** *** Information *)

Lemma GetInfo_stable f g n : stable any (LKLGetInfo f g n).
Proof.
  unfold LKLGetInfo, LKLSetOrGetInfo, LKLGetFileInfo, LKLGetVolumeInfo.
  assert (Hroom : forall m name, entry_size name <= m -> stable any (check_room m (AsciiStrToUnicodeStr name))).
  { intros ???????. by apply check_room_ok. }
  apply (stable_bind any); [|intros [[Status sz] st] _].
  - destruct (CompareGuid g gEfiFileInfoGuid); [|stable]. cbv zeta. fold (base_name f).
    fold (entry_size (base_name f)). destruct (Z.ltb_spec n (entry_size (base_name f))); [stable|].
    apply (stable_bind any); [by apply Hroom|]. intros _ _. stable.
  - destruct (CompareGuid g gEfiFileSystemInfoGuid); [|stable].
    apply (stable_bind any); [stable|]. intros [RC sfs] _. cbv zeta.
    destruct (negb (RC =? 0)); [stable|]. case_match eqn:Hle; [|stable]. apply Z.leb_le in Hle.
    rewrite ascii_unicode_length. rewrite (proj2 (Z.ltb_ge _ _)); [unfold fwhen; stable|].
    unfold AsciiStrSize, sizeof_CHAR16 in *. lia.
Qed.

Lemma settable_epoch t : settable t -> t <> ZeroTime ->
  exists b, EfiTimeIsValid t = Some b /\ (b = true -> is_Some (EfiTimeToEpoch t)).
Proof.
  intros [->|[Hwf Hy]] Hne; [done|]. destruct (EfiTimeIsValid_spec t Hwf) as [[b Hb] Hv]. exists b.
  split; [done|]. intros ->. rewrite EfiTimeToEpoch_spec by done.
  destruct (proj1 Hv Hb) as (? & _). destruct Hy as [->|[|]]; [done|lia|].
  by rewrite (proj2 (Z.ltb_ge _ _)), andb_false_r by done.
Qed.

Lemma take_time_pure ro t u c s : settable t -> exists r, take_time ro t u c s = FDone r s.
Proof.
  intros Ht. unfold take_time. case_bool_decide as E; [by eexists|].
  destruct (settable_epoch t Ht ltac:(congruence)) as ([] & Hv & He); unfold flift, mbind, FM_bind; rewrite Hv;
    simpl; [|by eexists].
  destruct (He eq_refl) as [e ->]. destruct (ro =? 0); [|by eexists]. simpl. case_match; by eexists.
Qed.

Lemma set_attributes_stable f i st ro d : stable any (set_attributes f i st ro d).
Proof. unfold set_attributes. stable. Qed.

Lemma apply_time_res V f u R n s : MDEPKG_NDEBUG = true \/ no_memory s = false -> at_res R n s ->
  fwp (apply_time V f u) (fun _ s' => at_res R n s') s.
Proof.
  intros Hm [Hr Hn]. unfold apply_time, no_memory in *. apply fwp_bind.
  assert (Hp : forall b s1, (b = true -> pool_live s1 = n + 1) -> (b = false -> pool_live s1 = n) ->
    (b = false -> MDEPKG_NDEBUG = true) -> world s1 = world s ->
    fwp (RC ← sys (lkl_sys_utime (if b then Some (AsciiSPrint
           (Z.of_nat (length (LKLMountPoint V)) + 1 + Z.of_nat (length (FilePath f)) + 1) [Pa; Pc SLASH; Pa]
           [LKLMountPoint V; FilePath f]) else None) u);
         FreePool_ptr b;;
         mret (if negb ((RC : Z) =? 0) then Some (LKLError2EfiError RC) else None)) (fun _ s' => at_res R n s') s1).
  { intros b s1 Ht Hf Hnd Hw. fstep. rewrite Hw. apply fwp_bind. destruct b; unfold FreePool_ptr, fwhen.
    - repeat fstep. split; simpl; [by rewrite held_utime|rewrite Ht; [lia|done]].
    - rewrite Hnd by done. cbn [negb]. repeat fstep. split; simpl; [by rewrite held_utime|by apply Hf]. }
  unfold fwp, AllocatePool. destruct (pool_fails s) as [|[] ?]; apply Hp; simpl in *; try done; try lia.
  destruct Hm; naive_solver.
Qed.

Lemma SetInfo_res f g m i R n s :
  settable (CreateTime i) -> settable (ModificationTime i) -> MDEPKG_NDEBUG = true \/ no_memory s = false ->
  at_res R n s -> fwp (LKLSetInfo f g m i) (fun _ s' => at_res R n s') s.
Proof.
  intros Hc Hmt Hm Hs. unfold LKLSetInfo, LKLSetOrGetInfo. apply fwp_bind.
  destruct (CompareGuid g gEfiFileInfoGuid); [|by repeat fstep].
  destruct (ReadOnly (Volume f)); [by repeat fstep|]. apply fwp_bind. unfold LKLSetFileInfo.
  case_bool_decide; [by repeat fstep|]. case_match; [by repeat fstep|]. fstep.
  destruct (lkl_sys_fstat (FD f) (world s)) as [RC st]. destruct (negb (RC =? 0)); [by repeat fstep|]. cbv zeta.
  set (ro := u8 _). apply fwp_bind. unfold fwp at 1.
  destruct (take_time_pure ro (CreateTime i) (mk_utimbuf (lkl_st_atime st) (lkl_st_mtime st)) false s Hc) as [[[u c]|] ->];
    [|by repeat fstep]. apply fwp_bind. unfold fwp at 1.
  destruct (take_time_pure ro (ModificationTime i) u c s Hmt) as [[[u' c']|] ->]; [|by repeat fstep].
  apply fwp_bind. eapply (fwp_mono _ (fun _ s' => at_res R n s')).
  - destruct (_ && _); [by apply apply_time_res|by fstep].
  - intros [Status|] s1 Hs1; [by repeat fstep|].
    eapply stable_use; [apply set_attributes_stable|exact Hs1|]. intros Status s2 _ Hs2. by repeat fstep.
Qed.

(** *** Opening and closing *)

Lemma Close_res f R n s : at_res R n s ->
  fwp (LKLClose f) (fun _ s' => at_res (del_fd (FD f) R) (n - 1) s') s.
Proof.
  intros [Hr Hn]. unfold LKLClose, LKLIFileClose. apply fwp_bind. repeat fstep.
  split; simpl; [by rewrite held_close, Hr|lia].
Qed.

Lemma Delete_res f R n s : at_res R n s ->
  fwp (LKLDelete f) (fun _ s' => at_res (del_fd (FD f) R) (n - 1) s') s.
Proof.
  intros [Hr Hn]. unfold LKLDelete, LKLIFileClose. fstep; repeat fstep;
    (split; simpl; [by rewrite ?held_unlink, held_close, Hr|lia]).
Qed.

(** A new handle of the volume, with a descriptor and a block of its own; or
    nothing. *)
Definition opens_one (V : LKL_VOLUME) (R : resources) (n : Z) (r : Z * option LKL_IFILE) (s' : fstate) : Prop :=
  match snd r with
  | Some f => Volume f = V /\ Dir f = None /\ FD f ∉ r_fds R /\ at_res (add_fd (FD f) R) (n + 1) s'
  | None => at_res R n s'
  end.

Lemma no_effect_res V R n s r s' : at_res R n s -> no_effect s r s' -> opens_one V R n r s'.
Proof. intros [Hr Hn] (_ & E & Hw & Hl). unfold opens_one. rewrite E. split; congruence. Qed.

Lemma unopened_held path flags mode w0 w : unopened path flags mode w0 w -> held w = held w0.
Proof.
  unfold unopened. intros Hu. pose proof (held_open path flags mode w0) as Ho. unfold opens_fd in Ho.
  destruct Hu as [->|[[Hlt ->]|[Hle ->]]]; [done|..].
  - by rewrite (proj2 (Z.leb_gt _ _)) in Ho.
  - rewrite (proj2 (Z.leb_le _ _)) in Ho by done. destruct Ho as [Hnew Ho].
    by rewrite held_close, Ho, del_add_fd.
Qed.

Lemma open_post_res V path flags mode w0 n r s' :
  open_post V path flags mode w0 n r s' -> opens_one V (held w0) n r s'.
Proof.
  unfold open_post, opens_one. destruct (snd r) as [f|].
  - intros (_ & Hop & Hl). pose proof (held_open path flags mode w0) as Ho. unfold opens_fd in Ho.
    rewrite (op_fd _ _ _ _ _ _ _ Hop) in Ho. rewrite (proj2 (Z.leb_le _ _)) in Ho by by destruct Hop.
    destruct Ho as [Hnew Ho]. split_and!; [by destruct Hop..|done|].
    split; [|done]. by rewrite (op_world _ _ _ _ _ _ _ Hop).
  - intros (_ & Hu & Hl). split; [by eapply unopened_held|done].
Qed.

Lemma create_post_res V path attr s r s' :
  create_post V path attr s r s' -> opens_one V (held (world s)) (pool_live s) r s'.
Proof.
  unfold create_post. destruct (_ =? 0); [by apply open_post_res|].
  pose proof (held_mkdir path (Z.lor LKL_S_IRUSR LKL_S_IWUSR) (world s)) as Hh.
  destruct (lkl_sys_mkdir _ _ _) as [RC w1]. cbn [snd] in Hh. destruct (RC =? 0).
  - rewrite <- Hh. apply open_post_res.
  - intros (_ & _ & E & Hw & Hl). unfold opens_one. rewrite E. split; [congruence|done].
Qed.

Lemma Open_res P name mode attr R n s :
  mount_point (LKLMountPoint (Volume P)) -> 0 <= attr < 2 ^ 64 -> at_res R n s ->
  fwp (LKLOpen P name mode attr) (opens_one (Volume P) R n) s.
Proof.
  intros Hmp Ha Hs. destruct (LKLOpen_checks P name mode attr s Ha) as [Hbad Hro].
  assert (Hfail : forall st, LKLOpen P name mode attr s = FDone (st, None) s ->
    fwp (LKLOpen P name mode attr) (opens_one (Volume P) R n) s).
  { intros st E. unfold fwp. by rewrite E. }
  destruct name as [name|]; [|apply (Hfail EFI_INVALID_PARAMETER), Hbad; by left].
  destruct (decide (mode ∈ [EFI_FILE_MODE_READ; MODE_WRITE; MODE_CREATE])) as [Hmode|];
    [|apply (Hfail EFI_INVALID_PARAMETER), Hbad; by right; left].
  destruct (decide (mode = MODE_CREATE /\ create_attr attr = false)) as [|Hattr];
    [apply (Hfail EFI_INVALID_PARAMETER), Hbad; by right; right|].
  destruct (decide (mode = EFI_FILE_MODE_READ \/ ReadOnly (Volume P) = false)) as [Hok|Hno].
  2:{ apply (Hfail EFI_WRITE_PROTECTED), (Hro name); [done|by destruct (ReadOnly (Volume P)); naive_solver|].
      destruct (create_attr attr); set_solver. }
  destruct (decide (mode = MODE_CREATE)) as [->|Hnc].
  - destruct Hok as [|Hok]; [done|]. eapply fwp_mono; [apply LKLOpen_create_ok; try done|].
    { destruct (create_attr attr); naive_solver. }
    intros r s' [Hr|(cs & _ & _ & Hr)]; [by eapply no_effect_res|]. destruct Hs as [<- <-].
    by apply create_post_res in Hr.
  - eapply fwp_mono; [apply LKLOpen_existing_ok; [done|set_solver]|].
    intros r s' [Hr|(cs & _ & _ & Hr)]; [by eapply no_effect_res|]. destruct Hs as [<- <-].
    by eapply open_post_res.
Qed.

Lemma OpenVolume_res V R n s : volume_opens V s -> at_res R n s -> fwp (LKLOpenVolume V) (opens_one V R n) s.
Proof.
  intros Hv [<- <-]. destruct (LKLOpenVolume_spec V s) as (Herr & _ & Hok). cbv zeta in *.
  pose proof (held_open (LKLMountPoint V) LKL_O_RDONLY 420 (world s)) as Ho. unfold opens_fd in Ho.
  unfold fwp. destruct (Z.leb_spec 0 (fst (lkl_sys_open (LKLMountPoint V) LKL_O_RDONLY 420 (world s)))) as [Hle|Hlt].
  - destruct Hv as [|[Hm Hst]]; [lia|]. destruct (Hok Hle Hm Hst) as (s' & -> & Hw & Hl). destruct Ho as [Hnew Ho].
    split_and!; simpl; [done..|]. split; [by rewrite Hw|done].
  - destruct (Herr Hlt) as (st & s' & -> & _ & _ & Hw & Hl). split; [by rewrite Hw|done].
Qed.

(** ** The account of a session *)

(** The streams that belong to open handles. *)
Definition streams_open (m : gmap nat LKL_IFILE) : Z := map_fold (fun _ f n => streams_of f + n) 0 m.

(** Against [R0] and [n0] at its beginning, the session [ses] holds [R] and [n]:
    one descriptor of its own and one block for each open handle, the streams of
    the open handles and those that were lost. *)
Record accounts (V : LKL_VOLUME) (R0 : resources) (n0 : Z) (ses : session) (R : resources) (n : Z) : Prop := {
  ac_volume : forall h f, handles ses !! h = Some f -> Volume f = V;
  ac_fds : forall fd, fd ∈ r_fds R <-> fd ∈ r_fds R0 \/ exists h f, handles ses !! h = Some f /\ FD f = fd;
  ac_new : forall h f, handles ses !! h = Some f -> FD f ∉ r_fds R0;
  ac_own : forall h h' f f', handles ses !! h = Some f -> handles ses !! h' = Some f' -> FD f = FD f' -> h = h';
  ac_streams : r_streams R = r_streams R0 + lost_streams ses + streams_open (handles ses);
  ac_blocks : n = n0 + Z.of_nat (size (handles ses))
}.

Lemma streams_open_delete m h f : m !! h = Some f -> streams_open m = streams_of f + streams_open (delete h m).
Proof. intros Hh. unfold streams_open. rewrite (map_fold_delete_L _ _ h f m); [done|intros; lia|done]. Qed.

Lemma streams_open_insert m h f : streams_open (<[h := f]> m) = streams_of f + streams_open (delete h m).
Proof. rewrite (streams_open_delete _ h f); [|apply lookup_insert_eq]. by rewrite delete_insert_eq. Qed.

Section accounts.
Context (V : LKL_VOLUME) (R0 : resources) (n0 : Z).
Implicit Types (ses : session) (R : resources).

Lemma accounts_empty : accounts V R0 n0 no_handles R0 n0.
Proof. split; simpl; try done; [|change (streams_open ∅) with 0; lia|rewrite map_size_empty; lia]. set_solver. Qed.

Lemma accounts_put ses R n h f f' : handles ses !! h = Some f -> same_file f f' ->
  accounts V R0 n0 ses R n ->
  accounts V R0 n0 (put_handle h f' ses) (add_streams (streams_of f' - streams_of f) R) n.
Proof.
  intros Hh [Hfd Hv] [Avol Afds Anew Aown Astr Abl]. assert (Hl : forall k g, <[h := f']> (handles ses) !! k = Some g ->
    exists g0, handles ses !! k = Some g0 /\ FD g = FD g0 /\ Volume g = Volume g0).
  { intros k g. rewrite lookup_insert_Some. intros [[-> ->]|[_ ?]]; eauto. }
  split; simpl.
  - intros k g (g0 & Hg0 & _ & ->)%Hl. by eapply Avol.
  - intros fd. rewrite Afds. split; (intros [|(k & g & Hk & <-)]; [by left|right]).
    + destruct (decide (h = k)) as [<-|].
      * exists h, f'. rewrite lookup_insert_eq. by simplify_eq.
      * exists k, g. by rewrite lookup_insert_ne.
    + destruct (Hl _ _ Hk) as (g0 & ? & ? & _). by exists k, g0.
  - intros k g (g0 & Hg0 & -> & _)%Hl. by eapply Anew.
  - intros k k' g g' (g0 & Hg0 & -> & _)%Hl (g1 & Hg1 & -> & _)%Hl. by eapply Aown.
  - rewrite streams_open_insert. rewrite (streams_open_delete _ h f Hh) in Astr. lia.
  - rewrite Abl, map_size_insert_Some; [done|by eexists].
Qed.

Lemma accounts_new ses R n h f : handles ses !! h = None -> Volume f = V -> Dir f = None -> FD f ∉ r_fds R ->
  accounts V R0 n0 ses R n -> accounts V R0 n0 (put_handle h f ses) (add_fd (FD f) R) (n + 1).
Proof.
  intros Hh Hv Hd Hf [Avol Afds Anew Aown Astr Abl].
  assert (Hother : forall k g, handles ses !! k = Some g -> FD g <> FD f).
  { intros k g Hk E. apply Hf. rewrite Afds, <- E. right. eauto. }
  split; simpl.
  - intros k g. rewrite lookup_insert_Some. intros [[_ <-]|[_ ?]]; [done|by eapply Avol].
  - intros fd. rewrite elem_of_union, elem_of_singleton, Afds. split.
    + intros [->|[|(k & g & Hk & <-)]]; [|by left|]; right.
      * exists h, f. by rewrite lookup_insert_eq.
      * exists k, g. rewrite lookup_insert_ne by congruence. done.
    + intros [|(k & g & Hk & <-)]; [by right; left|]. rewrite lookup_insert_Some in Hk.
      destruct Hk as [[_ <-]|[_ Hk]]; [by left|right; right; eauto].
  - intros k g. rewrite lookup_insert_Some. intros [[_ <-]|[_ ?]]; [|by eapply Anew].
    intros Hin. apply Hf. rewrite Afds. by left.
  - intros k k' g g'. rewrite !lookup_insert_Some. intros [[<- <-]|[_ Hk]] [[<- <-]|[_ Hk']] E; try done.
    + by destruct (Hother _ _ Hk').
    + by destruct (Hother _ _ Hk).
    + by eapply Aown.
  - rewrite streams_open_insert. unfold streams_of. by rewrite Hd, delete_id.
  - rewrite Abl, map_size_insert_None by done. lia.
Qed.

Lemma accounts_drop ses R n h f : handles ses !! h = Some f ->
  accounts V R0 n0 ses R n -> accounts V R0 n0 (drop_handle h f ses) (del_fd (FD f) R) (n - 1).
Proof.
  intros Hh [Avol Afds Anew Aown Astr Abl]. split; simpl.
  - intros k g [_ Hk]%lookup_delete_Some. by eapply Avol.
  - intros fd. rewrite elem_of_difference, elem_of_singleton, Afds. split.
    + intros [[|(k & g & Hk & <-)] Hne]; [by left|right]. exists k, g. rewrite lookup_delete_ne; [done|congruence].
    + intros [Hin|(k & g & [Hne Hk]%lookup_delete_Some & <-)].
      * split; [by left|]. intros ->. by eapply Anew.
      * split; [right; eauto|]. intros E. by destruct Hne; eapply Aown.
  - intros k g [_ Hk]%lookup_delete_Some. by eapply Anew.
  - intros k k' g g' [_ Hk]%lookup_delete_Some [_ Hk']%lookup_delete_Some. by eapply Aown.
  - rewrite (streams_open_delete _ h f Hh) in Astr. lia.
  - rewrite Abl, (map_size_delete_Some h) by by eexists.
    assert (size (handles ses) <> 0%nat); [|lia].
    intros E%map_size_empty_inv. by rewrite E, lookup_empty in Hh.
Qed.
End accounts.

(** ** Sessions *)

(** The account is kept by the state [s]. *)
Definition accounted (V : LKL_VOLUME) (R0 : resources) (n0 : Z) (ses : session) (s : fstate) : Prop :=
  accounts V R0 n0 ses (held (world s)) (pool_live s).

Lemma accounted_at V R0 n0 ses R n s : at_res R n s -> accounts V R0 n0 ses R n -> accounted V R0 n0 ses s.
Proof. by intros [<- <-]. Qed.

Lemma at_res_refl s : at_res (held (world s)) (pool_live s) s.
Proof. done. Qed.

(** A call that leaves the table, one that changes a handle, one that makes a
    handle, and one that ends it. *)
Lemma keep_accounted V R0 n0 ses s {A} (m : FM A) (g : A -> Z) :
  accounted V R0 n0 ses s -> fwp m (fun _ s' => at_res (held (world s)) (pool_live s) s') s ->
  fwp (r ← m; mret (g r, ses)) (fun r s' => accounted V R0 n0 (snd r) s') s.
Proof.
  intros Hac Hm. apply fwp_bind. eapply fwp_mono; [exact Hm|]. intros r s' Hs'. fstep. eapply accounted_at; [exact Hs'|exact Hac].
Qed.

Lemma handle_accounted V R0 n0 ses s h f {A} (m : FM A) (fh : A -> LKL_IFILE) (g : A -> Z) :
  accounted V R0 n0 ses s -> handles ses !! h = Some f -> keeps_handle f fh m ->
  fwp (r ← m; mret (g r, put_handle h (fh r) ses)) (fun r s' => accounted V R0 n0 (snd r) s') s.
Proof.
  intros Hac Hh Hm. apply fwp_bind. eapply fwp_mono; [apply Hm, at_res_refl|]. intros r s' [Hf Hs']. fstep.
  eapply accounted_at; [exact Hs'|]. by eapply accounts_put.
Qed.

Lemma open_accounted V R0 n0 ses s h (m : FM (Z * option LKL_IFILE)) :
  accounted V R0 n0 ses s -> handles ses !! h = None ->
  fwp m (opens_one V (held (world s)) (pool_live s)) s ->
  fwp (r ← m; mret (fst (r : Z * option LKL_IFILE), put_new h (snd r) ses))
    (fun r s' => accounted V R0 n0 (snd r) s') s.
Proof.
  intros Hac Hh Hm. apply fwp_bind. eapply fwp_mono; [exact Hm|]. intros [st [f|]] s'; unfold opens_one; cbn [fst snd put_new].
  - intros (Hv & Hd & Hf & Hs'). fstep. eapply accounted_at; [exact Hs'|]. by apply accounts_new.
  - intros Hs'. fstep. eapply accounted_at; [exact Hs'|exact Hac].
Qed.

Lemma close_accounted V R0 n0 ses s h f (m : FM Z) :
  accounted V R0 n0 ses s -> handles ses !! h = Some f ->
  fwp m (fun _ s' => at_res (del_fd (FD f) (held (world s))) (pool_live s - 1) s') s ->
  fwp (st ← m; mret (st, drop_handle h f ses)) (fun r s' => accounted V R0 n0 (snd r) s') s.
Proof.
  intros Hac Hh Hm. apply fwp_bind. eapply fwp_mono; [exact Hm|]. intros st s' Hs'. fstep.
  eapply accounted_at; [exact Hs'|]. by apply accounts_drop.
Qed.

Lemma stable_at {A} (m : FM A) s : stable any m -> fwp m (fun _ s' => at_res (held (world s)) (pool_live s) s') s.
Proof. intros Hm. eapply stable_use; [exact Hm|apply at_res_refl|done]. Qed.

Lemma with_handle_ok ses h (k : LKL_IFILE -> FM (Z * session)) (Q : Z * session -> fstate -> Prop) s :
  is_Some (handles ses !! h) -> (forall f, handles ses !! h = Some f -> fwp (k f) Q s) ->
  fwp (with_handle ses h k) Q s.
Proof. intros [f Hf] Hk. unfold with_handle. rewrite Hf. by apply Hk. Qed.

(** The access operations give four results. *)
Lemma io_accounted V R0 n0 ses s h f (m : FM io_result) :
  accounted V R0 n0 ses s -> handles ses !! h = Some f -> keeps_handle f io_handle m ->
  fwp (r ← m; let '(Status, _, _, f) := (r : io_result) in mret (Status, put_handle h f ses))
    (fun r s' => accounted V R0 n0 (snd r) s') s.
Proof.
  intros Hac Hh Hm. pose proof (handle_accounted V R0 n0 ses s h f m io_handle (fun r => fst (fst (fst r))) Hac Hh Hm) as Hw.
  apply fwp_bind. unfold mbind, FM_bind, fwp in *. by destruct (m s) as [[[[st sz] b] f']|].
Qed.

Lemma run_fop_accounted V R0 n0 o ses s :
  mount_point (LKLMountPoint V) -> fop_allowed V o ses s -> accounted V R0 n0 ses s ->
  fwp (run_fop V o ses) (fun r s' => accounted V R0 n0 (snd r) s') s.
Proof.
  intros Hmp Ho Hac. destruct o; cbv zeta beta iota delta [run_fop LKLFileInterface];
    cbn [fop_allowed fp_Open fp_Close fp_Delete fp_Read fp_Write fp_GetPosition fp_SetPosition fp_GetInfo fp_SetInfo fp_Flush] in *;
    try (apply with_handle_ok; [tauto|]; intros f Hf); try (eapply close_accounted; [done..|]).
  - eapply open_accounted; [done|tauto|]. apply OpenVolume_res; [tauto|done].
  - eapply open_accounted; [done|tauto|]. rewrite <- (ac_volume _ _ _ _ _ _ Hac _ _ Hf).
    apply Open_res; [by rewrite (ac_volume _ _ _ _ _ _ Hac _ _ Hf)|tauto|done].
  - eapply io_accounted; [done..|apply Read_handle].
  - eapply io_accounted; [done..|apply Write_handle; tauto].
  - by apply keep_accounted, stable_at, GetPosition_stable.
  - by eapply (handle_accounted _ _ _ _ _ _ _ _ snd), SetPosition_handle.
  - by apply (keep_accounted _ _ _ _ _ _ (fun r => fst (fst r))), stable_at, GetInfo_stable.
  - apply (keep_accounted _ _ _ _ _ _ (fun r => r)); [done|]. by apply SetInfo_res; try tauto.
  - by apply (keep_accounted _ _ _ _ _ _ (fun r => r)), stable_at, Flush_stable.
  - by apply Close_res.
  - by apply Delete_res.
Qed.

Lemma run_fops_accounted V R0 n0 ops : forall ses s,
  mount_point (LKLMountPoint V) -> follows V ops ses s -> accounted V R0 n0 ses s ->
  fwp (run_fops V ops ses) (accounted V R0 n0) s.
Proof.
  induction ops as [|o ops IH]; intros ses s Hmp Hfol Hac; cbn [run_fops follows] in *; [by fstep|].
  destruct Hfol as [Ho Hfol]. pose proof (run_fop_accounted V R0 n0 o ses s Hmp Ho Hac) as Hr.
  apply fwp_bind. unfold fwp at 1. unfold fwp in Hr. destruct (run_fop V o ses s) as [[st ses'] s'|]; [|done].
  by apply IH.
Qed.

(** C5: sessions.  A client opens, reads, writes, positions, asks about, changes,
    flushes, closes and deletes any number of files of a volume in any order,
    and keeps the rules of use.  Then every call returns; at the end each open
    handle has a descriptor of its own that was not open before, no other
    descriptor was left open by any call, successful or not, and one block of
    the pool is held for each open handle and nothing else.  So when all
    handles are closed the descriptors and the blocks are those of the
    beginning; but every directory that was read and closed has cost one
    directory stream for ever. *)
Theorem session_accounts V ops s : mount_point (LKLMountPoint V) -> follows V ops no_handles s ->
  fwp (run_fops V ops no_handles) (fun ses s' =>
    accounts V (held (world s)) (pool_live s) ses (held (world s')) (pool_live s') /\
    (handles ses = ∅ ->
     r_fds (held (world s')) = r_fds (held (world s)) /\ pool_live s' = pool_live s /\
     r_streams (held (world s')) = r_streams (held (world s)) + lost_streams ses)) s.
Proof.
  intros Hmp Hfol. eapply fwp_mono; [apply (run_fops_accounted V (held (world s)) (pool_live s) _ _ _ Hmp Hfol), accounts_empty|].
  intros ses s' Hac. split; [exact Hac|]. intros He. destruct Hac as [_ Hf _ _ Hst Hb]. rewrite He in *.
  split_and!.
  - apply set_eq. intros fd. rewrite Hf. split; [|by left]. by intros [|(h & f & Hh & _)].
  - rewrite Hb, map_size_empty. lia.
  - rewrite Hst. change (streams_open ∅) with 0. lia.
Qed.

End session.

(** ** At the small Linux *)

Definition d_held (w : demo_world) : resources := mk_res (dom (fds w)) (dstreams w).

Lemma d_held_open p f m w : opens_fd (H := demo_lkl) d_held w (d_open p f m w).
Proof.
  assert (Hnew : forall w', d_held w' = d_held w -> opens_fd (H := demo_lkl) d_held w (new_fd p w')).
  { intros w' Hw. unfold opens_fd, new_fd. rewrite <- Hw. destruct (free_fd w') as [fd|] eqn:E; cbn [fst snd]; [|done].
    apply free_fd_Some in E as [Hr Hn]. rewrite (proj2 (Z.leb_le _ _)) by lia. unfold d_held, add_fd. simpl.
    split; [by apply not_elem_of_dom|]. by rewrite dom_insert_L. }
  unfold d_open. destruct (nodes w !! p); [by apply Hnew|]. destruct (_ =? _); [done|by apply Hnew].
Qed.

Lemma d_held_openat fd p f m w : opens_fd (H := demo_lkl) d_held w (d_openat fd p f m w).
Proof. unfold d_openat. destruct (fds w !! fd) as [[q pos]|]; [apply d_held_open|done]. Qed.

Lemma d_held_close fd w : d_held (snd (d_close fd w)) = del_fd fd (d_held w).
Proof. unfold d_held, del_fd. simpl. by rewrite dom_delete_L. Qed.

(** Moving an open file's position opens nothing. *)
Lemma d_held_upd w ns fd x ds : is_Some (fds w !! fd) -> d_held (upd w ns (<[fd := x]> (fds w)) ds) = d_held w.
Proof.
  intros Hs. unfold d_held. simpl. f_equal. rewrite dom_insert_L. apply elem_of_dom in Hs. set_solver.
Qed.

Lemma fd_node_Some fd w x : fd_node fd w = Some x -> is_Some (fds w !! fd).
Proof. unfold fd_node. destruct (fds w !! fd); [by eexists|done]. Qed.

Ltac d_held_tac := intros; cbv zeta; repeat first [done | case_match; cbn [fst snd]; simplify_eq];
  try (by apply d_held_upd; eauto using fd_node_Some).

Lemma d_held_node p f w : d_held (snd (upd_node p f w)) = d_held w.
Proof. unfold upd_node. d_held_tac. Qed.

#[export] Instance demo_fd_laws : FdLaws (H := demo_lkl).
Proof.
  refine (Build_FdLaws demo_lkl d_held _ _ _ _ _ _ _ _ _ _ _ _ _ _ _).
  - apply d_held_open.
  - apply d_held_openat.
  - apply d_held_close.
  - intros fd w. simpl. unfold d_fdopendir. destruct (fds w !! fd); [done|]. by rewrite add_streams_0.
  - simpl. unfold d_mkdir. d_held_tac.
  - simpl. unfold d_unlink. d_held_tac.
  - simpl. unfold d_read. d_held_tac.
  - simpl. unfold d_write. d_held_tac.
  - simpl. unfold d_lseek. d_held_tac.
  - simpl. unfold d_fsync. d_held_tac.
  - simpl. unfold d_ftruncate. intros fd n w. case_match; [|done]. case_match. apply d_held_node.
  - simpl. unfold d_utime. intros p u w. case_match; [apply d_held_node|done].
  - intros p m w. apply d_held_node.
  - simpl. unfold d_readdir. d_held_tac.
  - done.
Defined.

#[local] Instance demo_edk_session : EdkConfig := {| MDEPKG_NDEBUG := false |}.

(** The root is listed while "\f" is written and "g" created and deleted; at
    the end everything is closed. *)
Definition demo_fops : list fop :=
  [FOpenVolume 0; FOpen 1 0 (Some [92; 102]) MODE_WRITE 0; FRead 0 512; FWrite 1 1 [65];
   FOpen 2 0 (Some [103]) MODE_CREATE 0; FSetPosition 1 0; FGetPosition 1; FGetInfo 1 gEfiFileInfoGuid 200;
   FSetInfo 1 gEfiFileInfoGuid 200 demo_new_info; FFlush 1; FDelete 2; FOpen 2 0 (Some [120]) EFI_FILE_MODE_READ 0;
   FClose 0; FClose 1].

Lemma session_accounts_witness :
  fwp (run_fops (H := demo_lkl) (demo_volume false) demo_fops (no_handles (H := demo_lkl)))
    (fun ses s' => handles ses = ∅ -> r_fds (d_held (world s')) = ∅ /\ pool_live s' = 0 /\
       dstreams (world s') = lost_streams ses) demo_fs.
Proof.
  eapply fwp_mono.
  - apply (session_accounts (H := demo_lkl) (demo_volume false) demo_fops demo_fs demo_mount).
    apply (@bool_decide_eq_true_1 _ (follows_dec (H := demo_lkl) _ _ _ _)). vm_compute. reflexivity.
  - intros ses s' [_ Hc] He. destruct (Hc He) as (Ef & Ep & Es). split; [exact Ef|]. split; [exact Ep|].
    exact Es.
Defined.

(** Everything is closed, and one stream is lost. *)
Example demo_session : match run_fops (H := demo_lkl) (demo_volume false) demo_fops (no_handles (H := demo_lkl)) demo_fs with
  | FDone ses s' => (size (handles ses), pool_live s', size (fds (world s')), lost_streams ses) = (0%nat, 0, 0%nat, 1)
  | FFail _ => False
  end.
Proof. vm_compute. reflexivity. Qed.
