(* ===== verification/Dm.v ===== *)
(** * Disk encryption ([dmcrypt.c], [Include/lkl/linux/dm-ioctl.h])

    An encrypted volume is opened by building the control buffers of the
    kernel's device mapper byte by byte and passing them to [ioctl].  A buffer
    is the list of its bytes; a write outside of it is undefined behaviour.
    Messages on the console and the pause between two attempts are left out. *)

From stdpp Require Import strings.
From S2P Require Import Prelude Efi Lkl Path DemoFs.

(** A string literal as character codes. *)
Fixpoint codes (s : String.string) : str :=
  match s with
  | String.EmptyString => []
  | String.String c s' => Z.of_nat (Ascii.nat_of_ascii c) :: codes s'
  end.

(** ** Bytes *)

(** [n] bytes of [z], the least significant first, and back. *)
Fixpoint le_bytes (n : nat) (z : Z) : list Z :=
  match n with O => [] | S n' => z `mod` 256 :: le_bytes n' (z / 256) end.
Fixpoint le_val (l : list Z) : Z :=
  match l with [] => 0 | b :: l' => b + 256 * le_val l' end.

(** The bytes at [off]. *)
Definition bytes_of (off n : nat) (buf : list Z) : list Z := take n (drop off buf).
Definition field (off n : nat) (buf : list Z) : Z := le_val (bytes_of off n buf).

(** A write to a buffer: [None] when it does not fit. *)
Definition write (off : nat) (bs buf : list Z) : option (list Z) :=
  if (off + length bs <=? length buf)%nat then Some (take off buf ++ bs ++ drop (off + length bs) buf) else None.

(** The string at the start of [buf]. *)
Fixpoint cstring (buf : list Z) : str :=
  match buf with [] => [] | c :: b => if c =? 0 then [] else c :: cstring b end.

(** [strncpy]: at most [n] characters, padded with NULs. *)
Definition strncpy_bytes (s : str) (n : nat) : list Z := take n (s ++ replicate n 0).
(** [strlcpy]: at most [n - 1] characters and a NUL. *)
Definition strlcpy_bytes (s : str) (n : nat) : list Z := take (n - 1) s ++ [0].

(** Decimal digits, of a number below 2^32. *)
Fixpoint udec (fuel : nat) (n : Z) (acc : str) : str :=
  match fuel with
  | O => acc
  | S f => let acc := 48 + n `mod` 10 :: acc in if n / 10 =? 0 then acc else udec f (n / 10) acc
  end.
Definition dec (n : Z) : str := udec 10 n [].

(** ** The structures *)

Definition LKL_DM_MAX_TYPE_NAME : nat := 16.
Definition LKL_DM_NAME_LEN : nat := 128.
Definition LKL_DM_UUID_LEN : nat := 129.

(** A structure: its fields with their sizes, in order; none needs padding. *)
Definition layout : Type := list (String.string * nat).
Fixpoint offset_of (l : layout) (f : String.string) : nat :=
  match l with
  | [] => 0
  | (g, n) :: l' => if String.eqb f g then 0 else n + offset_of l' f
  end.
Fixpoint size_of (l : layout) : nat := match l with [] => 0 | (_, n) :: l' => n + size_of l' end.

Definition lkl_dm_ioctl : layout :=
  [("version", 12); ("data_size", 4); ("data_start", 4); ("target_count", 4); ("open_count", 4); ("flags", 4);
   ("event_nr", 4); ("padding", 4); ("dev", 8); ("name", LKL_DM_NAME_LEN); ("uuid", LKL_DM_UUID_LEN);
   ("data", 7)]%string%nat.

Definition lkl_dm_target_spec : layout :=
  [("sector_start", 8); ("length", 8); ("status", 4); ("next", 4); ("target_type", LKL_DM_MAX_TYPE_NAME)]%string%nat.

Module dm_ioctl.
Definition version (i : nat) : nat := offset_of lkl_dm_ioctl "version" + 4 * i.
Definition data_size : nat := offset_of lkl_dm_ioctl "data_size".
Definition data_start : nat := offset_of lkl_dm_ioctl "data_start".
Definition target_count : nat := offset_of lkl_dm_ioctl "target_count".
Definition flags : nat := offset_of lkl_dm_ioctl "flags".
Definition dev : nat := offset_of lkl_dm_ioctl "dev".
Definition name : nat := offset_of lkl_dm_ioctl "name".
Definition size : nat := size_of lkl_dm_ioctl.
End dm_ioctl.

Module dm_target_spec.
Definition sector_start : nat := offset_of lkl_dm_target_spec "sector_start".
Definition length : nat := offset_of lkl_dm_target_spec "length".
Definition status : nat := offset_of lkl_dm_target_spec "status".
Definition next : nat := offset_of lkl_dm_target_spec "next".
Definition target_type : nat := offset_of lkl_dm_target_spec "target_type".
Definition size : nat := size_of lkl_dm_target_spec.
End dm_target_spec.

Definition LKL_DM_DEV_CREATE_CMD : Z := 3.
Definition LKL_DM_DEV_REMOVE_CMD : Z := 4.
Definition LKL_DM_DEV_SUSPEND_CMD : Z := 6.
Definition LKL_DM_DEV_STATUS_CMD : Z := 7.
Definition LKL_DM_TABLE_LOAD_CMD : Z := 9.
Definition LKL_DM_IOCTL : Z := 0xfd.

Definition DM_CRYPT_BUF_SIZE : nat := 4096.
Definition MAX_CRYPTO_TYPE_NAME_LEN : nat := 64.
Definition TABLE_LOAD_RETRIES : nat := 10.
Definition DEVMAPPER_CONTROL_FILE : str := codes "/dev/device-mapper".

(** [keysize] in bytes, [fs_size] in sectors. *)
Record crypt_mnt_ftr := mk_ftr { ftr_keysize : Z; fs_size : Z; crypto_type_name : str }.

(** ** The code *)

Definition ioctl_init (dataSize : nat) (name : option str) (flags : Z) : option (list Z) :=
  io ← write dm_ioctl.data_size (le_bytes 4 (Z.of_nat dataSize)) (replicate dataSize 0);
  io ← write dm_ioctl.data_start (le_bytes 4 (Z.of_nat dm_ioctl.size)) io;
  io ← write (dm_ioctl.version 0) (le_bytes 4 4) io;
  io ← write (dm_ioctl.version 1) (le_bytes 4 0) io;
  io ← write (dm_ioctl.version 2) (le_bytes 4 0) io;
  io ← write dm_ioctl.flags (le_bytes 4 flags) io;
  match name with
  | Some name => write dm_ioctl.name (strncpy_bytes name LKL_DM_NAME_LEN) io
  | None => Some io
  end.

Definition hex_digit (nibble : Z) : Z := u8 (nibble + (if 9 <? nibble then 0x37 else 0x30)).

(** [n]: the rounds that are left; reading past the end of the key or writing
    past the end of the text is undefined. *)
Fixpoint key_loop (n i a : nat) (master_key ascii : list Z) : option (nat * list Z) :=
  match n with
  | O => Some (a, ascii)
  | S n' =>
      k ← master_key !! i;
      ascii ← write a [hex_digit (Z.land (Z.shiftr k 4) 0xf)] ascii;
      ascii ← write (a + 1) [hex_digit (Z.land k 0xf)] ascii;
      key_loop n' (i + 1) (a + 2) master_key ascii
  end.

Definition convert_key_to_hex_ascii (master_key : list Z) (keysize : Z) (master_key_ascii : list Z)
    : option (list Z) :=
  '(a, ascii) ← key_loop (Z.to_nat keysize) 0 0 master_key master_key_ascii;
  write a [0] ascii.

Section dmcrypt.
Context `{LklBlk}.

Definition lift {A} (o : option A) : FM A := match o with Some a => mret a | None => ffail FUB end.

Definition DM_CMD (cmd : Z) : Z := LKL_IOWR LKL_DM_IOCTL cmd (Z.of_nat dm_ioctl.size).

(** [nr_sec] is not initialised: [junk] is what the stack holds. *)
Definition get_blkdev_size (fd : Z) (junk : list Z) : FM Z :=
  r ← sys (lkl_sys_ioctl fd LKL_BLKGETSIZE junk);
  let (ret, nr_sec) := (r : Z * list Z) in
  mret (if ret =? -1 then 0 else le_val nr_sec).

(** The parameters of the target: type, key, device. *)
Definition crypt_params (ftr : crypt_mnt_ftr) (master_key_ascii : str) (real_blk_name extra_params : str) : str :=
  crypto_type_name ftr ++ codes " " ++ master_key_ascii ++ codes " 0 " ++ real_blk_name ++ codes " 0 "
    ++ extra_params.

(** The buffer of the table; it is at the address [addr], and [junk] is what
    the text of the key holds before. *)
Definition table_buffer (ftr : crypt_mnt_ftr) (master_key : list Z) (real_blk_name name extra_params : str)
    (addr : Z) (junk : list Z) : option (list Z) :=
  let tgt := dm_ioctl.size in
  buffer ← ioctl_init DM_CRYPT_BUF_SIZE (Some name) 0;
  buffer ← write dm_ioctl.target_count (le_bytes 4 1) buffer;
  buffer ← write (tgt + dm_target_spec.status) (le_bytes 4 0) buffer;
  buffer ← write (tgt + dm_target_spec.sector_start) (le_bytes 8 0) buffer;
  buffer ← write (tgt + dm_target_spec.length) (le_bytes 8 (fs_size ftr)) buffer;
  master_key_ascii ← convert_key_to_hex_ascii master_key (ftr_keysize ftr) junk;
  buffer ← write (tgt + dm_target_spec.target_type) (strlcpy_bytes (codes "crypt") LKL_DM_MAX_TYPE_NAME) buffer;
  let params := crypt_params ftr (cstring master_key_ascii) real_blk_name extra_params in
  let p := (tgt + dm_target_spec.size)%nat in
  buffer ← write p (params ++ [0]) buffer;
  let p := (p + length (cstring (drop p buffer)) + 1)%nat in
  let aligned := Z.land (u32 (addr + Z.of_nat p + 7)) (u32 (Z.lnot 8)) in
  write (tgt + dm_target_spec.next) (le_bytes 4 (u32 (aligned - addr))) buffer.

(** [i + 1] for the attempt that succeeded, -1 when none did. *)
Fixpoint table_load_loop (n : nat) (i : Z) (fd : Z) (io : list Z) : FM Z :=
  match n with
  | O => mret (-1)
  | S n' =>
      r ← sys (lkl_sys_ioctl fd (DM_CMD LKL_DM_TABLE_LOAD_CMD) io);
      let (ret, io) := (r : Z * list Z) in
      if ret =? 0 then mret (i + 1) else table_load_loop n' (i + 1) fd io
  end.

Definition load_crypto_mapping_table (ftr : crypt_mnt_ftr) (master_key : list Z)
    (real_blk_name name : str) (fd : Z) (extra_params : str) (addr : Z) (junk : list Z) : FM Z :=
  io ← lift (table_buffer ftr master_key real_blk_name name extra_params addr junk);
  table_load_loop TABLE_LOAD_RETRIES 0 fd io.

(** The control calls of [create_crypto_blk_dev] after the device is open:
    the result, and the name when it was written. *)
Definition dm_call (fd cmd : Z) (name : str) : FM (Z * list Z) :=
  io ← lift (ioctl_init DM_CRYPT_BUF_SIZE (Some name) 0);
  sys (lkl_sys_ioctl fd (DM_CMD cmd) io).

Definition create_on (fd : Z) (ftr : crypt_mnt_ftr) (master_key : list Z) (real_blk_name name : str)
    (addr : Z) (junk : list Z) : FM (Z * option str) :=
  c ← dm_call fd LKL_DM_DEV_CREATE_CMD name;
  if negb (fst (c : Z * list Z) =? 0) then mret (-1, None)
  else
    st ← dm_call fd LKL_DM_DEV_STATUS_CMD name;
    let (ret, io) := (st : Z * list Z) in
    if negb (ret =? 0) then mret (-1, None)
    else
      let dev := field dm_ioctl.dev 8 io in
      let minor := u32 (Z.lor (Z.land dev 0xff) (Z.land (Z.shiftr dev 12) 0xfff00)) in
      let crypto_blk_name := take (Z.to_nat (MAXPATHLEN - 1)) (codes "/dev/block/dm-" ++ dec minor) in
      retval ← sys (lkl_sys_mknod crypto_blk_name (Z.lor LKL_S_IFBLK 384) dev);
      if negb (retval =? 0) && negb (retval =? - LKL_EEXIST) then mret (retval, Some crypto_blk_name)
      else
        load_count ← load_crypto_mapping_table ftr master_key real_blk_name name fd [] addr junk;
        if load_count <? 0 then mret (retval, Some crypto_blk_name)
        else
          r ← dm_call fd LKL_DM_DEV_SUSPEND_CMD name;
          if negb (fst (r : Z * list Z) =? 0) then mret (retval, Some crypto_blk_name)
          else mret (0, Some crypto_blk_name).

Definition create_crypto_blk_dev (ftr : crypt_mnt_ftr) (master_key : list Z) (real_blk_name name : str)
    (addr : Z) (junk : list Z) : FM (Z * option str) :=
  fd ← sys (lkl_sys_open DEVMAPPER_CONTROL_FILE LKL_O_RDWR 0);
  r ← (if fd <? 0 then mret (-1, None) else create_on fd ftr master_key real_blk_name name addr junk);
  _ ← sys (lkl_sys_close fd);
  mret r.

(** [junk]: the uninitialised sector count and key text; [addr]: the address of
    the table's buffer. *)
Definition cryptfs_setup_ext_volume (label real_blkdev : str) (key : list Z) (keysize : Z)
    (addr : Z) (junk_sec junk : list Z) : FM (Z * option str) :=
  fd ← sys (lkl_sys_open real_blkdev (Z.lor LKL_O_RDONLY LKL_O_CLOEXEC) 0);
  if fd =? -1 then mret (-1, None)
  else
    nr_sec ← get_blkdev_size fd junk_sec;
    _ ← sys (lkl_sys_close fd);
    if nr_sec =? 0 then mret (-1, None)
    else
      create_crypto_blk_dev (mk_ftr (u32 keysize) nr_sec (codes "aes-cbc-essiv:sha256")) key
        real_blkdev label addr junk.

Definition delete_crypto_blk_dev (name : str) : FM Z :=
  fd ← sys (lkl_sys_open DEVMAPPER_CONTROL_FILE LKL_O_RDWR 0);
  retval ← (if fd <? 0 then mret (-1)
            else
              r ← dm_call fd LKL_DM_DEV_REMOVE_CMD name;
              mret (if fst (r : Z * list Z) =? 0 then 0 else -1));
  _ ← sys (lkl_sys_close fd);
  mret retval.

Definition cryptfs_revert_ext_volume (label : str) : FM Z := delete_crypto_blk_dev label.
End dmcrypt.

(** ** Lemmas on bytes *)

Lemma length_le_bytes n z : length (le_bytes n z) = n.
Proof. revert z. induction n as [|n IH]; intros z; simpl; [done|by rewrite IH]. Qed.

Lemma le_val_bytes n z : le_val (le_bytes n z) = z `mod` 256 ^ Z.of_nat n.
Proof.
  revert z. induction n as [|n IH]; intros z; cbn [le_bytes le_val]; [by rewrite Z.mod_1_r|].
  rewrite IH, Nat2Z.inj_succ, Z.pow_succ_r by lia. symmetry. apply Z.rem_mul_r; lia.
Qed.

Lemma write_fits off bs buf : (off + length bs <= length buf)%nat ->
  write off bs buf = Some (take off buf ++ bs ++ drop (off + length bs) buf).
Proof. intros Hl. unfold write. by rewrite (proj2 (Nat.leb_le _ _)). Qed.

Lemma write_inv off bs buf buf' : write off bs buf = Some buf' ->
  (off + length bs <= length buf)%nat /\ buf' = take off buf ++ bs ++ drop (off + length bs) buf.
Proof. unfold write. destruct (Nat.leb_spec (off + length bs) (length buf)); by intros [= <-]. Qed.

Lemma write_length off bs buf buf' : write off bs buf = Some buf' -> length buf' = length buf.
Proof. intros [Hl ->]%write_inv. rewrite !length_app, length_take, length_drop. lia. Qed.

Lemma write_same off bs buf buf' n : write off bs buf = Some buf' -> n = length bs ->
  bytes_of off n buf' = bs.
Proof.
  intros [Hl ->]%write_inv ->. unfold bytes_of.
  rewrite drop_app_length' by (rewrite length_take; lia). by apply take_app_length'.
Qed.

Lemma write_other off bs buf buf' o n : write off bs buf = Some buf' ->
  (o + n <= off \/ off + length bs <= o)%nat -> bytes_of o n buf' = bytes_of o n buf.
Proof.
  intros [Hl ->]%write_inv Ho. apply list_eq. intros i. unfold bytes_of.
  destruct (decide (i < n)%nat) as [Hi|Hi].
  - rewrite !lookup_take_lt, !lookup_drop by done. destruct Ho as [Ho|Ho].
    + rewrite lookup_app_l by (rewrite length_take; lia). by apply lookup_take_lt; lia.
    + rewrite lookup_app_r by (rewrite length_take; lia). rewrite length_take, lookup_app_r, lookup_drop by lia.
      f_equal. lia.
  - by rewrite !lookup_take_ge by lia.
Qed.

Lemma write_drop off bs buf buf' : write off bs buf = Some buf' ->
  drop off buf' = bs ++ drop (off + length bs) buf.
Proof. intros [Hl ->]%write_inv. by rewrite drop_app_length' by (rewrite length_take; lia). Qed.

Definition text (s : str) : Prop := Forall (fun c => c <> 0) s.

Lemma cstring_text s rest : text s -> cstring (s ++ 0 :: rest) = s.
Proof.
  induction s as [|c s IH]; intros Hs; simpl; [done|]. apply Forall_cons in Hs as [Hc Hs].
  rewrite (proj2 (Z.eqb_neq c 0)) by done. by rewrite IH.
Qed.

Lemma strncpy_cstring s n rest : text s -> (length s < n)%nat -> cstring (strncpy_bytes s n ++ rest) = s.
Proof.
  intros Hs Hl. unfold strncpy_bytes. rewrite take_app, take_ge by lia.
  destruct (n - length s)%nat as [|k] eqn:E; [lia|]. rewrite take_replicate.
  replace (Init.Nat.min (S k) n) with (S k) by lia. rewrite <- app_assoc. simpl. by apply cstring_text.
Qed.

(** ** The text of the key *)

(** The key in hexadecimal, and back. *)
Definition hex_bytes (key : list Z) : str :=
  flat_map (fun k => [hex_digit (Z.land (Z.shiftr k 4) 0xf); hex_digit (Z.land k 0xf)]) key.
Definition unhex_digit (c : Z) : Z := if 0x41 <=? c then c - 0x37 else c - 0x30.
Fixpoint unhex (s : str) : list Z :=
  match s with h :: l :: s' => 16 * unhex_digit h + unhex_digit l :: unhex s' | _ => [] end.

Definition is_byte (b : Z) : Prop := 0 <= b < 256.

Lemma hex_digit_range n : 0 <= n < 16 -> 48 <= hex_digit n < 128 /\ unhex_digit (hex_digit n) = n.
Proof.
  intros Hn. unfold hex_digit, unhex_digit, u8.
  destruct (Z.ltb_spec 9 n); rewrite Z.mod_small by lia; [rewrite (proj2 (Z.leb_le _ _)) by lia|
    rewrite (proj2 (Z.leb_gt _ _)) by lia]; lia.
Qed.

Lemma nibbles b : is_byte b ->
  0 <= Z.land (Z.shiftr b 4) 0xf < 16 /\ 0 <= Z.land b 0xf < 16 /\
  16 * Z.land (Z.shiftr b 4) 0xf + Z.land b 0xf = b.
Proof.
  intros [Hb Hb']. change 0xf with (Z.ones 4). rewrite !Z.land_ones, Z.shiftr_div_pow2 by lia.
  change (2 ^ 4) with 16. rewrite (Z.mod_small (b / 16)) by (split; [apply Z.div_pos; lia|apply Z.div_lt_upper_bound; lia]).
  pose proof (Z.mod_pos_bound b 16 ltac:(lia)). pose proof (Z.div_mod b 16 ltac:(lia)).
  split; [split; [apply Z.div_pos; lia|apply Z.div_lt_upper_bound; lia]|]. lia.
Qed.

Lemma unhex_hex key : Forall is_byte key -> unhex (hex_bytes key) = key.
Proof.
  induction 1 as [|b key Hb _ IH]; simpl; [done|]. destruct (nibbles b Hb) as (Hh & Hl & E).
  rewrite IH, (proj2 (hex_digit_range _ Hh)), (proj2 (hex_digit_range _ Hl)). by rewrite E.
Qed.

Lemma hex_text key : Forall is_byte key -> text (hex_bytes key).
Proof.
  unfold text. induction 1 as [|b key Hb _ IH]; simpl; [constructor|]. destruct (nibbles b Hb) as (Hh & Hl & _).
  destruct (hex_digit_range _ Hh), (hex_digit_range _ Hl). repeat constructor; [lia|lia|done].
Qed.

Lemma length_hex key : length (hex_bytes key) = (2 * length key)%nat.
Proof. induction key as [|b key IH]; simpl; [done|]. rewrite IH. lia. Qed.

Lemma key_loop_ok n i a key ascii :
  (i + n <= length key)%nat -> (a + 2 * n <= length ascii)%nat ->
  key_loop n i a key ascii =
    Some ((a + 2 * n)%nat, take a ascii ++ hex_bytes (take n (drop i key)) ++ drop (a + 2 * n) ascii).
Proof.
  revert i a ascii. induction n as [|n IH]; intros i a ascii Hk Ha.
  - simpl. rewrite Nat.add_0_r, take_drop. done.
  - destruct (lookup_lt_is_Some_2 key i ltac:(lia)) as [k Ek]. cbn [key_loop]. rewrite Ek. cbn [mbind option_bind].
    rewrite write_fits by (simpl; lia). cbn [mbind option_bind].
    rewrite write_fits by (rewrite !length_app, length_take, length_drop; simpl; lia). cbn [mbind option_bind].
    set (x := hex_digit (Z.land (Z.shiftr k 4) 0xf)). set (y := hex_digit (Z.land k 0xf)).
    cbn [length]. replace (a + 1 + 1)%nat with (a + 2)%nat by lia.
    assert (E : take (a + 1) (take a ascii ++ [x] ++ drop (a + 1) ascii) ++ [y] ++
                drop (a + 2) (take a ascii ++ [x] ++ drop (a + 1) ascii) =
                take a ascii ++ [x; y] ++ drop (a + 2) ascii).
    { rewrite (app_assoc (take a ascii) [x] (drop (a + 1) ascii)).
      assert (Hl : length (take a ascii ++ [x]) = (a + 1)%nat) by (rewrite length_app, length_take; simpl; lia).
      rewrite take_app_length' by done. rewrite drop_app_ge by lia. rewrite Hl, drop_drop.
      replace (a + 1 + (a + 2 - (a + 1)))%nat with (a + 2)%nat by lia. by rewrite <- app_assoc. }
    rewrite E. clear E. rewrite IH by (rewrite ?length_app, ?length_take, ?length_drop; simpl; lia).
    assert (Hl : length (take a ascii ++ [x; y]) = (a + 2)%nat) by (rewrite length_app, length_take; simpl; lia).
    f_equal. f_equal; [lia|]. rewrite (app_assoc _ [x; y]).
    rewrite take_app_length' by done. rewrite drop_app_ge by lia. rewrite Hl, drop_drop.
    replace (a + 2 + (a + 2 + 2 * n - (a + 2)))%nat with (a + 2 * S n)%nat by lia.
    rewrite (drop_S _ _ _ Ek). simpl. fold x y. rewrite <- app_assoc. simpl. by replace (S i) with (i + 1)%nat by lia.
Qed.

Lemma convert_key_ok key ascii : Forall is_byte key -> (2 * length key < length ascii)%nat ->
  exists ascii', convert_key_to_hex_ascii key (Z.of_nat (length key)) ascii = Some ascii' /\
    length ascii' = length ascii /\ cstring ascii' = hex_bytes key.
Proof.
  intros Hb Hl. unfold convert_key_to_hex_ascii. rewrite Nat2Z.id, key_loop_ok by lia.
  cbn [mbind option_bind]. rewrite drop_0, (take_ge key), take_0, app_nil_l by lia.
  rewrite write_fits by (rewrite length_app, length_hex, length_drop; simpl; lia).
  eexists. split; [done|]. rewrite Nat.add_0_l. rewrite (take_app_length' _ _ (2 * length key)) by (by rewrite length_hex).
  split; [rewrite !length_app, length_drop, length_app, length_hex, length_drop; simpl; lia|].
  by apply cstring_text, hex_text.
Qed.

(** ** The buffers *)

Lemma write_ex off bs buf n : length buf = n -> (off + length bs <= n)%nat ->
  exists buf', write off bs buf = Some buf' /\ length buf' = n.
Proof. intros <- Hl. rewrite write_fits by done. eexists. split; [done|]. by apply (write_length off bs), write_fits. Qed.

(** Follow the bytes of a buffer back to the write they come from. *)
Ltac sizes := rewrite ?length_le_bytes; simpl length; lia.
Ltac chase := repeat match goal with
  | |- context [bytes_of ?o ?n ?b] =>
      match goal with
      | H : write _ _ _ = Some b |- _ =>
          first [rewrite (write_same _ _ _ _ n H) by sizes | rewrite (write_other _ _ _ _ o n H) by sizes]
      end
  end.

(** The offsets as numbers. *)
Ltac dm_offsets :=
  change (dm_ioctl.version 0) with 0%nat; change (dm_ioctl.version 1) with 4%nat;
  change (dm_ioctl.version 2) with 8%nat; change dm_ioctl.data_size with 12%nat;
  change dm_ioctl.data_start with 16%nat; change dm_ioctl.flags with 28%nat; change dm_ioctl.name with 48%nat.

(** What the kernel reads at the start of a control buffer. *)
Record dm_header := mk_header {
  h_version : list Z; h_data_size : Z; h_data_start : Z; h_flags : Z; h_name : str }.
Definition parse_header (buf : list Z) : dm_header :=
  mk_header ((fun i => field (dm_ioctl.version i) 4 buf) <$> [0; 1; 2]%nat)
    (field dm_ioctl.data_size 4 buf) (field dm_ioctl.data_start 4 buf) (field dm_ioctl.flags 4 buf)
    (cstring (bytes_of dm_ioctl.name LKL_DM_NAME_LEN buf)).

Definition dm_name (name : str) : Prop := text name /\ (length name < LKL_DM_NAME_LEN)%nat.

Lemma length_strncpy s n : length (strncpy_bytes s n) = n.
Proof. unfold strncpy_bytes. rewrite length_take, length_app, length_replicate. lia. Qed.

Lemma ioctl_init_ok name flags : dm_name name ->
  exists io, ioctl_init DM_CRYPT_BUF_SIZE (Some name) flags = Some io /\ length io = DM_CRYPT_BUF_SIZE /\
    parse_header io = mk_header [4; 0; 0] 4096 312 (u32 flags) name.
Proof.
  intros [Hn Hl]. unfold ioctl_init.
  assert (H0 : length (replicate DM_CRYPT_BUF_SIZE 0) = DM_CRYPT_BUF_SIZE) by by rewrite length_replicate.
  set (N := DM_CRYPT_BUF_SIZE) in *. assert (HN : (400 <= N)%nat) by (apply Nat.leb_le; by vm_compute).
  assert (EN : Z.of_nat N = 4096) by by vm_compute.
  generalize dependent (replicate N 0). intros b0 H0.
  dm_offsets.
  change (Z.of_nat dm_ioctl.size) with 312. rewrite EN.
  do 6 (let Hw := fresh "Hw" in edestruct write_ex as (? & Hw & ?); [eassumption| |rewrite Hw; cbn [mbind option_bind]];
    [rewrite length_le_bytes; lia|]).
  edestruct (write_ex 48 (strncpy_bytes name LKL_DM_NAME_LEN)) as (io & Hio & Hlio);
    [eassumption|rewrite length_strncpy; unfold LKL_DM_NAME_LEN; lia|].
  exists io. split; [done|]. split; [done|]. unfold parse_header, field.
  cbn [fmap list_fmap]. dm_offsets.
  rewrite (write_same _ _ _ _ LKL_DM_NAME_LEN Hio) by by rewrite length_strncpy.
  assert (Hc : cstring (strncpy_bytes name LKL_DM_NAME_LEN) = name)
    by (rewrite <- (app_nil_r (strncpy_bytes _ _)); by apply strncpy_cstring).
  rewrite Hc.
  rewrite !(write_other _ _ _ _ _ 4 Hio) by lia.
  chase. by rewrite !le_val_bytes.
Qed.

Lemma parse_header_write off bs buf buf' : write off bs buf = Some buf' ->
  (20 <= off /\ off + length bs <= 28 \/ 176 <= off)%nat -> parse_header buf' = parse_header buf.
Proof.
  intros Hw Ho. assert (E : forall o n, (o + n <= off \/ off + length bs <= o)%nat ->
    bytes_of o n buf' = bytes_of o n buf) by (intros o n Hn; by eapply write_other).
  unfold parse_header, field, LKL_DM_NAME_LEN. cbn [fmap list_fmap]. dm_offsets.
  rewrite !E by lia. done.
Qed.

Lemma write_drop_after off bs buf buf' p : write off bs buf = Some buf' -> (off + length bs <= p)%nat ->
  drop p buf' = drop p buf.
Proof.
  intros [Hl ->]%write_inv Hp. rewrite app_assoc.
  rewrite drop_app_ge by (rewrite length_app, length_take; lia). rewrite length_app, length_take, drop_drop.
  f_equal. lia.
Qed.

(** The words of a parameter text. *)
Definition flush (w : str) : list str := match w with [] => [] | _ => [w] end.
Fixpoint words_from (w s : str) : list str :=
  match s with
  | [] => flush w
  | c :: s' => if c =? 32 then flush w ++ words_from [] s' else words_from (w ++ [c]) s'
  end.
Definition words : str -> list str := words_from [].

(** A text that is one word. *)
Definition word (s : str) : Prop := s <> [] /\ Forall (fun c => c <> 0 /\ c <> 32) s.

Lemma words_from_word w s rest :
  Forall (fun c => c <> 32) s -> words_from w (s ++ 32 :: rest) = flush (w ++ s) ++ words_from [] rest.
Proof.
  revert w. induction s as [|c s IH]; intros w Hs; cbn [app words_from].
  - by rewrite app_nil_r.
  - apply Forall_cons in Hs as [Hc Hs]. rewrite (proj2 (Z.eqb_neq c 32)) by done.
    rewrite IH by done. by rewrite <- app_assoc.
Qed.

Lemma words_cons s rest : word s -> words (s ++ 32 :: rest) = s :: words rest.
Proof.
  intros [Hne Hs]. unfold words. rewrite words_from_word by (eapply Forall_impl; [exact Hs|naive_solver]).
  cbn [app]. by destruct s.
Qed.

Lemma word_text s : word s -> text s.
Proof. intros [_ Hs]. eapply Forall_impl; [exact Hs|naive_solver]. Qed.

Lemma hex_word key : Forall is_byte key -> key <> [] -> word (hex_bytes key).
Proof.
  intros Hk Hne. split; [by destruct key|]. clear Hne.
  induction Hk as [|b key Hb _ IH]; simpl; [constructor|]. destruct (nibbles b Hb) as (Hh & Hl & _).
  destruct (hex_digit_range _ Hh), (hex_digit_range _ Hl). repeat constructor; [lia..|done].
Qed.

(** What the kernel reads in a table. *)
Record dm_table := mk_table {
  t_header : dm_header; t_count : Z; t_sector : Z; t_sectors : Z; t_status : Z; t_type : str; t_args : list str }.
Definition parse_table (buf : list Z) : dm_table :=
  let tgt := Z.to_nat (field dm_ioctl.data_start 4 buf) in
  mk_table (parse_header buf) (field dm_ioctl.target_count 4 buf)
    (field (tgt + dm_target_spec.sector_start) 8 buf) (field (tgt + dm_target_spec.length) 8 buf)
    (field (tgt + dm_target_spec.status) 4 buf)
    (cstring (drop (tgt + dm_target_spec.target_type) buf))
    (words (cstring (drop (tgt + dm_target_spec.size) buf))).

(** The table of the volume [ftr] on the device [real]. *)
Definition crypt_table (ftr : crypt_mnt_ftr) (master_key : list Z) (real name : str) : dm_table :=
  mk_table (mk_header [4; 0; 0] 4096 312 0 name) 1 0 (fs_size ftr) 0 (codes "crypt")
    [crypto_type_name ftr; hex_bytes master_key; codes "0"; real; codes "0"].

Record table_args_ok (ftr : crypt_mnt_ftr) (key : list Z) (real name : str) (junk : list Z) : Prop := {
  ta_key : Forall is_byte key;
  ta_keysize : ftr_keysize ftr = Z.of_nat (length key);
  ta_nonempty : key <> [];
  ta_size : 0 <= fs_size ftr < 2 ^ 64;
  ta_name : dm_name name;
  ta_type : word (crypto_type_name ftr) /\ (length (crypto_type_name ftr) <= MAX_CRYPTO_TYPE_NAME_LEN)%nat;
  ta_real : word real /\ (length real <= 3000)%nat;
  ta_junk : length junk = 129%nat
}.

Lemma params_args ftr key real : word (crypto_type_name ftr) -> word (hex_bytes key) -> word real ->
  words (crypt_params ftr (hex_bytes key) real []) =
    [crypto_type_name ftr; hex_bytes key; codes "0"; real; codes "0"].
Proof.
  intros Ht Hk Hr. unfold crypt_params. change (codes " ") with [32]. change (codes " 0 ") with [32; 48; 32].
  cbn [app]. rewrite words_cons by done. rewrite words_cons by done.
  change (48 :: 32 :: real ++ [32; 48; 32]) with ([48] ++ 32 :: real ++ [32; 48; 32]).
  rewrite words_cons by (split; [done|]; repeat constructor; done).
  by rewrite words_cons.
Qed.

Lemma params_text ftr key real : word (crypto_type_name ftr) -> Forall is_byte key -> word real ->
  text (crypt_params ftr (hex_bytes key) real []).
Proof.
  intros Ht%word_text Hk%hex_text Hr%word_text. unfold crypt_params, text in *.
  repeat (apply Forall_app; split); first [done | repeat constructor; done].
Qed.

(** The parser undoes the writes of [table_buffer]. *)
Lemma table_parse b0 b1 b2 b3 b4 b5 b6 b7 sectors params nx name :
  parse_header b0 = mk_header [4; 0; 0] 4096 312 0 name -> 0 <= sectors < 2 ^ 64 -> text params ->
  length nx = 4%nat ->
  write 20 (le_bytes 4 1) b0 = Some b1 -> write 328 (le_bytes 4 0) b1 = Some b2 ->
  write 312 (le_bytes 8 0) b2 = Some b3 -> write 320 (le_bytes 8 sectors) b3 = Some b4 ->
  write 336 (codes "crypt" ++ [0]) b4 = Some b5 -> write 352 (params ++ [0]) b5 = Some b6 ->
  write 332 nx b6 = Some b7 ->
  parse_table b7 = mk_table (mk_header [4; 0; 0] 4096 312 0 name) 1 0 sectors 0 (codes "crypt") (words params).
Proof.
  intros Hh Hsz Hpt Hnx W1 W2 W3 W4 W5 W6 W7. unfold parse_table.
  change dm_ioctl.target_count with 20%nat.
  assert (Hhd : parse_header b7 = mk_header [4; 0; 0] 4096 312 0 name).
  { rewrite (parse_header_write _ _ _ _ W7), (parse_header_write _ _ _ _ W6), (parse_header_write _ _ _ _ W5),
      (parse_header_write _ _ _ _ W4), (parse_header_write _ _ _ _ W3), (parse_header_write _ _ _ _ W2),
      (parse_header_write _ _ _ _ W1) by (rewrite ?length_le_bytes; lia). exact Hh. }
  assert (Hst : field dm_ioctl.data_start 4 b7 = 312) by by injection Hhd.
  rewrite Hst, Hhd. change (Z.to_nat 312) with 312%nat.
  change (312 + dm_target_spec.sector_start)%nat with 312%nat. change (312 + dm_target_spec.length)%nat with 320%nat.
  change (312 + dm_target_spec.status)%nat with 328%nat. change (312 + dm_target_spec.target_type)%nat with 336%nat.
  change (312 + dm_target_spec.size)%nat with 352%nat.
  unfold field. f_equal.
  - chase. by rewrite le_val_bytes.
  - chase. by rewrite le_val_bytes.
  - chase. rewrite le_val_bytes. by apply Z.mod_small.
  - chase. by rewrite le_val_bytes.
  - rewrite (write_drop_after _ _ _ _ 336 W7) by lia.
    rewrite <- (take_drop 16 (drop 336 b6)). change (take 16 (drop 336 b6)) with (bytes_of 336 16 b6).
    rewrite (write_other _ _ _ _ 336 16 W6) by lia. unfold bytes_of. rewrite (write_drop _ _ _ _ W5). done.
  - rewrite (write_drop_after _ _ _ _ 352 W7), (write_drop _ _ _ _ W6) by lia.
    rewrite <- app_assoc. simpl. by rewrite cstring_text.
Qed.

Lemma table_buffer_ok ftr key real name addr junk :
  table_args_ok ftr key real name junk -> (length key <= 64)%nat ->
  exists buf, table_buffer ftr key real name [] addr junk = Some buf /\ length buf = DM_CRYPT_BUF_SIZE /\
    parse_table buf = crypt_table ftr key real name.
Proof.
  intros [Hkey Hks Hne Hsz Hname [Htype Htl] [Hreal Hrl] Hjunk] Hk64. unfold table_buffer.
  destruct (ioctl_init_ok name 0 Hname) as (b0 & E0 & L0 & Hh). rewrite E0. cbn [mbind option_bind].
  set (N := DM_CRYPT_BUF_SIZE) in *. assert (HN : N = Z.to_nat 4096) by by vm_compute.
  change dm_ioctl.target_count with 20%nat. change (dm_ioctl.size + dm_target_spec.status)%nat with 328%nat.
  change (dm_ioctl.size + dm_target_spec.sector_start)%nat with 312%nat.
  change (dm_ioctl.size + dm_target_spec.length)%nat with 320%nat.
  change (dm_ioctl.size + dm_target_spec.target_type)%nat with 336%nat.
  change (dm_ioctl.size + dm_target_spec.size)%nat with 352%nat.
  change (dm_ioctl.size + dm_target_spec.next)%nat with 332%nat.
  change (strlcpy_bytes (codes "crypt") LKL_DM_MAX_TYPE_NAME) with (codes "crypt" ++ [0]).
  edestruct (write_ex 20 (le_bytes 4 1)) as (b1 & W1 & L1); [exact L0|rewrite length_le_bytes; lia|].
  edestruct (write_ex 328 (le_bytes 4 0)) as (b2 & W2 & L2); [exact L1|rewrite length_le_bytes; lia|].
  edestruct (write_ex 312 (le_bytes 8 0)) as (b3 & W3 & L3); [exact L2|rewrite length_le_bytes; lia|].
  edestruct (write_ex 320 (le_bytes 8 (fs_size ftr))) as (b4 & W4 & L4); [exact L3|rewrite length_le_bytes; lia|].
  rewrite W1. cbn [mbind option_bind]. rewrite W2. cbn [mbind option_bind]. rewrite W3. cbn [mbind option_bind].
  rewrite W4. cbn [mbind option_bind].
  destruct (convert_key_ok key junk Hkey ltac:(lia)) as (asc & Ea & _ & Hasc).
  rewrite Hks, Ea. cbn [mbind option_bind]. rewrite Hasc.
  edestruct (write_ex 336 (codes "crypt" ++ [0])) as (b5 & W5 & L5); [exact L4|simpl; lia|].
  rewrite W5. cbn [mbind option_bind]. cbv zeta.
  pose proof (params_text ftr key real Htype Hkey Hreal) as Hpt.
  pose proof (params_args ftr key real Htype (hex_word key Hkey Hne) Hreal) as Hpa.
  assert (Hpl : (length (crypt_params ftr (hex_bytes key) real []) <= 3200 + 5)%nat).
  { unfold crypt_params, MAX_CRYPTO_TYPE_NAME_LEN in *. rewrite !length_app, length_hex. simpl. lia. }
  set (params := crypt_params ftr (hex_bytes key) real []) in *.
  edestruct (write_ex 352 (params ++ [0])) as (b6 & W6 & L6); [exact L5|rewrite length_app; simpl; lia|].
  rewrite W6. cbn [mbind option_bind]. set (nx := le_bytes 4 _).
  edestruct (write_ex 332 nx) as (b7 & W7 & L7); [exact L6|unfold nx; rewrite length_le_bytes; lia|].
  exists b7. split; [exact W7|]. split; [done|].
  unfold crypt_table. rewrite <- Hpa.
  eapply (table_parse b0 b1 b2 b3 b4 b5 b6 b7); try done. apply length_le_bytes.
Qed.

(** ** The kernel's view: requests instead of bytes *)

Section protocol.
Context `{LklBlk}.

(** The request [cmd] for the device [name]: its result, and the bytes the
    kernel leaves. *)
Definition asks (fd cmd : Z) (name : str) (w : World) (ret : Z) (io : list Z) (w' : World) : Prop :=
  exists buf, parse_header buf = mk_header [4; 0; 0] 4096 312 0 name /\
    lkl_sys_ioctl fd (DM_CMD cmd) buf w = ((ret, io), w').

(** At most [n] attempts to load a table, from the bytes [buf]. *)
Inductive attempts (fd : Z) : nat -> list Z -> World -> bool -> World -> Prop :=
| at_none buf w : attempts fd 0 buf w false w
| at_loaded n buf w io w' :
    lkl_sys_ioctl fd (DM_CMD LKL_DM_TABLE_LOAD_CMD) buf w = ((0, io), w') -> attempts fd (S n) buf w true w'
| at_retry n buf w ret io w1 b w' :
    lkl_sys_ioctl fd (DM_CMD LKL_DM_TABLE_LOAD_CMD) buf w = ((ret, io), w1) -> ret <> 0 ->
    attempts fd n io w1 b w' -> attempts fd (S n) buf w b w'.

Definition loads (fd : Z) (t : dm_table) (w : World) (b : bool) (w' : World) : Prop :=
  exists buf, length buf = DM_CRYPT_BUF_SIZE /\ parse_table buf = t /\ attempts fd TABLE_LOAD_RETRIES buf w b w'.

(** The node of the device the kernel reports in [io]. *)
Definition dm_dev (io : list Z) : Z := field dm_ioctl.dev 8 io.
Definition dm_minor (io : list Z) : Z :=
  u32 (Z.lor (Z.land (dm_dev io) 0xff) (Z.land (Z.shiftr (dm_dev io) 12) 0xfff00)).
Definition dm_node (io : list Z) : str := codes "/dev/block/dm-" ++ dec (dm_minor io).

Definition made (e : Z) : Prop := e = 0 \/ e = - LKL_EEXIST.

(** Setting up the device [name] with the table [t], from a state of the
    kernel: the result, the node, and the state after. *)
Inductive sets_up (fd : Z) (t : dm_table) (name : str) : World -> Z * option str -> World -> Prop :=
| su_create w ret io w1 :
    asks fd LKL_DM_DEV_CREATE_CMD name w ret io w1 -> ret <> 0 -> sets_up fd t name w (-1, None) w1
| su_status w io1 w1 ret io w2 :
    asks fd LKL_DM_DEV_CREATE_CMD name w 0 io1 w1 ->
    asks fd LKL_DM_DEV_STATUS_CMD name w1 ret io w2 -> ret <> 0 -> sets_up fd t name w (-1, None) w2
| su_node w io1 w1 io w2 e w3 :
    asks fd LKL_DM_DEV_CREATE_CMD name w 0 io1 w1 -> asks fd LKL_DM_DEV_STATUS_CMD name w1 0 io w2 ->
    lkl_sys_mknod (dm_node io) (Z.lor LKL_S_IFBLK 384) (dm_dev io) w2 = (e, w3) -> ~ made e ->
    sets_up fd t name w (e, Some (dm_node io)) w3
| su_table w io1 w1 io w2 e w3 w4 :
    asks fd LKL_DM_DEV_CREATE_CMD name w 0 io1 w1 -> asks fd LKL_DM_DEV_STATUS_CMD name w1 0 io w2 ->
    lkl_sys_mknod (dm_node io) (Z.lor LKL_S_IFBLK 384) (dm_dev io) w2 = (e, w3) -> made e ->
    loads fd t w3 false w4 -> sets_up fd t name w (e, Some (dm_node io)) w4
| su_resume w io1 w1 io w2 e w3 w4 ret io5 w5 :
    asks fd LKL_DM_DEV_CREATE_CMD name w 0 io1 w1 -> asks fd LKL_DM_DEV_STATUS_CMD name w1 0 io w2 ->
    lkl_sys_mknod (dm_node io) (Z.lor LKL_S_IFBLK 384) (dm_dev io) w2 = (e, w3) -> made e ->
    loads fd t w3 true w4 -> asks fd LKL_DM_DEV_SUSPEND_CMD name w4 ret io5 w5 -> ret <> 0 ->
    sets_up fd t name w (e, Some (dm_node io)) w5
| su_done w io1 w1 io w2 e w3 w4 io5 w5 :
    asks fd LKL_DM_DEV_CREATE_CMD name w 0 io1 w1 -> asks fd LKL_DM_DEV_STATUS_CMD name w1 0 io w2 ->
    lkl_sys_mknod (dm_node io) (Z.lor LKL_S_IFBLK 384) (dm_dev io) w2 = (e, w3) -> made e ->
    loads fd t w3 true w4 -> asks fd LKL_DM_DEV_SUSPEND_CMD name w4 0 io5 w5 ->
    sets_up fd t name w (0, Some (dm_node io)) w5.

(** The state but for the kernel's part. *)
Definition pool_same (s s' : fstate) : Prop := pool_fails s' = pool_fails s /\ pool_live s' = pool_live s.

Lemma dm_call_ok fd cmd name s : dm_name name ->
  fwp (dm_call fd cmd name) (fun r s' => asks fd cmd name (world s) (fst r) (snd r) (world s') /\ pool_same s s') s.
Proof.
  intros Hn. destruct (ioctl_init_ok name 0 Hn) as (io & E & _ & Hh). unfold dm_call. rewrite E.
  apply fwp_bind, fwp_ret, fwp_sys. split; [|done]. exists io. split; [exact Hh|]. simpl.
  by destruct (lkl_sys_ioctl _ _ _ _) as [[? ?] ?].
Qed.

Lemma table_load_loop_ok n i fd buf s : 0 <= i ->
  fwp (table_load_loop n i fd buf) (fun r s' => pool_same s s' /\ exists b, attempts fd n buf (world s) b (world s') /\
    if b : bool then 0 < r else r = -1) s.
Proof.
  revert i buf s. induction n as [|n IH]; intros i buf s Hi; cbn [table_load_loop].
  - apply fwp_ret. split; [done|]. exists false. split; [constructor|done].
  - apply fwp_bind, fwp_sys. destruct (lkl_sys_ioctl _ _ _ _) as [[ret io] w1] eqn:E. simpl.
    destruct (Z.eqb_spec ret 0) as [->|Hne].
    + apply fwp_ret. split; [done|]. exists true. split; [by eapply at_loaded|lia].
    + eapply fwp_mono; [apply IH; lia|]. intros r s' (Hp & b & Ha & Hb). split; [exact Hp|].
      exists b. split; [by eapply at_retry|done].
Qed.

Lemma length_udec fuel n acc : (length (udec fuel n acc) <= fuel + length acc)%nat.
Proof.
  revert n acc. induction fuel as [|f IH]; intros n acc; cbn [udec]; [lia|].
  destruct (_ =? 0); [simpl; lia|]. etrans; [apply IH|]. simpl. lia.
Qed.

Lemma node_fits io :
  take (Z.to_nat (MAXPATHLEN - 1)) (codes "/dev/block/dm-" ++ dec (dm_minor io)) = dm_node io.
Proof.
  apply take_ge. pose proof MAXPATHLEN_min. pose proof (length_udec 10 (dm_minor io) []) as Hl.
  unfold dm_node, dec. rewrite length_app. change (length (codes "/dev/block/dm-")) with 14%nat. cbn [length] in Hl. lia.
Qed.

Lemma create_on_ok fd ftr key real name addr junk s :
  table_args_ok ftr key real name junk -> (length key <= 64)%nat ->
  fwp (create_on fd ftr key real name addr junk) (fun r s' =>
    sets_up fd (crypt_table ftr key real name) name (world s) r (world s') /\ pool_same s s') s.
Proof.
  intros Hargs Hk. pose proof (ta_name _ _ _ _ _ Hargs) as Hn. unfold create_on. apply fwp_bind.
  eapply fwp_mono; [by apply dm_call_ok|]. intros [ret io1] s1 [H1 P1]. cbn [fst snd] in *.
  destruct (Z.eqb_spec ret 0) as [->|Hne]; cbn [negb]; [|apply fwp_ret; split; [by eapply su_create|done]].
  apply fwp_bind. eapply fwp_mono; [by apply dm_call_ok|]. intros [ret io] s2 [H2 P2]. cbn [fst snd] in *.
  destruct (Z.eqb_spec ret 0) as [->|Hne]; cbn [negb]; cycle 1.
  { apply fwp_ret. split; [by eapply su_status|]. unfold pool_same in *. naive_solver congruence. }
  cbv zeta. pose proof (node_fits io) as En. unfold dm_node, dm_minor, dm_dev in En.
  rewrite En. clear En. fold (dm_dev io). fold (dm_minor io). fold (dm_node io).
  apply fwp_bind, fwp_sys. destruct (lkl_sys_mknod _ _ _ _) as [e w3] eqn:E3. cbn [fst snd].
  set (s3 := mk_fstate w3 (pool_fails s2) (pool_live s2)).
  assert (P3 : pool_same s s3) by (unfold pool_same in *; simpl; naive_solver congruence).
  destruct (decide (made e)) as [He|He]; cycle 1.
  { assert (Hb : negb (e =? 0) && negb (e =? - LKL_EEXIST) = true).
    { unfold made in He. destruct (Z.eqb_spec e 0), (Z.eqb_spec e (- LKL_EEXIST)); naive_solver. }
    rewrite Hb. apply fwp_ret. split; [by eapply su_node|done]. }
  assert (Hb : negb (e =? 0) && negb (e =? - LKL_EEXIST) = false).
  { destruct He as [->| ->]; [done|]. rewrite Z.eqb_refl. by rewrite andb_false_r. }
  rewrite Hb. clear Hb. unfold load_crypto_mapping_table.
  destruct (table_buffer_ok ftr key real name addr junk Hargs Hk) as (buf & Eb & Lb & Ht). rewrite Eb.
  apply fwp_bind, fwp_bind, fwp_ret. eapply fwp_mono; [apply table_load_loop_ok; lia|].
  intros r s4 (P4 & b & Ha & Hr). assert (Hl : loads fd (crypt_table ftr key real name) (world s3) b (world s4))
    by by exists buf.
  assert (P4' : pool_same s s4) by (unfold pool_same in *; naive_solver congruence).
  destruct b; cycle 1.
  { subst r. apply fwp_ret. split; [by eapply su_table|done]. }
  rewrite (proj2 (Z.ltb_ge r 0)) by lia.
  apply fwp_bind. eapply fwp_mono; [by apply dm_call_ok|]. intros [ret io5] s5 [H5 P5]. cbn [fst snd] in *.
  assert (P5' : pool_same s s5) by (unfold pool_same in *; naive_solver congruence).
  destruct (Z.eqb_spec ret 0) as [->|Hne]; cbn [negb]; apply fwp_ret; (split; [|done]).
  - by eapply su_done.
  - by eapply su_resume.
Qed.
End protocol.

(** ** Properties *)

Section properties.
Context `{LklBlk}.

(** C10: the table of an encrypted volume survives its encoding: for a key of
    at most 64 bytes and names that fit, the bytes passed to the device mapper
    read back as one "crypt" target over the whole device, with the cipher,
    the device and the key; decoding the key's text gives the key. *)
Theorem dm_table_roundtrip ftr key real name addr junk :
  table_args_ok ftr key real name junk -> (length key <= 64)%nat ->
  exists buf, table_buffer ftr key real name [] addr junk = Some buf /\
    length buf = DM_CRYPT_BUF_SIZE /\ parse_table buf = crypt_table ftr key real name /\
    unhex <$> t_args (parse_table buf) !! 1%nat = Some key.
Proof.
  intros Hargs Hk. destruct (table_buffer_ok ftr key real name addr junk Hargs Hk) as (buf & E & Hl & Hp).
  exists buf. do 3 (split; [done|]). rewrite Hp. simpl. by rewrite unhex_hex by apply Hargs.
Qed.

(** A byte buffer of four bytes is a 32-bit number. *)
Lemma le_val_range l : Forall is_byte l -> 0 <= le_val l < 256 ^ Z.of_nat (length l).
Proof.
  unfold is_byte. induction 1 as [|b l Hb _ IH]; [by vm_compute|]. cbn [le_val length].
  rewrite Nat2Z.inj_succ, Z.pow_succ_r by lia. lia.
Qed.

Definition ext_volume (key : list Z) (sectors : Z) : crypt_mnt_ftr :=
  mk_ftr (Z.of_nat (length key)) sectors (codes "aes-cbc-essiv:sha256").

Record setup_args_ok (label real : str) (key : list Z) (junk_sec junk : list Z) : Prop := {
  sa_key : Forall is_byte key;
  sa_nonempty : key <> [];
  sa_label : dm_name label;
  sa_real : word real /\ (length real <= 3000)%nat;
  sa_sec : length junk_sec = 4%nat /\ Forall is_byte junk_sec;
  sa_junk : length junk = 129%nat
}.

Lemma setup_table_args label real key junk_sec junk n :
  setup_args_ok label real key junk_sec junk -> 0 <= n < 2 ^ 64 ->
  table_args_ok (ext_volume key n) key real label junk.
Proof.
  intros [] Hn. constructor; try done. split; [|by apply Nat.leb_le].
  split; [done|]. by repeat constructor.
Qed.

(** The abstract outcome of [cryptfs_setup_ext_volume] from [w]. *)
Definition setup_outcome (label real : str) (key junk_sec : list Z) (w : World)
    (r : Z * option str) (w' : World) : Prop :=
  let (fd, w1) := lkl_sys_open real (Z.lor LKL_O_RDONLY LKL_O_CLOEXEC) 0 w in
  if fd =? -1 then r = (-1, None) /\ w' = w1
  else
    let '((ret, sec), w2) := lkl_sys_ioctl fd LKL_BLKGETSIZE junk_sec w1 in
    let w3 := snd (lkl_sys_close fd w2) in
    let sectors := if ret =? -1 then 0 else le_val sec in
    if sectors =? 0 then r = (-1, None) /\ w' = w3
    else
      let (fd, w4) := lkl_sys_open DEVMAPPER_CONTROL_FILE LKL_O_RDWR 0 w3 in
      exists w5, w' = snd (lkl_sys_close fd w5) /\
        if fd <? 0 then r = (-1, None) /\ w5 = w4
        else sets_up fd (crypt_table (ext_volume key sectors) key real label) label w4 r w5.

Lemma cryptfs_setup_ok label real key addr junk_sec junk s :
  setup_args_ok label real key junk_sec junk -> (length key <= 64)%nat ->
  fwp (cryptfs_setup_ext_volume label real key (Z.of_nat (length key)) addr junk_sec junk)
    (fun r s' => setup_outcome label real key junk_sec (world s) r (world s') /\ pool_same s s') s.
Proof.
  intros Ha Hk. unfold cryptfs_setup_ext_volume, setup_outcome. apply fwp_bind, fwp_sys.
  destruct (lkl_sys_open real _ _ _) as [fd w1]. cbn [fst snd].
  destruct (fd =? -1); [by apply fwp_ret|]. unfold get_blkdev_size.
  apply fwp_bind, fwp_bind, fwp_sys. cbn [world].
  pose proof (lkl_ioctl_len fd LKL_BLKGETSIZE junk_sec w1) as Hlen.
  pose proof (lkl_ioctl_bytes fd LKL_BLKGETSIZE junk_sec w1 (proj2 (sa_sec _ _ _ _ _ Ha))) as Hby.
  destruct (lkl_sys_ioctl fd LKL_BLKGETSIZE junk_sec w1) as [[ret sec] w2]. cbn [fst snd] in *.
  apply fwp_ret, fwp_bind, fwp_sys. cbn [world].
  destruct (_ =? 0) eqn:E0; [by apply fwp_ret|].
  set (n := if ret =? -1 then 0 else le_val sec) in *.
  assert (Hn : 0 <= n < 2 ^ 64).
  { apply le_val_range in Hby. rewrite Hlen, (proj1 (sa_sec _ _ _ _ _ Ha)) in Hby.
    change (256 ^ Z.of_nat 4) with (2 ^ 32) in Hby. unfold n. destruct (ret =? -1); lia. }
  rewrite u32_small by lia. fold (ext_volume key n). unfold create_crypto_blk_dev.
  apply fwp_bind, fwp_sys. cbn [world]. destruct (lkl_sys_open DEVMAPPER_CONTROL_FILE _ _ _) as [fd' w4]. cbn [fst snd].
  apply fwp_bind. destruct (fd' <? 0).
  - apply fwp_ret, fwp_bind, fwp_sys, fwp_ret. split; [by eexists|done].
  - eapply fwp_mono; [apply create_on_ok; [by eapply setup_table_args|done]|].
    intros r s5 [Hs Hp]. apply fwp_bind, fwp_sys, fwp_ret. split; [|exact Hp].
    exists (world s5). split; [done|exact Hs].
Qed.

(** C9: setting up an encrypted volume implements the protocol of the device
    mapper: with a key of at most 64 bytes it ends without a bad access, both
    descriptors are closed, no memory is kept, and the kernel is asked, in this
    order and no further than the first failure, to create the device, to give
    its number, to make its node, to load the table (ten times at most), and to
    resume it.  The result is 0 when all was done; it is also 0 when the table
    could not be loaded or the device not be resumed ([su_table],
    [su_resume]). *)
Theorem cryptfs_setup_refines label real key addr junk_sec junk s :
  setup_args_ok label real key junk_sec junk -> (length key <= 64)%nat ->
  fwp (cryptfs_setup_ext_volume label real key (Z.of_nat (length key)) addr junk_sec junk)
    (fun r s' => setup_outcome label real key junk_sec (world s) r (world s') /\ pool_same s s') s.
Proof. apply cryptfs_setup_ok. Qed.

(** *** Keys that do not fit *)

Lemma key_loop_overflow n i a key ascii :
  (a <= length ascii)%nat -> (length ascii < a + 2 * n)%nat -> key_loop n i a key ascii = None.
Proof.
  revert i a ascii. induction n as [|n IH]; intros i a ascii Ha Hn; [lia|]. cbn [key_loop].
  destruct (key !! i) as [k|]; [cbn [mbind option_bind]|done].
  destruct (write a _ ascii) as [a1|] eqn:E1; [cbn [mbind option_bind]|done].
  destruct (write (a + 1) _ a1) as [a2|] eqn:E2; [cbn [mbind option_bind]|done].
  pose proof (write_length _ _ _ _ E1) as L1. pose proof (write_length _ _ _ _ E2) as L2.
  apply write_inv in E2 as [E2 _]. cbn [length] in E2. apply IH; lia.
Qed.

(** C34: a key of more than 64 bytes overflows [master_key_ascii] on the stack:
    loading its table is undefined behaviour, whatever the other arguments. *)
Theorem load_table_key_overflow ftr key real name fd extra addr junk s :
  length junk = 129%nat -> 64 < ftr_keysize ftr ->
  load_crypto_mapping_table ftr key real name fd extra addr junk s = FFail FUB.
Proof.
  intros Hj Hk. assert (Hc : convert_key_to_hex_ascii key (ftr_keysize ftr) junk = None).
  { unfold convert_key_to_hex_ascii. by rewrite key_loop_overflow by lia. }
  assert (E : table_buffer ftr key real name extra addr junk = None).
  { unfold table_buffer. rewrite Hc. cbv zeta.
    repeat first [done | match goal with |- (?o ≫= _) = None => destruct o; [cbn [mbind option_bind]|done] end]. }
  unfold load_crypto_mapping_table. by rewrite E.
Qed.
End properties.

(** The directory the kernel mounts the device [n] at. *)
Definition disk_dir (n : Z) : str := codes "/mnt/" ++ pad_hex 8 n.

(** ** A small block layer

    An instance of [LklBlk] on the small Linux, with disks, mounts and mapped
    devices; every device has 2048 sectors. *)

Definition d_disk_add (h : Z) (w : demo_world) : Z * demo_world :=
  let id := Z.of_nat (size (ddisks w)) in
  if (1024 <=? id) || bool_decide (is_Some (ddisks w !! id)) || bool_decide (disk_dir (u32 (0xfe00 + id)) ∈ dmounts w)
  then (-12, w) else
  (id, mk_dworld (nodes w) (fds w) (dirpos w) (dmounts w) (<[id := h]> (ddisks w)) (ddms w) (dbound w) (dstreams w)).
Definition d_disk_remove (h id : Z) (w : demo_world) : unit * demo_world :=
  (tt, mk_dworld (nodes w) (fds w) (dirpos w) (dmounts w) (delete id (ddisks w)) (ddms w) (dbound w) (dstreams w)).
Definition add_mount (mp : str) (w : demo_world) : demo_world :=
  mk_dworld (nodes w) (fds w) (dirpos w) ({[mp]} ∪ dmounts w) (ddisks w) (ddms w) (dbound w) (dstreams w).
Definition d_mount (dev mp fs : str) (flags : Z) (w : demo_world) : Z * demo_world :=
  if decide (mp ∈ dmounts w) then (-16, w) else (0, add_mount mp w).
(** "/mnt/" and the number of the disk *)
Definition d_mount_dev (id part : Z) (fs : str) (flags n : Z) (w : demo_world) : (Z * str) * demo_world :=
  let mp := codes "/mnt/" ++ [48 + id] in
  if decide (mp ∈ dmounts w) then ((-16, []), w) else ((0, mp), add_mount mp w).
Definition d_umount (mp : str) (flags : Z) (w : demo_world) : Z * demo_world :=
  if decide (mp ∈ dmounts w) then
    (0, mk_dworld (nodes w) (fds w) (dirpos w) (dmounts w ∖ {[mp]}) (ddisks w) (ddms w) (dbound w) (dstreams w))
  else (-22, w).
Definition d_mknod (p : str) (mode dev : Z) (w : demo_world) : Z * demo_world :=
  match nodes w !! p with
  | Some _ => (-17, w)
  | None => (0, upd w (<[p := mk_node mode [] [] 0 0]> (nodes w)) (fds w) (dirpos w))
  end.

Definition set_dms (d : gset str) (w : demo_world) : demo_world :=
  mk_dworld (nodes w) (fds w) (dirpos w) (dmounts w) (ddisks w) d (dbound w) (dstreams w).
Definition d_ioctl (fd req : Z) (buf : list Z) (w : demo_world) : (Z * list Z) * demo_world :=
  let name := cstring (bytes_of dm_ioctl.name LKL_DM_NAME_LEN buf) in
  if req =? 0x1260 then ((0, default buf (write 0 (le_bytes 4 2048) buf)), w)
  else if req =? LKL_DM_DEV_CREATE_CMD then
    if decide (name ∈ ddms w) then ((-16, buf), w) else ((0, buf), set_dms ({[name]} ∪ ddms w) w)
  else if negb (bool_decide (name ∈ ddms w)) then ((-6, buf), w)
  else if req =? LKL_DM_DEV_STATUS_CMD then ((0, default buf (write dm_ioctl.dev (le_bytes 8 0xfd00) buf)), w)
  else if req =? LKL_DM_DEV_REMOVE_CMD then ((0, buf), set_dms (ddms w ∖ {[name]}) w)
  else ((0, buf), w).

Ltac d_cases := repeat (match goal with
  | |- context [if ?b then _ else _] => destruct b
  | |- context [match ?x with _ => _ end] => destruct x
  end; cbn [fst snd]).

Lemma d_disk_add_int h w : INT_MIN <= fst (d_disk_add h w) <= INT_MAX.
Proof.
  unfold d_disk_add. destruct (Z.leb_spec 1024 (Z.of_nat (size (ddisks w)))); cbn [orb]; [d_int|].
  destruct (_ || _); cbn [fst]; d_int.
Qed.

Lemma d_ioctl_len fd req b w : length (snd (fst (d_ioctl fd req b w))) = length b.
Proof.
  assert (Hw : forall o bs, length (default b (write o bs b)) = length b).
  { intros o bs. destruct (write o bs b) eqn:E; [by apply write_length in E|done]. }
  unfold d_ioctl. cbv zeta. repeat first [done | apply Hw | case_match; cbn [fst snd]].
Qed.

Lemma le_bytes_bytes n z : Forall is_byte (le_bytes n z).
Proof.
  revert z. induction n as [|n IH]; intros z; constructor; [|apply IH]. apply Z.mod_pos_bound. lia.
Qed.

Lemma write_bytes o bs b : Forall is_byte bs -> Forall is_byte b -> Forall is_byte (default b (write o bs b)).
Proof.
  intros Hs Hb. destruct (write o bs b) eqn:E; [|done]. apply write_inv in E as [_ ->]. simpl.
  apply Forall_app; split; [by apply Forall_take|]. apply Forall_app; split; [done|by apply Forall_drop].
Qed.

Lemma d_ioctl_bytes fd req b w : Forall is_byte b -> Forall is_byte (snd (fst (d_ioctl fd req b w))).
Proof.
  intros Hb. unfold d_ioctl. cbv zeta.
  repeat first [done | apply write_bytes; [apply le_bytes_bytes|done] | case_match; cbn [fst snd]].
Qed.

Lemma d_ioctl_int fd req b w : INT_MIN <= fst (fst (d_ioctl fd req b w)) <= INT_MAX.
Proof. unfold d_ioctl. cbv zeta. repeat (case_match; cbn [fst snd]); d_int. Qed.

#[export] Instance demo_blk : LklBlk := {|
  lkl_disk_add := d_disk_add;
  lkl_disk_remove := d_disk_remove;
  lkl_get_virtio_blkdev id part w := (0, u32 (0xfe00 + id));
  lkl_mount_dev := d_mount_dev;
  lkl_sys_mknod := d_mknod;
  lkl_sys_mount := d_mount;
  lkl_sys_umount := d_umount;
  lkl_sys_ioctl := d_ioctl;
  LKL_IOWR _ nr _ := nr;
  LKL_BLKGETSIZE := 0x1260;
  LKL_O_CLOEXEC := 0x80000;
  LKL_S_IFBLK := 0x6000;
  LKL_S_IFCHR := 0x2000;
  LKL_MS_SYNCHRONOUS := 16;
  LKL_MS_DIRSYNC := 128;
  MAXPATHLEN := 1024;
  lkl_ioctl_len := d_ioctl_len;
  lkl_ioctl_bytes := d_ioctl_bytes;
  MAXPATHLEN_min := ltac:(done);
  lkl_disk_add_int := d_disk_add_int;
  lkl_blkdev_int := ltac:(intros; unfold INT_MIN, INT_MAX; simpl; done);
  lkl_blkdev_id := ltac:(intros; apply u32_range);
  lkl_mount_dev_int := ltac:(intros; unfold d_mount_dev; case_decide; d_int);
  lkl_mknod_int := ltac:(intros; unfold d_mknod; case_match; d_int);
  lkl_mount_int := ltac:(intros; unfold d_mount; case_decide; d_int);
  lkl_ioctl_int := d_ioctl_int
|}.

(** ** Witnesses *)

Definition demo_key : list Z := [0x00; 0x9A; 0xBC; 0xFF].
Definition demo_dev : str := codes "/dev/0000FE00".
Definition demo_label : str := codes "lkl-0000FE00".
Definition junk_text : list Z := replicate 129 7.
Definition demo_dm : fstate :=
  demo_state [(demo_dev, demo_file []); (DEVMAPPER_CONTROL_FILE, demo_file [])].

Lemma all_bytes l : forallb (fun b => (0 <=? b) && (b <? 256)) l = true -> Forall is_byte l.
Proof. intros Hl. apply Forall_forall. intros b Hb. apply (forallb_in _ _ _ Hl) in Hb. unfold is_byte. lia. Qed.

Lemma text_of s : forallb (fun c => negb (c =? 0)) s = true -> text s.
Proof. intros Hl. apply Forall_forall. intros b Hb. apply (forallb_in _ _ _ Hl) in Hb. lia. Qed.

Lemma word_of s : s <> [] -> forallb (fun c => negb (c =? 0) && negb (c =? 32)) s = true -> word s.
Proof.
  intros Hs Hl. split; [done|]. apply Forall_forall. intros b Hb. apply (forallb_in _ _ _ Hl) in Hb.
  lia.
Qed.

Lemma demo_setup_args : setup_args_ok demo_label demo_dev demo_key [7; 7; 7; 7] junk_text.
Proof.
  constructor; [by apply all_bytes|done| | |split; [done|by apply all_bytes]|done].
  - split; [by apply text_of|]. apply Nat.ltb_lt. by vm_compute.
  - split; [by apply word_of|]. apply Nat.leb_le. by vm_compute.
Qed.

Lemma dm_table_roundtrip_witness :
  exists buf, table_buffer (ext_volume demo_key 2048) demo_key demo_dev demo_label [] 0x8000 junk_text = Some buf /\
    unhex <$> t_args (parse_table buf) !! 1%nat = Some demo_key.
Proof.
  destruct (dm_table_roundtrip (ext_volume demo_key 2048) demo_key demo_dev demo_label 0x8000 junk_text)
    as (buf & E & _ & _ & Hk); [by eapply setup_table_args; [exact demo_setup_args|]|apply Nat.leb_le; by vm_compute|].
  exists buf. split; [exact E|exact Hk].
Defined.

(** Everything succeeds: the node of minor number 0 is made. *)
Lemma cryptfs_setup_refines_witness :
  match cryptfs_setup_ext_volume demo_label demo_dev demo_key 4 0x8000 [7; 7; 7; 7] junk_text demo_dm with
  | FDone (r, n) s => (r, n, bool_decide (demo_label ∈ ddms (world s)), size (fds (world s))) | FFail _ => (1, None, false, 0%nat)
  end = (0, Some (codes "/dev/block/dm-0"), true, 0%nat) /\
  fwp (cryptfs_setup_ext_volume demo_label demo_dev demo_key 4 0x8000 [7; 7; 7; 7] junk_text)
    (fun r s' => setup_outcome demo_label demo_dev demo_key [7; 7; 7; 7] (world demo_dm) r (world s')
       /\ pool_same demo_dm s') demo_dm.
Proof.
  split; [by vm_compute|].
  apply (cryptfs_setup_refines demo_label demo_dev demo_key 0x8000 [7; 7; 7; 7] junk_text demo_dm demo_setup_args).
  apply Nat.leb_le. by vm_compute.
Defined.

Lemma load_table_key_overflow_witness :
  load_crypto_mapping_table (mk_ftr 65 2048 (codes "aes")) (replicate 65 0) demo_dev demo_label 3 [] 0x8000
    junk_text demo_dm = FFail FUB.
Proof. apply load_table_key_overflow; [by vm_compute|done]. Defined.

(** [next] is meant to be the 8-byte boundary behind the parameters: [& ~8]
    takes it back into their text, which ends at 401. *)
Lemma next_inside_text :
  (fun buf => (field (dm_ioctl.size + dm_target_spec.next) 4 buf, (352 + length (cstring (drop 352 buf)) + 1)%nat)) <$>
    table_buffer (ext_volume demo_key 2048) demo_key demo_dev demo_label [] 0x8000 junk_text = Some (400, 401%nat).
Proof. by vm_compute. Qed.
