(* ===== verification/Volume.v ===== *)
(** * Volumes ([Init.c], [GetFileFromAnyPartition] and the lock of [Misc.c])

    A volume is set up on a device handle: for an encrypted partition the key
    is read from a file on another partition and a decrypted device is made
    first; then the file system is mounted in LKL and the file system protocol
    is installed on the handle.  The services of the firmware are the
    operations of a type class over the same world as the system calls. *)

From stdpp Require Import strings.
From S2P Require Import Prelude Efi Lkl Errors Path DemoFs FsId File Dm.

(** A node of a device path; of a hard drive node, the signature. *)
Record dp_node := mk_dp {
  DevicePathType : Z; DevicePathSubType : Z; SignatureType : Z; Signature : list Z }.

Definition MEDIA_DEVICE_PATH : Z := 4.
Definition MEDIA_HARDDRIVE_DP : Z := 1.
Definition SIGNATURE_TYPE_GUID : Z := 2.

(** Handles and file protocols of other drivers are numbers. *)
Class Firmware `{LklSys} := {
  (** the partition name protocol of a handle: status and name *)
  PartitionName : Z -> World -> Z * str;
  (** the nodes of the device path before the end node *)
  DevicePathFromHandle : Z -> World -> option (list dp_node);
  (** the handles with a file system, and whether a handle has one *)
  LocateSfsHandles : World -> Z * list Z;
  HandleSfs : Z -> World -> Z;
  SfsOpenVolume : Z -> World -> (Z * Z) * World;
  (** file, name, mode, attributes: status and new file *)
  FileOpen : Z -> str -> Z -> Z -> World -> (Z * Z) * World;
  FileRead : Z -> Z -> World -> (Z * list Z) * World;
  FileHandleGetSize : Z -> World -> (Z * Z) * World;
  FileHandleClose : Z -> World -> unit * World;
  InstallSfs : Z -> World -> Z * World;
  UninstallSfs : Z -> World -> Z * World;
  (** A file is read within the buffer; its size is a [UINT64]. *)
  FileRead_len : forall f n w, 0 <= n -> Z.of_nat (length (snd (fst (FileRead f n w)))) <= n;
  FileRead_bytes : forall f n w, Forall is_byte (snd (fst (FileRead f n w)));
  FileHandleGetSize_range : forall f w, 0 <= snd (fst (FileHandleGetSize f w)) < 2 ^ 64
}.

(** The locks of the EDK2 library; [None]: an assertion fails. *)
Class EdkLock := {
  EFI_LOCK : Type;
  lock_held : EFI_LOCK -> bool;
  EfiAcquireLock : EFI_LOCK -> option EFI_LOCK;
  EfiAcquireLockOrFail : EFI_LOCK -> Z * EFI_LOCK;
  EfiReleaseLock : EFI_LOCK -> option EFI_LOCK;
  lock_held_fails : forall l, lock_held l = true -> EfiAcquireLockOrFail l = (EFI_ACCESS_DENIED, l);
  lock_free_taken : forall l, lock_held l = false ->
    exists l', EfiAcquireLockOrFail l = (EFI_SUCCESS, l') /\ lock_held l' = true;
  lock_released : forall l, lock_held l = true -> exists l', EfiReleaseLock l = Some l' /\ lock_held l' = false
}.

Section locks.
Context `{LklSys} `{EdkLock}.

Definition edk_assert {A} (o : option A) : FM A := match o with Some a => mret a | None => ffail FAssert end.

Definition LKLAcquireLock (LKLFsLock : EFI_LOCK) : FM EFI_LOCK := edk_assert (EfiAcquireLock LKLFsLock).
Definition LKLAcquireLockOrFail (LKLFsLock : EFI_LOCK) : FM (Z * EFI_LOCK) :=
  mret (EfiAcquireLockOrFail LKLFsLock).
Definition LKLReleaseLock (LKLFsLock : EFI_LOCK) : FM EFI_LOCK := edk_assert (EfiReleaseLock LKLFsLock).
End locks.

Definition fmt (s : String.string) : list fmt_piece := Pc <$> codes s.

Section volume.
Context `{LklBlk} `{!EdkStrings} `{!Firmware}.

(** *** Looking for a file *)

(** A buffer the firmware allocates for the driver. *)
Definition handle_buffer : FM unit := fun s =>
  FDone tt (mk_fstate (world s) (pool_fails s) (pool_live s + 1)).

Fixpoint partitions_loop (Path : str) (handles : list Z) : FM (option Z) :=
  match handles with
  | [] => mret None
  | h :: handles' =>
      Status ← query (HandleSfs h);
      if EFI_ERROR Status then partitions_loop Path handles'
      else
        Status ← query (HandleSfs h);
        if EFI_ERROR Status then partitions_loop Path handles'
        else
          r ← sys (SfsOpenVolume h);
          let (Status, Root) := (r : Z * Z) in
          if EFI_ERROR Status then partitions_loop Path handles'
          else
            r ← sys (FileOpen Root Path EFI_FILE_MODE_READ 0);
            let (Status, NewHandle) := (r : Z * Z) in
            _ ← sys (FileHandleClose Root);
            if negb (EFI_ERROR Status) then mret (Some NewHandle)
            else partitions_loop Path handles'
  end.

Definition GetFileFromAnyPartition (Path : str) : FM (Z * option Z) :=
  r ← query LocateSfsHandles;
  let (Status, HandleBuffer) := (r : Z * list Z) in
  if EFI_ERROR Status then mret (Status, None)
  else
    handle_buffer;;
    Found ← partitions_loop Path HandleBuffer;
    FreePool;;
    match (Found : option Z) with
    | Some NewHandle => mret (EFI_SUCCESS, Some NewHandle)
    | None => mret (EFI_NOT_FOUND, None)
    end.

(** *** The location of the key *)

Fixpoint harddrive_node (nodes : list dp_node) : option dp_node :=
  match nodes with
  | [] => None
  | Node :: nodes' =>
      if (DevicePathType Node =? MEDIA_DEVICE_PATH) && (DevicePathSubType Node =? MEDIA_HARDDRIVE_DP)
      then Some Node else harddrive_node nodes'
  end.

(** The format of the path, with the fields of the GUID. *)
Definition key_format (guid : list Z) : list fmt_piece :=
  fmt "\misc\vold\expand_" ++
  [Px 8 (field 0 4 guid); Px 4 (field 4 2 guid); Px 4 (field 6 2 guid)] ++
  (Px 2 <$> bytes_of 8 8 guid) ++ fmt ".key".

Definition LKLGetKeyLocation (Handle OutPathSize : Z) : FM (Z * option str) :=
  DevPath ← query (DevicePathFromHandle Handle);
  match (DevPath : option (list dp_node)) with
  | None => mret (EFI_INVALID_PARAMETER, None)
  | Some nodes =>
      match harddrive_node nodes with
      | None => mret (EFI_INVALID_PARAMETER, None)
      | Some Hd =>
          if SignatureType Hd =? SIGNATURE_TYPE_GUID then
            mret (EFI_SUCCESS, Some (UnicodeToLower (UnicodeSPrint OutPathSize (key_format (Signature Hd)) [])))
          else mret (EFI_INVALID_PARAMETER, None)
      end
  end.

(** *** [LKLAllocateVolume] *)

Definition set_LKLDiskId (i : Z) (V : LKL_VOLUME) : LKL_VOLUME :=
  mk_volume (Valid V) (MediaId V) (ReadOnly V) i (LKLMountPoint V) (FsType V) (IsEncrypted V)
    (LKLBlkDevice V) (LKLBlkDeviceDecrypted V) (LKLCryptFSName V).
Definition set_LKLMountPoint (s : str) (V : LKL_VOLUME) : LKL_VOLUME :=
  mk_volume (Valid V) (MediaId V) (ReadOnly V) (LKLDiskId V) s (FsType V) (IsEncrypted V)
    (LKLBlkDevice V) (LKLBlkDeviceDecrypted V) (LKLCryptFSName V).
Definition set_LKLBlkDevice (s : str) (V : LKL_VOLUME) : LKL_VOLUME :=
  mk_volume (Valid V) (MediaId V) (ReadOnly V) (LKLDiskId V) (LKLMountPoint V) (FsType V) (IsEncrypted V)
    s (LKLBlkDeviceDecrypted V) (LKLCryptFSName V).
Definition set_LKLBlkDeviceDecrypted (s : str) (V : LKL_VOLUME) : LKL_VOLUME :=
  mk_volume (Valid V) (MediaId V) (ReadOnly V) (LKLDiskId V) (LKLMountPoint V) (FsType V) (IsEncrypted V)
    (LKLBlkDevice V) s (LKLCryptFSName V).
Definition set_LKLCryptFSName (s : str) (V : LKL_VOLUME) : LKL_VOLUME :=
  mk_volume (Valid V) (MediaId V) (ReadOnly V) (LKLDiskId V) (LKLMountPoint V) (FsType V) (IsEncrypted V)
    (LKLBlkDevice V) (LKLBlkDeviceDecrypted V) s.
Definition set_Valid (b : bool) (V : LKL_VOLUME) : LKL_VOLUME :=
  mk_volume b (MediaId V) (ReadOnly V) (LKLDiskId V) (LKLMountPoint V) (FsType V) (IsEncrypted V)
    (LKLBlkDevice V) (LKLBlkDeviceDecrypted V) (LKLCryptFSName V).

(** [junk n]: [n] bytes of uninitialised memory. *)
Variable junk : nat -> list Z.

(** The first part: an early [return], a jump to the clean-up with the key and
    its file, or what goes on to the second part. *)
Inductive key_phase :=
| KReturn (Status : Z)
| KDone (Status KeyFile : Z)
| KNext (key : option (Z * list Z * Z)).

Definition volume_key (Handle : Z) : FM key_phase :=
  pn ← query (PartitionName Handle);
  let (Status, Name) := (pn : Z * str) in
  if EFI_ERROR Status || negb (bool_decide (Name = codes "android_expand")) then mret (KNext None)
  else
    kl ← LKLGetKeyLocation Handle 200;
    let (Status, KeyLocation) := (kl : Z * option str) in
    if EFI_ERROR Status then mret (KReturn Status)
    else
      kf ← GetFileFromAnyPartition (default [] KeyLocation);
      let (Status, KeyFile) := (kf : Z * option Z) in
      if EFI_ERROR Status then mret (KReturn EFI_NOT_READY)
      else
        let KeyFile := default 0 KeyFile in
        sz ← sys (FileHandleGetSize KeyFile);
        let (Status, KeyFileSize) := (sz : Z * Z) in
        if EFI_ERROR Status then mret (KReturn Status)
        else
          Key ← AllocatePool;
          if negb (Key : bool) then mret (KReturn EFI_OUT_OF_RESOURCES)
          else
            let BufferSize := u32 KeyFileSize in
            rd ← sys (FileRead KeyFile BufferSize);
            let (Status, bytes) := (rd : Z * list Z) in
            if EFI_ERROR Status then mret (KDone Status KeyFile)
            else mret (KNext (Some (KeyFile, overlay bytes (junk (Z.to_nat BufferSize)), KeyFileSize))).

(** [addr]: the address of the buffer in [load_crypto_mapping_table]. *)
(** The decrypted device: its file system is recognised and mounted. *)
Definition mount_decrypted (V : LKL_VOLUME) (DevId : Z) (FsType : str) : FM (Z * LKL_VOLUME) :=
  r ← GetFsTypeLKL (LKLBlkDeviceDecrypted V) (junk 1024);
  let (Status, fs) := (r : Z * option str) in
  if EFI_ERROR Status then mret (Status, V)
  else
    let FsType := default FsType fs in
    let V := set_LKLMountPoint (AsciiSPrint 32 (fmt "/mnt/" ++ [Px 8 DevId]) []) V in
    Status ← LKLMakeDir (LKLMountPoint V);
    if EFI_ERROR Status then mret (Status, V)
    else
      Ret ← sys (lkl_sys_mount (LKLBlkDeviceDecrypted V) (LKLMountPoint V) FsType
                   (Z.lor LKL_MS_SYNCHRONOUS LKL_MS_DIRSYNC));
      if Ret <? 0 then mret (LKLError2EfiError Ret, V) else mret (Status, V).

Definition mount_encrypted (V : LKL_VOLUME) (Key : list Z) (KeyFileSize addr : Z) (FsType : str)
    : FM (Z * LKL_VOLUME) :=
  r ← query (lkl_get_virtio_blkdev (LKLDiskId V) 0);
  let (Ret, DevId) := (r : Z * Z) in
  if Ret <? 0 then mret (LKLError2EfiError Ret, V)
  else
    let V := set_LKLBlkDevice (AsciiSPrint MAXPATHLEN (fmt "/dev/" ++ [Px 8 DevId]) []) V in
    Ret ← sys (lkl_sys_mknod (LKLBlkDevice V) (Z.lor LKL_S_IFBLK 384) DevId);
    if Ret <? 0 then mret (LKLError2EfiError Ret, V)
    else
      let V := set_LKLCryptFSName (AsciiSPrint 1024 (fmt "lkl-" ++ [Px 8 DevId]) []) V in
      r ← cryptfs_setup_ext_volume (LKLCryptFSName V) (LKLBlkDevice V) Key (s32 KeyFileSize) addr
            (junk 4) (junk 129);
      let (Ret, out) := (r : Z * option str) in
      let V := set_LKLBlkDeviceDecrypted (default (LKLBlkDeviceDecrypted V) out) V in
      if Ret <? 0 then mret (LKLError2EfiError Ret, V) else mount_decrypted V DevId FsType.

Definition mount_plain (V : LKL_VOLUME) : FM (Z * LKL_VOLUME) :=
  r ← sys (lkl_mount_dev (LKLDiskId V) 0 (FsType V) (Z.lor LKL_MS_SYNCHRONOUS LKL_MS_DIRSYNC) 32);
  let (Ret, mp) := (r : Z * str) in
  let V := set_LKLMountPoint mp V in
  mret (if Ret <? 0 then LKLError2EfiError Ret else EFI_SUCCESS, V).

Definition LKLFreeVolume : FM unit := FreePool.

(** The clean-up behind [Done] when the status is an error. *)
Definition volume_undo (Handle : Z) (V : LKL_VOLUME) : FM unit :=
  fwhen (negb (bool_decide (LKLMountPoint V = []))) (_ ← sys (lkl_sys_umount (LKLMountPoint V) 0); mret tt);;
  fwhen (IsEncrypted V)
    (fwhen (negb (bool_decide (LKLCryptFSName V = []))) (_ ← cryptfs_revert_ext_volume (LKLCryptFSName V); mret tt);;
     fwhen (negb (bool_decide (LKLBlkDevice V = []))) (_ ← sys (lkl_sys_unlink (LKLBlkDevice V)); mret tt));;
  fwhen (0 <=? LKLDiskId V) (sys (lkl_disk_remove Handle (LKLDiskId V)));;
  LKLFreeVolume.

Definition key_release (KeyFile : Z) : FM unit :=
  FreePool;; _ ← sys (FileHandleClose KeyFile); mret tt.

(** From the registration of the disk to the installation of the protocol. *)
Definition volume_start (Handle : Z) (V : LKL_VOLUME) (Key : option (Z * list Z * Z)) (addr : Z)
    : FM (Z * LKL_VOLUME) :=
  Ret ← sys (lkl_disk_add Handle);
  if (Ret : Z) <? 0 then mret (LKLError2EfiError Ret, V)
  else
    let V := set_LKLDiskId Ret V in
    r ← match Key with
        | Some (_, Key, KeyFileSize) => mount_encrypted V Key KeyFileSize addr (FsType V)
        | None => mount_plain V
        end;
    let (Status, V) := (r : Z * LKL_VOLUME) in
    if EFI_ERROR Status then mret (Status, V)
    else
      Status ← sys (InstallSfs Handle);
      if EFI_ERROR Status then mret (Status, V) else mret (Status, set_Valid true V).

Definition volume_zero (MediaId : Z) (ReadOnly : bool) (FsType : str) (IsEncrypted : bool) : LKL_VOLUME :=
  mk_volume false MediaId ReadOnly (-1) [] FsType IsEncrypted [] [] [].

(** [ReadDisk]: Disk I/O on the handle; [junk_FsType]: what the uninitialised
    [FsType] of an encrypted volume points to.  The volume that is left, when
    there is one. *)
Definition LKLAllocateVolume (Handle : Z) (ReadDisk : Z -> Z -> Z * list Z) (MediaId : Z) (ReadOnly : bool)
    (junk_FsType : str) (addr : Z) : FM (Z * option LKL_VOLUME) :=
  k ← volume_key Handle;
  match (k : key_phase) with
  | KReturn Status => mret (Status, None)
  | KDone Status KeyFile => key_release KeyFile;; mret (Status, None)
  | KNext Key =>
      fs ← (if Key then mret (EFI_SUCCESS, Some junk_FsType) else lift (GetFsType ReadDisk (junk 1024)));
      let (Status, FsType) := (fs : Z * option str) in
      if EFI_ERROR Status then mret (EFI_UNSUPPORTED, None)
      else
        Volume ← AllocatePool;
        if negb (Volume : bool) then mret (EFI_OUT_OF_RESOURCES, None)
        else
          r ← volume_start Handle
                (volume_zero MediaId ReadOnly (default [] FsType) (bool_decide (is_Some Key))) Key addr;
          let (Status, V) := (r : Z * LKL_VOLUME) in
          fwhen (EFI_ERROR Status) (volume_undo Handle V);;
          match Key with Some (KeyFile, _, _) => key_release KeyFile | None => mret tt end;;
          mret (Status, if EFI_ERROR Status then None else Some V)
  end.

(** *** [LKLAbandonVolume] *)

Definition LKLAbandonVolume `{!EdkLock} (LKLFsLock : EFI_LOCK) (Handle : Z) (V : LKL_VOLUME)
    : FM (Z * LKL_VOLUME * EFI_LOCK) :=
  Status ← (if Handle =? 0 then mret EFI_SUCCESS else sys (UninstallSfs Handle));
  if negb (Handle =? 0) && EFI_ERROR Status then mret (Status, V, LKLFsLock)
  else
    r ← LKLAcquireLockOrFail LKLFsLock;
    let (Status, LKLFsLock) := (r : Z * EFI_LOCK) in
    let LockedByMe := negb (EFI_ERROR Status) in
    let V := set_Valid false V in
    LKLFsLock ← (if LockedByMe then LKLReleaseLock LKLFsLock else mret LKLFsLock);
    mret (EFI_SUCCESS, V, LKLFsLock).
End volume.

(** ** What the driver relies on *)

(** The mounts and the disks of the kernel.  Only the mount and disk calls
    change them; a new disk gets a number no other disk has; a call that fails
    mounts and unmounts nothing. *)
Class LklMounts `{LklBlk} `{!Firmware} := {
  mounts : World -> gset str;
  (** the handles of the disks by their numbers *)
  disks : World -> gmap Z Z;
  (** the protocols the driver has open: protocol and controller *)
  bound : World -> gset (Z * Z);
  vol_same w w' := mounts w' = mounts w /\ disks w' = disks w /\ bound w' = bound w;
  vs_open : forall p f m w, vol_same w (snd (lkl_sys_open p f m w));
  vs_close : forall fd w, vol_same w (snd (lkl_sys_close fd w));
  vs_read : forall fd n w, vol_same w (snd (lkl_sys_read fd n w));
  vs_lseek : forall fd o h w, vol_same w (snd (lkl_sys_lseek fd o h w));
  vs_mkdir : forall p m w, vol_same w (snd (lkl_sys_mkdir p m w));
  vs_unlink : forall p w, vol_same w (snd (lkl_sys_unlink p w));
  vs_mknod : forall p m d w, vol_same w (snd (lkl_sys_mknod p m d w));
  vs_ioctl : forall fd r b w, vol_same w (snd (lkl_sys_ioctl fd r b w));
  vs_sfs : forall h w, vol_same w (snd (SfsOpenVolume h w));
  vs_fopen : forall f p m a w, vol_same w (snd (FileOpen f p m a w));
  vs_fread : forall f n w, vol_same w (snd (FileRead f n w));
  vs_fsize : forall f w, vol_same w (snd (FileHandleGetSize f w));
  vs_fclose : forall f w, vol_same w (snd (FileHandleClose f w));
  vs_install : forall h w, vol_same w (snd (InstallSfs h w));
  vs_uninstall : forall h w, vol_same w (snd (UninstallSfs h w));
  disk_add_spec : forall h w, let r := lkl_disk_add h w in
    if fst r <? 0 then vol_same w (snd r)
    else disks w !! fst r = None /\ disks (snd r) = <[fst r := h]> (disks w) /\ mounts (snd r) = mounts w /\
      bound (snd r) = bound w;
  disk_remove_spec : forall h id w, let w' := snd (lkl_disk_remove h id w) in disks w !! id = Some h ->
    disks w' = delete id (disks w) /\ mounts w' = mounts w /\ bound w' = bound w;
  mount_dev_spec : forall d p t f n w, let r := lkl_mount_dev d p t f n w in
    let mp := snd (fst r) in
    if fst (fst r) <? 0 then vol_same w (snd r)
    else mp <> [] /\ mounts (snd r) = {[mp]} ∪ mounts w /\ disks (snd r) = disks w /\ bound (snd r) = bound w;
  mount_spec : forall d p t f w, let r := lkl_sys_mount d p t f w in
    if fst r <? 0 then vol_same w (snd r)
    else mounts (snd r) = {[p]} ∪ mounts w /\ disks (snd r) = disks w /\ bound (snd r) = bound w;
  umount_spec : forall p f w, let r := lkl_sys_umount p f w in
    mounts (snd r) = (if decide (fst r = 0) then mounts w ∖ {[p]} else mounts w) /\
    disks (snd r) = disks w /\ bound (snd r) = bound w
}.

Create HintDb vol.
#[export] Hint Resolve vs_open vs_close vs_read vs_lseek vs_mkdir vs_unlink vs_mknod vs_ioctl vs_sfs vs_fopen
  vs_fread vs_fsize vs_fclose vs_install : vol.

(** ** Lemmas *)

Section proofs.
Context `{LklMounts} `{!EdkStrings}.

#[export] Instance vol_same_preorder : PreOrder vol_same.
Proof.
  split; [by intros w|]. intros w1 w2 w3 (E1 & E2 & E3) (E4 & E5 & E6). split_and!; congruence.
Qed.

(** [m] finishes with [Q] and leaves mounts, disks and allocations alone. *)
Definition tame {A} (m : FM A) (Q : A -> Prop) : Prop :=
  forall s, fwp m (fun a s' => Q a /\ vol_same (world s) (world s') /\ pool_live s' = pool_live s) s.

Lemma tame_ret {A} (a : A) (Q : A -> Prop) : Q a -> tame (mret a) Q.
Proof. by intros Hq s. Qed.

Lemma tame_bind {A B} (m : FM A) (f : A -> FM B) Q R :
  tame m Q -> (forall a, Q a -> tame (f a) R) -> tame (m ≫= f) R.
Proof.
  intros Hm Hf s. apply fwp_bind. eapply fwp_mono; [apply Hm|]. intros a s1 (Hq & Hv & Hp).
  eapply fwp_mono; [by apply Hf|]. intros b s2 (Hr & Hv' & Hp'). split; [done|].
  split; [by etrans|congruence].
Qed.

Lemma tame_sys {A} (f : World -> A * World) (Q : A -> Prop) :
  (forall w, vol_same w (snd (f w))) -> (forall w, Q (fst (f w))) -> tame (sys f) Q.
Proof. intros Hv HQ s. by apply fwp_sys. Qed.

Lemma tame_query {A} (f : World -> A) (Q : A -> Prop) : (forall w, Q (f w)) -> tame (query f) Q.
Proof. intros HQ s. by apply fwp_query. Qed.

Lemma tame_mono {A} (m : FM A) (Q Q' : A -> Prop) : tame m Q -> (forall a, Q a -> Q' a) -> tame m Q'.
Proof. intros Hm HQ s. eapply fwp_mono; [apply Hm|]. naive_solver. Qed.

(** Using a tame operation in a triple. *)
Lemma tame_fwp {A B} (m : FM A) (f : A -> FM B) Q (P : B -> fstate -> Prop) s :
  tame m Q ->
  (forall a s', Q a -> vol_same (world s) (world s') -> pool_live s' = pool_live s -> fwp (f a) P s') ->
  fwp (m ≫= f) P s.
Proof. intros Hm Hf. apply fwp_bind. eapply fwp_mono; [apply Hm|]. naive_solver. Qed.

(** *** The probe of a device *)

Lemma magics_tame FD name ms B :
  length B = 1024%nat -> Forall (fun m => 0 <= len m /\ Z.land (sboff m) 0x3ff + len m <= 1024) ms ->
  tame (lkl_magics_loop FD name ms B)
    (fun r => match r with Found _ => True | Next B' => length B' = 1024%nat | OutOfBounds => False end).
Proof.
  intros HB Hms. revert B HB. induction Hms as [|m ms [Hm0 Hm] _ IH]; intros B HB; cbn [lkl_magics_loop].
  - by apply tame_ret.
  - eapply (tame_bind _ _ (fun _ => True)); [apply tame_sys; auto with vol|]. intros ret _.
    destruct (s32 ret <? 0); [by apply IH|].
    intros s. apply fwp_bind, fwp_sys.
    pose proof (lkl_read_len FD BUFFER_SIZE (world s)) as Hlen. pose proof (vs_read FD BUFFER_SIZE (world s)) as Hv.
    destruct (lkl_sys_read FD BUFFER_SIZE (world s)) as [[n bytes] w1]. cbn [fst snd] in *.
    set (s1 := mk_fstate w1 (pool_fails s) (pool_live s)).
    assert (Hgo : forall B', length B' = 1024%nat -> fwp (lkl_magics_loop FD name ms B')
      (fun a s' => match a with Found _ => True | Next B' => length B' = 1024%nat | OutOfBounds => False end /\
         vol_same (world s) (world s') /\ pool_live s' = pool_live s) s1).
    { intros B' HB'. eapply fwp_mono; [by apply IH|]. intros a s' (Ha & Hv' & Hp). split; [done|].
      split; [by etrans|done]. }
    destruct (Z.ltb_spec n 0); [by apply Hgo|]. destruct (Hlen ltac:(lia)) as [E1 E2].
    assert (Ho : length (overlay bytes B) = 1024%nat).
    { unfold overlay, BUFFER_SIZE in *. rewrite length_app, length_drop. lia. }
    destruct (magic_matches m (overlay bytes B)) as [[]|] eqn:Em; [by apply fwp_ret|by apply Hgo|].
    unfold magic_matches in Em. rewrite Ho in Em. rewrite (proj2 (Z.ltb_ge _ _)) in Em by lia. done.
Qed.

Lemma infos_tame FD infos B :
  length B = 1024%nat ->
  Forall (fun i => Forall (fun m => 0 <= len m /\ Z.land (sboff m) 0x3ff + len m <= 1024) (Magics i)) infos ->
  tame (lkl_infos_loop FD infos B) (fun r => EFI_ERROR (fst r) = false -> is_Some (snd r)).
Proof.
  intros HB Hi. revert B HB. induction Hi as [|i infos Hm _ IH]; intros B HB; cbn [lkl_infos_loop].
  - by apply tame_ret.
  - eapply tame_bind; [by apply magics_tame|]. intros [name|B'|]; [|by apply IH|done].
    intros _. by apply tame_ret.
Qed.

Lemma GetFsTypeLKL_tame Path junk :
  length junk = 1024%nat ->
  tame (GetFsTypeLKL Path junk) (fun r => EFI_ERROR (fst r) = false -> is_Some (snd r)).
Proof.
  intros Hj. unfold GetFsTypeLKL.
  eapply (tame_bind _ _ (fun fd => INT_MIN <= fd <= INT_MAX));
    [apply tame_sys; [auto with vol|intros; apply lkl_open_int]|]. intros fd Hfd.
  destruct (Z.ltb_spec fd 0).
  { apply tame_ret. cbn [fst]. rewrite LKLError2EfiError_error by lia. done. }
  eapply tame_bind; [apply infos_tame; [done|]|].
  { repeat constructor; simpl; by vm_compute. }
  intros r Hr. eapply (tame_bind _ _ (fun _ => True)); [apply tame_sys; auto with vol|]. intros _ _.
  by apply tame_ret.
Qed.

(** *** The mapped device *)

Lemma asks_same fd cmd name w ret io w' : asks fd cmd name w ret io w' -> vol_same w w'.
Proof. intros (buf & _ & E). pose proof (vs_ioctl fd (DM_CMD cmd) buf w) as Hv. by rewrite E in Hv. Qed.

Lemma attempts_same fd n buf w b w' : attempts fd n buf w b w' -> vol_same w w'.
Proof.
  induction 1 as [| n buf w io w' E | n buf w ret io w1 b w' E _ _ IH]; [done|..];
    pose proof (vs_ioctl fd (DM_CMD LKL_DM_TABLE_LOAD_CMD) buf w) as Hv; rewrite E in Hv; [done|by etrans].
Qed.

Lemma loads_same fd t w b w' : loads fd t w b w' -> vol_same w w'.
Proof. intros (buf & _ & _ & Ha). by eapply attempts_same. Qed.

Lemma mknod_same p m d w e w' : lkl_sys_mknod p m d w = (e, w') -> vol_same w w'.
Proof. intros E. pose proof (vs_mknod p m d w) as Hv. by rewrite E in Hv. Qed.

Lemma sets_up_same fd t name w r w' : sets_up fd t name w r w' -> vol_same w w'.
Proof.
  destruct 1; repeat match goal with
    | Ha : asks _ _ _ _ _ _ _ |- _ => apply asks_same in Ha
    | Ha : loads _ _ _ _ _ |- _ => apply loads_same in Ha
    | Ha : lkl_sys_mknod _ _ _ _ = _ |- _ => apply mknod_same in Ha
    end; unfold vol_same in *; destruct_and?; split_and!; congruence.
Qed.

Lemma setup_same label real key junk_sec w r w' : setup_outcome label real key junk_sec w r w' -> vol_same w w'.
Proof.
  unfold setup_outcome. pose proof (vs_open real (Z.lor LKL_O_RDONLY LKL_O_CLOEXEC) 0 w) as V1.
  destruct (lkl_sys_open real _ _ w) as [fd w1]. cbn [fst snd] in V1. destruct (fd =? -1); [by intros [_ ->]|].
  pose proof (vs_ioctl fd LKL_BLKGETSIZE junk_sec w1) as V2.
  destruct (lkl_sys_ioctl fd LKL_BLKGETSIZE junk_sec w1) as [[ret sec] w2]. cbn [fst snd] in V2.
  pose proof (vs_close fd w2) as V3. assert (V : vol_same w (snd (lkl_sys_close fd w2))) by by do 2 (etrans; [eassumption|]).
  destruct (_ =? 0); [by intros [_ ->]|].
  pose proof (vs_open DEVMAPPER_CONTROL_FILE LKL_O_RDWR 0 (snd (lkl_sys_close fd w2))) as V4.
  destruct (lkl_sys_open DEVMAPPER_CONTROL_FILE _ _ _) as [fd' w4]. cbn [fst snd] in V4.
  intros (w5 & -> & Hr). etrans; [exact V|]. etrans; [exact V4|]. etrans; [|apply vs_close].
  destruct (fd' <? 0); [by destruct Hr as [_ ->]|by eapply sets_up_same].
Qed.

Lemma sets_up_int fd t name w r w' : sets_up fd t name w r w' -> INT_MIN <= fst r <= INT_MAX.
Proof.
  destruct 1; cbn [fst]; try (unfold INT_MIN, INT_MAX; lia);
    match goal with E : lkl_sys_mknod ?p ?m ?d ?w = (?e, _) |- _ =>
      pose proof (lkl_mknod_int p m d w) as Hi; rewrite E in Hi; exact Hi end.
Qed.

Lemma setup_int label real key junk_sec w r w' :
  setup_outcome label real key junk_sec w r w' -> INT_MIN <= fst r <= INT_MAX.
Proof.
  assert (Hm : INT_MIN <= -1 <= INT_MAX) by (unfold INT_MIN, INT_MAX; lia).
  unfold setup_outcome. destruct (lkl_sys_open real _ _ w) as [fd w1]. destruct (fd =? -1); [by intros [-> _]|].
  destruct (lkl_sys_ioctl fd LKL_BLKGETSIZE junk_sec w1) as [[ret sec] w2]. destruct (_ =? 0); [by intros [-> _]|].
  destruct (lkl_sys_open DEVMAPPER_CONTROL_FILE _ _ _) as [fd' w4]. intros (w5 & -> & Hr).
  destruct (fd' <? 0); [by destruct Hr as [-> _]|by eapply sets_up_int].
Qed.

Lemma setup_tame label real key addr junk_sec junk :
  setup_args_ok label real key junk_sec junk -> (length key <= 64)%nat ->
  tame (cryptfs_setup_ext_volume label real key (Z.of_nat (length key)) addr junk_sec junk)
    (fun r => INT_MIN <= fst r <= INT_MAX).
Proof.
  intros Ha Hk s. eapply fwp_mono; [by apply cryptfs_setup_ok|]. intros r s' (Ho & _ & Hp).
  split; [by eapply setup_int|]. split; [by eapply setup_same|done].
Qed.

Lemma revert_tame label : dm_name label -> tame (cryptfs_revert_ext_volume label) (fun _ => True).
Proof.
  intros Hl. unfold cryptfs_revert_ext_volume, delete_crypto_blk_dev.
  eapply (tame_bind _ _ (fun _ => True)); [apply tame_sys; auto with vol|]. intros fd _.
  eapply (tame_bind _ _ (fun _ => True)).
  - destruct (fd <? 0); [by apply tame_ret|]. eapply (tame_bind _ _ (fun _ => True)); [|by intros; apply tame_ret].
    intros s. eapply fwp_mono; [by apply dm_call_ok|]. intros r s' [Ha [_ Hp]]. split; [done|].
    split; [by eapply asks_same|done].
  - intros r _. eapply (tame_bind _ _ (fun _ => True)); [apply tame_sys; auto with vol|]. intros; by apply tame_ret.
Qed.

Lemma makedir_status p : tame (LKLMakeDir p) (fun st => EFI_ERROR st = true \/ st = EFI_SUCCESS).
Proof.
  eapply (tame_bind _ _ (fun r => INT_MIN <= r <= INT_MAX));
    [apply tame_sys; [auto with vol|intros; apply lkl_mkdir_int]|]. intros r Hr.
  apply tame_ret. destruct (Z.eqb_spec r 0) as [->|Hne]; cbn [negb andb]; [by right|].
  destruct (negb _); [left; by apply LKLError2EfiError_error|by right].
Qed.

(** *** The key *)

Lemma partitions_tame Path hs : tame (partitions_loop Path hs) (fun _ => True).
Proof.
  induction hs as [|h hs IH]; cbn [partitions_loop]; [by apply tame_ret|].
  do 2 (eapply (tame_bind _ _ (fun _ => True)); [by apply tame_query|]; intros st _; destruct (EFI_ERROR st); [done|]; clear st).
  eapply (tame_bind _ _ (fun _ => True)); [apply tame_sys; auto with vol|]. intros [st Root] _.
  destruct (EFI_ERROR st); [done|]. clear st.
  eapply (tame_bind _ _ (fun _ => True)); [apply tame_sys; auto with vol|]. intros [st f] _.
  eapply (tame_bind _ _ (fun _ => True)); [apply tame_sys; auto with vol|]. intros _ _.
  destruct (negb _); [by apply tame_ret|done].
Qed.

Lemma GetFile_tame Path : tame (GetFileFromAnyPartition Path) (fun _ => True).
Proof.
  unfold GetFileFromAnyPartition. eapply (tame_bind _ _ (fun _ => True)); [by apply tame_query|].
  intros [st hs] _. destruct (EFI_ERROR st); [by apply tame_ret|].
  intros s. apply fwp_bind. unfold fwp at 1, handle_buffer. cbn.
  eapply tame_fwp; [apply partitions_tame|]. cbn [world pool_live]. intros Found s' _ Hv Hp.
  apply fwp_bind, fwp_free. destruct Found; apply fwp_ret; cbn [world pool_live]; (split; [done|]); split; try done; lia.
Qed.

Lemma key_location_tame Handle n : tame (LKLGetKeyLocation Handle n) (fun _ => True).
Proof.
  unfold LKLGetKeyLocation. eapply (tame_bind _ _ (fun _ => True)); [by apply tame_query|].
  intros [nodes|] _; [|by apply tame_ret]. destruct (harddrive_node nodes) as [Hd|]; [|by apply tame_ret].
  by destruct (_ =? _); apply tame_ret.
Qed.

(** The partition is an encrypted one. *)
Definition encrypted (Handle : Z) (w : World) : Prop :=
  EFI_ERROR (fst (PartitionName Handle w)) = false /\ snd (PartitionName Handle w) = codes "android_expand".

Definition junk_ok (junk : nat -> list Z) : Prop := forall n, length (junk n) = n /\ Forall is_byte (junk n).

Lemma overlay_bytes bytes B : Forall is_byte bytes -> Forall is_byte B -> Forall is_byte (overlay bytes B).
Proof. intros Hb1 Hb2. apply Forall_app. split; [done|by apply Forall_drop]. Qed.

Lemma length_overlay bytes B : (length bytes <= length B)%nat -> length (overlay bytes B) = length B.
Proof. intros Hl. unfold overlay. rewrite length_app, length_drop. lia. Qed.

Definition key_ok (key : list Z) (size : Z) : Prop :=
  Forall is_byte key /\ 0 <= size < 2 ^ 64 /\ length key = Z.to_nat (u32 size).

(** The outcome of looking for the key. *)
Definition key_post (Handle : Z) (s : fstate) (k : key_phase) (s' : fstate) : Prop :=
  vol_same (world s) (world s') /\
  match k with
  | KReturn st => encrypted Handle (world s) /\ EFI_ERROR st = true /\ pool_live s' = pool_live s
  | KDone st _ => encrypted Handle (world s) /\ EFI_ERROR st = true /\ pool_live s' = pool_live s + 1
  | KNext None => ~ encrypted Handle (world s) /\ pool_live s' = pool_live s
  | KNext (Some (_, key, size)) => encrypted Handle (world s) /\ key_ok key size /\ pool_live s' = pool_live s + 1
  end.

Lemma volume_key_ok junk Handle s : junk_ok junk ->
  fwp (volume_key junk Handle) (key_post Handle s) s.
Proof.
  unfold key_post.
  intros Hj. unfold volume_key. apply fwp_bind, fwp_query. unfold encrypted.
  destruct (PartitionName Handle (world s)) as [st Name]. cbn [fst snd].
  destruct (EFI_ERROR st); cbn [orb]; [apply fwp_ret; split; [done|]; split; [by intros []|done]|].
  case_bool_decide as Hn; cbn [negb]; [|apply fwp_ret; split; [done|]; split; [by intros []|done]].
  eapply tame_fwp; [apply key_location_tame|]. intros [st1 kl] s1 _ V1 P1.
  destruct (EFI_ERROR st1) eqn:E1; [by apply fwp_ret|].
  eapply tame_fwp; [apply GetFile_tame|]. intros [st2 kf] s2 _ V2 P2.
  assert (V2' : vol_same (world s) (world s2)) by (by etrans). clear V1 V2.
  destruct (EFI_ERROR st2); [by apply fwp_ret; split; [done|]; rewrite P2|].
  apply fwp_bind, fwp_sys. pose proof (vs_fsize (default 0 kf) (world s2)) as V3.
  pose proof (FileHandleGetSize_range (default 0 kf) (world s2)) as Hsz.
  destruct (FileHandleGetSize (default 0 kf) (world s2)) as [[st3 size] w3]. cbn [fst snd] in *.
  assert (V3' : vol_same (world s) w3) by (by etrans). clear V2' V3.
  destruct (EFI_ERROR st3) eqn:E3; [apply fwp_ret; split_and!; try done; cbn [pool_live]; lia|].
  apply fwp_bind, fwp_alloc; intros fs; cbn [negb world pool_live];
    [apply fwp_ret; split_and!; try done; cbn [pool_live]; lia|].
  apply fwp_bind, fwp_sys. cbn [world pool_live]. pose proof (u32_range size) as Hu.
  pose proof (vs_fread (default 0 kf) (u32 size) w3) as V4.
  pose proof (FileRead_len (default 0 kf) (u32 size) w3 ltac:(lia)) as Hl.
  pose proof (FileRead_bytes (default 0 kf) (u32 size) w3) as Hb.
  destruct (FileRead (default 0 kf) (u32 size) w3) as [[st4 bytes] w4]. cbn [fst snd] in *.
  assert (V4' : vol_same (world s) w4) by (by etrans).
  destruct (Hj (Z.to_nat (u32 size))) as [Hjl Hjb].
  destruct (EFI_ERROR st4) eqn:E4; apply fwp_ret; split_and!; try done; cbn [pool_live]; try lia.
  split_and!; [by apply overlay_bytes|lia..|rewrite length_overlay; lia].
Qed.

(** *** Mounting and taking back *)

(** The disk and the mount of [V], where it has them, are all that [w] has more
    than [w0]. *)
Record built (w0 : World) (Handle : Z) (V : LKL_VOLUME) (w : World) : Prop := {
  bu_disk : (LKLDiskId V < 0 /\ disks w = disks w0) \/
    (0 <= LKLDiskId V /\ disks w0 !! LKLDiskId V = None /\ disks w = <[LKLDiskId V := Handle]> (disks w0));
  bu_mount : (mounts w = mounts w0 /\ (LKLMountPoint V = [] \/ LKLMountPoint V ∉ mounts w0)) \/
    (LKLMountPoint V <> [] /\ LKLMountPoint V ∉ mounts w0 /\ mounts w = {[LKLMountPoint V]} ∪ mounts w0);
  bu_crypt : LKLCryptFSName V = [] \/ dm_name (LKLCryptFSName V);
  bu_bound : bound w = bound w0
}.

Lemma built_same w0 Handle V w w' : built w0 Handle V w -> vol_same w w' -> built w0 Handle V w'.
Proof. intros [Hd Hm Hc Hb] (E1 & E2 & E3). constructor; rewrite ?E1, ?E2, ?E3; done. Qed.

(** The file system at [p] was mounted, in addition to those of [w], and could
    not be unmounted. *)
Definition stuck_at (p : str) (w : World) : Prop :=
  p ∉ mounts w /\ exists w1, mounts w1 = {[p]} ∪ mounts w /\ fst (lkl_sys_umount p 0 w1) <> 0.

(** Nothing is mounted in addition, except where unmounting has failed. *)
Definition mounts_kept (w w' : World) : Prop :=
  mounts w' = mounts w \/ exists p, stuck_at p w /\ mounts w' = {[p]} ∪ mounts w.

(** What was set up is taken back, as far as it can be. *)
Definition taken_back (w w' : World) : Prop := mounts_kept w w' /\ disks w' = disks w /\ bound w' = bound w.

Lemma taken_back_same w w' : vol_same w w' -> taken_back w w'.
Proof. intros (E1 & E2 & E3). split; [by left|done]. Qed.

Lemma taken_back_l w0 w w' : vol_same w0 w -> taken_back w w' -> taken_back w0 w'.
Proof.
  intros (E1 & E2 & E3) (Hm & E4 & E5). unfold taken_back, mounts_kept, stuck_at in *. rewrite <- E1, <- E2, <- E3. done.
Qed.

Lemma taken_back_r w w' w1 : taken_back w w' -> vol_same w' w1 -> taken_back w w1.
Proof.
  intros (Hm & E4 & E5) (E1 & E2 & E3). unfold taken_back, mounts_kept in *. rewrite E1, E2, E3. done.
Qed.

Lemma tame_when b (m : FM unit) : (b = true -> tame m (fun _ => True)) -> tame (fwhen b m) (fun _ => True).
Proof. unfold fwhen. destruct b; [by intros Hm; apply Hm|]. intros _. by apply tame_ret. Qed.

(** Unmounting, where something was mounted or may have been. *)
Lemma undo_mount_ok w0 Handle V s :
  built w0 Handle V (world s) ->
  fwp (fwhen (negb (bool_decide (LKLMountPoint V = []))) (_ ← sys (lkl_sys_umount (LKLMountPoint V) 0); mret tt))
    (fun _ s1 => mounts_kept w0 (world s1) /\ disks (world s1) = disks (world s) /\
       bound (world s1) = bound w0 /\ pool_live s1 = pool_live s) s.
Proof.
  intros [Hd Hm Hc Hbd]. unfold fwhen. case_bool_decide as Hmp; cbn [negb].
  - apply fwp_ret. destruct Hm as [[? _]|[? _]]; [|done]. split; [by left|done].
  - apply fwp_bind, fwp_sys, fwp_ret. cbn [world pool_live].
    destruct (umount_spec (LKLMountPoint V) 0 (world s)) as (Hu & -> & ->). split; [|done].
    unfold mounts_kept. rewrite Hu. destruct Hm as [[E [?|Hn]]|(_ & Hn & E)]; [done| |].
    + left. case_decide; [set_solver|done].
    + case_decide as Hr; [left; set_solver|right]. exists (LKLMountPoint V). split; [|done]. split; [done|].
      by exists (world s).
Qed.

Lemma volume_undo_ok w0 Handle V s :
  built w0 Handle V (world s) ->
  fwp (volume_undo Handle V) (fun _ s' => taken_back w0 (world s') /\ pool_live s' = pool_live s - 1) s.
Proof.
  intros Hbu. pose proof Hbu as [Hd Hm Hc Hbd]. unfold volume_undo. apply fwp_bind.
  eapply fwp_mono; [exact (undo_mount_ok w0 Handle V s Hbu)|]. intros _ s1 (M1 & D1 & B1 & P1).
  eapply (tame_fwp _ _ (fun _ => True)).
  { apply tame_when. intros _. eapply (tame_bind _ _ (fun _ => True)).
    - apply tame_when. intros Hb%negb_true_iff%bool_decide_eq_false. destruct Hc as [|Hc]; [done|].
      eapply (tame_bind _ _ (fun _ => True)); [by apply revert_tame|]. intros. by apply tame_ret.
    - intros _ _. apply tame_when. intros _.
      eapply (tame_bind _ _ (fun _ => True)); [apply tame_sys; auto with vol|]. intros. by apply tame_ret. }
  intros _ s2 _ (E1 & E2 & E3) P2. apply fwp_bind.
  apply (fwp_mono _ (fun _ s3 => taken_back w0 (world s3) /\ pool_live s3 = pool_live s)).
  { unfold taken_back, mounts_kept in *. unfold fwhen. destruct (Z.leb_spec 0 (LKLDiskId V)) as [Hi|Hi].
    - apply fwp_sys. destruct Hd as [[? _]|(_ & Hn & Hd)]; [lia|].
      destruct (disk_remove_spec Handle (LKLDiskId V) (world s2)) as (R1 & R2 & R3).
      { rewrite E2, D1, Hd. apply lookup_insert_eq. }
      split; [|cbn [pool_live]; congruence]. cbn [world]. rewrite R1, R2, R3, E1, E2, E3, D1, Hd, B1.
      split_and!; [done|by apply delete_insert_id|done].
    - apply fwp_ret. rewrite E1, E2, E3, D1, B1. split; [|congruence]. destruct Hd as [[_ Hd]|[? _]]; [done|lia]. }
  intros _ s3 [V3 P3]. unfold LKLFreeVolume. apply fwp_free. split; [done|]. cbn [pool_live]. lia.
Qed.

(** *** Names made of a device number *)

Lemma uhex_chars fuel n acc :
  Forall (fun c => 48 <= c <= 70) acc -> Forall (fun c => 48 <= c <= 70) (uhex fuel n acc).
Proof.
  revert n acc. induction fuel as [|f IH]; intros n acc Ha; cbn [uhex]; [done|].
  pose proof (Z.mod_pos_bound n 16 ltac:(lia)).
  assert (Hd : Forall (fun c => 48 <= c <= 70) ((if 9 <? n `mod` 16 then n `mod` 16 + 55 else n `mod` 16 + 48) :: acc)).
  { constructor; [|done]. destruct (Z.ltb_spec 9 (n `mod` 16)); lia. }
  destruct (n / 16 =? 0); [exact Hd|by apply IH].
Qed.

Lemma length_uhex fuel n acc : (length (uhex fuel n acc) <= fuel + length acc)%nat.
Proof.
  revert n acc. induction fuel as [|f IH]; intros n acc; cbn [uhex]; [lia|].
  destruct (_ =? 0); [simpl; lia|]. etrans; [apply IH|]. simpl. lia.
Qed.

Lemma pad_hex_chars w n : Forall (fun c => 48 <= c <= 70) (pad_hex w n).
Proof.
  unfold pad_hex. apply Forall_app. split; [apply Forall_replicate; lia|]. by apply uhex_chars.
Qed.

Lemma length_pad_hex w n : (w <= 16)%nat -> (length (pad_hex w n) <= 16)%nat.
Proof.
  intros Hw. unfold pad_hex. rewrite length_app, length_replicate.
  pose proof (length_uhex 16 n []) as Hl. cbn [length] in Hl. lia.
Qed.

(** A name: some letters and the number. *)
Lemma expand_name (p : String.string) n : expand (fmt p ++ [Px 8 n]) [] = codes p ++ pad_hex 8 n.
Proof.
  unfold fmt. induction (codes p) as [|c l IH]; [cbn; by rewrite app_nil_r|].
  cbn [fmap list_fmap app expand]. by rewrite <- IH.
Qed.

Lemma name_fits size (p : String.string) n : Z.of_nat (length (codes p)) + 16 < size ->
  AsciiSPrint size (fmt p ++ [Px 8 n]) [] = codes p ++ pad_hex 8 n.
Proof.
  intros Hs. rewrite <- expand_name. apply AsciiSPrint_fits. rewrite expand_name, length_app.
  pose proof (length_pad_hex 8 n ltac:(lia)). lia.
Qed.

Lemma name_word p n : word p -> word (p ++ pad_hex 8 n).
Proof.
  intros [Hne Hp]. split; [by destruct p|]. apply Forall_app. split; [done|].
  eapply Forall_impl; [apply pad_hex_chars|]. intros c Hc. simpl in Hc. lia.
Qed.

(** The fields the mounting does not change. *)
Definition head (V : LKL_VOLUME) := (Valid V, MediaId V, ReadOnly V, LKLDiskId V, FsType V, IsEncrypted V).

(** [V] is mounted, and its disk is in use. *)
Definition mounted (w0 : World) (Handle : Z) (V : LKL_VOLUME) (w : World) : Prop :=
  LKLMountPoint V <> [] /\ LKLMountPoint V ∉ mounts w0 /\ mounts w = {[LKLMountPoint V]} ∪ mounts w0 /\
  0 <= LKLDiskId V /\ disks w0 !! LKLDiskId V = None /\ disks w = <[LKLDiskId V := Handle]> (disks w0) /\
  bound w = bound w0.

(** A disk that is added, with nothing mounted. *)
Definition added (w0 : World) (Handle : Z) (V : LKL_VOLUME) (w : World) : Prop :=
  0 <= LKLDiskId V /\ disks w0 !! LKLDiskId V = None /\ disks w = <[LKLDiskId V := Handle]> (disks w0) /\
  mounts w = mounts w0 /\ bound w = bound w0.

Lemma added_same w0 Handle V V' w w' :
  added w0 Handle V w -> vol_same w w' -> LKLDiskId V' = LKLDiskId V -> added w0 Handle V' w'.
Proof. intros (? & ? & ? & ? & ?) (E1 & E2 & E3) E. unfold added. rewrite E, E1, E2, E3. done. Qed.

Lemma added_built w0 Handle V w :
  added w0 Handle V w -> LKLMountPoint V = [] \/ LKLMountPoint V ∉ mounts w0 ->
  LKLCryptFSName V = [] \/ dm_name (LKLCryptFSName V) -> built w0 Handle V w.
Proof. intros (? & ? & ? & ? & ?) Hm Hc. constructor; auto. Qed.

Lemma mounted_built w0 Handle V w :
  mounted w0 Handle V w -> LKLCryptFSName V = [] \/ dm_name (LKLCryptFSName V) -> built w0 Handle V w.
Proof. intros (? & ? & ? & ? & ? & ? & ?) Hc. constructor; auto. Qed.

(** What mounting [V] comes to. *)
Definition mount_post (w0 : World) (Handle : Z) (V : LKL_VOLUME) (s : fstate) (r : Z * LKL_VOLUME) (s' : fstate)
    : Prop :=
  built w0 Handle (snd r) (world s') /\ head (snd r) = head V /\ pool_live s' = pool_live s /\
  (EFI_ERROR (fst r) = false -> fst r = EFI_SUCCESS /\ mounted w0 Handle (snd r) (world s')).

Lemma mount_post_fails w0 Handle V s st V' s' :
  EFI_ERROR st = true -> built w0 Handle V' (world s') -> head V' = head V -> pool_live s' = pool_live s ->
  mount_post w0 Handle V s (st, V') s'.
Proof. intros He Hb Hh Hp. unfold mount_post. cbn [fst snd]. rewrite He. done. Qed.

Lemma LKLError_lt e : INT_MIN <= e <= INT_MAX -> e < 0 -> EFI_ERROR (LKLError2EfiError e) = true.
Proof. intros He Hlt. apply LKLError2EfiError_error; [done|lia]. Qed.

Definition mount_flags : Z := Z.lor LKL_MS_SYNCHRONOUS LKL_MS_DIRSYNC.

Lemma mount_plain_ok w0 Handle V s :
  added w0 Handle V (world s) -> LKLCryptFSName V = [] ->
  (let mp := snd (fst (lkl_mount_dev (LKLDiskId V) 0 (FsType V) mount_flags 32 (world s))) in
   mp = [] \/ mp ∉ mounts w0) ->
  fwp (mount_plain V) (mount_post w0 Handle V s) s.
Proof.
  intros Ha Hc Hn. unfold mount_plain. apply fwp_bind, fwp_sys. fold mount_flags. set (fl := mount_flags) in *.
  pose proof (mount_dev_spec (LKLDiskId V) 0 (FsType V) fl 32 (world s)) as Hm.
  pose proof (lkl_mount_dev_int (LKLDiskId V) 0 (FsType V) fl 32 (world s)) as Hi.
  destruct (lkl_mount_dev _ _ _ _ _ _) as [[Ret mp] w1]. cbn [fst snd] in *.
  destruct Ha as (Hid & Hno & Hd & Hmm & Hbb). apply fwp_ret.
  destruct (Z.ltb_spec Ret 0).
  - apply mount_post_fails; [by apply LKLError_lt| |done|done].
    apply added_built; [|done|by left]. eapply added_same; [|exact Hm|done]. done.
  - destruct Hm as (Hmp & M1 & D1 & B1). unfold mount_post. cbn [fst snd world].
    assert (Hmt : mounted w0 Handle (set_LKLMountPoint mp V) w1) by (unfold mounted; rewrite M1, D1, B1, Hmm; by destruct Hn).
    split; [apply mounted_built; [done|by left]|]. done.
Qed.

Lemma mount_decrypted_ok w0 Handle V0 V DevId FsT junk s0 s :
  junk_ok junk -> head V = head V0 -> dm_name (LKLCryptFSName V) -> LKLMountPoint V = [] ->
  added w0 Handle V (world s) -> pool_live s = pool_live s0 -> disk_dir DevId ∉ mounts w0 ->
  fwp (mount_decrypted junk V DevId FsT) (mount_post w0 Handle V0 s0) s.
Proof.
  intros Hj Hh Hc Hmp Ha Hp Hfresh. unfold mount_decrypted.
  eapply tame_fwp; [apply GetFsTypeLKL_tame, Hj|]. intros [st fs] s3 _ V3 P3.
  assert (P3' : pool_live s3 = pool_live s0) by congruence.
  destruct (EFI_ERROR st) eqn:E3.
  { apply fwp_ret, mount_post_fails; [done| |done|done].
    apply added_built; [by eapply added_same|by left|by right]. }
  rewrite (name_fits 32) by (change (Z.of_nat (length (codes "/mnt/"))) with 5; lia). fold (disk_dir DevId).
  set (V4 := set_LKLMountPoint (disk_dir DevId) V). cbv zeta.
  assert (Hh4 : head V4 = head V0) by done. assert (Hc4 : dm_name (LKLCryptFSName V4)) by done.
  assert (Hm4 : LKLMountPoint V4 = disk_dir DevId) by done. assert (Hd4 : LKLDiskId V4 = LKLDiskId V) by done.
  clearbody V4. rewrite Hm4.
  eapply (tame_fwp _ _ (fun st => EFI_ERROR st = true \/ st = EFI_SUCCESS)); [apply makedir_status|].
  intros st4 s4 Hst4 S4 P4. assert (S4' : vol_same (world s) (world s4)) by (by etrans).
  assert (P4' : pool_live s4 = pool_live s0) by congruence.
  assert (Hfail : forall w, vol_same (world s) w -> built w0 Handle V4 w).
  { intros w Hw. apply added_built; [by eapply added_same|right; by rewrite Hm4|by right]. }
  destruct (EFI_ERROR st4) eqn:E4; [by apply fwp_ret, mount_post_fails; auto|].
  destruct Hst4 as [?| ->]; [done|]. apply fwp_bind, fwp_sys. set (fl := Z.lor LKL_MS_SYNCHRONOUS _).
  pose proof (mount_spec (LKLBlkDeviceDecrypted V4) (disk_dir DevId) (default FsT fs) fl (world s4)) as Hm.
  pose proof (lkl_mount_int (LKLBlkDeviceDecrypted V4) (disk_dir DevId) (default FsT fs) fl (world s4)) as Hi5.
  destruct (lkl_sys_mount _ _ _ _ _) as [Ret5 w5]. cbn [fst snd] in *.
  destruct (Z.ltb_spec Ret5 0).
  { apply fwp_ret, mount_post_fails; [by apply LKLError_lt| |done|done]. apply Hfail. by etrans. }
  apply fwp_ret. destruct Hm as (M5 & D5 & B5). destruct S4' as (M4 & D4 & B4).
  destruct Ha as (Hid & Hno & Hd & Hmm & Hbb). unfold mount_post. cbn [fst snd world pool_live].
  assert (Hmt : mounted w0 Handle V4 w5).
  { unfold mounted. rewrite Hm4, Hd4, M5, D5, B5, M4, D4, B4, Hmm. done. }
  split; [apply mounted_built; [done|by right]|]. done.
Qed.

(** The names made from a device number. *)
Lemma dev_name_ok n : word (codes "/dev/" ++ pad_hex 8 n) /\ (length (codes "/dev/" ++ pad_hex 8 n) <= 3000)%nat.
Proof.
  split; [by apply name_word, word_of|]. rewrite length_app.
  pose proof (length_pad_hex 8 n ltac:(lia)). change (length (codes "/dev/")) with 5%nat. lia.
Qed.

Lemma crypt_name_ok n : dm_name (codes "lkl-" ++ pad_hex 8 n).
Proof.
  split; [by apply word_text, name_word, word_of|]. rewrite length_app.
  pose proof (length_pad_hex 8 n ltac:(lia)). change (length (codes "lkl-")) with 4%nat.
  unfold LKL_DM_NAME_LEN. lia.
Qed.

Lemma mount_encrypted_ok w0 Handle V Key addr FsT junk s :
  junk_ok junk -> Forall is_byte Key -> (1 <= length Key <= 64)%nat ->
  added w0 Handle V (world s) -> LKLMountPoint V = [] -> LKLCryptFSName V = [] ->
  disk_dir (snd (lkl_get_virtio_blkdev (LKLDiskId V) 0 (world s))) ∉ mounts w0 ->
  fwp (mount_encrypted junk V Key (Z.of_nat (length Key)) addr FsT) (mount_post w0 Handle V s) s.
Proof.
  intros Hj Hkb Hkl Ha Hmp Hc Hfresh. unfold mount_encrypted. apply fwp_bind, fwp_query.
  pose proof (lkl_blkdev_int (LKLDiskId V) 0 (world s)) as Hi.
  destruct (lkl_get_virtio_blkdev _ _ _) as [Ret DevId]. cbn [fst snd] in *.
  assert (Hb : forall V' s', head V' = head V -> added w0 Handle V' (world s') -> LKLMountPoint V' = [] ->
    LKLCryptFSName V' = [] \/ dm_name (LKLCryptFSName V') -> pool_live s' = pool_live s ->
    forall st, EFI_ERROR st = true -> mount_post w0 Handle V s (st, V') s').
  { intros. apply mount_post_fails; [done| |done..]. apply added_built; auto. }
  destruct (Z.ltb_spec Ret 0) as [Hlt|_]; [apply fwp_ret, Hb; auto using LKLError_lt|].
  pose proof MAXPATHLEN_min as Hmax.
  rewrite name_fits by (change (Z.of_nat (length (codes "/dev/"))) with 5; lia).
  rewrite (name_fits 1024) by (change (Z.of_nat (length (codes "lkl-"))) with 4; lia).
  destruct (dev_name_ok DevId) as [Hdev Hdl]. pose proof (crypt_name_ok DevId) as Hlabel.
  set (dev := codes "/dev/" ++ pad_hex 8 DevId) in *. set (label := codes "lkl-" ++ pad_hex 8 DevId) in *.
  cbv zeta. cbn [LKLBlkDevice set_LKLBlkDevice].
  assert (Hsetup : setup_args_ok label dev Key (junk 4%nat) (junk 129%nat)).
  { constructor; [done|by destruct Key; [simpl in Hkl; lia|]|done|done|split; apply Hj|apply Hj]. }
  pose proof (lkl_mknod_int dev (Z.lor LKL_S_IFBLK 384) DevId) as Hki.
  eapply (tame_fwp _ _ (fun Ret => INT_MIN <= Ret <= INT_MAX)); [apply tame_sys; [auto with vol|exact Hki]|].
  intros Ret1 s1 Hi1 V1 P1.
  destruct (Z.ltb_spec Ret1 0).
  { apply fwp_ret, Hb; auto using LKLError_lt. eapply added_same; [exact Ha|done|done]. }
  cbn [LKLCryptFSName set_LKLCryptFSName LKLBlkDevice LKLBlkDeviceDecrypted LKLMountPoint].
  rewrite s32_small by (unfold INT_MIN, INT_MAX; lia).
  eapply tame_fwp; [apply setup_tame; [done|lia]|].
  intros [Ret2 out] s2 Hi2 V2 P2. cbn [fst snd] in *.
  assert (V2' : vol_same (world s) (world s2)) by (by etrans). assert (P2' : pool_live s2 = pool_live s) by congruence.
  set (V2f := set_LKLBlkDeviceDecrypted _ _).
  assert (Hc2 : dm_name (LKLCryptFSName V2f)) by done.
  assert (Ha2 : added w0 Handle V2f (world s2)) by (by eapply added_same).
  destruct (Z.ltb_spec Ret2 0); [apply fwp_ret, Hb; auto using LKLError_lt|].
  by apply mount_decrypted_ok.
Qed.

(** Where the file system of the disk that will be registered is going to be
    mounted, there is no mount point yet: the directory the driver names after
    the disk's device number or, without encryption, the one LKL chooses, for
    any file system the driver knows. *)
Definition place_free (Handle : Z) (encrypted : bool) (w : World) : Prop :=
  let r := lkl_disk_add Handle w in
  0 <= fst r ->
  if encrypted then disk_dir (snd (lkl_get_virtio_blkdev (fst r) 0 (snd r))) ∉ mounts w
  else Forall (fun i => let mp := snd (fst (lkl_mount_dev (fst r) 0 (Name i) mount_flags 32 (snd r))) in
                mp = [] \/ mp ∉ mounts w) FsIdInfos.

Lemma volume_start_ok Handle V Key addr junk s :
  junk_ok junk -> LKLDiskId V < 0 -> LKLMountPoint V = [] -> LKLCryptFSName V = [] ->
  match Key with
  | Some (_, key, size) => Forall is_byte key /\ size = Z.of_nat (length key) /\ (1 <= length key <= 64)%nat
  | None => exists i, i ∈ FsIdInfos /\ FsType V = Name i
  end ->
  place_free Handle (bool_decide (is_Some Key)) (world s) ->
  fwp (volume_start junk Handle V Key addr) (fun r s' =>
    built (world s) Handle (snd r) (world s') /\ pool_live s' = pool_live s /\
    IsEncrypted (snd r) = IsEncrypted V /\
    (EFI_ERROR (fst r) = false ->
       mounted (world s) Handle (snd r) (world s') /\ Valid (snd r) = true /\ MediaId (snd r) = MediaId V /\
       ReadOnly (snd r) = ReadOnly V /\ FsType (snd r) = FsType V)) s.
Proof.
  intros Hj Hid Hmp Hc Hkey Hfree. unfold place_free in Hfree. cbv zeta in Hfree. unfold volume_start. apply fwp_bind, fwp_sys.
  pose proof (disk_add_spec Handle (world s)) as Hd. pose proof (lkl_disk_add_int Handle (world s)) as Hi.
  cbv zeta in Hd. destruct (lkl_disk_add Handle (world s)) as [Ret w1]. cbn [fst snd] in *.
  destruct (Z.ltb_spec Ret 0).
  { apply fwp_ret. cbn [fst snd]. rewrite LKLError_lt by done. split_and!; [|done..].
    destruct Hd as (E1 & E2 & E3). constructor; cbn [world]; [left; split; [lia|done]|left; auto|by left|done]. }
  destruct Hd as (Hno & D1 & M1 & B1). specialize (Hfree ltac:(lia)). set (V1 := set_LKLDiskId Ret V).
  set (s1 := mk_fstate w1 (pool_fails s) (pool_live s)).
  assert (Ha : added (world s) Handle V1 (world s1)) by done.
  assert (Hm : fwp (match Key with
    | Some (_, Key, KeyFileSize) => mount_encrypted junk V1 Key KeyFileSize addr (FsType V1)
    | None => mount_plain V1 end) (mount_post (world s) Handle V1 s1) s1).
  { destruct Key as [[[f key] size]|].
    - destruct Hkey as (Hb & -> & Hl). by apply mount_encrypted_ok.
    - destruct Hkey as (i & Hi1 & Hi2). apply mount_plain_ok; [done..|]. change (FsType V1) with (FsType V). rewrite Hi2.
      by apply (proj1 (Forall_forall _ _) Hfree). }
  apply fwp_bind. eapply fwp_mono; [exact Hm|]. intros [st V2] s2 (Hb & Hh & P2 & Hok). cbn [fst snd] in *.
  injection Hh as Hv1 Hv2 Hv3 Hv4 Hv5 Hv6.
  destruct (EFI_ERROR st) eqn:E; [by apply fwp_ret; cbn [fst snd]; rewrite E|].
  apply fwp_bind, fwp_sys. pose proof (vs_install Handle (world s2)) as V3.
  destruct (InstallSfs Handle (world s2)) as [st3 w3]. cbn [fst snd] in *.
  destruct (EFI_ERROR st3) eqn:E3; apply fwp_ret; cbn [fst snd world pool_live]; rewrite ?E3.
  - split_and!; [by eapply built_same|done|done|done].
  - split_and!; [|done|done|].
    + apply (built_same _ _ (set_Valid true V2) (world s2)); [|done]. destruct Hb. by constructor.
    + intros _. destruct (Hok eq_refl) as (_ & Hmt). split; [|done].
      destruct V3 as (E1 & E2 & E5). unfold mounted in *. rewrite E1, E2, E5. exact Hmt.
Qed.

(** *** The file system of the medium *)

(** Disk I/O that succeeds fills the buffer. *)
Definition full_reads (ReadDisk : Z -> Z -> Z * list Z) : Prop :=
  forall off n, EFI_ERROR (fst (ReadDisk off n)) = false -> length (snd (ReadDisk off n)) = Z.to_nat n.

Lemma magics_loop_name ReadDisk nm ms B name : magics_loop ReadDisk nm ms B = Found name -> name = nm.
Proof.
  revert B. induction ms as [|m ms IH]; intros B; cbn [magics_loop]; [done|].
  destruct (ReadDisk _ _) as [st bytes]. destruct (EFI_ERROR st); [apply IH|].
  destruct (magic_matches m bytes) as [[]|]; [by intros [= ->]|apply IH|done].
Qed.

Lemma GetFsType_total ReadDisk junk : full_reads ReadDisk ->
  exists st name, GetFsType ReadDisk junk = Some (st, name) /\
    (EFI_ERROR st = false -> exists i, i ∈ FsIdInfos /\ name = Some (Name i)).
Proof.
  intros Hr. unfold GetFsType.
  assert (Hinfos : Forall (fun i => Forall (fun m => 0 <= len m /\ Z.land (sboff m) 0x3ff + len m <= 1024) (Magics i)) FsIdInfos).
  { repeat constructor; simpl; by vm_compute. }
  revert junk. induction Hinfos as [|i infos Hms _ IH]; intros B; cbn [infos_loop]; [by eexists _, None|].
  assert (Hm : match magics_loop ReadDisk (Name i) (Magics i) B with OutOfBounds => False | _ => True end).
  { revert B. induction Hms as [|m ms [Hm0 Hm] _ IHm]; intros B; cbn [magics_loop]; [done|].
    pose proof (Hr (magic_offset m) BUFFER_SIZE) as Hl.
    destruct (ReadDisk (magic_offset m) BUFFER_SIZE) as [st bytes]. cbn [fst snd] in Hl.
    destruct (EFI_ERROR st); [by apply IHm|].
    destruct (magic_matches m bytes) as [[]|] eqn:Em; [done|by apply IHm|].
    unfold magic_matches in Em. rewrite Hl in Em by done. unfold BUFFER_SIZE in Em.
    rewrite (proj2 (Z.ltb_ge _ _)) in Em by lia. done. }
  destruct (magics_loop _ _ _ _) as [name|B'|] eqn:E; [|destruct (IH B') as (st & name & E' & Hn)|done].
  - apply magics_loop_name in E as ->. eexists _, _. split; [done|]. intros _. exists i. split; [set_solver|done].
  - exists st, name. split; [done|]. intros (j & Hj & ->)%Hn. exists j. split; [set_solver|done].
Qed.

(** *** The whole *)

(** What a driver of the volume may expect of its set-up. *)
Definition volume_post (Handle : Z) (ReadDisk : Z -> Z -> Z * list Z) (MId : Z) (RO : bool) (junk : nat -> list Z)
    (junk_FsType : str) (s : fstate) (r : Z * option LKL_VOLUME) (s' : fstate) : Prop :=
  match snd r with
  | Some V => EFI_ERROR (fst r) = false /\ mounted (world s) Handle V (world s') /\ Valid V = true /\
      MediaId V = MId /\ ReadOnly V = RO /\ (IsEncrypted V = true <-> encrypted Handle (world s)) /\
      (if IsEncrypted V then FsType V = junk_FsType
       else exists st, GetFsType ReadDisk (junk 1024%nat) = Some (st, Some (FsType V)) /\ EFI_ERROR st = false) /\
      pool_live s' = pool_live s + 1
  | None => EFI_ERROR (fst r) = true /\ taken_back (world s) (world s') /\
      (~ encrypted Handle (world s) -> pool_live s' = pool_live s) /\
      pool_live s <= pool_live s' <= pool_live s + 1
  end.

Lemma key_release_ok f s : fwp (key_release f) (fun _ s' =>
  vol_same (world s) (world s') /\ pool_live s' = pool_live s - 1) s.
Proof.
  apply fwp_bind, fwp_free, fwp_bind, fwp_sys, fwp_ret. split; [apply vs_fclose|done].
Qed.

(** What [volume_key] hands on: a key that fits, exactly for an encrypted
    partition. *)
Definition key_known (Handle : Z) (w : World) (Key : option (Z * list Z * Z)) : Prop :=
  (Key <> None <-> encrypted Handle w) /\
  match Key with
  | Some (_, key, size) => Forall is_byte key /\ size = Z.of_nat (length key) /\ (1 <= length key <= 64)%nat
  | None => True
  end.
Definition key_blocks (Key : option (Z * list Z * Z)) : Z := if Key then 1 else 0.

(** What this call meets: the key it reads has 1 to 64 bytes, and the place for
    the file system is free. *)
Definition volume_ready (junk : nat -> list Z) (Handle : Z) (s : fstate) : Prop :=
  match volume_key junk Handle s with
  | FDone (KNext Key) s1 =>
      match Key with Some (_, _, size) => 1 <= size <= 64 | None => True end /\
      place_free Handle (bool_decide (is_Some Key)) (world s1)
  | _ => True
  end.

#[export] Instance place_free_dec Handle e w : Decision (place_free Handle e w).
Proof. unfold place_free. destruct e; apply _. Defined.

#[export] Instance volume_ready_dec junk Handle s : Decision (volume_ready junk Handle s).
Proof.
  unfold volume_ready. destruct (volume_key junk Handle s) as [[| |[[[f key] size]|]] s1|]; apply _.
Defined.

Lemma volume_key_ready junk Handle s : junk_ok junk -> volume_ready junk Handle s ->
  fwp (volume_key junk Handle) (fun k s1 => key_post Handle s k s1 /\
    match k with
    | KNext Key => key_known Handle (world s) Key /\ pool_live s1 = pool_live s + key_blocks Key /\
        place_free Handle (bool_decide (is_Some Key)) (world s1)
    | _ => True
    end) s.
Proof.
  intros Hj Hr. pose proof (volume_key_ok junk Handle s Hj) as Hk. unfold volume_ready in Hr. unfold fwp in *.
  destruct (volume_key junk Handle s) as [[st|st f|Key] s1|]; [done..| |done].
  split; [done|]. destruct Hr as [Hs Hf]. destruct Hk as [V1 Hk]. unfold key_known, key_blocks.
  destruct Key as [[[f key] size]|]; [|destruct Hk; split_and!; [done..|lia|done]].
  destruct Hk as (He & (Hb & Hsz & Hl) & P). rewrite u32_small in Hl by lia. split_and!; [done..|lia|lia|lia|lia|done].
Qed.

(** Giving the key back. *)
Lemma key_blocks_released (Key : option (Z * list Z * Z)) s (Q : unit -> fstate -> Prop) :
  (forall s', vol_same (world s) (world s') -> pool_live s' = pool_live s - key_blocks Key -> Q tt s') ->
  fwp (match Key with Some (KeyFile, _, _) => key_release KeyFile | None => mret tt end) Q s.
Proof.
  intros HQ. destruct Key as [[[f key] size]|].
  - eapply fwp_mono; [apply key_release_ok|]. intros [] s' [V P]. apply HQ; [done|exact P].
  - apply fwp_ret, HQ; [done|unfold key_blocks; lia].
Qed.

(** The type of the file system: for an encrypted volume it is never set. *)
Definition fs_ok (Key : option (Z * list Z * Z)) (ReadDisk : Z -> Z -> Z * list Z) (junk : nat -> list Z)
    (junk_FsType name : str) : Prop :=
  if Key then name = junk_FsType
  else exists st, GetFsType ReadDisk (junk 1024%nat) = Some (st, Some name) /\ EFI_ERROR st = false.

Lemma fs_type_ok (Key : option (Z * list Z * Z)) ReadDisk junk junk_FsType s :
  full_reads ReadDisk ->
  fwp (if Key then mret (EFI_SUCCESS, Some junk_FsType)
       else lift (GetFsType ReadDisk (junk 1024%nat)) : FM (Z * option str))
    (fun r s' => s' = s /\
       (EFI_ERROR (fst r) = false -> exists name, snd r = Some name /\ fs_ok Key ReadDisk junk junk_FsType name /\
          (Key = None -> exists i, i ∈ FsIdInfos /\ name = Name i))) s.
Proof.
  intros Hrd. unfold fs_ok. destruct Key; [apply fwp_ret; split; [done|]; intros _; by eexists|].
  destruct (GetFsType_total ReadDisk (junk 1024%nat) Hrd) as (st & name & -> & Hn).
  apply fwp_ret. split; [done|]. cbn [fst snd]. intros He. destruct (Hn He) as (i & Hi & ->).
  exists (Name i). split_and!; [done|by exists st|]. intros _. by exists i.
Qed.

Lemma LKLAllocateVolume_ok Handle ReadDisk MId RO junk junk_FsType addr s :
  junk_ok junk -> full_reads ReadDisk -> volume_ready junk Handle s ->
  fwp (LKLAllocateVolume junk Handle ReadDisk MId RO junk_FsType addr)
    (volume_post Handle ReadDisk MId RO junk junk_FsType s) s.
Proof.
  intros Hj Hrd Hready. unfold LKLAllocateVolume. apply fwp_bind.
  eapply fwp_mono; [by apply volume_key_ready|]. intros k s1 [Hk Hnext]. unfold volume_post.
  destruct k as [st|st KeyFile|Key].
  - destruct Hk as (V1 & He & Est & P1). apply fwp_ret. cbn [fst snd].
    split_and!; [done|by apply taken_back_same|done|lia..].
  - destruct Hk as (V1 & He & Est & P1). apply fwp_bind. eapply fwp_mono; [apply key_release_ok|].
    intros _ s2 [V2 P2]. apply fwp_ret. cbn [fst snd]. split_and!; [done|apply taken_back_same; by etrans|done|lia..].
  - destruct Hk as [V1 _], Hnext as ([Henc Hkey] & P1 & Hfree).
    assert (Hb : 0 <= key_blocks Key <= 1 /\ (~ encrypted Handle (world s) -> key_blocks Key = 0)).
    { unfold key_blocks. destruct Key; [|lia]. split; [lia|]. intros Hn. exfalso. by apply Hn, Henc. }
    apply fwp_bind. eapply fwp_mono; [by apply fs_type_ok|]. intros [st fs] s2 [-> Hfs]. cbn [fst snd] in Hfs.
    destruct (EFI_ERROR st).
    { apply fwp_ret. cbn [fst snd]. split_and!; [done|by apply taken_back_same|intros Hn; apply Hb in Hn; lia|lia..]. }
    destruct (Hfs eq_refl) as (name & -> & Hname & Hin). clear Hfs. cbn [default].
    apply fwp_bind, fwp_alloc; intros fs'; cbn [negb].
    { apply fwp_ret. cbn [fst snd world pool_live].
      split_and!; [done|by apply taken_back_same|intros Hn; apply Hb in Hn; lia|lia..]. }
    set (s2 := mk_fstate (world s1) fs' (pool_live s1 + 1)). set (V0 := volume_zero _ _ _ _).
    apply fwp_bind. eapply fwp_mono; [apply (volume_start_ok Handle V0 Key addr junk s2); [done..| |done]|].
    { destruct Key; [done|]. destruct (Hin eq_refl) as (i & Hi & ->). by exists i. }
    intros [st3 V3] s3 (Hbu & P3 & Henc3 & Hok). cbn [fst snd] in *. cbn [s2 pool_live] in P3.
    change (world s2) with (world s1) in *.
    assert (E0 : IsEncrypted V0 = bool_decide (is_Some Key)) by done. rewrite E0 in Henc3.
    destruct (EFI_ERROR st3) eqn:E3; unfold fwhen.
    + apply fwp_bind. eapply fwp_mono; [by apply (volume_undo_ok (world s1) Handle V3)|].
      intros _ s4 [V4 P4]. apply fwp_bind, key_blocks_released. intros s5 V5 P5. apply fwp_ret. cbn [fst snd].
      rewrite E3. split_and!; [done| |intros; lia|lia..].
      eapply taken_back_l; [exact V1|]. by eapply taken_back_r.
    + apply fwp_bind, fwp_ret, fwp_bind, key_blocks_released. intros s5 V5 P5. apply fwp_ret. cbn [fst snd]. rewrite E3.
      destruct (Hok eq_refl) as (Hmt & Hv & HM & HR & HF).
      split; [done|]. split.
      { unfold mounted in *. destruct V1 as (M1 & D1 & B1), V5 as (M5 & D5 & B5).
        rewrite M5, D5, B5, <- M1, <- D1, <- B1. exact Hmt. }
      split_and!; [done|done|done| | |lia].
      * rewrite Henc3, bool_decide_eq_true, <- not_eq_None_Some. exact Henc.
      * rewrite Henc3, HF. by destruct Key.
Qed.
End proofs.

(** ** Properties *)

Section properties.
Context `{LklMounts} `{!EdkStrings}.

Lemma LKLAbandonVolume_ok `{!EdkLock} L Handle V s :
  fwp (LKLAbandonVolume L Handle V) (fun r s' =>
    let '(Status, V', L') := r in
    lock_held L' = lock_held L /\ vol_same (world s) (world s') /\ pool_live s' = pool_live s /\
    if negb (Handle =? 0) && EFI_ERROR (fst (UninstallSfs Handle (world s)))
    then Status = fst (UninstallSfs Handle (world s)) /\ V' = V
    else Status = EFI_SUCCESS /\ V' = set_Valid false V) s.
Proof.
  assert (Hend : forall s', vol_same (world s) (world s') -> pool_live s' = pool_live s ->
    fwp (r ← LKLAcquireLockOrFail L;
         let (Status, L) := (r : Z * EFI_LOCK) in
         let LockedByMe := negb (EFI_ERROR Status) in
         let V := set_Valid false V in
         L ← (if LockedByMe then LKLReleaseLock L else mret L); mret (EFI_SUCCESS, V, L))
      (fun r s' => let '(Status, V', L') := r in
         lock_held L' = lock_held L /\ vol_same (world s) (world s') /\ pool_live s' = pool_live s /\
         Status = EFI_SUCCESS /\ V' = set_Valid false V) s').
  { intros s' Hv Hp. unfold LKLAcquireLockOrFail. apply fwp_bind, fwp_ret.
    destruct (lock_held L) eqn:HL.
    - rewrite lock_held_fails by done. change (negb (EFI_ERROR EFI_ACCESS_DENIED)) with false.
      apply fwp_bind, fwp_ret, fwp_ret. done.
    - destruct (lock_free_taken L HL) as (L1 & -> & HL1). change (negb (EFI_ERROR EFI_SUCCESS)) with true.
      destruct (lock_released L1 HL1) as (L2 & E2 & HL2). unfold LKLReleaseLock. rewrite E2.
      apply fwp_bind, fwp_ret, fwp_ret. done. }
  unfold LKLAbandonVolume. apply fwp_bind. destruct (Z.eqb_spec Handle 0) as [->|Hne]; cbn [negb andb].
  - apply fwp_ret. by apply Hend.
  - apply fwp_sys. pose proof (vs_uninstall Handle (world s)) as Hv.
    destruct (UninstallSfs Handle (world s)) as [st w1]. cbn [fst snd] in *.
    destruct (EFI_ERROR st); [by apply fwp_ret|]. by apply Hend.
Qed.

(** C7: setting up a volume is all or nothing, except for what cannot be
    unmounted.  When a volume comes out, it is valid, has the medium's
    attributes, its disk is registered and its mount point is the one mount
    there is more, in one block of memory; the type of a volume that is not
    encrypted is the one found on the medium.  When none comes out, the status is
    an error, disks and open protocols are what they were, and so are the mounts,
    unless unmounting failed, whose result the clean-up ignores: then the file
    system stays mounted though its disk is removed; without encryption no
    memory is kept either.  Two defects are visible: an encrypted volume keeps
    the uninitialised type, and its failure may keep the key's block.  Assumed
    are: the key this call reads has 1 to 64 bytes (a longer one overflows the
    stack), and the place where the file system will be mounted is no mount
    point yet ([volume_ready]); Disk I/O that succeeds fills the buffer
    ([full_reads]); uninitialised memory holds bytes ([junk_ok]). *)
Theorem LKLAllocateVolume_spec Handle ReadDisk MId RO junk junk_FsType addr s :
  junk_ok junk -> full_reads ReadDisk -> volume_ready junk Handle s ->
  fwp (LKLAllocateVolume junk Handle ReadDisk MId RO junk_FsType addr)
    (volume_post Handle ReadDisk MId RO junk junk_FsType s) s.
Proof. apply LKLAllocateVolume_ok. Qed.

(** Stopping a volume makes it invalid and leaves the lock as it was,
    held by a caller or free, unless the protocol cannot be taken off the
    handle; in no case is the file system unmounted, the disk removed or the
    volume's memory freed. *)
Theorem LKLAbandonVolume_spec `{!EdkLock} L Handle V s :
  fwp (LKLAbandonVolume L Handle V) (fun r s' =>
    let '(Status, V', L') := r in
    lock_held L' = lock_held L /\ vol_same (world s) (world s') /\ pool_live s' = pool_live s /\
    if negb (Handle =? 0) && EFI_ERROR (fst (UninstallSfs Handle (world s)))
    then Status = fst (UninstallSfs Handle (world s)) /\ V' = V
    else Status = EFI_SUCCESS /\ V' = set_Valid false V) s.
Proof. apply LKLAbandonVolume_ok. Qed.
End properties.

(** ** Witnesses *)

(** Handle 2 is the encrypted partition; its key is on handle 9. *)
#[export] Instance demo_firmware : Firmware (H := demo_lkl).
Proof.
  refine {|
    PartitionName h w := if h =? 2 then (EFI_SUCCESS, codes "android_expand") else (EFI_NOT_FOUND, []);
    DevicePathFromHandle h w := Some [mk_dp 2 1 0 []; mk_dp 4 1 2 (le_bytes 16 0xABCD)];
    LocateSfsHandles w := (EFI_SUCCESS, [8; 9]);
    HandleSfs h w := if h =? 9 then EFI_SUCCESS else EFI_UNSUPPORTED;
    SfsOpenVolume h w := ((EFI_SUCCESS, 90), w);
    FileOpen f p m a w := ((EFI_SUCCESS, 91), w);
    FileRead f n w := ((EFI_SUCCESS, if 4 <=? n then demo_key else []), w);
    FileHandleGetSize f w := ((EFI_SUCCESS, 4), w);
    FileHandleClose f w := (tt, w);
    InstallSfs h w := (EFI_SUCCESS, w);
    UninstallSfs h w := (EFI_SUCCESS, w)
  |}.
  - intros f n w Hn. cbn [fst snd]. destruct (Z.leb_spec 4 n); cbn; lia.
  - intros f n w. cbn [fst snd]. destruct (4 <=? n); [by apply all_bytes|constructor].
  - done.
Defined.

Definition d_same (w w' : demo_world) : Prop :=
  dmounts w' = dmounts w /\ ddisks w' = ddisks w /\ dbound w' = dbound w.
Ltac d_same_tac := intros; repeat first [done | case_match; cbn [fst snd]].

Lemma d_same_open p f m w : d_same w (snd (d_open p f m w)).
Proof. unfold d_open, new_fd. d_same_tac. Qed.
Lemma d_same_close fd w : d_same w (snd (d_close fd w)).
Proof. done. Qed.
Lemma d_same_read fd n w : d_same w (snd (d_read fd n w)).
Proof. unfold d_read. d_same_tac. Qed.
Lemma d_same_lseek fd o h w : d_same w (snd (d_lseek fd o h w)).
Proof. unfold d_lseek. cbv zeta. d_same_tac. Qed.
Lemma d_same_mkdir p m w : d_same w (snd (d_mkdir p m w)).
Proof. unfold d_mkdir. d_same_tac. Qed.
Lemma d_same_unlink p w : d_same w (snd (d_unlink p w)).
Proof. unfold d_unlink. d_same_tac. Qed.
Lemma d_same_mknod p m d w : d_same w (snd (d_mknod p m d w)).
Proof. unfold d_mknod. d_same_tac. Qed.
Lemma d_same_ioctl fd r b w : d_same w (snd (d_ioctl fd r b w)).
Proof. unfold d_ioctl. cbv zeta. d_same_tac. Qed.

Lemma d_disk_add_spec h w : let r := d_disk_add h w in
  if fst r <? 0 then d_same w (snd r)
  else ddisks w !! fst r = None /\ ddisks (snd r) = <[fst r := h]> (ddisks w) /\ dmounts (snd r) = dmounts w /\
    dbound (snd r) = dbound w.
Proof.
  cbv zeta. unfold d_disk_add. destruct (_ || _) eqn:E; cbn [fst snd]; [done|].
  apply orb_false_iff in E as [[E1 E2]%orb_false_iff E3].
  rewrite (proj2 (Z.ltb_ge _ _)) by lia. apply bool_decide_eq_false in E2, E3.
  split; [by apply eq_None_not_Some|]. done.
Qed.

Lemma d_mount_dev_spec d p t f n w : let r := d_mount_dev d p t f n w in
  let mp := snd (fst r) in
  if fst (fst r) <? 0 then d_same w (snd r)
  else mp <> [] /\ dmounts (snd r) = {[mp]} ∪ dmounts w /\ ddisks (snd r) = ddisks w /\ dbound (snd r) = dbound w.
Proof.
  cbv zeta. unfold d_mount_dev. cbv zeta. by case_decide.
Qed.

Lemma d_mount_spec d p t f w : let r := d_mount d p t f w in
  if fst r <? 0 then d_same w (snd r)
  else dmounts (snd r) = {[p]} ∪ dmounts w /\ ddisks (snd r) = ddisks w /\ dbound (snd r) = dbound w.
Proof. cbv zeta. unfold d_mount. by case_decide. Qed.

Lemma d_umount_spec p f w : let r := d_umount p f w in
  dmounts (snd r) = (if decide (fst r = 0) then dmounts w ∖ {[p]} else dmounts w) /\
  ddisks (snd r) = ddisks w /\ dbound (snd r) = dbound w.
Proof. cbv zeta. unfold d_umount. by case_decide. Qed.

#[export] Instance demo_mounts : LklMounts (H := demo_lkl) (H0 := demo_blk) := {|
  mounts := dmounts : @World demo_lkl -> gset str;
  disks := ddisks : @World demo_lkl -> gmap Z Z;
  bound := dbound : @World demo_lkl -> gset (Z * Z);
  vs_open := d_same_open;
  vs_close := d_same_close;
  vs_read := d_same_read;
  vs_lseek := d_same_lseek;
  vs_mkdir := d_same_mkdir;
  vs_unlink := d_same_unlink;
  vs_mknod := d_same_mknod;
  vs_ioctl := d_same_ioctl;
  vs_sfs _ _ := conj eq_refl (conj eq_refl eq_refl);
  vs_fopen _ _ _ _ _ := conj eq_refl (conj eq_refl eq_refl);
  vs_fread _ _ _ := conj eq_refl (conj eq_refl eq_refl);
  vs_fsize _ _ := conj eq_refl (conj eq_refl eq_refl);
  vs_fclose _ _ := conj eq_refl (conj eq_refl eq_refl);
  vs_install _ _ := conj eq_refl (conj eq_refl eq_refl);
  vs_uninstall _ _ := conj eq_refl (conj eq_refl eq_refl);
  disk_add_spec := d_disk_add_spec;
  disk_remove_spec _ _ _ _ := conj eq_refl (conj eq_refl eq_refl);
  mount_dev_spec := d_mount_dev_spec;
  mount_spec := d_mount_spec;
  umount_spec := d_umount_spec
|}.

Definition demo_junk (n : nat) : list Z := replicate n 7.

Lemma demo_junk_ok : junk_ok demo_junk.
Proof. intros n. split; [apply length_replicate|]. by apply Forall_replicate. Qed.

(** A medium with an ext superblock. *)
Definition demo_medium (off n : Z) : Z * list Z := (EFI_SUCCESS, bytes_at demo_disk off (Z.to_nat n)).

Lemma demo_medium_full : full_reads demo_medium.
Proof. intros off n _. apply length_bytes_at. Qed.

(** The mapped device has an ext file system too. *)
Definition demo_system : fstate :=
  demo_state [(DEVMAPPER_CONTROL_FILE, demo_file []); (codes "/dev/block/dm-0", demo_file (bytes_at demo_disk 0 2048))].

(** Whether a volume came out, its mount point, the number of mounts and disks,
    and the blocks of memory. *)
Definition volume_summary (r : fres (Z * option LKL_VOLUME)) : option (bool * str * nat * nat * Z) :=
  match r with
  | FDone (_, v) s => Some (bool_decide (is_Some v), default [] (LKLMountPoint <$> v),
      size (dmounts (world s)), size (ddisks (world s)), pool_live s)
  | FFail _ => None
  end.

Lemma LKLAllocateVolume_spec_witness :
  volume_summary (LKLAllocateVolume demo_junk 1 demo_medium 5 false [] 0x8000 demo_system) =
    Some (true, codes "/mnt/0", 1%nat, 1%nat, 1) /\
  fwp (LKLAllocateVolume demo_junk 1 demo_medium 5 false [] 0x8000)
    (volume_post 1 demo_medium 5 false demo_junk [] demo_system) demo_system /\
  fwp (LKLAllocateVolume demo_junk 2 demo_medium 5 false [] 0x8000)
    (volume_post 2 demo_medium 5 false demo_junk [] demo_system) demo_system.
Proof.
  assert (Hr : forall h, bool_decide (volume_ready demo_junk h demo_system) = true -> volume_ready demo_junk h demo_system)
    by (intros h; apply bool_decide_eq_true_1).
  split; [by vm_compute|].
  split; apply (LKLAllocateVolume_spec _ demo_medium 5 false demo_junk [] 0x8000 demo_system demo_junk_ok
    demo_medium_full), Hr; vm_compute; reflexivity.
Defined.

(** The encrypted partition: the key is found, the device is made, its file
    system is mounted. *)
Lemma encrypted_volume_example :
  volume_summary (LKLAllocateVolume demo_junk 2 demo_medium 5 false [] 0x8000 demo_system) =
    Some (true, codes "/mnt/0000FE00", 1%nat, 1%nat, 1).
Proof. by vm_compute. Qed.

(** Out of memory for the volume: the block of the key stays allocated. *)
Lemma LKLAllocateVolume_leaks_key :
  volume_summary (LKLAllocateVolume demo_junk 2 demo_medium 5 false [] 0x8000
    (mk_fstate (world demo_system) [false; true] 0)) = Some (false, [], 0%nat, 0%nat, 1).
Proof. by vm_compute. Qed.
