(* ===== verification/KeyPath.v ===== *)
(** * The name of a key file ([LKLGetKeyLocation] of [Init.c])

    The file that holds the key of an encrypted partition is named after the
    GUID of the partition: the driver must look for the very name under which
    the system stored the key, and must not confuse two partitions. *)

From stdpp Require Import strings.
From S2P Require Import Prelude Efi Lkl Path DemoFs Dm Volume.

(** ** Specification *)

(** A byte as two digits in lower case. *)
Definition low_digit (d : Z) : Z := if 9 <? d then d + 87 else d + 48.
Definition low_hex2 (b : Z) : str := [low_digit (b / 16); low_digit (b `mod` 16)].

(** The order in which a GUID is written: its first three fields are little
    endian in memory. *)
Definition guid_order : list nat := [3; 2; 1; 0; 5; 4; 7; 6; 8; 9; 10; 11; 12; 13; 14; 15]%nat.
Definition guid_text (guid : list Z) : str := flat_map low_hex2 ((fun i => guid !!! i) <$> guid_order).
Definition key_name (guid : list Z) : str :=
  codes "\misc\vold\expand_" ++ guid_text guid ++ codes ".key".

(** Sixteen bytes. *)
Definition is_guid (guid : list Z) : Prop := length guid = 16%nat /\ Forall is_byte guid.

(** ** Hexadecimal numbers of a fixed width *)

Definition up_digit (d : Z) : Z := if 9 <? d then d + 55 else d + 48.

Fixpoint hexd (w : nat) (n : Z) : str :=
  match w with O => [] | S w' => hexd w' (n / 16) ++ [up_digit (n `mod` 16)] end.

Lemma hexd_zero w : hexd w 0 = replicate w 48.
Proof. induction w as [|w IH]; [done|]. cbn [hexd]. change (0 / 16) with 0. by rewrite IH, <- replicate_S_end. Qed.

Lemma uhex_hexd w : forall fuel n acc, (w <= fuel)%nat -> (1 <= w)%nat -> 0 <= n < 16 ^ Z.of_nat w ->
  replicate (w + length acc - length (uhex fuel n acc)) 48 ++ uhex fuel n acc = hexd w n ++ acc.
Proof.
  induction w as [|w IH]; [lia|]. intros [|fuel] n acc Hf _ Hn; [lia|]. cbn [uhex hexd].
  fold (up_digit (n `mod` 16)). rewrite Nat2Z.inj_succ, Z.pow_succ_r in Hn by lia.
  destruct (Z.eqb_spec (n / 16) 0) as [E|E].
  - rewrite E, hexd_zero. cbn [length]. rewrite <- app_assoc. simpl. f_equal. f_equal. lia.
  - rewrite <- app_assoc. cbn [app]. destruct w as [|w]; [Z.div_mod_to_equations; lia|].
    rewrite <- (IH fuel (n / 16) (up_digit (n `mod` 16) :: acc)); [|lia|lia|Z.div_mod_to_equations; lia].
    f_equal. f_equal. cbn [length]. lia.
Qed.

Lemma pad_hex_hexd w n : (1 <= w <= 16)%nat -> 0 <= n < 16 ^ Z.of_nat w -> pad_hex w n = hexd w n.
Proof.
  intros Hw Hn. unfold pad_hex. pose proof (uhex_hexd w 16 n [] ltac:(lia) ltac:(lia) Hn) as E.
  cbn [length] in E. by rewrite Nat.add_0_r, app_nil_r in E.
Qed.

(** A byte more at the low end is two digits more at the right. *)
Lemma hexd_byte w b v : is_byte b -> hexd (S (S w)) (b + 256 * v) = hexd w v ++ hexd 2 b.
Proof.
  unfold is_byte. intros Hb. cbn [hexd]. rewrite Z.div_div by lia. change (16 * 16) with 256.
  replace ((b + 256 * v) / 256) with v by (Z.div_mod_to_equations; lia).
  replace (((b + 256 * v) / 16) `mod` 16) with ((b / 16) `mod` 16) by (Z.div_mod_to_equations; lia).
  replace ((b + 256 * v) `mod` 16) with (b `mod` 16) by (Z.div_mod_to_equations; lia).
  by rewrite <- app_assoc.
Qed.

Lemma le_val_hex_range l : Forall is_byte l -> 0 <= le_val l < 16 ^ Z.of_nat (2 * length l).
Proof.
  unfold is_byte. induction 1 as [|b l Hb _ IH]; [done|]. cbn [le_val length].
  replace (2 * S (length l))%nat with (S (S (2 * length l))) by lia.
  rewrite !Nat2Z.inj_succ, !Z.pow_succ_r by lia. lia.
Qed.

(** A little-endian number, printed in its full width. *)
Lemma hexd_le_val l : Forall is_byte l ->
  hexd (2 * length l) (le_val l) = flat_map (hexd 2) (reverse l).
Proof.
  induction 1 as [|b l Hb _ IH]; [done|]. cbn [length le_val].
  replace (2 * S (length l))%nat with (S (S (2 * length l))) by lia.
  rewrite hexd_byte, IH, reverse_cons, flat_map_app by done. by cbn [flat_map]; rewrite app_nil_r.
Qed.

(** ** Lower case *)

Lemma UnicodeToLower_app s s' : UnicodeToLower (s ++ s') = UnicodeToLower s ++ UnicodeToLower s'.
Proof. induction s as [|c s IH]; [done|]. cbn [app UnicodeToLower]. by rewrite IH. Qed.

Lemma lower_up_digit d : 0 <= d < 16 -> UnicodeToLower [up_digit d] = [low_digit d].
Proof.
  intros Hd. unfold up_digit, low_digit. cbn [UnicodeToLower]. destruct (Z.ltb_spec 9 d); f_equal.
  - rewrite (proj2 (Z.leb_le 65 _)), (proj2 (Z.leb_le _ 70)) by lia. cbn [andb].
    unfold u16. rewrite Z.mod_small by lia. lia.
  - rewrite (proj2 (Z.leb_gt 65 _)) by lia. done.
Qed.

Lemma lower_hex2 b : is_byte b -> UnicodeToLower (hexd 2 b) = low_hex2 b.
Proof.
  unfold is_byte. intros Hb. cbn [hexd]. rewrite UnicodeToLower_app, !app_nil_l.
  rewrite !lower_up_digit by (apply Z.mod_pos_bound; lia).
  unfold low_hex2. rewrite (Z.mod_small (b / 16)) by (Z.div_mod_to_equations; lia). done.
Qed.

Lemma lower_flat_map l : Forall is_byte l -> UnicodeToLower (flat_map (hexd 2) l) = flat_map low_hex2 l.
Proof.
  induction 1 as [|b l Hb _ IH]; [done|]. cbn [flat_map]. by rewrite UnicodeToLower_app, IH, lower_hex2.
Qed.

(** ** The name *)

Lemma expand_fmt s rest args : expand (fmt s ++ rest) args = codes s ++ expand rest args.
Proof. unfold fmt. induction (codes s) as [|c l IH]; [done|]. cbn. by rewrite IH. Qed.

Lemma expand_Px w ns rest args :
  expand ((Px w <$> ns) ++ rest) args = flat_map (pad_hex w) ns ++ expand rest args.
Proof. induction ns as [|n ns IH]; [done|]. cbn. by rewrite IH, <- app_assoc. Qed.

Lemma field_hex off n guid : Forall is_byte guid -> (1 <= n <= 8)%nat -> (off + n <= length guid)%nat ->
  pad_hex (2 * n) (field off n guid) = flat_map (hexd 2) (reverse (bytes_of off n guid)).
Proof.
  intros Hg Hn Hl. unfold field.
  assert (Hb : Forall is_byte (bytes_of off n guid)) by (unfold bytes_of; by apply Forall_take, Forall_drop).
  assert (Hlen : length (bytes_of off n guid) = n).
  { unfold bytes_of. rewrite length_take, length_drop. lia. }
  pose proof (le_val_hex_range _ Hb) as Hr. rewrite Hlen in Hr.
  rewrite pad_hex_hexd by (lia || done). by rewrite <- Hlen at 1; rewrite hexd_le_val.
Qed.

Lemma flat_map_pad2 l : Forall is_byte l -> flat_map (pad_hex 2) l = flat_map (hexd 2) l.
Proof.
  induction 1 as [|b l Hb _ IH]; [done|]. cbn [flat_map]. rewrite IH, pad_hex_hexd; [done|lia|].
  unfold is_byte in Hb. change (16 ^ Z.of_nat 2) with 256. lia.
Qed.

(** The bytes of a GUID in the order of its text. *)
Definition guid_bytes (guid : list Z) : list Z := (fun i => guid !!! i) <$> guid_order.

Lemma guid_bytes_fields guid : length guid = 16%nat ->
  guid_bytes guid = reverse (bytes_of 0 4 guid) ++ reverse (bytes_of 4 2 guid) ++
    reverse (bytes_of 6 2 guid) ++ bytes_of 8 8 guid.
Proof. intros Hl. do 16 (destruct guid as [|? guid]; [done|]). by destruct guid. Qed.

Lemma guid_bytes_ok guid : is_guid guid -> Forall is_byte (guid_bytes guid).
Proof.
  intros [Hl Hb]. rewrite guid_bytes_fields by done. unfold bytes_of.
  rewrite !Forall_app, !Forall_reverse. split_and!; by apply Forall_take, Forall_drop.
Qed.

Lemma expand_key guid : is_guid guid ->
  expand (key_format guid) [] =
    codes "\misc\vold\expand_" ++ flat_map (hexd 2) (guid_bytes guid) ++ codes ".key".
Proof.
  intros [Hl Hb]. unfold key_format. rewrite expand_fmt. cbn [app expand].
  pose proof (field_hex 0 4 guid Hb ltac:(lia) ltac:(lia)) as E1.
  pose proof (field_hex 4 2 guid Hb ltac:(lia) ltac:(lia)) as E2.
  pose proof (field_hex 6 2 guid Hb ltac:(lia) ltac:(lia)) as E3. cbn [Nat.mul Nat.add] in E1, E2, E3.
  rewrite E1, E2, E3, expand_Px.
  rewrite flat_map_pad2 by (unfold bytes_of; by apply Forall_take, Forall_drop).
  rewrite guid_bytes_fields, !flat_map_app, <- !app_assoc by done. repeat f_equal.
Qed.

Lemma length_flat_map2 (f : Z -> str) l :
  (forall b, length (f b) = 2%nat) -> length (flat_map f l) = (2 * length l)%nat.
Proof. intros Hf. induction l as [|b l IH]; [done|]. cbn [flat_map]. rewrite length_app, Hf, IH. cbn. lia. Qed.

Lemma lower_key_name guid : is_guid guid -> UnicodeToLower (expand (key_format guid) []) = key_name guid.
Proof.
  intros Hg. rewrite expand_key, !UnicodeToLower_app, lower_flat_map by (done || by apply guid_bytes_ok). done.
Qed.

(** Two different GUIDs have different names. *)
Lemma low_hex2_inj b b' : is_byte b -> is_byte b' -> low_hex2 b = low_hex2 b' -> b = b'.
Proof.
  unfold is_byte, low_hex2, low_digit. intros Hb Hb' [= E1 E2].
  destruct (Z.ltb_spec 9 (b / 16)), (Z.ltb_spec 9 (b' / 16)), (Z.ltb_spec 9 (b `mod` 16)),
    (Z.ltb_spec 9 (b' `mod` 16)); Z.div_mod_to_equations; lia.
Qed.

Lemma flat_map_low_inj l : forall l', Forall is_byte l -> Forall is_byte l' ->
  flat_map low_hex2 l = flat_map low_hex2 l' -> l = l'.
Proof.
  induction l as [|b l IH]; intros [|b' l'] Hl Hl' E; try done. cbn [flat_map] in E.
  apply Forall_cons in Hl as [Hb Hl]. apply Forall_cons in Hl' as [Hb' Hl'].
  apply app_inj_1 in E as [E1 E2]; [|done]. f_equal; [by apply low_hex2_inj|by apply IH].
Qed.

Lemma guid_bytes_inj g g' : length g = 16%nat -> length g' = 16%nat -> guid_bytes g = guid_bytes g' -> g = g'.
Proof.
  intros Hg Hg'. do 16 (destruct g as [|? g]; [done|]). destruct g; [|done].
  do 16 (destruct g' as [|? g']; [done|]). destruct g'; [|done]. cbn. by intros [= -> -> -> -> -> -> -> -> -> -> -> -> -> -> -> ->].
Qed.

Lemma key_name_inj g g' : is_guid g -> is_guid g' -> key_name g = key_name g' -> g = g'.
Proof.
  intros Hg Hg' E. unfold key_name in E. apply (inj (app (codes "\misc\vold\expand_"))) in E.
  apply app_inv_tail in E. apply flat_map_low_inj in E; [|by apply guid_bytes_ok..].
  apply guid_bytes_inj; [apply Hg|apply Hg'|done].
Qed.

(** ** Property *)

(** C30: [LKLGetKeyLocation], with the 200 bytes its caller gives it.  A handle
    without device path, a path without hard drive node and a partition that is
    not identified by a GUID are refused; otherwise the first hard drive node of
    the path decides, and the result is the name of the key file, complete and
    in lower case: the GUID of the partition with its fields in the order in which
    GUIDs are written.  No other GUID gives the same name. *)
Theorem LKLGetKeyLocation_spec `{LklBlk} `{!EdkStrings} `{!Firmware} Handle s :
  let refused := FDone (EFI_INVALID_PARAMETER, None) s in
  match DevicePathFromHandle Handle (world s) ≫= harddrive_node with
  | None => LKLGetKeyLocation Handle 200 s = refused
  | Some Hd =>
      if SignatureType Hd =? SIGNATURE_TYPE_GUID then
        is_guid (Signature Hd) ->
        LKLGetKeyLocation Handle 200 s = FDone (EFI_SUCCESS, Some (key_name (Signature Hd))) s /\
        forall guid, is_guid guid -> key_name guid = key_name (Signature Hd) -> guid = Signature Hd
      else LKLGetKeyLocation Handle 200 s = refused
  end.
Proof.
  intros refused.
  assert (Hrun : forall o, DevicePathFromHandle Handle (world s) = o ->
    LKLGetKeyLocation Handle 200 s = (match o with
      | None => mret (EFI_INVALID_PARAMETER, None)
      | Some nodes => match harddrive_node nodes with
        | None => mret (EFI_INVALID_PARAMETER, None)
        | Some Hd => if SignatureType Hd =? SIGNATURE_TYPE_GUID then
            mret (EFI_SUCCESS, Some (UnicodeToLower (UnicodeSPrint 200 (key_format (Signature Hd)) [])))
          else mret (EFI_INVALID_PARAMETER, None) end end : FM (Z * option str)) s) by (by intros o <-).
  rewrite (Hrun _ eq_refl). destruct (DevicePathFromHandle Handle (world s)) as [nodes|]; [|done]. simpl.
  destruct (harddrive_node nodes) as [Hd|]; [|done]. destruct (_ =? _); [|done].
  intros Hg. split; [|intros guid Hg'; by apply key_name_inj].
  rewrite UnicodeSPrint_fits; [by rewrite lower_key_name|].
  rewrite expand_key, !length_app, (length_flat_map2 (hexd 2)) by done.
  unfold guid_bytes. rewrite length_fmap. change (length guid_order) with 16%nat.
  change (length (codes "\misc\vold\expand_")) with 18%nat. change (length (codes ".key")) with 4%nat. lia.
Qed.

Lemma LKLGetKeyLocation_spec_witness :
  LKLGetKeyLocation 2 200 demo_system =
    FDone (EFI_SUCCESS, Some (codes "\misc\vold\expand_0000abcd000000000000000000000000.key")) demo_system.
Proof.
  refine (proj1 (LKLGetKeyLocation_spec 2 demo_system _)).
  split; [done|]. apply Forall_forall. apply (proj1 (Forall_forall _ _)). by apply all_bytes.
Defined.
