(* ===== verification/Driver.v ===== *)
(** * The driver binding ([LKL.c], [UnicodeCollation.c])

    The entry point, and the protocol by which the firmware asks the driver
    whether it supports a controller, starts it and stops it.  The driver's
    global variables (the lock, the collation interface, the volumes it has
    made) are a record that the operations pass along. *)

From stdpp Require Import strings.
From S2P Require Import Prelude Efi Lkl Errors Path DemoFs FsId File Dm Volume.

(** The protocols, as numbers. *)
Definition gEfiDiskIoProtocolGuid : Z := 1.
Definition gEfiDiskIo2ProtocolGuid : Z := 2.
Definition gEfiBlockIoProtocolGuid : Z := 3.
Definition gEfiSimpleFileSystemProtocolGuid : Z := 4.
Definition gEfiUnicodeCollation2ProtocolGuid : Z := 5.
Definition gEfiUnicodeCollationProtocolGuid : Z := 6.
Definition gEfiDriverBindingProtocolGuid : Z := 7.
Definition gEfiComponentNameProtocolGuid : Z := 8.
Definition gEfiComponentName2ProtocolGuid : Z := 9.

(** The boot services and libraries of the firmware, and the host operations of
    the thread layer, as the driver binding sees them. *)
Class BootServices `{LklSys} := {
  (** [OpenProtocol] with [BY_DRIVER], [GET_PROTOCOL] and [TEST_PROTOCOL] *)
  OpenByDriver : Z -> Z -> World -> Z * World;
  GetProtocol : Z -> Z -> World -> Z * Z;
  TestProtocol : Z -> Z -> World -> Z;
  CloseProtocol : Z -> Z -> World -> Z * World;
  (** [LocateHandleBuffer] by protocol, or ([None]) for all handles *)
  LocateHandleBuffer : option Z -> World -> Z * list Z;
  LocateCpuProtocol : World -> Z;
  GetEfiGlobalVariable2 : str -> World -> option str;
  SupportedLanguages : Z -> World -> str;
  (** supported languages, ISO 639, the wanted and the default language *)
  GetBestLanguage : str -> bool -> str -> str -> option str;
  PcdUefiVariableDefaultPlatformLang : str;
  PcdUefiVariableDefaultLang : str;
  (** the medium of a Block I/O interface, and reading it through Disk I/O *)
  Media : Z -> World -> Z * bool;
  DiskRead : Z -> Z -> World -> Z -> Z -> Z * list Z;
  EfiTestManagedDevice : Z -> World -> Z;
  DisconnectController : Z -> World -> Z * World;
  HandleProtocol : Z -> World -> Z;
  InstallDriverBinding : World -> Z * World;
  (** the protocols that are taken off the image *)
  UninstallProtocols : list Z -> World -> Z * World;
  makedev : Z -> Z -> Z;
  host_thread_init : World -> unit * World;
  host_thread_yield : World -> unit * World;
  lkl_start_kernel : World -> Z * World;
  lkl_sys_halt : World -> Z * World;
  (** a read that succeeds delivers all that was asked for *)
  DiskRead_full : forall c m w, full_reads (DiskRead c m w)
}.

(** *** Unicode collation *)

Section collation.
Context `{BootServices}.

(** [Language]: the wanted language, when the variable exists. *)
Fixpoint collation_loop (Protocol : Z) (Iso639Language : bool) (Language : option str) (DefaultLanguage : str)
    (Handles : list Z) (mInterface : option Z) : FM (Z * option Z) :=
  match Handles with
  | [] => mret (EFI_UNSUPPORTED, mInterface)
  | h :: Handles' =>
      let next := collation_loop Protocol Iso639Language Language DefaultLanguage Handles' mInterface in
      r ← query (GetProtocol Protocol h);
      let (Status, Uci) := (r : Z * Z) in
      if EFI_ERROR Status then next
      else
        langs ← query (SupportedLanguages Uci);
        match GetBestLanguage langs Iso639Language (default [] Language) DefaultLanguage with
        | Some _ => handle_buffer;; FreePool;; mret (EFI_SUCCESS, Some Uci)
        | None => next
        end
  end.

Definition InitializeUnicodeCollationSupportWorker (Protocol : Z) (VariableName DefaultLanguage : str)
    (mInterface : option Z) : FM (Z * option Z) :=
  r ← query (LocateHandleBuffer (Some Protocol));
  let (Status, Handles) := (r : Z * list Z) in
  if EFI_ERROR Status then mret (Status, mInterface)
  else
    handle_buffer;;
    let Iso639Language := Protocol =? gEfiUnicodeCollationProtocolGuid in
    Language ← query (GetEfiGlobalVariable2 VariableName);
    fwhen (bool_decide (is_Some (Language : option str))) handle_buffer;;
    r ← collation_loop Protocol Iso639Language Language DefaultLanguage Handles mInterface;
    fwhen (bool_decide (is_Some (Language : option str))) FreePool;;
    FreePool;;
    mret r.

(** The status and [mUnicodeCollationInterface]. *)
Definition InitializeUnicodeCollationSupport (mInterface : option Z) : FM (Z * option Z) :=
  r ← InitializeUnicodeCollationSupportWorker gEfiUnicodeCollation2ProtocolGuid (codes "PlatformLang")
        PcdUefiVariableDefaultPlatformLang mInterface;
  let (Status, mInterface) := (r : Z * option Z) in
  if EFI_ERROR Status then
    InitializeUnicodeCollationSupportWorker gEfiUnicodeCollationProtocolGuid (codes "Lang")
      PcdUefiVariableDefaultLang mInterface
  else mret (Status, mInterface).
End collation.

(** *** The driver binding protocol *)

Section binding.
Context `{LklBlk} `{!EdkStrings} `{!Firmware} `{!BootServices} `{!EdkLock} `{!EdkConfig}.

Definition LKLDriverBindingSupported (ControllerHandle : Z) : FM Z :=
  Status ← sys (OpenByDriver gEfiDiskIoProtocolGuid ControllerHandle);
  if EFI_ERROR Status then mret Status
  else
    _ ← sys (CloseProtocol gEfiDiskIoProtocolGuid ControllerHandle);
    query (TestProtocol gEfiBlockIoProtocolGuid ControllerHandle).

(** The volumes by the controller they are installed on, with whether their
    [DiskIo2] is not NULL. *)
Record driver := mk_driver {
  LKLFsLock : EFI_LOCK;
  mUnicodeCollationInterface : option Z;
  volumes : gmap Z (LKL_VOLUME * bool)
}.

(** [junk], [junk_FsType], [addr]: what is uninitialised in
    [LKLAllocateVolume] and below. *)
Variables (junk : nat -> list Z) (junk_FsType : str) (addr : Z).

(** From the opening of the protocols on; the new volume, if there is one. *)
Definition start_open (ControllerHandle : Z) : FM (Z * option (LKL_VOLUME * bool)) :=
  r ← query (GetProtocol gEfiBlockIoProtocolGuid ControllerHandle);
  let (Status, BlockIo) := (r : Z * Z) in
  if EFI_ERROR Status then mret (Status, None)
  else
    Status ← sys (OpenByDriver gEfiDiskIoProtocolGuid ControllerHandle);
    if EFI_ERROR Status then mret (Status, None)
    else
      Status ← sys (OpenByDriver gEfiDiskIo2ProtocolGuid ControllerHandle);
      let DiskIo2 := negb (EFI_ERROR Status) in
      md ← query (Media BlockIo);
      let (MediaId, ReadOnly) := (md : Z * bool) in
      ReadDisk ← query (DiskRead ControllerHandle MediaId);
      r ← LKLAllocateVolume junk ControllerHandle ReadDisk MediaId ReadOnly junk_FsType addr;
      let (Status, Volume) := (r : Z * option LKL_VOLUME) in
      if EFI_ERROR Status then
        Status ← query (TestProtocol gEfiSimpleFileSystemProtocolGuid ControllerHandle);
        (if EFI_ERROR Status then
           _ ← sys (CloseProtocol gEfiDiskIoProtocolGuid ControllerHandle);
           _ ← sys (CloseProtocol gEfiDiskIo2ProtocolGuid ControllerHandle);
           mret tt
         else mret tt);;
        mret (Status, None)
      else mret (Status, (fun V => (V, DiskIo2)) <$> Volume).

Definition LKLDriverBindingStart (D : driver) (ControllerHandle : Z) : FM (Z * driver) :=
  r ← LKLAcquireLockOrFail (LKLFsLock D);
  let (Status, L) := (r : Z * EFI_LOCK) in
  let LockedByMe := negb (EFI_ERROR Status) in
  r ← InitializeUnicodeCollationSupport (mUnicodeCollationInterface D);
  let (Status, mInterface) := (r : Z * option Z) in
  r ← (if EFI_ERROR Status then mret (Status, None) else start_open ControllerHandle);
  let (Status, Volume) := (r : Z * option (LKL_VOLUME * bool)) in
  L ← (if LockedByMe then LKLReleaseLock L else mret L);
  mret (Status, mk_driver L mInterface
    match Volume with Some V => <[ControllerHandle := V]> (volumes D) | None => volumes D end).

(** [ASSERT_EFI_ERROR] *)
Definition ASSERT_EFI_ERROR (Status : Z) : FM unit :=
  if negb MDEPKG_NDEBUG && EFI_ERROR Status then ffail FAssert else mret tt.

(** The interface on the controller must be the driver's own: another one is
    taken for the [VolumeInterface] of a volume that is not there. *)
Definition LKLDriverBindingStop (D : driver) (ControllerHandle : Z) : FM (Z * driver) :=
  r ← query (GetProtocol gEfiSimpleFileSystemProtocolGuid ControllerHandle);
  let (Status, FileSystem) := (r : Z * Z) in
  r ← (if EFI_ERROR Status then mret (Status, D, false)
       else
         match volumes D !! ControllerHandle with
         | None => ffail FUB
         | Some (Volume, DiskIo2) =>
             r ← LKLAbandonVolume (LKLFsLock D) ControllerHandle Volume;
             let '(Status, Volume, L) := (r : Z * LKL_VOLUME * EFI_LOCK) in
             mret (Status, mk_driver L (mUnicodeCollationInterface D)
               (<[ControllerHandle := (Volume, DiskIo2)]> (volumes D)), DiskIo2)
         end);
  let '(Status, D, DiskIo2) := (r : Z * driver * bool) in
  if EFI_ERROR Status then mret (Status, D)
  else
    (if (DiskIo2 : bool) then
       Status ← sys (CloseProtocol gEfiDiskIo2ProtocolGuid ControllerHandle); ASSERT_EFI_ERROR Status
     else mret tt);;
    Status ← sys (CloseProtocol gEfiDiskIoProtocolGuid ControllerHandle);
    ASSERT_EFI_ERROR Status;;
    mret (Status, D).

(** *** Loading and unloading *)

Definition LKLEntryPoint : FM Z :=
  Status ← query LocateCpuProtocol;
  ASSERT_EFI_ERROR Status;;
  _ ← sys host_thread_init;
  ret ← sys lkl_start_kernel;
  if negb ((ret : Z) =? 0) then mret (LKLError2EfiError ret)
  else
    Status ← LKLMakeDir (codes "/dev");
    if EFI_ERROR Status then mret Status
    else
      Status ← LKLMakeDir (codes "/dev/block");
      if EFI_ERROR Status then mret Status
      else
        ret ← sys (lkl_sys_mknod (codes "/dev/device-mapper") (Z.lor LKL_S_IFCHR 384) (makedev 10 236));
        if negb ((ret : Z) =? 0) then mret (LKLError2EfiError ret)
        else
          Status ← sys InstallDriverBinding;
          ASSERT_EFI_ERROR Status;;
          mret Status.

(** [true]: the loop went through all the handles. *)
Fixpoint disconnect_loop (Handles : list Z) (Status : Z) : FM (Z * bool) :=
  match Handles with
  | [] => mret (Status, true)
  | h :: Handles' =>
      Status ← query (EfiTestManagedDevice h);
      if negb (EFI_ERROR Status) then
        Status ← sys (DisconnectController h);
        if EFI_ERROR Status then mret (Status, false) else disconnect_loop Handles' Status
      else disconnect_loop Handles' Status
  end.

Definition LKLUnload : FM Z :=
  r ← query (LocateHandleBuffer None);
  let (Status, DeviceHandleBuffer) := (r : Z * list Z) in
  if EFI_ERROR Status then mret Status
  else
    handle_buffer;;
    r ← disconnect_loop DeviceHandleBuffer Status;
    let (Status, all) := (r : Z * bool) in
    Status ← (if (all : bool) then
                c1 ← query (HandleProtocol gEfiComponentNameProtocolGuid);
                c2 ← query (HandleProtocol gEfiComponentName2ProtocolGuid);
                sys (UninstallProtocols (gEfiDriverBindingProtocolGuid ::
                  (if EFI_ERROR c1 then [] else [gEfiComponentNameProtocolGuid]) ++
                  (if EFI_ERROR c2 then [] else [gEfiComponentName2ProtocolGuid])))
              else mret Status);
    FreePool;;
    _ ← sys lkl_sys_halt;
    _ ← sys host_thread_yield;
    mret Status.
End binding.

(** ** What the driver relies on *)

(** Opening a protocol for the driver succeeds once at a time; closing it ends
    that, and succeeds when it was open. *)
Class DriverLaws `{LklMounts} `{!BootServices} := {
  open_spec : forall p c w, let r := OpenByDriver p c w in
    if EFI_ERROR (fst r) then vol_same w (snd r)
    else (p, c) ∉ bound w /\ bound (snd r) = {[(p, c)]} ∪ bound w /\
      mounts (snd r) = mounts w /\ disks (snd r) = disks w;
  close_spec : forall p c w, let r := CloseProtocol p c w in
    bound (snd r) = bound w ∖ {[(p, c)]} /\ mounts (snd r) = mounts w /\ disks (snd r) = disks w /\
    ((p, c) ∈ bound w -> fst r = EFI_SUCCESS)
}.

(** ** Unicode collation: the specification *)

Section collation_spec.
Context `{BootServices}.

(** The interface on [h], when it supports a wanted language. *)
Definition collation_on (P : Z) (var default_lang : str) (w : World) (h : Z) : option Z :=
  let (st, u) := GetProtocol P h w in
  if EFI_ERROR st then None
  else match GetBestLanguage (SupportedLanguages u w) (P =? gEfiUnicodeCollationProtocolGuid)
         (default [] (GetEfiGlobalVariable2 var w)) default_lang with
       | Some _ => Some u | None => None end.

Fixpoint first_some {A B} (f : A -> option B) (l : list A) : option B :=
  match l with [] => None | a :: l' => match f a with Some b => Some b | None => first_some f l' end end.

(** The first handle with [P] that will do: the status and the interface. *)
Definition find_collation (P : Z) (var default_lang : str) (w : World) (mInterface : option Z) : Z * option Z :=
  let (st, hs) := LocateHandleBuffer (Some P) w in
  if EFI_ERROR st then (st, mInterface)
  else match first_some (collation_on P var default_lang w) hs with
       | Some u => (EFI_SUCCESS, Some u)
       | None => (EFI_UNSUPPORTED, mInterface)
       end.

Definition collation_result (w : World) (mInterface : option Z) : Z * option Z :=
  let r := find_collation gEfiUnicodeCollation2ProtocolGuid (codes "PlatformLang")
             PcdUefiVariableDefaultPlatformLang w mInterface in
  if EFI_ERROR (fst r) then
    find_collation gEfiUnicodeCollationProtocolGuid (codes "Lang") PcdUefiVariableDefaultLang w (snd r)
  else r.

Lemma collation_loop_ok P var dl hs mi s :
  collation_loop P (P =? gEfiUnicodeCollationProtocolGuid) (GetEfiGlobalVariable2 var (world s)) dl hs mi s =
    FDone (match first_some (collation_on P var dl (world s)) hs with
           | Some u => (EFI_SUCCESS, Some u) | None => (EFI_UNSUPPORTED, mi) end) s.
Proof.
  induction hs as [|h hs IH]; [done|]. cbn [collation_loop first_some]. unfold collation_on at 1.
  unfold mbind, FM_bind at 1, query at 1. destruct (GetProtocol P h (world s)) as [st u].
  destruct (EFI_ERROR st); [exact IH|]. unfold FM_bind at 1, query at 1.
  destruct (GetBestLanguage _ _ _ _); [|exact IH]. cbn. f_equal. destruct s. cbn. f_equal. lia.
Qed.

Lemma collation_worker_ok P var dl mi s :
  InitializeUnicodeCollationSupportWorker P var dl mi s = FDone (find_collation P var dl (world s) mi) s.
Proof.
  unfold InitializeUnicodeCollationSupportWorker, find_collation, mbind, FM_bind at 1, query at 1.
  destruct (LocateHandleBuffer (Some P) (world s)) as [st hs]. destruct (EFI_ERROR st); [done|].
  unfold FM_bind at 1, handle_buffer at 1. unfold FM_bind at 1, query at 1. cbn [world].
  set (v := GetEfiGlobalVariable2 var (world s)). set (s1 := mk_fstate _ _ _).
  set (s2 := if bool_decide (is_Some v) then mk_fstate (world s) (pool_fails s) (pool_live s + 1 + 1) else s1).
  assert (E2 : fwhen (bool_decide (is_Some v)) handle_buffer s1 = FDone tt s2)
    by (unfold s2; by destruct (bool_decide _)).
  unfold FM_bind at 1. rewrite E2. unfold FM_bind at 1.
  assert (Hw : world s2 = world s) by (unfold s2; by destruct (bool_decide _)).
  unfold v at 1. rewrite <- Hw. rewrite collation_loop_ok. rewrite Hw.
  unfold FM_bind at 1. unfold s2. destruct s as [w fs n]. cbn. 
  destruct (bool_decide (is_Some v)); cbn; do 2 f_equal; lia.
Qed.

Lemma collation_ok mi s :
  InitializeUnicodeCollationSupport mi s = FDone (collation_result (world s) mi) s.
Proof.
  unfold InitializeUnicodeCollationSupport, collation_result, mbind, FM_bind.
  rewrite collation_worker_ok. destruct (find_collation _ _ _ _ _) as [st mi']. cbn [fst snd].
  destruct (EFI_ERROR st); [apply collation_worker_ok|done].
Qed.

(** C33: [InitializeUnicodeCollationSupport] finds the first Unicode Collation 2
    interface, in the order of the handles, that supports a wanted or default
    language, and failing that the first Unicode Collation interface; the
    previous interface stays when there is none.  Nothing else changes: every
    buffer it has taken is freed. *)
Theorem InitializeUnicodeCollationSupport_spec mi s :
  InitializeUnicodeCollationSupport mi s = FDone (collation_result (world s) mi) s.
Proof. apply collation_ok. Qed.
End collation_spec.

(** ** Starting and stopping *)

Section proofs.
Context `{DriverLaws} `{!EdkStrings} `{!EdkLock} `{!EdkConfig}.

Lemma open_tame p c w : EFI_ERROR (fst (OpenByDriver p c w)) = true -> vol_same w (snd (OpenByDriver p c w)).
Proof. intros E. pose proof (open_spec p c w) as Ho. cbv zeta in Ho. by rewrite E in Ho. Qed.

(** The test for support has no effect, whatever it answers: a protocol it
    has opened is closed again. *)
Theorem LKLDriverBindingSupported_spec c s :
  fwp (LKLDriverBindingSupported c) (fun st s' =>
    vol_same (world s) (world s') /\ pool_live s' = pool_live s /\
    st = if EFI_ERROR (fst (OpenByDriver gEfiDiskIoProtocolGuid c (world s)))
         then fst (OpenByDriver gEfiDiskIoProtocolGuid c (world s))
         else TestProtocol gEfiBlockIoProtocolGuid c (world s')) s.
Proof.
  unfold LKLDriverBindingSupported. apply fwp_bind, fwp_sys.
  pose proof (open_spec gEfiDiskIoProtocolGuid c (world s)) as Ho. cbv zeta in Ho.
  destruct (OpenByDriver _ _ _) as [st w1]. cbn [fst snd] in *. destruct (EFI_ERROR st); [by apply fwp_ret|].
  apply fwp_bind, fwp_sys, fwp_query. cbn [world pool_live].
  pose proof (close_spec gEfiDiskIoProtocolGuid c w1) as Hcl. cbv zeta in Hcl. destruct Hcl as (C1 & C2 & C3 & _).
  destruct Ho as (Hn & O1 & O2 & O3). split; [|done]. unfold vol_same.
  split_and!; [congruence|congruence|]. rewrite C1, O1. set_solver.
Qed.

(** The protocols a started driver has open on [c]; [b]: there is a [DiskIo2]. *)
Definition protocols (c : Z) (b : bool) : gset (Z * Z) :=
  {[(gEfiDiskIoProtocolGuid, c)]} ∪ if b then {[(gEfiDiskIo2ProtocolGuid, c)]} else ∅.

(** What a start on [c] meets once it has opened the device's protocols: a key
    of 1 to 64 bytes, if there is one, and a free place to mount at. *)
Definition start_ready (junk : nat -> list Z) (c : Z) (s : fstate) : Prop :=
  let w1 := snd (OpenByDriver gEfiDiskIoProtocolGuid c (world s)) in
  let w2 := snd (OpenByDriver gEfiDiskIo2ProtocolGuid c w1) in
  volume_ready junk c (mk_fstate w2 (pool_fails s) (pool_live s)).

#[export] Instance start_ready_dec junk c s : Decision (start_ready junk c s).
Proof. unfold start_ready. apply _. Defined.

(** A volume [V] on [c], started in the world [w]. *)
Definition volume_on (c : Z) (V : LKL_VOLUME) (b : bool) (w w' : World) : Prop :=
  Valid V = true /\ LKLMountPoint V ∉ mounts w /\ mounts w' = {[LKLMountPoint V]} ∪ mounts w /\
  disks w !! LKLDiskId V = None /\ disks w' = <[LKLDiskId V := c]> (disks w) /\ bound w' = protocols c b ∪ bound w.

(** How a start ends: with a volume, with an error and everything taken back, or
    with the device left open for a file system that is there already. *)
Definition start_post (c : Z) (w : World) (r : Z * option (LKL_VOLUME * bool)) (w' : World) : Prop :=
  match snd r with
  | Some (V, b) => EFI_ERROR (fst r) = false /\ volume_on c V b w w'
  | None =>
      if EFI_ERROR (fst r) then taken_back w w'
      else mounts_kept w w' /\ disks w' = disks w /\ (exists b, bound w' = protocols c b ∪ bound w) /\
        fst r = TestProtocol gEfiSimpleFileSystemProtocolGuid c w'
  end.

Lemma start_open_ok junk junk_FsType addr c s :
  junk_ok junk -> start_ready junk c s ->
  (gEfiDiskIo2ProtocolGuid, c) ∉ bound (world s) ->
  fwp (start_open junk junk_FsType addr c) (fun r s' => start_post c (world s) r (world s')) s.
Proof.
  intros Hj Hready Hn2. unfold start_ready in Hready. cbv zeta in Hready. unfold start_open. apply fwp_bind, fwp_query.
  destruct (GetProtocol _ _ _) as [st BlockIo]. unfold start_post.
  destruct (EFI_ERROR st) eqn:Est; [by apply fwp_ret; cbn [fst snd]; rewrite Est; apply taken_back_same|]. clear st Est.
  apply fwp_bind, fwp_sys. pose proof (open_spec gEfiDiskIoProtocolGuid c (world s)) as O1. cbv zeta in O1.
  destruct (OpenByDriver gEfiDiskIoProtocolGuid c (world s)) as [st1 w1]. cbn [fst snd] in *.
  destruct (EFI_ERROR st1) eqn:E1; [by apply fwp_ret; cbn [fst snd world]; rewrite E1; apply taken_back_same|].
  destruct O1 as (Hn1 & B1 & M1 & D1).
  apply fwp_bind, fwp_sys. cbn [world]. pose proof (open_spec gEfiDiskIo2ProtocolGuid c w1) as O2. cbv zeta in O2.
  destruct (OpenByDriver gEfiDiskIo2ProtocolGuid c w1) as [st2 w2]. cbn [fst snd] in *.
  set (b := negb (EFI_ERROR st2)).
  assert (O : mounts w2 = mounts (world s) /\ disks w2 = disks (world s) /\ bound w2 = protocols c b ∪ bound (world s)).
  { unfold b, protocols. destruct (EFI_ERROR st2); cbn [negb].
    - destruct O2 as (-> & -> & ->). split_and!; [done|done|]. rewrite B1. set_solver.
    - destruct O2 as (_ & -> & -> & ->). split_and!; [done|done|]. rewrite B1. set_solver. }
  clearbody b. clear O2. destruct O as (M2 & D2 & B2).
  apply fwp_bind, fwp_query. cbn [world]. destruct (Media BlockIo w2) as [MId RO].
  apply fwp_bind, fwp_query. cbn [world].
  apply fwp_bind. eapply fwp_mono; [apply LKLAllocateVolume_ok; [done|apply DiskRead_full|done]|]. intros [st3 V] s3 Hp.
  unfold volume_post in Hp. cbn [fst snd world] in Hp. destruct V as [V|].
  - destruct Hp as (E3 & Hm & Hv & _). rewrite E3. apply fwp_ret. cbn [fmap option_fmap option_map fst snd].
    split; [done|]. destruct Hm as (_ & Hm1 & Hm2 & _ & Hm3 & Hm4 & Hm5).
    unfold volume_on. rewrite Hm2, Hm4, Hm5, M2, D2, B2. rewrite M2 in Hm1. rewrite D2 in Hm3. done.
  - destruct Hp as (E3 & (M3 & D3 & B3) & _). rewrite E3.
    assert (M3' : mounts_kept (world s) (world s3)) by (unfold mounts_kept, stuck_at in *; rewrite M2 in M3; done).
    apply fwp_bind, fwp_query.
    destruct (EFI_ERROR (TestProtocol gEfiSimpleFileSystemProtocolGuid c (world s3))) eqn:E4.
    + apply fwp_bind, fwp_bind, fwp_sys, fwp_bind, fwp_sys, fwp_ret, fwp_ret. cbn [fst snd world]. rewrite E4.
      pose proof (close_spec gEfiDiskIoProtocolGuid c (world s3)) as C1. cbv zeta in C1.
      destruct (CloseProtocol gEfiDiskIoProtocolGuid c (world s3)) as [st5 w5]. cbn [fst snd] in *.
      pose proof (close_spec gEfiDiskIo2ProtocolGuid c w5) as C2. cbv zeta in C2.
      destruct C1 as (C11 & C12 & C13 & _), C2 as (C21 & C22 & C23 & _).
      unfold taken_back, mounts_kept in *. rewrite C22, C12. split_and!; [done|congruence|].
      rewrite C21, C11, B3, B2. unfold protocols. apply set_eq. intros x.
      destruct b; set_solver.
    + apply fwp_bind, fwp_ret, fwp_ret. cbn [fst snd]. rewrite E4.
      split_and!; [done|congruence|exists b; congruence|done].
Qed.

Lemma collation_fwp {B} mi (f : Z * option Z -> FM B) Q s :
  fwp (f (collation_result (world s) mi)) Q s -> fwp (InitializeUnicodeCollationSupport mi ≫= f) Q s.
Proof. intros Hf. apply fwp_bind. unfold fwp at 1. by rewrite collation_ok. Qed.

(** Taking the lock if it is free, and giving it back. *)
Lemma lock_or_fail L : exists L1 st, EfiAcquireLockOrFail L = (st, L1) /\
  forall (Q : EFI_LOCK -> fstate -> Prop) s,
    (forall L2, lock_held L2 = lock_held L -> Q L2 s) ->
    fwp (if negb (EFI_ERROR st) then LKLReleaseLock L1 else mret L1) Q s.
Proof.
  destruct (lock_held L) eqn:HL.
  - exists L, EFI_ACCESS_DENIED. split; [by apply lock_held_fails|]. intros Q s HQ. apply fwp_ret. by apply HQ.
  - destruct (lock_free_taken L HL) as (L1 & E & HL1). exists L1, EFI_SUCCESS. split; [done|].
    intros Q s HQ. destruct (lock_released L1 HL1) as (L2 & E2 & HL2). unfold LKLReleaseLock.
    change (negb (EFI_ERROR EFI_SUCCESS)) with true. cbv iota. rewrite E2. apply fwp_ret. by apply HQ.
Qed.

Lemma LKLDriverBindingStart_ok junk junk_FsType addr D c s :
  junk_ok junk -> start_ready junk c s ->
  (gEfiDiskIo2ProtocolGuid, c) ∉ bound (world s) ->
  fwp (LKLDriverBindingStart junk junk_FsType addr D c) (fun r s' =>
    let (Status, D') := (r : Z * driver) in
    lock_held (LKLFsLock D') = lock_held (LKLFsLock D) /\
    exists V, start_post c (world s) (Status, V) (world s') /\
      volumes D' = match V with Some V => <[c := V]> (volumes D) | None => volumes D end) s.
Proof.
  intros Hj Hready Hn2. unfold LKLDriverBindingStart, LKLAcquireLockOrFail.
  destruct (lock_or_fail (LKLFsLock D)) as (L1 & st & -> & Hrel). apply fwp_bind, fwp_ret, collation_fwp.
  destruct (collation_result (world s) _) as [st1 mi]. apply fwp_bind.
  assert (Hend : forall r s', start_post c (world s) r (world s') ->
    fwp (let (Status, Volume) := r in
         L ← (if negb (EFI_ERROR st) then LKLReleaseLock L1 else mret L1);
         mret (Status, mk_driver L mi
           match Volume with Some V => <[c := V]> (volumes D) | None => volumes D end))
      (fun r s' => let (Status, D') := (r : Z * driver) in
         lock_held (LKLFsLock D') = lock_held (LKLFsLock D) /\
         exists V, start_post c (world s) (Status, V) (world s') /\
           volumes D' = match V with Some V => <[c := V]> (volumes D) | None => volumes D end) s').
  { intros [Status V] s' Hp. apply fwp_bind, Hrel. intros L2 HL2. apply fwp_ret. split; [exact HL2|]. by exists V. }
  destruct (EFI_ERROR st1) eqn:E1.
  - apply fwp_ret. refine (Hend (st1, None) s _). unfold start_post. cbn [fst snd]. rewrite E1. by apply taken_back_same.
  - eapply fwp_mono; [by apply start_open_ok|]. intros r s' Hp. exact (Hend r s' Hp).
Qed.

(** Starting the driver on a controller either fails and leaves mounts (up to
    what cannot be unmounted), disks and open protocols as they were, or makes a valid, mounted volume
    with its disk and its protocols open, or (when the volume cannot be made
    but the controller has a file system already) leaves the device open.  The
    lock ends as it was, whether a caller held it or not. *)
Theorem LKLDriverBindingStart_spec junk junk_FsType addr D c s :
  junk_ok junk -> start_ready junk c s ->
  (gEfiDiskIo2ProtocolGuid, c) ∉ bound (world s) ->
  fwp (LKLDriverBindingStart junk junk_FsType addr D c) (fun r s' =>
    let (Status, D') := (r : Z * driver) in
    lock_held (LKLFsLock D') = lock_held (LKLFsLock D) /\
    exists V, start_post c (world s) (Status, V) (world s') /\
      volumes D' = match V with Some V => <[c := V]> (volumes D) | None => volumes D end) s.
Proof. apply LKLDriverBindingStart_ok. Qed.

Lemma assert_success : ASSERT_EFI_ERROR EFI_SUCCESS = mret tt.
Proof. unfold ASSERT_EFI_ERROR. change (EFI_ERROR EFI_SUCCESS) with false. by rewrite andb_false_r. Qed.

Lemma close_ok p c s : (p, c) ∈ bound (world s) ->
  fwp (sys (CloseProtocol p c)) (fun st s' => st = EFI_SUCCESS /\ mounts (world s') = mounts (world s) /\
    disks (world s') = disks (world s) /\ bound (world s') = bound (world s) ∖ {[(p, c)]}) s.
Proof.
  intros Hin. apply fwp_sys. pose proof (close_spec p c (world s)) as Hcl. cbv zeta in Hcl.
  destruct Hcl as (C1 & C2 & C3 & C4). split_and!; auto.
Qed.

Lemma LKLDriverBindingStop_ok D c V b s :
  volumes D !! c = Some (V, b) -> c <> 0 -> protocols c b ⊆ bound (world s) ->
  fwp (LKLDriverBindingStop D c) (fun r s' =>
    let (Status, D') := (r : Z * driver) in
    let st0 := fst (GetProtocol gEfiSimpleFileSystemProtocolGuid c (world s)) in
    let st1 := fst (UninstallSfs c (world s)) in
    lock_held (LKLFsLock D') = lock_held (LKLFsLock D) /\ mounts (world s') = mounts (world s) /\
    disks (world s') = disks (world s) /\
    if EFI_ERROR st0 then Status = st0 /\ D' = D /\ world s' = world s
    else if EFI_ERROR st1 then Status = st1 /\ volumes D' = volumes D /\ bound (world s') = bound (world s)
    else Status = EFI_SUCCESS /\ volumes D' = <[c := (set_Valid false V, b)]> (volumes D) /\
      bound (world s') = bound (world s) ∖ protocols c b) s.
Proof.
  intros HV Hc Hb. unfold LKLDriverBindingStop. apply fwp_bind, fwp_query.
  destruct (GetProtocol _ _ _) as [st0 u]. cbn [fst]. apply fwp_bind.
  destruct (EFI_ERROR st0) eqn:E0; [by apply fwp_ret; rewrite E0; apply fwp_ret|].
  rewrite HV. apply fwp_bind. eapply fwp_mono; [apply (LKLAbandonVolume_ok (LKLFsLock D) c V)|].
  intros [[st V'] L'] s1 (HL & (M1 & D1 & B1) & _ & Hst). rewrite (proj2 (Z.eqb_neq c 0)) in Hst by done.
  cbn [negb andb] in Hst. apply fwp_ret. destruct (EFI_ERROR (fst (UninstallSfs c (world s)))) eqn:E1.
  - destruct Hst as [-> ->]. rewrite E1. apply fwp_ret. cbn [LKLFsLock volumes]. rewrite insert_id by done.
    split_and!; done.
  - destruct Hst as [-> ->]. change (EFI_ERROR EFI_SUCCESS) with false. cbv iota.
    assert (Hend : forall s2, mounts (world s2) = mounts (world s) -> disks (world s2) = disks (world s) ->
      bound (world s2) = bound (world s) ∖ (if b then {[(gEfiDiskIo2ProtocolGuid, c)]} else ∅) ->
      fwp (sys (CloseProtocol gEfiDiskIoProtocolGuid c)) (fun st s3 => st = EFI_SUCCESS /\
        mounts (world s3) = mounts (world s) /\ disks (world s3) = disks (world s) /\
        bound (world s3) = bound (world s) ∖ protocols c b) s2).
    { intros s2 M2 D2 B2. eapply fwp_mono; [apply close_ok|].
      - rewrite B2. apply elem_of_difference. split; [apply Hb; unfold protocols; set_solver|].
        destruct b; [|set_solver]. intros [=]%elem_of_singleton.
      - intros st s3 (-> & M3 & D3 & B3). split_and!; [done|congruence|congruence|]. rewrite B3, B2.
        unfold protocols. apply set_eq. intros x. destruct b; set_solver. }
    assert (Hlast : forall s2 (V' : driver), mounts (world s2) = mounts (world s) -> disks (world s2) = disks (world s) ->
      bound (world s2) = bound (world s) ∖ (if b then {[(gEfiDiskIo2ProtocolGuid, c)]} else ∅) ->
      fwp (Status ← sys (CloseProtocol gEfiDiskIoProtocolGuid c); ASSERT_EFI_ERROR Status;; mret (Status, V'))
        (fun r s3 => r = (EFI_SUCCESS, V') /\ mounts (world s3) = mounts (world s) /\
           disks (world s3) = disks (world s) /\ bound (world s3) = bound (world s) ∖ protocols c b) s2).
    { intros s2 V' M2 D2 B2. apply fwp_bind. eapply fwp_mono; [by apply Hend|]. intros st s3 (-> & ?).
      rewrite assert_success. apply fwp_bind, fwp_ret, fwp_ret. done. }
    apply fwp_bind. apply (fwp_mono _ (fun _ s2 => mounts (world s2) = mounts (world s) /\
      disks (world s2) = disks (world s) /\
      bound (world s2) = bound (world s) ∖ (if b then {[(gEfiDiskIo2ProtocolGuid, c)]} else ∅))).
    { destruct b; [|apply fwp_ret; split_and!; [done|done|]; rewrite B1; set_solver].
      apply fwp_bind. eapply fwp_mono; [apply close_ok; rewrite B1; apply Hb; unfold protocols; set_solver|].
      intros st s2 (-> & M2 & D2 & B2). rewrite assert_success. apply fwp_ret.
      split_and!; [congruence|congruence|]. by rewrite B2, B1. }
    intros _ s2 (M2 & D2 & B2). eapply fwp_mono; [by apply Hlast|]. intros r s3 (-> & M3 & D3 & B3).
    cbn [LKLFsLock volumes]. split_and!; done.
Qed.

(** Stopping the driver on a controller it has a volume on, whose
    protocols are open.  When the protocol comes off the handle, the volume is
    invalid, the device's protocols are closed and no assertion fails; the
    mount and the disk stay.  When it does not, or the controller has no file
    system, the error is returned and nothing changes.  The lock ends as it
    was. *)
Theorem LKLDriverBindingStop_spec D c V b s :
  volumes D !! c = Some (V, b) -> c <> 0 -> protocols c b ⊆ bound (world s) ->
  fwp (LKLDriverBindingStop D c) (fun r s' =>
    let (Status, D') := (r : Z * driver) in
    let st0 := fst (GetProtocol gEfiSimpleFileSystemProtocolGuid c (world s)) in
    let st1 := fst (UninstallSfs c (world s)) in
    lock_held (LKLFsLock D') = lock_held (LKLFsLock D) /\ mounts (world s') = mounts (world s) /\
    disks (world s') = disks (world s) /\
    if EFI_ERROR st0 then Status = st0 /\ D' = D /\ world s' = world s
    else if EFI_ERROR st1 then Status = st1 /\ volumes D' = volumes D /\ bound (world s') = bound (world s)
    else Status = EFI_SUCCESS /\ volumes D' = <[c := (set_Valid false V, b)]> (volumes D) /\
      bound (world s') = bound (world s) ∖ protocols c b) s.
Proof. apply LKLDriverBindingStop_ok. Qed.
End proofs.

(** ** Witnesses *)

Definition set_bound (b : gset (Z * Z)) (w : demo_world) : demo_world :=
  mk_dworld (nodes w) (fds w) (dirpos w) (dmounts w) (ddisks w) (ddms w) b (dstreams w).
Definition d_open_protocol (p c : Z) (w : demo_world) : Z * demo_world :=
  if decide ((p, c) ∈ dbound w) then (EFI_ACCESS_DENIED, w)
  else (EFI_SUCCESS, set_bound ({[(p, c)]} ∪ dbound w) w).
Definition d_close_protocol (p c : Z) (w : demo_world) : Z * demo_world :=
  (if decide ((p, c) ∈ dbound w) then EFI_SUCCESS else EFI_NOT_FOUND, set_bound (dbound w ∖ {[(p, c)]}) w).

(** Two entries that stand for a running Linux and the installed driver. *)
Definition d_linux : Z * Z := (100, 0).
Definition d_driver : Z * Z := (gEfiDriverBindingProtocolGuid, 0).

(** Only the second of two collation interfaces, on handle 21, knows "eng". *)
#[export] Instance demo_services : BootServices (H := demo_lkl) := {|
  OpenByDriver := d_open_protocol;
  GetProtocol p h w := if h =? 20 then (EFI_UNSUPPORTED, 0) else (EFI_SUCCESS, h * 10);
  TestProtocol p c w := if p =? gEfiSimpleFileSystemProtocolGuid then EFI_UNSUPPORTED else EFI_SUCCESS;
  CloseProtocol := d_close_protocol;
  LocateHandleBuffer p w :=
    if bool_decide (p = Some gEfiUnicodeCollationProtocolGuid) then (EFI_SUCCESS, [20; 21])
    else if bool_decide (p = None) then (EFI_SUCCESS, [1; 2]) else (EFI_NOT_FOUND, []);
  LocateCpuProtocol w := EFI_SUCCESS;
  GetEfiGlobalVariable2 v w := None;
  SupportedLanguages u w := codes "eng";
  GetBestLanguage langs iso l d := if bool_decide (langs = d) then Some d else None;
  PcdUefiVariableDefaultPlatformLang := codes "en-US";
  PcdUefiVariableDefaultLang := codes "eng";
  Media u w := (5, false);
  DiskRead c m w := demo_medium;
  EfiTestManagedDevice h w :=
    if bool_decide ((gEfiDiskIoProtocolGuid, h) ∈ dbound w) then EFI_SUCCESS else EFI_UNSUPPORTED;
  DisconnectController h w := (EFI_SUCCESS, set_bound (dbound w ∖ protocols h true) w);
  HandleProtocol p w := EFI_SUCCESS;
  InstallDriverBinding w := (EFI_SUCCESS, set_bound ({[d_driver]} ∪ dbound w) w);
  UninstallProtocols ps w := (EFI_SUCCESS, set_bound (dbound w ∖ {[d_driver]}) w);
  makedev a b := a * 256 + b;
  host_thread_init w := (tt, w);
  host_thread_yield w := (tt, w);
  lkl_start_kernel w := (0, set_bound ({[d_linux]} ∪ dbound w) w);
  lkl_sys_halt w := (0, set_bound (dbound w ∖ {[d_linux]}) w);
  DiskRead_full c m w := demo_medium_full
|}.

Lemma d_open_spec p c w : let r := d_open_protocol p c w in
  if EFI_ERROR (fst r) then d_same w (snd r)
  else (p, c) ∉ dbound w /\ dbound (snd r) = {[(p, c)]} ∪ dbound w /\
    dmounts (snd r) = dmounts w /\ ddisks (snd r) = ddisks w.
Proof. cbv zeta. unfold d_open_protocol. by case_decide. Qed.

Lemma d_close_spec p c w : let r := d_close_protocol p c w in
  dbound (snd r) = dbound w ∖ {[(p, c)]} /\ dmounts (snd r) = dmounts w /\ ddisks (snd r) = ddisks w /\
  ((p, c) ∈ dbound w -> fst r = EFI_SUCCESS).
Proof. cbv zeta. unfold d_close_protocol. split_and!; try done. intros Hin. cbn [fst]. by rewrite decide_True. Qed.

#[export] Instance demo_driver_laws : DriverLaws (H := demo_lkl) (H0 := demo_blk) :=
  {| open_spec := d_open_spec; close_spec := d_close_spec |}.

#[export] Instance demo_lock : EdkLock := {|
  EFI_LOCK := bool;
  lock_held l := l;
  EfiAcquireLock l := if l then None else Some true;
  EfiAcquireLockOrFail l := if l then (EFI_ACCESS_DENIED, true) else (EFI_SUCCESS, true);
  EfiReleaseLock l := if l then Some false else None;
  lock_held_fails l Hl := ltac:(by rewrite Hl);
  lock_free_taken l Hl := ltac:(rewrite Hl; by exists true);
  lock_released l Hl := ltac:(rewrite Hl; by exists false)
|}.

#[local] Instance debug_edk : EdkConfig := {| MDEPKG_NDEBUG := false |}.

Definition demo_driver : driver := mk_driver false None ∅.

Lemma demo_start_ready : start_ready demo_junk 1 demo_system.
Proof. apply (@bool_decide_eq_true_1 _ (start_ready_dec _ _ _)). vm_compute. reflexivity. Qed.

(** The status, the lock, the collation interface, the validity of the volume
    on [c], and the numbers of mounts and open protocols. *)
Definition driver_summary (c : Z) (r : fres (Z * driver)) : option (Z * bool * option Z * option bool * nat * nat) :=
  match r with
  | FDone (st, D) s => Some (st, LKLFsLock D, mUnicodeCollationInterface D, (fun v => Valid (fst v)) <$> volumes D !! c,
      size (dmounts (world s)), size (dbound (world s)))
  | FFail _ => None
  end.

(** The collation interface is found, the volume is mounted. *)
Lemma LKLDriverBindingStart_spec_witness :
  driver_summary 1 (LKLDriverBindingStart demo_junk [] 0x8000 demo_driver 1 demo_system) =
    Some (EFI_SUCCESS, false, Some 210, Some true, 1%nat, 2%nat) /\
  fwp (LKLDriverBindingStart demo_junk [] 0x8000 demo_driver 1) (fun r s' =>
    let (Status, D') := (r : Z * driver) in
    lock_held (LKLFsLock D') = lock_held (LKLFsLock demo_driver) /\
    exists V, start_post 1 (world demo_system) (Status, V) (world s') /\
      volumes D' = match V with Some V => <[1 := V]> (volumes demo_driver) | None => volumes demo_driver end)
    demo_system.
Proof.
  split; [by vm_compute|].
  exact (LKLDriverBindingStart_spec demo_junk [] 0x8000 demo_driver 1 demo_system demo_junk_ok demo_start_ready
    (not_elem_of_empty (C := gset (Z * Z)) _)).
Defined.

(** A volume on controller 1, with both protocols open. *)
Definition demo_volume : LKL_VOLUME := set_Valid true (volume_zero 5 false (codes "ext4") false).
Definition demo_started : driver := mk_driver false None {[ 1 := (demo_volume, true) ]}.
Definition demo_started_state : fstate :=
  mk_fstate (set_bound (protocols 1 true) (world demo_system)) [] 1.

Lemma LKLDriverBindingStop_spec_witness :
  driver_summary 1 (LKLDriverBindingStop demo_started 1 demo_started_state) =
    Some (EFI_SUCCESS, false, None, Some false, 0%nat, 0%nat) /\
  fwp (LKLDriverBindingStop demo_started 1) (fun r s' => EFI_ERROR (fst r) = false) demo_started_state.
Proof.
  split; [by vm_compute|].
  eapply fwp_mono; [apply (LKLDriverBindingStop_spec demo_started 1 demo_volume true demo_started_state);
    [by simplify_map_eq|done|done]|].
  intros [st D'] s' (_ & _ & _ & Hst). cbn [fst]. destruct Hst as (-> & _). done.
Defined.
