(* ===== verification/DriverLife.v ===== *)
(** * The life of the driver on a controller ([ComponentName.c], [LKL.c])

    The names the driver gives itself and the controllers it manages, and what
    the operations of [Driver.v] are together: starting and stopping a
    controller leaves it as it was found, and a controller has a name while it
    is started. *)

From stdpp Require Import strings.
From S2P Require Import Prelude Efi Lkl Errors Path DemoFs FsId File Dm Volume Driver.

(** ** Component names *)

(** The instance of the protocol that is called: [EFI_COMPONENT_NAME_PROTOCOL]
    or [EFI_COMPONENT_NAME2_PROTOCOL]. *)
Inductive name_protocol := gLKLComponentName | gLKLComponentName2.

#[export] Instance name_protocol_eq_dec : EqDecision name_protocol.
Proof. solve_decision. Defined.

Definition name_languages (This : name_protocol) : str :=
  match This with gLKLComponentName => codes "eng" | gLKLComponentName2 => codes "en" end.

(** Languages and string; the terminating entry is left out. *)
Definition mLKLDriverNameTable : list (str * str) := [(codes "eng;en", codes "Linux File System Driver")].
Definition mLKLControllerNameTable : list (str * str) := [(codes "eng;en", codes "Linux File System")].

(** The library function: the language, the supported languages, the table,
    whether there is a place for the result, ISO 639. *)
Class NameServices := {
  LookupUnicodeString2 : option str -> str -> list (str * str) -> bool -> bool -> Z * option str
}.

Section names.
Context `{BootServices} `{!NameServices}.

(** [out]: the result pointer is not NULL. *)
Definition LKLComponentNameGetDriverName (This : name_protocol) (Language : option str) (out : bool) : Z * option str :=
  LookupUnicodeString2 Language (name_languages This) mLKLDriverNameTable out (bool_decide (This = gLKLComponentName)).

Definition LKLComponentNameGetControllerName (This : name_protocol) (ControllerHandle : Z) (ChildHandle : option Z)
    (Language : option str) (out : bool) : FM (Z * option str) :=
  match ChildHandle with
  | Some _ => mret (EFI_UNSUPPORTED, None)
  | None =>
      Status ← query (EfiTestManagedDevice ControllerHandle);
      if EFI_ERROR Status then mret (Status, None)
      else mret (LookupUnicodeString2 Language (name_languages This) mLKLControllerNameTable out
                   (bool_decide (This = gLKLComponentName)))
  end.
End names.

(** A controller is managed while the driver has its Disk I/O open. *)
Class ManagedLaws `{LklMounts} `{!BootServices} := {
  managed_spec : forall c w,
    EfiTestManagedDevice c w = if bool_decide ((gEfiDiskIoProtocolGuid, c) ∈ bound w) then EFI_SUCCESS else EFI_UNSUPPORTED
}.

(** ** Starting, naming, stopping *)

Section life.
Context `{DriverLaws} `{!EdkStrings} `{!EdkLock} `{!EdkConfig} `{!NameServices} `{!ManagedLaws}.

(** What a controller is called. *)
Definition controller_name (This : name_protocol) (Language : option str) (out : bool) : Z * option str :=
  LookupUnicodeString2 Language (name_languages This) mLKLControllerNameTable out
    (bool_decide (This = gLKLComponentName)).

Lemma controller_name_ok This c Language out s :
  fwp (LKLComponentNameGetControllerName This c None Language out) (fun r s' => s' = s /\
    r = if bool_decide ((gEfiDiskIoProtocolGuid, c) ∈ bound (world s)) then controller_name This Language out
        else (EFI_UNSUPPORTED, None)) s.
Proof.
  apply fwp_bind, fwp_query. rewrite managed_spec. case_bool_decide; by apply fwp_ret.
Qed.

Variables (junk : nat -> list Z) (junk_FsType : str) (addr : Z).

(** A controller is started and asked for its name; when it has got a volume it
    is stopped; it is asked again. *)
Definition start_name_stop (This : name_protocol) (Language : option str) (D : driver) (c : Z) :
    FM (Z * (Z * option str) * driver * (Z * option str)) :=
  r ← LKLDriverBindingStart junk junk_FsType addr D c;
  let (Status, D) := (r : Z * driver) in
  name1 ← LKLComponentNameGetControllerName This c None Language true;
  r ← match volumes D !! c with
      | Some _ => LKLDriverBindingStop D c
      | None => mret (Status, D)
      end;
  let (_, D) := (r : Z * driver) in
  name2 ← LKLComponentNameGetControllerName This c None Language true;
  mret (Status, name1, D, name2).

(** The volume stays mounted; it is valid while the driver is on the controller,
    which then has its name; else the open protocols are those of before. *)
Definition life_volume (This : name_protocol) (Language : option str) (c : Z) (w : World)
    (V : LKL_VOLUME) (b : bool) (name2 : Z * option str) (w' : World) : Prop :=
  LKLMountPoint V ∉ mounts w /\ mounts w' = {[LKLMountPoint V]} ∪ mounts w /\
  if Valid V then bound w' = protocols c b ∪ bound w /\ name2 = controller_name This Language true
  else bound w' = bound w /\ name2 = (EFI_UNSUPPORTED, None).

(** How that ends. *)
Definition life_post (This : name_protocol) (Language : option str) (D : driver) (c : Z) (w : World)
    (r : Z * (Z * option str) * driver * (Z * option str)) (w' : World) : Prop :=
  let '(Status, name1, D', name2) := r in
  let named := controller_name This Language true in
  let unnamed := (EFI_UNSUPPORTED, None) : Z * option str in
  lock_held (LKLFsLock D') = lock_held (LKLFsLock D) /\
  if EFI_ERROR Status then taken_back w w' /\ volumes D' = volumes D /\ name1 = unnamed /\ name2 = unnamed
  else
    name1 = named /\
    match volumes D' !! c with
    | None => name2 = named /\ mounts_kept w w' /\ disks w' = disks w
    | Some (V, b) => life_volume This Language c w V b name2 w'
    end.

Lemma protocols_in (c : Z) (b : bool) : (gEfiDiskIoProtocolGuid, c) ∈ protocols c b.
Proof. unfold protocols. set_solver. Qed.

Lemma protocols_undo (c : Z) (b : bool) (B : gset (Z * Z)) :
  (gEfiDiskIoProtocolGuid, c) ∉ B -> (gEfiDiskIo2ProtocolGuid, c) ∉ B -> (protocols c b ∪ B) ∖ protocols c b = B.
Proof. intros Hn1 Hn2. unfold protocols. apply set_eq. intros x. destruct b; set_solver. Qed.

(** Asking for the name last. *)
Lemma name_last This c Language Status name1 D' s (Q : Z * (Z * option str) * driver * (Z * option str) -> fstate -> Prop) :
  Q (Status, name1, D', if bool_decide ((gEfiDiskIoProtocolGuid, c) ∈ bound (world s))
                        then controller_name This Language true else (EFI_UNSUPPORTED, None)) s ->
  fwp (name2 ← LKLComponentNameGetControllerName This c None Language true; mret (Status, name1, D', name2)) Q s.
Proof.
  intros HQ. apply fwp_bind. eapply fwp_mono; [apply controller_name_ok|]. intros n s' [-> ->]. by apply fwp_ret.
Qed.

(** The end of a life, after a start that made [V]. *)
Lemma life_stop This Language D D1 c w V b st s :
  EFI_ERROR st = false -> c <> 0 -> volumes D1 !! c = Some (V, b) -> volume_on c V b w (world s) ->
  lock_held (LKLFsLock D1) = lock_held (LKLFsLock D) ->
  (gEfiDiskIoProtocolGuid, c) ∉ bound w -> (gEfiDiskIo2ProtocolGuid, c) ∉ bound w ->
  fwp (r ← LKLDriverBindingStop D1 c;
       let (_, D') := (r : Z * driver) in
       name2 ← LKLComponentNameGetControllerName This c None Language true;
       mret (st, controller_name This Language true, D', name2))
    (fun r s' => life_post This Language D c w r (world s')) s.
Proof.
  intros Est Hc HV (Hval & Hm & Hms & _ & _ & Hb) HL Hn1 Hn2. apply fwp_bind.
  eapply fwp_mono; [apply (LKLDriverBindingStop_ok D1 c V b s HV Hc); rewrite Hb; set_solver|].
  intros [st2 D'] s2 (HL2 & Hms2 & _ & Hst). apply name_last. unfold life_post. rewrite Est.
  split; [congruence|]. split; [done|].
  assert (Hkeep : bound (world s2) = bound (world s) -> life_volume This Language c w V b
    (if bool_decide ((gEfiDiskIoProtocolGuid, c) ∈ bound (world s2)) then controller_name This Language true
     else (EFI_UNSUPPORTED, None)) (world s2)).
  { intros Hb2. unfold life_volume. rewrite Hval, Hb2, Hb, bool_decide_eq_true_2 by (pose proof (protocols_in c b); set_solver).
    split_and!; [done|congruence|done|done]. }
  destruct (EFI_ERROR (fst (GetProtocol _ _ _))) eqn:E0.
  { destruct Hst as (_ & -> & Ew). rewrite HV. apply Hkeep. by rewrite Ew. }
  destruct (EFI_ERROR (fst (UninstallSfs _ _))).
  { destruct Hst as (_ & EV & Eb). rewrite EV, HV. by apply Hkeep. }
  destruct Hst as (_ & EV & Eb). rewrite EV, lookup_insert_eq. unfold life_volume. cbn [LKLMountPoint set_Valid Valid].
  rewrite Hb, protocols_undo in Eb by done. rewrite Eb, bool_decide_eq_false_2 by done.
  split_and!; [done|congruence|done|done].
Qed.

(** C32: the life of the driver on a controller it does not manage.  A start that
    fails leaves disks, open protocols and volumes as they were, and the mounts
    too, unless the unmounting of what had been mounted failed, whose result is
    ignored; the controller has no name.  A controller that was started has one,
    also when it was left without a volume to another file system; a
    stop that takes the file system off the controller closes exactly what the
    start opened, and the name is gone, while the file system stays mounted; a
    stop that does not leaves the driver on the controller.  Assumed of the start
    are ([start_ready], [junk_ok]): the key it reads has 1 to 64 bytes, the place
    where it mounts is no mount point yet, and uninitialised memory holds bytes;
    the driver has neither protocol of the device open, and no volume on it. *)
Theorem start_name_stop_spec This Language D c s :
  junk_ok junk -> start_ready junk c s -> c <> 0 -> volumes D !! c = None ->
  (gEfiDiskIoProtocolGuid, c) ∉ bound (world s) -> (gEfiDiskIo2ProtocolGuid, c) ∉ bound (world s) ->
  fwp (start_name_stop This Language D c) (fun r s' => life_post This Language D c (world s) r (world s')) s.
Proof.
  intros Hj Hready Hc HD Hn1 Hn2. unfold start_name_stop. apply fwp_bind.
  eapply fwp_mono; [by apply LKLDriverBindingStart_ok|]. intros [st D1] s1 (HL & V & Hp & EV).
  apply fwp_bind. eapply fwp_mono; [apply controller_name_ok|]. intros n1 s1' [-> ->]. rewrite EV.
  unfold start_post in Hp. cbn [fst snd] in Hp. destruct V as [[V b]|].
  - destruct Hp as [Est Hv]. rewrite lookup_insert_eq. pose proof Hv as (_ & _ & _ & _ & _ & Hb).
    rewrite bool_decide_eq_true_2 by (rewrite Hb; pose proof (protocols_in c b); set_solver).
    eapply life_stop; try done. by rewrite EV, lookup_insert_eq.
  - rewrite HD. apply fwp_bind, fwp_ret, name_last. unfold life_post. rewrite EV, HD. split; [done|].
    destruct (EFI_ERROR st).
    + pose proof Hp as (_ & _ & Hb). rewrite Hb, bool_decide_eq_false_2 by done. done.
    + destruct Hp as (Hm & Hd & (b & Hb) & _).
      rewrite Hb, bool_decide_eq_true_2 by (pose proof (protocols_in c b); set_solver). done.
Qed.
End life.

(** ** Unloading *)

(** A controller that was disconnected is not managed any more; disconnecting
    opens nothing. *)
Class UnloadLaws `{LklMounts} `{!BootServices} := {
  disconnect_spec : forall c w, let r := DisconnectController c w in
    bound (snd r) ⊆ bound w /\ (EFI_ERROR (fst r) = false -> (gEfiDiskIoProtocolGuid, c) ∉ bound (snd r))
}.

Section unload.
Context `{ManagedLaws} `{!UnloadLaws}.

(** What is taken off the image: the driver binding and the name protocols
    that are on it. *)
Definition image_protocols (w : World) : list Z :=
  gEfiDriverBindingProtocolGuid ::
  (if EFI_ERROR (HandleProtocol gEfiComponentNameProtocolGuid w) then [] else [gEfiComponentNameProtocolGuid]) ++
  (if EFI_ERROR (HandleProtocol gEfiComponentName2ProtocolGuid w) then [] else [gEfiComponentName2ProtocolGuid]).

Definition unmanaged (hs : list Z) (w : World) : Prop := forall h, h ∈ hs -> (gEfiDiskIoProtocolGuid, h) ∉ bound w.

Lemma disconnect_loop_ok hs : forall st s,
  fwp (disconnect_loop hs st) (fun r s' => pool_live s' = pool_live s /\ bound (world s') ⊆ bound (world s) /\
    if snd r then unmanaged hs (world s') else EFI_ERROR (fst r) = true) s.
Proof.
  induction hs as [|h hs IH]; intros st s; cbn [disconnect_loop].
  - apply fwp_ret. split_and!; [done|done|]. cbn. intros h Hh. by apply not_elem_of_nil in Hh.
  - apply fwp_bind, fwp_query. rewrite managed_spec. case_bool_decide as Hb.
    + cbn. apply fwp_bind, fwp_sys. pose proof (disconnect_spec h (world s)) as Hd. cbv zeta in Hd.
      destruct (DisconnectController h (world s)) as [st1 w1]. cbn [fst snd] in *. destruct Hd as [Hsub Hn].
      destruct (EFI_ERROR st1) eqn:E1; [apply fwp_ret; split; [done|split; [exact Hsub|exact E1]]|].
      eapply fwp_mono; [apply IH|]. intros [st2 all] s2 (Hp & Hb2 & Hu). cbn [fst snd world pool_live] in *.
      split; [done|]. split; [set_solver|]. destruct all; [|done]. specialize (Hn eq_refl).
      intros x [->|Hx]%elem_of_cons; [set_solver|by apply Hu].
    + cbn. eapply fwp_mono; [apply IH|]. intros [st2 all] s2 (Hp & Hb2 & Hu). cbn [fst snd] in *.
      split; [done|]. split; [done|]. destruct all; [|done]. intros x [->|Hx]%elem_of_cons; [set_solver|by apply Hu].
Qed.

(** Unloading disconnects the controllers, then takes the protocols off the
    image, which it does only when no controller is managed any more; it frees
    what it allocated.  The kernel is halted and gets the CPU to end in either
    case, even if the driver stays because a controller could not be
    disconnected. *)
Theorem LKLUnload_spec s :
  fwp LKLUnload (fun st s' =>
    let (st0, hs) := LocateHandleBuffer None (world s) in
    if EFI_ERROR st0 then st = st0 /\ s' = s
    else pool_live s' = pool_live s /\ exists w1 w2,
      bound w1 ⊆ bound (world s) /\ world s' = snd (host_thread_yield (snd (lkl_sys_halt w2))) /\
      (EFI_ERROR st = true /\ w2 = w1 \/
       unmanaged hs w1 /\ (st, w2) = UninstallProtocols (image_protocols w1) w1)) s.
Proof.
  unfold LKLUnload. apply fwp_bind, fwp_query. destruct (LocateHandleBuffer None (world s)) as [st0 hs].
  destruct (EFI_ERROR st0); [by apply fwp_ret|]. apply fwp_bind. unfold handle_buffer, fwp at 1.
  apply fwp_bind. eapply fwp_mono; [apply disconnect_loop_ok|]. intros [st1 all] s1 (Hp & Hb & Hu).
  cbn [fst snd world pool_live] in *.
  assert (Hend : forall st w2, EFI_ERROR st = true /\ w2 = world s1 \/
      unmanaged hs (world s1) /\ (st, w2) = UninstallProtocols (image_protocols (world s1)) (world s1) ->
    fwp (FreePool;; _ ← sys lkl_sys_halt; _ ← sys host_thread_yield; mret st)
      (fun st s' => pool_live s' = pool_live s /\ exists w1 w2,
        bound w1 ⊆ bound (world s) /\ world s' = snd (host_thread_yield (snd (lkl_sys_halt w2))) /\
        (EFI_ERROR st = true /\ w2 = w1 \/
         unmanaged hs w1 /\ (st, w2) = UninstallProtocols (image_protocols w1) w1))
      (mk_fstate w2 (pool_fails s1) (pool_live s1))).
  { intros st w2 Hst. apply fwp_bind, fwp_free, fwp_bind, fwp_sys, fwp_bind, fwp_sys. cbn [world pool_live].
    destruct (lkl_sys_halt w2) as [r3 w3] eqn:E3. cbn [world]. destruct (host_thread_yield w3) as [r4 w4] eqn:E4.
    apply fwp_ret. cbn [world pool_live]. split; [lia|]. exists (world s1), w2. split; [done|]. split; [by rewrite E3; cbn; rewrite E4|done]. }
  apply fwp_bind. destruct all.
  - apply fwp_bind, fwp_query, fwp_bind, fwp_query, fwp_sys. fold (image_protocols (world s1)).
    destruct (UninstallProtocols (image_protocols (world s1)) (world s1)) as [st2 w2] eqn:E. apply Hend. right. by split.
  - apply fwp_ret. destruct s1. apply Hend. by left.
Qed.
End unload.

(** ** Witness *)

#[local] Instance debug_edk : EdkConfig := {| MDEPKG_NDEBUG := false |}.

(** "en" and "eng" are in the table's first entry. *)
#[local] Instance demo_names : NameServices := {|
  LookupUnicodeString2 l supported table out iso :=
    match l, table with
    | Some l, (_, name) :: _ => if bool_decide (l = supported) && out then (EFI_SUCCESS, Some name) else (EFI_UNSUPPORTED, None)
    | _, _ => (EFI_INVALID_PARAMETER, None)
    end
|}.

#[local] Instance demo_managed : ManagedLaws (H := demo_lkl) (H0 := demo_blk) := {| managed_spec c w := eq_refl |}.

Definition life_summary (r : fres (Z * (Z * option str) * driver * (Z * option str))) :
    option (Z * option str * option str * nat * nat) :=
  match r with
  | FDone (st, n1, _, n2) s => Some (st, snd n1, snd n2, size (dmounts (world s)), size (dbound (world s)))
  | FFail _ => None
  end.

(** The volume is made, named, and taken off; one mount stays, no protocol is
    left open. *)
Lemma start_name_stop_spec_witness :
  life_summary (start_name_stop demo_junk [] 0x8000 gLKLComponentName (Some (codes "eng")) demo_driver 1 demo_system) =
    Some (EFI_SUCCESS, Some (codes "Linux File System"), None, 1%nat, 0%nat) /\
  fwp (start_name_stop demo_junk [] 0x8000 gLKLComponentName (Some (codes "eng")) demo_driver 1)
    (fun r s' => life_post gLKLComponentName (Some (codes "eng")) demo_driver 1 (world demo_system) r (world s')) demo_system.
Proof.
  split; [by vm_compute|].
  exact (start_name_stop_spec demo_junk [] 0x8000 gLKLComponentName (Some (codes "eng")) demo_driver 1 demo_system
    demo_junk_ok demo_start_ready ltac:(done) eq_refl
    (not_elem_of_empty (C := gset (Z * Z)) _) (not_elem_of_empty (C := gset (Z * Z)) _)).
Defined.

#[local] Instance demo_unload : UnloadLaws (H := demo_lkl) (H0 := demo_blk).
Proof.
  split. intros c w. cbn [fst snd DisconnectController demo_services bound demo_mounts].
  change (dbound w ∖ protocols c true ⊆ dbound w /\
    (EFI_ERROR EFI_SUCCESS = false -> (gEfiDiskIoProtocolGuid, c) ∉ dbound w ∖ protocols c true)).
  pose proof (protocols_in c true). set_solver.
Defined.

(** Controller 1 is managed; after the unloading it is not. *)
Lemma LKLUnload_spec_witness :
  match LKLUnload (H := demo_lkl) demo_started_state with
  | FDone st s => Some (st, size (dbound (world s)), pool_live s) | FFail _ => None
  end = Some (EFI_SUCCESS, 0%nat, 1) /\
  fwp (LKLUnload (H := demo_lkl)) (fun _ s' => pool_live s' = 1) demo_started_state.
Proof.
  split; [by vm_compute|]. eapply fwp_mono; [apply LKLUnload_spec|]. intros st s' Hs. exact (proj1 Hs).
Defined.
