(* ===== verification/Controllers.v ===== *)
(** * The driver on any number of controllers ([LKL.c])

    The firmware asks the driver about controllers, starts it on them and stops
    it, in any order.  The protocols the driver has open, the mounts and the
    disks are accounted for over the whole history. *)

From S2P Require Import Prelude Efi Lkl Errors Path DemoFs FsId File Dm Volume Driver DriverLife.

Section controllers.
Context `{DriverLaws} `{!EdkStrings} `{!EdkLock} `{!EdkConfig}.

(** ** The firmware *)

(** [BStart]: what is uninitialised in this call, and the controller. *)
Inductive bop :=
| BSupported (c : Z)
| BStart (junk : nat -> list Z) (junk_FsType : str) (addr : Z) (c : Z)
| BStop (c : Z).

(** The driver's variables; the controllers whose start has succeeded without a
    volume; the volumes ever made, with their controllers. *)
Record bsession := mk_bsession { b_driver : driver; b_left : gset Z; b_made : list (Z * LKL_VOLUME) }.

(** The driver has a valid volume on [c], with [DiskIo2] ([b]) or without. *)
Definition runs_on (D : driver) (c : Z) (b : bool) : Prop :=
  exists V, volumes D !! c = Some (V, b) /\ Valid V = true.
Definition in_use (D : driver) (c : Z) : bool :=
  match volumes D !! c with Some (V, _) => Valid V | None => false end.

(** What a start has done. *)
Definition note_start (c Status : Z) (D' : driver) (ses : bsession) : bsession :=
  match volumes D' !! c with
  | Some (V, _) =>
      if Valid V then mk_bsession D' (b_left ses) (b_made ses ++ [(c, V)])
      else mk_bsession D' (if EFI_ERROR Status then b_left ses else {[c]} ∪ b_left ses) (b_made ses)
  | None => mk_bsession D' (if EFI_ERROR Status then b_left ses else {[c]} ∪ b_left ses) (b_made ses)
  end.

Definition run_bop (o : bop) (ses : bsession) : FM bsession :=
  match o with
  | BSupported c => _ ← LKLDriverBindingSupported c; mret ses
  | BStart junk junk_FsType addr c =>
      r ← LKLDriverBindingStart junk junk_FsType addr (b_driver ses) c;
      mret (note_start c (fst (r : Z * driver)) (snd r) ses)
  | BStop c =>
      r ← LKLDriverBindingStop (b_driver ses) c;
      mret (mk_bsession (snd (r : Z * driver)) (b_left ses) (b_made ses))
  end.

Fixpoint run_bops (ops : list bop) (ses : bsession) : FM bsession :=
  match ops with
  | [] => mret ses
  | o :: ops => ses ← run_bop o ses; run_bops ops ses
  end.

(** The firmware starts the driver on controllers it does not manage, and stops
    it on those it has a file system on.  A start meets a key of 1 to 64 bytes,
    if it needs one, and a place to mount at that is no mount point yet
    ([start_ready]).  [w0]: the world of the beginning. *)
Definition bop_allowed (w0 : World) (o : bop) (ses : bsession) (s : fstate) : Prop :=
  match o with
  | BSupported _ => True
  | BStart junk _ _ c => start_ready junk c s /\ c <> 0 /\ in_use (b_driver ses) c = false /\ c ∉ b_left ses /\
      (gEfiDiskIoProtocolGuid, c) ∉ bound w0 /\ (gEfiDiskIo2ProtocolGuid, c) ∉ bound w0
  | BStop c => in_use (b_driver ses) c = true
  end.

(** What is uninitialised are bytes. *)
Definition bop_junk (o : bop) : Prop :=
  match o with BStart junk _ _ _ => junk_ok junk | _ => True end.

#[export] Instance bop_allowed_dec w0 o ses s : Decision (bop_allowed w0 o ses s).
Proof. destruct o; unfold bop_allowed; apply _. Defined.

Fixpoint firmware (w0 : World) (ops : list bop) (ses : bsession) (s : fstate) : Prop :=
  match ops with
  | [] => True
  | o :: ops => bop_allowed w0 o ses s /\
      match run_bop o ses s with FDone ses' s' => firmware w0 ops ses' s' | FFail _ => True end
  end.

#[export] Instance firmware_dec w0 ops ses s : Decision (firmware w0 ops ses s).
Proof.
  revert ses s. induction ops as [|o ops IH]; intros ses s; cbn [firmware]; [apply _|].
  apply and_dec; [apply _|]. destruct (run_bop o ses s); apply _.
Defined.

(** ** The account *)

(** A controller the driver has a device open on: by a volume, or left open, with
    [lb] telling whether there was a [DiskIo2]. *)
Definition manages (ses : bsession) (lb : Z -> bool) (c : Z) (b : bool) : Prop :=
  runs_on (b_driver ses) c b \/ c ∈ b_left ses /\ lb c = b.

(** Open protocols [B]: those of before and those of the controllers in [M]. *)
Definition bound_of (M : Z -> bool -> Prop) (B0 B : gset (Z * Z)) : Prop :=
  forall x, x ∈ B <-> x ∈ B0 \/ exists c b, M c b /\ x ∈ protocols c b.

Definition mount_points (ses : bsession) : list str := map (fun x => LKLMountPoint (snd x)) (b_made ses).
Definition disk_numbers (ses : bsession) : list Z := map (fun x => LKLDiskId (snd x)) (b_made ses).

(** Unmounting at [p] has failed once. *)
Definition no_umount (p : str) : Prop := exists w1, p ∈ mounts w1 /\ fst (lkl_sys_umount p 0 w1) <> 0.

(** Against the world [w0] of the beginning: open are the protocols of the
    managed controllers; mounted is what every volume ever made was mounted at,
    and what a start that failed could not unmount ([stuck]); registered are the
    disks of the volumes, all different. *)
Record controllers_ok (w0 : World) (held0 : bool) (ses : bsession) (lb : Z -> bool) (stuck : gset str) (w : World) : Prop := {
  co_lock : lock_held (LKLFsLock (b_driver ses)) = held0;
  co_bound : bound_of (manages ses lb) (bound w0) (bound w);
  co_own : forall c b, manages ses lb c b -> c <> 0 /\
    (gEfiDiskIoProtocolGuid, c) ∉ bound w0 /\ (gEfiDiskIo2ProtocolGuid, c) ∉ bound w0;
  co_apart : forall c, in_use (b_driver ses) c = true -> c ∉ b_left ses;
  co_mounts : mounts w = list_to_set (mount_points ses) ∪ stuck ∪ mounts w0;
  co_mount_points : NoDup (mount_points ses) /\ forall p, p ∈ mount_points ses -> p ∉ mounts w0 /\ p ∉ stuck;
  co_stuck : forall p, p ∈ stuck -> no_umount p;
  co_disks : forall id c, disks w !! id = Some c <->
    disks w0 !! id = Some c \/ exists V, (c, V) ∈ b_made ses /\ LKLDiskId V = id;
  co_numbers : NoDup (disk_numbers ses) /\ forall id, id ∈ disk_numbers ses -> disks w0 !! id = None;
  co_made : forall c V b, volumes (b_driver ses) !! c = Some (V, b) -> Valid V = true -> (c, V) ∈ b_made ses
}.

(** ** What the operations do to it *)

Lemma runs_on_in_use D c b : runs_on D c b -> in_use D c = true.
Proof. unfold in_use. by intros (V & -> & ->). Qed.

Lemma in_use_runs_on D c : in_use D c = true -> exists V b, volumes D !! c = Some (V, b) /\ Valid V = true.
Proof. unfold in_use. destruct (volumes D !! c) as [[V b]|]; [|done]. eauto. Qed.

Lemma in_use_volumes D D' c : volumes D' = volumes D -> in_use D' c = in_use D c.
Proof. unfold in_use. by intros ->. Qed.

Lemma manages_volumes ses D' lb m c b : volumes D' = volumes (b_driver ses) ->
  manages (mk_bsession D' (b_left ses) m) lb c b <-> manages ses lb c b.
Proof. unfold manages, runs_on. cbn [b_driver b_left]. by intros ->. Qed.

Lemma protocols_on x c b : x ∈ protocols c b -> snd x = c.
Proof. unfold protocols. rewrite elem_of_union, elem_of_singleton. intros [->|Hx]; [done|]. destruct b; set_solver. Qed.

Lemma bound_of_iff (M M' : Z -> bool -> Prop) B0 B :
  (forall c b, M' c b <-> M c b) -> bound_of M B0 B -> bound_of M' B0 B.
Proof. intros HM HB x. rewrite (HB x). by setoid_rewrite HM. Qed.

Lemma bound_of_add (M M' : Z -> bool -> Prop) B0 B c b :
  (forall c' b', M' c' b' <-> M c' b' \/ c' = c /\ b' = b) ->
  bound_of M B0 B -> bound_of M' B0 (protocols c b ∪ B).
Proof.
  intros HM HB x. rewrite elem_of_union, (HB x). split.
  - intros [Hx|[|(c' & b' & Hm & Hx)]]; [right|by left|right].
    + exists c, b. rewrite HM. auto.
    + exists c', b'. rewrite HM. auto.
  - intros [|(c' & b' & Hm & Hx)]; [by right; left|]. apply HM in Hm as [|[-> ->]]; [right; right; eauto|by left].
Qed.

Lemma bound_of_del (M M' : Z -> bool -> Prop) B0 B c b :
  (forall c' b', M' c' b' <-> M c' b' /\ c' <> c) -> (forall b', M c b' -> b' = b) ->
  (gEfiDiskIoProtocolGuid, c) ∉ B0 -> (gEfiDiskIo2ProtocolGuid, c) ∉ B0 ->
  bound_of M B0 B -> bound_of M' B0 (B ∖ protocols c b).
Proof.
  intros HM Hfun Hn1 Hn2 HB x. rewrite elem_of_difference, (HB x). split.
  - intros [[|(c' & b' & Hm & Hx)] Hn]; [by left|right]. exists c', b'. rewrite HM. split; [|done]. split; [done|].
    intros ->. by rewrite (Hfun b' Hm) in Hx.
  - intros [Hx|(c' & b' & Hm & Hx)].
    + split; [by left|]. unfold protocols. intros [->%elem_of_singleton|Hb]%elem_of_union; [done|].
      destruct b; set_solver.
    + apply HM in Hm as [Hm Hne]. split; [right; eauto|]. intros Hx'. apply Hne.
      by rewrite <- (protocols_on _ _ _ Hx), (protocols_on _ _ _ Hx').
Qed.

Section account.
Context (w0 : World) (held0 : bool).
Implicit Types (ses : bsession) (lb : Z -> bool) (stuck : gset str).

(** Nothing of it changes. *)
Lemma controllers_same ses D' lb stuck w w' :
  controllers_ok w0 held0 ses lb stuck w -> vol_same w w' -> lock_held (LKLFsLock D') = held0 ->
  volumes D' = volumes (b_driver ses) ->
  controllers_ok w0 held0 (mk_bsession D' (b_left ses) (b_made ses)) lb stuck w'.
Proof.
  intros [] (E1 & E2 & E3) HL HV. split; cbn [b_driver b_left b_made] in *; rewrite ?E1, ?E2, ?E3; try done.
  - eapply bound_of_iff; [|exact co_bound0]. intros c b. by apply manages_volumes.
  - intros c b Hm. apply (co_own0 c b). by apply manages_volumes in Hm.
  - intros c. rewrite (in_use_volumes (b_driver ses)) by done. apply co_apart0.
  - intros c V b. rewrite HV. apply co_made0.
Qed.

(** The mounts: what a start that fails leaves is stuck. *)
Lemma kept_stuck ses lb stuck w w' :
  controllers_ok w0 held0 ses lb stuck w -> mounts_kept w w' ->
  exists stuck', mounts w' = list_to_set (mount_points ses) ∪ stuck' ∪ mounts w0 /\
    (forall p, p ∈ mount_points ses -> p ∉ mounts w0 /\ p ∉ stuck') /\ forall p, p ∈ stuck' -> no_umount p.
Proof.
  intros [] Hm. destruct co_mount_points0 as [_ Hn]. destruct Hm as [Hm|(p & [Hp (w1 & E1 & Hu)] & Hm)].
  - exists stuck. by rewrite Hm.
  - exists ({[p]} ∪ stuck). rewrite co_mounts0 in Hp. split_and!.
    + rewrite Hm, co_mounts0. set_solver.
    + intros q Hq. destruct (Hn q Hq). set_solver.
    + intros q [->%elem_of_singleton|Hq]%elem_of_union; [|by apply co_stuck0]. exists w1. split; [|done].
      rewrite E1. set_solver.
Qed.

Lemma controllers_taken_back ses D' lb stuck w w' :
  controllers_ok w0 held0 ses lb stuck w -> taken_back w w' -> lock_held (LKLFsLock D') = held0 ->
  volumes D' = volumes (b_driver ses) ->
  exists stuck', controllers_ok w0 held0 (mk_bsession D' (b_left ses) (b_made ses)) lb stuck' w'.
Proof.
  intros Hok (Hm & E2 & E3) HL HV. destruct (kept_stuck _ _ _ _ _ Hok Hm) as (stuck' & E1 & Hn & Hs).
  exists stuck'. destruct Hok. split; cbn [b_driver b_left b_made] in *; rewrite ?E2, ?E3; try done.
  - eapply bound_of_iff; [|exact co_bound0]. intros c b. by apply manages_volumes.
  - intros c b Hm'. apply (co_own0 c b). by apply manages_volumes in Hm'.
  - intros c. rewrite (in_use_volumes (b_driver ses)) by done. apply co_apart0.
  - split; [apply co_mount_points0|exact Hn].
  - intros c V b. rewrite HV. apply co_made0.
Qed.

(** A device was left open. *)
Lemma controllers_left ses D' lb stuck w w' c b :
  controllers_ok w0 held0 ses lb stuck w -> in_use (b_driver ses) c = false -> c ∉ b_left ses -> c <> 0 ->
  (gEfiDiskIoProtocolGuid, c) ∉ bound w0 -> (gEfiDiskIo2ProtocolGuid, c) ∉ bound w0 ->
  mounts_kept w w' -> disks w' = disks w -> bound w' = protocols c b ∪ bound w ->
  lock_held (LKLFsLock D') = held0 -> volumes D' = volumes (b_driver ses) ->
  exists stuck', controllers_ok w0 held0 (mk_bsession D' ({[c]} ∪ b_left ses) (b_made ses))
    (fun x => if decide (x = c) then b else lb x) stuck' w'.
Proof.
  intros Hok Hrun Hleft Hc Hn1 Hn2 Hk E2 E3 HL HV.
  destruct (kept_stuck _ _ _ _ _ Hok Hk) as (stuck' & E1 & Hn & Hs). exists stuck'. destruct Hok.
  assert (Hm : forall c' b', manages (mk_bsession D' ({[c]} ∪ b_left ses) (b_made ses))
      (fun x => if decide (x = c) then b else lb x) c' b' <-> manages ses lb c' b' \/ c' = c /\ b' = b).
  { intros c' b'. unfold manages, runs_on. cbn [b_driver b_left]. rewrite HV, elem_of_union, elem_of_singleton.
    destruct (decide (c' = c)) as [->|]; [|naive_solver]. split.
    - intros [|[_ ->]]; [by left; left|by right].
    - intros [[|[]]|[_ ->]]; [by left|done|by right; split; [left|]]. }
  split; cbn [b_driver b_left b_made] in *; rewrite ?E2; try done.
  - rewrite E3. by eapply bound_of_add.
  - intros c' b' [Hm'|[-> ->]]%Hm; [by eapply co_own0|done].
  - intros c'. rewrite (in_use_volumes (b_driver ses)) by done. intros Hr.
    pose proof (co_apart0 c' Hr). assert (c' <> c) by congruence. set_solver.
  - split; [apply co_mount_points0|exact Hn].
  - intros c' V b'. rewrite HV. apply co_made0.
Qed.

(** The disks are those of before and those of the volumes [made]. *)
Definition disks_of (d0 : gmap Z Z) (made : list (Z * LKL_VOLUME)) (d : gmap Z Z) : Prop :=
  forall id c, d !! id = Some c <-> d0 !! id = Some c \/ exists V, (c, V) ∈ made /\ LKLDiskId V = id.

Lemma disks_of_add d0 made d c V : disks_of d0 made d -> d !! LKLDiskId V = None ->
  disks_of d0 (made ++ [(c, V)]) (<[LKLDiskId V := c]> d).
Proof.
  intros Hd Hid id c'. rewrite lookup_insert_Some, (Hd id c'). setoid_rewrite elem_of_app.
  setoid_rewrite list_elem_of_singleton. split.
  - intros [[<- <-]|[Hne [|(V' & Hin & <-)]]]; [|by left|]; right; eauto.
  - intros [Hd0|(V' & [Hin|[= -> ->]] & <-)]; [|right|by left].
    + right. split; [|by left]. intros <-. assert (d !! LKLDiskId V = Some c') by (apply Hd; by left). congruence.
    + split; [|right; eauto]. intros E. assert (d !! LKLDiskId V' = Some c') by (apply Hd; right; eauto). congruence.
Qed.

Lemma disk_numbers_add d0 made d (c : Z) V : disks_of d0 made d -> d !! LKLDiskId V = None ->
  NoDup (map (fun x => LKLDiskId (snd x)) made) ->
  (forall id, id ∈ map (fun x => LKLDiskId (snd x)) made -> d0 !! id = None) ->
  NoDup (map (fun x => LKLDiskId (snd x)) made ++ [LKLDiskId V]) /\
  forall id, id ∈ map (fun x => LKLDiskId (snd x)) made ++ [LKLDiskId V] -> d0 !! id = None.
Proof.
  intros Hd Hid Nid Hid0. split.
  - apply NoDup_app. split; [done|]. split; [|apply NoDup_singleton].
    intros id Hin ->%list_elem_of_singleton. apply list_elem_of_fmap in Hin as ([c' V'] & E & Hin). cbn in E.
    assert (d !! LKLDiskId V' = Some c') by (apply Hd; right; eauto). congruence.
  - intros id. rewrite elem_of_app, list_elem_of_singleton. intros [? | ->]; [by apply Hid0|].
    destruct (d0 !! LKLDiskId V) as [c'|] eqn:E; [|done].
    assert (d !! LKLDiskId V = Some c') by (apply Hd; by left). congruence.
Qed.

(** A volume was made. *)
Lemma controllers_volume ses D' lb stuck w w' c V b :
  controllers_ok w0 held0 ses lb stuck w -> in_use (b_driver ses) c = false -> c ∉ b_left ses -> c <> 0 ->
  (gEfiDiskIoProtocolGuid, c) ∉ bound w0 -> (gEfiDiskIo2ProtocolGuid, c) ∉ bound w0 ->
  volume_on c V b w w' -> lock_held (LKLFsLock D') = held0 ->
  volumes D' = <[c := (V, b)]> (volumes (b_driver ses)) ->
  controllers_ok w0 held0 (mk_bsession D' (b_left ses) (b_made ses ++ [(c, V)])) lb stuck w'.
Proof.
  intros [] Hrun Hleft Hc Hn1 Hn2 (Hval & Hmp & E1 & Hid & E2 & E3) HL HV.
  destruct co_mount_points0 as [Nmp Hmp0], co_numbers0 as [Nid Hid0].
  assert (Hm : forall c' b', manages (mk_bsession D' (b_left ses) (b_made ses ++ [(c, V)])) lb c' b' <->
      manages ses lb c' b' \/ c' = c /\ b' = b).
  { intros c' b'. unfold manages, runs_on. cbn [b_driver b_left]. rewrite HV.
    destruct (decide (c' = c)) as [->|].
    - rewrite lookup_insert_eq. split.
      + intros [(V' & E & _)|[]]; [|done]. right. by injection E.
      + intros [[(V' & E & HV')|[]]|[_ ->]]; [|done|by left; exists V].
        unfold in_use in Hrun. rewrite E in Hrun. congruence.
    - rewrite lookup_insert_ne by done. naive_solver. }
  unfold mount_points, disk_numbers in *.
  split; unfold mount_points, disk_numbers; cbn [b_driver b_left b_made] in *; rewrite ?map_app; cbn [map snd].
  - done.
  - rewrite E3. by eapply bound_of_add.
  - intros c' b' [Hm'|[-> ->]]%Hm; [by eapply co_own0|done].
  - intros c' Hr. destruct (decide (c' = c)) as [->|]; [done|]. apply co_apart0. unfold in_use in *.
    by rewrite HV, lookup_insert_ne in Hr.
  - rewrite E1, co_mounts0, list_to_set_app_L. cbn. set_solver.
  - rewrite co_mounts0 in Hmp. split.
    + apply NoDup_app. split; [done|]. split; [|apply NoDup_singleton]. set_solver.
    + intros p. rewrite elem_of_app, list_elem_of_singleton. set_solver.
  - done.
  - rewrite E2. by apply disks_of_add.
  - by eapply disk_numbers_add.
  - intros c' V' b'. rewrite HV, lookup_insert_Some, elem_of_app. intros [[<- E]|[_ Hl]] Hv; [injection E as <- <-|].
    + right. by apply list_elem_of_singleton.
    + left. by eapply co_made0.
Qed.

(** A volume was taken off its controller. *)
Lemma controllers_stop ses D' lb stuck w w' c V b :
  controllers_ok w0 held0 ses lb stuck w -> volumes (b_driver ses) !! c = Some (V, b) -> Valid V = true ->
  mounts w' = mounts w -> disks w' = disks w -> bound w' = bound w ∖ protocols c b ->
  lock_held (LKLFsLock D') = held0 -> volumes D' = <[c := (set_Valid false V, b)]> (volumes (b_driver ses)) ->
  controllers_ok w0 held0 (mk_bsession D' (b_left ses) (b_made ses)) lb stuck w'.
Proof.
  intros [] Hvol Hval E1 E2 E3 HL HV.
  assert (Hruns : runs_on (b_driver ses) c b) by by exists V.
  pose proof (co_apart0 c (runs_on_in_use _ _ _ Hruns)) as Hleft.
  assert (Hm : forall c' b', manages (mk_bsession D' (b_left ses) (b_made ses)) lb c' b' <->
      manages ses lb c' b' /\ c' <> c).
  { intros c' b'. unfold manages, runs_on. cbn [b_driver b_left]. rewrite HV.
    destruct (decide (c' = c)) as [->|].
    - rewrite lookup_insert_eq. split; [|tauto]. intros [(V' & [= <- <-] & Hf)|[]]; done.
    - rewrite lookup_insert_ne by done. naive_solver. }
  split; cbn [b_driver b_left b_made] in *; rewrite ?E1, ?E2; try done.
  - destruct (co_own0 c b (or_introl Hruns)) as (_ & Hn1 & Hn2). rewrite E3. eapply bound_of_del; [exact Hm|..]; try done.
    intros b' [(V' & E & _)|[Hl _]]; [|done]. congruence.
  - intros c' b' [Hm' _]%Hm. by eapply co_own0.
  - intros c' Hr. apply co_apart0. unfold in_use in *. rewrite HV in Hr.
    destruct (decide (c' = c)) as [->|]; [by rewrite lookup_insert_eq in Hr|by rewrite lookup_insert_ne in Hr].
  - intros c' V' b'. rewrite HV, lookup_insert_Some. intros [[<- E]|[_ Hl]] Hv; [injection E as <- <-|]; [done|by eapply co_made0].
Qed.

(** ** One operation, and any number *)

Lemma note_start_none c st D' ses : in_use D' c = false ->
  note_start c st D' ses = mk_bsession D' (if EFI_ERROR st then b_left ses else {[c]} ∪ b_left ses) (b_made ses).
Proof. unfold note_start, in_use. destruct (volumes D' !! c) as [[V b]|]; [by intros ->|done]. Qed.

Lemma unmanaged_bound ses lb stuck w p c :
  controllers_ok w0 held0 ses lb stuck w -> in_use (b_driver ses) c = false -> c ∉ b_left ses ->
  (p, c) ∉ bound w0 -> (p, c) ∉ bound w.
Proof.
  intros Hok Hrun Hleft Hn Hin. apply (co_bound _ _ _ _ _ _ Hok) in Hin as [|(c' & b & Hm & Hx)]; [done|].
  apply protocols_on in Hx as <-. cbn [snd] in *. destruct Hm as [Hr%runs_on_in_use|[]]; [congruence|done].
Qed.

Definition accounted_for ses w : Prop := exists lb stuck, controllers_ok w0 held0 ses lb stuck w.

Lemma start_accounted junk junk_FsType addr c ses s :
  junk_ok junk -> bop_allowed w0 (BStart junk junk_FsType addr c) ses s -> accounted_for ses (world s) ->
  fwp (run_bop (BStart junk junk_FsType addr c) ses) (fun ses' s' => accounted_for ses' (world s')) s.
Proof.
  intros Hj (Hready & Hc & Hrun & Hleft & Hn1 & Hn2) (lb & stuck & Hok). cbn [run_bop]. apply fwp_bind. eapply fwp_mono.
  { apply LKLDriverBindingStart_ok; try done. by eapply unmanaged_bound. }
  intros [st D'] s' (HL & V & Hp & EV). apply fwp_ret. cbn [fst snd].
  rewrite (co_lock _ _ _ _ _ _ Hok) in HL.
  unfold start_post in Hp. cbn [fst snd] in Hp. destruct V as [[V b]|].
  - destruct Hp as [_ Hv]. unfold note_start. rewrite EV, lookup_insert_eq. pose proof Hv as (-> & _).
    exists lb, stuck. by eapply controllers_volume.
  - rewrite note_start_none by by rewrite (in_use_volumes (b_driver ses)). destruct (EFI_ERROR st).
    + exists lb. by eapply controllers_taken_back.
    + destruct Hp as (Hm & E2 & (b & E3) & _). eexists. by eapply controllers_left.
Qed.

Lemma stop_accounted c ses s :
  in_use (b_driver ses) c = true -> accounted_for ses (world s) ->
  fwp (run_bop (BStop c) ses) (fun ses' s' => accounted_for ses' (world s')) s.
Proof.
  intros (V & b & HV & Hval)%in_use_runs_on (lb & stuck & Hok). cbn [run_bop].
  assert (Hm : manages ses lb c b) by by left; exists V.
  assert (Hb : protocols c b ⊆ bound (world s)).
  { intros x Hx. apply (co_bound _ _ _ _ _ _ Hok). eauto. }
  destruct (co_own _ _ _ _ _ _ Hok c b Hm) as (Hc & _). apply fwp_bind.
  eapply fwp_mono; [by apply LKLDriverBindingStop_ok|]. intros [st D'] s' (HL & E1 & E2 & Hst). apply fwp_ret.
  exists lb, stuck. cbn [fst snd]. rewrite (co_lock _ _ _ _ _ _ Hok) in HL.
  assert (Hsame : volumes D' = volumes (b_driver ses) -> bound (world s') = bound (world s) ->
    controllers_ok w0 held0 (mk_bsession D' (b_left ses) (b_made ses)) lb stuck (world s')).
  { intros EV E3. by eapply controllers_same. }
  destruct (EFI_ERROR (fst (GetProtocol _ _ _))).
  { destruct Hst as (_ & -> & Ew). apply Hsame; [done|by rewrite Ew]. }
  destruct (EFI_ERROR (fst (UninstallSfs _ _))).
  - destruct Hst as (_ & EV & E3). by apply Hsame.
  - destruct Hst as (_ & EV & E3). by eapply controllers_stop.
Qed.

Lemma supported_accounted c ses s : accounted_for ses (world s) ->
  fwp (run_bop (BSupported c) ses) (fun ses' s' => accounted_for ses' (world s')) s.
Proof.
  intros (lb & stuck & Hok). cbn [run_bop]. apply fwp_bind. eapply fwp_mono; [apply LKLDriverBindingSupported_spec|].
  intros st s' (Hs & _). apply fwp_ret. exists lb, stuck.
  pose proof (controllers_same ses (b_driver ses) lb stuck _ _ Hok Hs (co_lock _ _ _ _ _ _ Hok) eq_refl) as Hok'.
  by destruct ses.
Qed.

Lemma run_bops_accounted ops : forall ses s,
  Forall bop_junk ops -> firmware w0 ops ses s -> accounted_for ses (world s) ->
  fwp (run_bops ops ses) (fun ses' s' => accounted_for ses' (world s')) s.
Proof.
  induction ops as [|o ops IH]; intros ses s Hj Hfw Hac; cbn [run_bops firmware] in *; [by apply fwp_ret|].
  apply Forall_cons in Hj as [Hj Hjs].
  destruct Hfw as [Ho Hfw]. apply fwp_bind.
  assert (Hr : fwp (run_bop o ses) (fun ses' s' => accounted_for ses' (world s')) s).
  { destruct o; [by apply supported_accounted|by apply start_accounted|by apply stop_accounted]. }
  unfold fwp at 1. unfold fwp in Hr. destruct (run_bop o ses s) as [ses' s'|]; [|done]. by apply IH.
Qed.
End account.

(** A driver without volumes. *)
Definition new_bsession (D : driver) : bsession := mk_bsession D ∅ [].

Lemma new_ok D w : volumes D = ∅ ->
  controllers_ok w (lock_held (LKLFsLock D)) (new_bsession D) (fun _ => false) ∅ w.
Proof.
  intros HV. assert (Hm : forall c b, ~ manages (new_bsession D) (fun _ => false) c b).
  { intros c b [(V & E & _)|[]]; [|done]. cbn in E. by rewrite HV in E. }
  split; cbn [b_driver b_left b_made new_bsession] in *; try done.
  - intros x. split; [by left|]. by intros [|(c & b & Hm' & _)]; [|by apply Hm in Hm'].
  - by intros c b ?%Hm.
  - cbn. set_solver.
  - split; [constructor|by intros p ?%elem_of_nil].
  - intros id c. split; [by left|]. by intros [|(V & ?%elem_of_nil & _)].
  - split; [constructor|by intros p ?%elem_of_nil].
  - intros c V b. by rewrite HV.
Qed.

(** C6: the driver on all controllers.  The firmware asks about, starts and stops
    any number of controllers in any order; it starts those that are not managed
    and stops those with a file system of the driver.  Assumed of each start are
    ([start_ready], [bop_junk]): the key it reads has 1 to 64 bytes, the place
    where it mounts is no mount point yet, and uninitialised memory holds bytes.
    Then every call returns, and no assertion fails; the lock is as it was; the
    protocols that are open are exactly those of the controllers with a valid
    volume and of those left open when another file system was there; every
    volume that was ever made, though its controller be stopped, is still mounted,
    at a place of its own, with its disk registered; and nothing else is mounted
    but what a start that failed tried to unmount and could not. *)
Theorem controllers_accounted D ops s :
  volumes D = ∅ -> Forall bop_junk ops ->
  firmware (world s) ops (new_bsession D) s ->
  fwp (run_bops ops (new_bsession D)) (fun ses s' => exists lb stuck,
    controllers_ok (world s) (lock_held (LKLFsLock D)) ses lb stuck (world s')) s.
Proof.
  intros HV Hj Hfw. apply (run_bops_accounted (world s)); try done. eexists _, _. by apply new_ok.
Qed.
End controllers.

(** ** Witness *)

#[local] Instance debug_edk : EdkConfig := {| MDEPKG_NDEBUG := false |}.

(** Two controllers are started, one of them is stopped and started again. *)
Definition demo_bops : list bop :=
  [BSupported 1; BStart demo_junk [] 0x8000 1; BStart demo_junk [] 0x8000 2; BStop 1; BSupported 1;
   BStart demo_junk [] 0x8000 1].

(** The volumes that are valid, and the numbers of mounts and open protocols. *)
Definition controllers_summary (r : fres bsession) : option (list Z * list bool * nat * nat) :=
  match r with
  | FDone ses s => Some (map fst (b_made ses), in_use (b_driver ses) <$> [1; 2], size (dmounts (world s)),
      size (dbound (world s)))
  | FFail _ => None
  end.

Lemma controllers_accounted_witness :
  controllers_summary (run_bops demo_bops (new_bsession demo_driver) demo_system) =
    Some ([1; 2; 1], [true; true], 3%nat, 4%nat) /\
  fwp (run_bops demo_bops (new_bsession demo_driver)) (fun ses s' => exists lb stuck,
    controllers_ok (world demo_system) false ses lb stuck (world s')) demo_system.
Proof.
  split; [by vm_compute|].
  apply (controllers_accounted demo_driver demo_bops demo_system eq_refl).
  - apply Forall_forall. intros o Ho. unfold demo_bops in Ho. rewrite !elem_of_cons, elem_of_nil in Ho.
    by destruct Ho as [->|[->|[->|[->|[->|[->|[]]]]]]]; try exact demo_junk_ok.
  - apply (@bool_decide_eq_true_1 _ (firmware_dec _ _ _ _)). vm_compute. reflexivity.
Defined.
