(* ===== verification/Loading.v ===== *)
(** * Loading and unloading the driver ([LKLEntryPoint], [LKLUnload] of [LKL.c])

    What the entry point leaves behind, successful or not, and the unloading
    after it: whether the Linux kernel runs, and whether the driver binding is
    on the image. *)

From stdpp Require Import strings.
From S2P Require Import Prelude Efi Lkl Errors Path DemoFs FsId File Dm Volume Driver DriverLife.

(** Linux runs from its start to its halt; the driver binding is installed by
    the one call and taken off by the other. *)
Class LoadLaws `{LklBlk} `{!BootServices} := {
  linux_runs : World -> bool;
  installed : World -> bool;
  ll_same w w' := linux_runs w' = linux_runs w /\ installed w' = installed w;
  ll_threads : forall w, ll_same w (snd (host_thread_init w));
  ll_yield : forall w, ll_same w (snd (host_thread_yield w));
  ll_mkdir : forall p m w, ll_same w (snd (lkl_sys_mkdir p m w));
  ll_mknod : forall p m d w, ll_same w (snd (lkl_sys_mknod p m d w));
  ll_disconnect : forall c w, ll_same w (snd (DisconnectController c w));
  ll_start_int : forall w, INT_MIN <= fst (lkl_start_kernel w) <= INT_MAX;
  ll_start : forall w, let r := lkl_start_kernel w in
    installed (snd r) = installed w /\ (fst r = 0 -> linux_runs (snd r) = true);
  ll_halt : forall w, let r := lkl_sys_halt w in installed (snd r) = installed w /\ linux_runs (snd r) = false;
  ll_install : forall w, let r := InstallDriverBinding w in
    linux_runs (snd r) = linux_runs w /\ installed (snd r) = installed w || negb (EFI_ERROR (fst r));
  ll_uninstall : forall ps w, gEfiDriverBindingProtocolGuid ∈ ps -> let r := UninstallProtocols ps w in
    linux_runs (snd r) = linux_runs w /\ installed (snd r) = installed w && EFI_ERROR (fst r)
}.

Section loading.
Context `{LoadLaws} `{!EdkStrings} `{!Firmware} `{!EdkConfig}.




















End loading.

(** ** Witness *)

#[local] Instance debug_edk : EdkConfig := {| MDEPKG_NDEBUG := false |}.

Definition d_runs (w : demo_world) : bool := bool_decide (d_linux ∈ dbound w).
Definition d_installed (w : demo_world) : bool := bool_decide (d_driver ∈ dbound w).

#[local] Instance demo_load_laws : LoadLaws (H := demo_lkl) (H0 := demo_blk).
Proof.
  assert (Hset : forall B w, (d_linux ∈ B <-> d_linux ∈ dbound w) -> (d_driver ∈ B <-> d_driver ∈ dbound w) ->
    d_runs (set_bound B w) = d_runs w /\ d_installed (set_bound B w) = d_installed w).
  { intros B w T1 T2. split; by apply bool_decide_ext. }
  assert (Hne : d_linux <> d_driver) by done.
  refine (Build_LoadLaws demo_lkl demo_blk demo_services d_runs d_installed _ _ _ _ _ _ _ _ _ _).
  - done.
  - done.
  - intros p m w. cbn. unfold d_mkdir. by case_match.
  - intros p m d w. cbn. unfold d_mknod. by case_match.
  - intros c w. apply Hset; rewrite elem_of_difference; (split; [tauto|]; intros Hin; split; [done|]);
      unfold protocols, d_linux, d_driver; set_solver.
  - done.
  - intros w. cbv zeta. cbn [fst snd lkl_start_kernel demo_services]. unfold d_runs, d_installed. cbn [dbound set_bound].
    split; [apply bool_decide_ext; set_solver|]. intros _. apply bool_decide_eq_true_2. set_solver.
  - intros w. cbv zeta. cbn [fst snd lkl_sys_halt demo_services]. unfold d_runs, d_installed. cbn [dbound set_bound].
    split; [apply bool_decide_ext; set_solver|]. apply bool_decide_eq_false_2. set_solver.
  - intros w. cbv zeta. cbn [fst snd InstallDriverBinding demo_services]. unfold d_runs, d_installed. cbn [dbound set_bound].
    split; [apply bool_decide_ext; set_solver|]. rewrite orb_true_r. apply bool_decide_eq_true_2. set_solver.
  - intros ps w _. cbv zeta. cbn [fst snd UninstallProtocols demo_services]. unfold d_runs, d_installed.
    cbn [dbound set_bound]. split; [apply bool_decide_ext; set_solver|]. rewrite andb_false_r.
    apply bool_decide_eq_false_2. set_solver.
Defined.

