(* ===== verification/Debug.v ===== *)
(** * Memory dumps ([lk/debug.c])

    The two functions that print a piece of memory, as the characters they
    print.  Memory is a function from 32-bit addresses to bytes. *)

From S2P Require Import Prelude.

Definition SPACE : Z := 32.
Definition BAR : Z := 124.
Definition COLON : Z := 58.
Definition POINT : Z := 46.
Definition NEWLINE : Z := 10.

Definition isprint (c : Z) : bool := (32 <=? c) && (c <=? 126).

(** [printf]'s hexadecimal digits, [n] of them, and those of a field of at least
    [width]. *)
Definition hex_char (d : Z) : Z := if d <? 10 then 48 + d else 87 + d.
Fixpoint hex_fixed (n : nat) (v : Z) : list Z :=
  match n with O => [] | S n => hex_fixed n (v / 16) ++ [hex_char (v `mod` 16)] end.
Definition hex_needed (v : Z) : nat := Z.to_nat (Z.log2 v / 4 + 1).
Definition hex_field (width : nat) (v : Z) : list Z := hex_fixed (max width (hex_needed v)) v.

(** "0x%0<width>llx: " *)
Definition print_addr (width : nat) (v : Z) : list Z := [48; 120] ++ hex_field width v ++ [COLON; SPACE].

Definition ROUNDUP (a b : Z) : Z := Z.land (a + (b - 1)) (Z.lnot (b - 1)).

Section dump.
Variable mem : Z -> Z.

Definition byte_at (address : Z) : Z := mem (u32 address).
(** A word as the processor reads it: little-endian. *)
Definition word_at (address : Z) : Z :=
  byte_at address + 2 ^ 8 * byte_at (address + 1) + 2 ^ 16 * byte_at (address + 2) + 2 ^ 24 * byte_at (address + 3).

Definition print_char (c : Z) : Z := if isprint c then c else POINT.

(** One line of [hexdump], for [n] more bytes: [s] of them are read, in words. *)
Definition hexdump_line (address n : Z) : list Z :=
  let s := ROUNDUP (Z.min n 16) 4 in
  print_addr 8 address
  ++ concat (map (fun i => hex_field 8 (word_at (address + 4 * i)) ++ [SPACE]) (seqZ 0 (s / 4)))
  ++ concat (map (fun _ => replicate 9 SPACE) (seqZ (s / 4) (4 - s / 4)))
  ++ [BAR]
  ++ map (fun i => if i <? s then print_char (byte_at (address + i)) else POINT) (seqZ 0 16)
  ++ [BAR; NEWLINE].

(** The bytes that are there, and blanks for the others. *)
Definition hexdump8_line (width : nat) (address n disp : Z) : list Z :=
  let k := Z.min n 16 in
  print_addr width disp
  ++ concat (map (fun i => hex_field 2 (byte_at (address + i)) ++ [SPACE]) (seqZ 0 k))
  ++ concat (map (fun _ => replicate 3 SPACE) (seqZ k (16 - k)))
  ++ [BAR]
  ++ map (fun i => print_char (byte_at (address + i))) (seqZ 0 k)
  ++ [NEWLINE].

(** The loops; [count] is a 32-bit [size_t]. *)
Fixpoint hexdump_loop (fuel : nat) (address count len : Z) : option (list Z) :=
  if count <? len then
    match fuel with
    | O => None
    | S fuel =>
        rest ← hexdump_loop fuel (u32 (address + 16)) (u32 (count + 16)) len;
        Some (hexdump_line address (len - count) ++ rest)
    end
  else Some [].

Fixpoint hexdump8_loop (fuel width : nat) (address count len disp_addr : Z) : option (list Z) :=
  if count <? len then
    match fuel with
    | O => None
    | S fuel =>
        rest ← hexdump8_loop fuel width (u32 (address + 16)) (u32 (count + 16)) len disp_addr;
        Some (hexdump8_line width address (len - count) (u64 (disp_addr + count)) ++ rest)
    end
  else Some [].

(** The number of lines. *)
Definition dump_fuel (len : Z) : nat := Z.to_nat ((len + 15) / 16).

Definition hexdump (ptr len : Z) : option (list Z) := hexdump_loop (dump_fuel len) ptr 0 len.

Definition hexdump8_ex (ptr len disp_addr : Z) : option (list Z) :=
  let width := if 0xFFFFFFFF <? u64 (disp_addr + len) then 16%nat else 8%nat in
  hexdump8_loop (dump_fuel len) width ptr 0 len disp_addr.
End dump.

(** ** Reading a dump back *)

Definition digit_value (c : Z) : option Z :=
  if (48 <=? c) && (c <=? 57) then Some (c - 48)
  else if (97 <=? c) && (c <=? 102) then Some (c - 87) else None.

(** Pairs of digits with a blank behind each. *)
Fixpoint read_pairs (n : nat) (l : list Z) : list Z :=
  match n, l with
  | S n, a :: b :: _ :: l =>
      match digit_value a, digit_value b with Some x, Some y => 16 * x + y :: read_pairs n l | _, _ => [] end
  | _, _ => []
  end.

(** What is behind the first [c]. *)
Fixpoint behind (c : Z) (l : list Z) : list Z :=
  match l with [] => [] | x :: l => if x =? c then l else behind c l end.

(** The bytes in the next lines. *)
Fixpoint read_dump (fuel : nat) (l : list Z) : list Z :=
  match fuel with
  | O => []
  | S fuel => read_pairs 16 (tail (behind COLON l)) ++ read_dump fuel (behind NEWLINE l)
  end.

Lemma behind_here c l r : c ∉ l -> behind c (l ++ c :: r) = r.
Proof.
  induction l as [|x l IH]; simpl; intros Hn; [by rewrite Z.eqb_refl|].
  rewrite (proj2 (Z.eqb_neq x c)) by set_solver. apply IH. set_solver.
Qed.

Lemma digit_value_char d : 0 <= d < 16 -> digit_value (hex_char d) = Some d.
Proof.
  intros Hd. unfold digit_value, hex_char. destruct (Z.ltb_spec d 10).
  - rewrite !(proj2 (Z.leb_le _ _)) by lia. cbn. f_equal. lia.
  - rewrite (proj2 (Z.leb_gt (87 + d) 57)), andb_false_r, !(proj2 (Z.leb_le _ _)) by lia. cbn. f_equal. lia.
Qed.

(** The characters of digits. *)
Definition digit (c : Z) : Prop := 48 <= c <= 57 \/ 97 <= c <= 102.

Lemma hex_fixed_digits n : forall v, Forall digit (hex_fixed n v).
Proof.
  induction n as [|n IH]; intros v; simpl; [constructor|]. apply Forall_app. split; [apply IH|].
  apply Forall_singleton. unfold digit, hex_char. pose proof (Z.mod_pos_bound v 16 ltac:(lia)).
  destruct (Z.ltb_spec (v `mod` 16) 10); lia.
Qed.

Lemma digit_not l c : Forall digit l -> ~ digit c -> c ∉ l.
Proof. intros Hl Hc Hin. by apply Hc, (proj1 (Forall_forall _ _) Hl). Qed.

Lemma hex_byte v : 0 <= v < 256 -> hex_field 2 v = [hex_char (v / 16); hex_char (v `mod` 16)].
Proof.
  intros Hv. unfold hex_field. replace (max 2 (hex_needed v)) with 2%nat.
  - cbn [hex_fixed app]. rewrite (Z.mod_small (v / 16)); [done|]. Z.to_euclidean_division_equations; lia.
  - assert (Z.log2 v < 8).
    { destruct (Z.eq_dec v 0) as [->|]; [done|]. apply Z.log2_lt_pow2; lia. }
    pose proof (Z.log2_nonneg v). unfold hex_needed. Z.to_euclidean_division_equations; lia.
Qed.

(** A line taken apart: the address, the pairs of digits, blanks, characters. *)
Definition pairs (bs : list Z) : list Z := concat (map (fun b => hex_field 2 b ++ [SPACE]) bs).

Lemma pairs_digits bs : Forall (fun c => digit c \/ c = SPACE) (pairs bs).
Proof.
  induction bs as [|b bs IH]; [constructor|]. unfold pairs. cbn [map concat]. apply Forall_app. split; [|exact IH].
  apply Forall_app. split; [|apply Forall_singleton; by right]. eapply Forall_impl; [apply hex_fixed_digits|]. auto.
Qed.

Lemma read_pairs_bytes bs : forall n rest, Forall (fun b => 0 <= b < 256) bs -> (length bs <= n)%nat ->
  n = length bs \/ (exists r, rest = SPACE :: SPACE :: SPACE :: r) -> read_pairs n (pairs bs ++ rest) = bs.
Proof.
  induction bs as [|b bs IH]; intros n rest Hb Hn Hr.
  - destruct n as [|n]; [done|]. destruct Hr as [|[r ->]]; [done|]. done.
  - destruct n as [|n]; [simpl in Hn; lia|]. apply Forall_cons in Hb as [Hb Hbs]. unfold pairs. cbn [map concat].
    rewrite hex_byte by done. cbn [app read_pairs].
    pose proof (Z.mod_pos_bound b 16 ltac:(lia)). assert (0 <= b / 16 < 16) by (Z.to_euclidean_division_equations; lia).
    rewrite !digit_value_char by done. f_equal; [pose proof (Z.div_mod b 16); lia|].
    apply IH; [done|simpl in Hn; lia|]. destruct Hr as [Hr|]; [left; simpl in Hr; lia|by right].
Qed.

Lemma blanks k n : 0 < n -> exists r, concat (map (fun _ => replicate 3 SPACE) (seqZ k n)) = SPACE :: SPACE :: SPACE :: r.
Proof. intros Hn. rewrite seqZ_cons by lia. by eexists. Qed.

Lemma blanks_space k n : Forall (.= SPACE) (concat (map (fun _ => replicate 3 SPACE) (seqZ k n))).
Proof.
  induction (seqZ k n) as [|x l IH]; [constructor|]. simpl. by repeat constructor.
Qed.

Lemma print_char_not c : print_char c <> NEWLINE.
Proof.
  unfold print_char, isprint. destruct (Z.leb_spec 32 c), (Z.leb_spec c 126); cbn; unfold POINT, NEWLINE; lia.
Qed.

Section readback.
Context (mem : Z -> Z) (mem_byte : forall a, 0 <= mem a < 256).

Definition bytes_from (address n : Z) : list Z := map (fun i => byte_at mem (address + i)) (seqZ 0 n).

Lemma read_line width address n disp rest : 0 < n ->
  let l := hexdump8_line mem width address n disp ++ rest in
  read_pairs 16 (tail (behind COLON l)) = bytes_from address (Z.min n 16) /\ behind NEWLINE l = rest.
Proof.
  intros Hn. cbv zeta. set (k := Z.min n 16). set (bs := bytes_from address k).
  assert (Hp : Forall digit (hex_field width disp)) by apply hex_fixed_digits.
  assert (Hpre : forall c, ~ digit c -> c <> 120 -> c ∉ [48; 120] ++ hex_field width disp).
  { intros c Hc Hx. rewrite elem_of_app. intros [Hin|Hin]; [|by eapply digit_not].
    rewrite !elem_of_cons, elem_of_nil in Hin. unfold digit in Hc. lia. }
  pose proof (blanks k (16 - k)) as Hblank. pose proof (blanks_space k (16 - k)) as Hspace.
  assert (Hk : length bs = Z.to_nat k) by (unfold bs, bytes_from; by rewrite length_map, length_seqZ).
  assert (Hline : hexdump8_line mem width address n disp = ([48; 120] ++ hex_field width disp) ++ COLON :: SPACE ::
    pairs bs ++ concat (map (fun _ => replicate 3 SPACE) (seqZ k (16 - k))) ++ BAR :: map print_char bs ++ [NEWLINE]).
  { unfold hexdump8_line, print_addr. fold k. unfold bs, bytes_from, pairs. rewrite !map_map, <- !app_assoc. done. }
  rewrite Hline. clear Hline Hp. set (pre := [48; 120] ++ hex_field width disp) in *. clearbody pre.
  set (mid := concat _) in *. clearbody mid.
  replace ((pre ++ COLON :: SPACE :: pairs bs ++ mid ++ BAR :: map print_char bs ++ [NEWLINE]) ++ rest)
    with (pre ++ COLON :: SPACE :: pairs bs ++ mid ++ BAR :: map print_char bs ++ NEWLINE :: rest)
    by by repeat (rewrite <- ?app_assoc; cbn [app]).
  split.
  - rewrite behind_here by (apply Hpre; unfold digit, COLON; lia). cbn [tail]. apply read_pairs_bytes.
    + unfold bs, bytes_from. apply Forall_map, Forall_true. intros. apply mem_byte.
    + lia.
    + destruct (Z.eq_dec k 16) as [->|]; [by left|right]. destruct Hblank as [r ->]; [lia|]. by eexists.
  - replace (pre ++ COLON :: SPACE :: pairs bs ++ mid ++ BAR :: map print_char bs ++ NEWLINE :: rest)
      with ((pre ++ COLON :: SPACE :: pairs bs ++ mid ++ BAR :: map print_char bs) ++ NEWLINE :: rest)
      by by repeat (rewrite <- ?app_assoc; cbn [app]).
    apply behind_here. rewrite elem_of_app, !elem_of_cons, !elem_of_app, elem_of_cons.
    intros [Hin|[Hin|[Hin|[Hin|[Hin|[Hin|Hin]]]]]]; try done.
    + revert Hin. apply Hpre; unfold digit, NEWLINE; lia.
    + pose proof (proj1 (Forall_forall _ _) (pairs_digits bs) _ Hin) as [Hd|Hd]; [unfold digit, NEWLINE in Hd; lia|done].
    + by pose proof (proj1 (Forall_forall _ _) Hspace _ Hin).
    + apply list_elem_of_fmap in Hin as (c & Hc & _). by eapply print_char_not.
Qed.

Lemma byte_at_wrap address i : byte_at mem (u32 address + i) = byte_at mem (address + i).
Proof. unfold byte_at, u32. by rewrite Zplus_mod_idemp_l. Qed.

Lemma bytes_from_split address n : 0 < n ->
  bytes_from address n = bytes_from address (Z.min n 16) ++ bytes_from (u32 (address + 16)) (n - 16).
Proof.
  intros Hn. unfold bytes_from. destruct (Z.le_gt_cases n 16).
  - rewrite (Z.min_l n 16), (seqZ_nil _ (n - 16)) by lia. cbn [map]. by rewrite app_nil_r.
  - rewrite Z.min_r by lia. replace n with (16 + (n - 16)) at 1 by lia. rewrite seqZ_app, map_app by lia. f_equal.
    change (0 + 16) with (16 + 0). rewrite <- (fmap_add_seqZ 16 0 (n - 16)). change (fmap (M := list)) with (@map Z Z). rewrite map_map.
    apply map_ext. intros i. rewrite byte_at_wrap. f_equal. lia.
Qed.

Lemma dump_fuel_next n : 0 < n -> dump_fuel n = S (dump_fuel (n - 16)).
Proof. intros Hn. unfold dump_fuel. Z.to_euclidean_division_equations; lia. Qed.

Lemma dump_fuel_none n : n <= 0 -> dump_fuel n = O.
Proof. intros Hn. unfold dump_fuel. Z.to_euclidean_division_equations; lia. Qed.

Lemma hexdump8_loop_ok width disp len fuel : forall address count,
  len <= 2 ^ 32 - 16 -> 0 <= count -> fuel = dump_fuel (len - count) ->
  exists out, hexdump8_loop mem fuel width address count len disp = Some out /\
    read_dump fuel out = bytes_from address (len - count).
Proof.
  induction fuel as [|fuel IH]; intros address count Hlen Hc Hf; cbn [hexdump8_loop].
  - destruct (Z.ltb_spec count len); [by rewrite dump_fuel_next in Hf by lia|]. eexists. split; [done|].
    unfold bytes_from. by rewrite seqZ_nil by lia.
  - destruct (Z.ltb_spec count len); [|by rewrite dump_fuel_none in Hf by lia].
    rewrite dump_fuel_next in Hf by lia. injection Hf as Hf. rewrite (u32_small (count + 16)) by lia.
    destruct (IH (u32 (address + 16)) (count + 16)) as (out & Ho & Hr); [done|lia|rewrite Hf; f_equal; lia|].
    rewrite Ho. eexists. split; [done|]. cbn [read_dump].
    destruct (read_line width address (len - count) (u64 (disp + count)) out ltac:(lia)) as [-> ->].
    rewrite Hr, (bytes_from_split address (len - count)) by lia. do 2 f_equal. lia.
Qed.

(** What [hexdump8_ex] prints can be read back: in a dump of up to 2^32-16 bytes,
    whatever the address shown, each line has the next bytes of the memory, and
    together they are all of the bytes asked for. *)
Theorem hexdump8_roundtrip ptr len disp_addr : 0 <= len <= 2 ^ 32 - 16 ->
  exists out, hexdump8_ex mem ptr len disp_addr = Some out /\
    read_dump (dump_fuel len) out = map (fun i => mem (u32 (ptr + i))) (seqZ 0 len).
Proof.
  intros Hlen. unfold hexdump8_ex. set (width := if 0xFFFFFFFF <? _ then 16%nat else 8%nat).
  destruct (hexdump8_loop_ok width disp_addr len (dump_fuel len) ptr 0) as (out & -> & Hr); [lia|lia|by rewrite Z.sub_0_r|].
  exists out. split; [done|]. by rewrite Hr, Z.sub_0_r.
Qed.
End readback.

(** With more bytes the count wraps around before it gets to the length, and
    neither dump ends. *)
Theorem dumps_endless (mem : Z -> Z) fuel width address len disp_addr : 2 ^ 32 - 16 < len < 2 ^ 32 ->
  hexdump_loop mem fuel address 0 len = None /\ hexdump8_loop mem fuel width address 0 len disp_addr = None.
Proof.
  intros Hlen. assert (H16 : forall k, 0 <= k < 2 ^ 28 -> exists k', 0 <= k' < 2 ^ 28 /\ u32 (16 * k + 16) = 16 * k').
  { intros k Hk. destruct (Z.eq_dec k (2 ^ 28 - 1)) as [->|]; [by exists 0|]. exists (k + 1). split; [lia|].
    rewrite u32_small; lia. }
  assert (Hloop : forall k addr, 0 <= k < 2 ^ 28 -> hexdump_loop mem fuel addr (16 * k) len = None /\
    hexdump8_loop mem fuel width addr (16 * k) len disp_addr = None).
  { induction fuel as [|fuel IH]; intros k addr Hk; cbn; (rewrite (proj2 (Z.ltb_lt _ _)) by lia); [done|].
    destruct (H16 k Hk) as (k' & Hk' & ->). by destruct (IH k' (u32 (addr + 16)) Hk') as [-> ->]. }
  by apply (Hloop 0).
Qed.

(** ** Witnesses *)

(** "Hi" and four other bytes at 0x8000, and a word whose last byte is not part of
    the dump. *)
Definition demo_mem (a : Z) : Z := nth (Z.to_nat (a - 0x8000)) [72; 105; 10; 0; 255; 16; 1; 2] 0.

Lemma demo_mem_byte a : 0 <= demo_mem a < 256.
Proof.
  unfold demo_mem. set (l := [72; 105; 10; 0; 255; 16; 1; 2]).
  destruct (Nat.lt_ge_cases (Z.to_nat (a - 0x8000)) (length l)) as [Hl|Hl]; [|by rewrite nth_overflow].
  apply (List.Forall_forall (fun b => 0 <= b < 256) l); [repeat constructor; lia|by apply nth_In].
Qed.

Lemma hexdump8_roundtrip_witness :
  exists out, hexdump8_ex demo_mem 0x8000 6 0x8000 = Some out /\ read_dump 1 out = [72; 105; 10; 0; 255; 16].
Proof. exact (hexdump8_roundtrip demo_mem demo_mem_byte 0x8000 6 0x8000 ltac:(lia)). Defined.

(** The line: "0x00008000: 48 69 0a 00 ff 10 ", blanks, "|Hi....", and no bar. *)
Example hexdump8_hi : hexdump8_ex demo_mem 0x8000 2 0x8000 =
  Some ([48; 120; 48; 48; 48; 48; 56; 48; 48; 48; 58; 32; 52; 56; 32; 54; 57; 32] ++ replicate 42 32 ++ [124; 72; 105; 10]).
Proof. vm_compute. reflexivity. Qed.

(** Asked for five bytes, [hexdump] shows eight. *)
Example hexdump_words : exists l, hexdump demo_mem 0x8000 5 =
  Some (l ++ [32; 48; 50; 48; 49; 49; 48; 102; 102; 32] ++ replicate 18 32 ++
        [124; 72; 105] ++ replicate 14 46 ++ [124; 10]).
Proof. exists [48; 120; 48; 48; 48; 48; 56; 48; 48; 48; 58; 32; 48; 48; 48; 97; 54; 57; 52; 56]. vm_compute. reflexivity. Qed.

Lemma dumps_endless_witness : hexdump_loop demo_mem 5 0x8000 0 (2 ^ 32 - 1) = None.
Proof. apply (dumps_endless demo_mem 5 8 0x8000 (2 ^ 32 - 1) 0x8000). lia. Defined.
